(* ===== verification/_CoqProject ===== *)
-Q . S2P
Prelude.v
Numbers.v
Fmt.v
Collaborators.v
FileSystem.v
World.v
Calls.v
Environment.v
Cli.v
Yaml.v
YamlText.v
Samples.v
Layered.v
Server.v
Spec.v
Footprint.v
Race.v
Machine.v
Properties.v
Inputs.v
Crash.v
Scenarios.v
