(* ===== verification/Prelude.v ===== *)
(** * Maelstrom layered configuration: a verification development

    The program verified here is [src/src/configuration/mod.rs], the
    configuration resolver of the Maelstrom server.  At start-up it reads
    three sources (process environment, command line, a YAML settings
    file), layers them by priority (environment, then command line, then
    file, then a built-in default for the session lifetime only), loads
    the PEM signing key the merged configuration points to, and hands the
    result to the server.  When nothing is at the settings path it writes
    a file of default settings there and goes on with them.  Every fatal
    condition logs an [error!] record and calls [exit(1)]; two places
    panic ([unimplemented!], [unwrap]).

    ** Files, in dependency order

    - [Prelude] (this file): the effect model shared by every component.
      [Result] is Rust's [Result]; [Outcome] is how a call ends ([Done],
      [Exit code] for [std::process::exit], [Panic]); [Proc W A] is a
      computation over a world [W], written with [x <- c ;; k].  Pointwise
      equivalence of computations, the monad laws, the lemmas that run or
      invert a bind, the tactics [proc_unfold], [proc_run] and
      [case_first_some], the hint database [proc], [first_some]
      (priority choice over a list of optional values, the specification
      side of the merge), and what a deterministic relation gives its
      normal forms (Section [Deterministic]).
    - [Numbers]: [u64] as a range of [Z], Rust's [u64::from_str]
      (optional [+], decimal digits, overflow checked at every digit),
      the texts it accepts as a predicate ([denotes]), a decimal
      printer, and [Duration::from_secs].
    - [Fmt]: Module [fmt], the part of [std::fmt] the log macros use:
      the trait [Debug] as a class, with [Option], [u64] and
      [Formatter::debug_struct]; the placeholders of a format string
      and the interpolation of the arguments into them ([fmt.format]),
      with the lemmas that compute it for the shapes the source writes.
    - [Collaborators]: the libraries the source only calls, as type
      classes with their laws: [UrlParser] (the [url] crate),
      [KeyDecoder] ([jsonwebtoken::EncodingKey::from_ec_pem] and its
      error); log levels and records, the line a record renders to
      ([render]) and when its arguments fit its format ([record_wf]);
      [std::env::VarError]; reference instances [RefUrl] and [RefKey].
    - [FileSystem]: the part of the file system the program touches:
      a finite map ([gmap]) from paths to inodes with permission bits and
      device faults (a file made on a device that takes no more data
      fails its writes), [File::open], [OpenOptions] with write and
      create, [metadata], [read_to_end], [write_all] (as one step, and
      as the loop of [write] calls it is in [std], each call taking the
      part of the buffer an oracle gives it), and the invariant
      [tree_shaped] (every entry has a directory for parent, nothing is
      at the empty path) with its decision procedure.
    - [World]: the process state (environment, arguments, file system,
      log, the files held open), the primitive effects on it ([env_var],
      [error], [warn], [info], [debug], the file calls, [File_drop]),
      the interface [StdDebug] (what [{:?}] prints for a [str] and for
      a [std::io::Error]),
      and the relations between the world before and after a run
      ([log_extends], [same_but_log], [touches_only], [handles_kept],
      [wf_kept]: the log stays one of records whose arguments fit their
      formats) with their preservation lemmas.
    - [Calls]: Module [Calls], a run written as the tree of the calls
      it makes (a free monad over the calls: the two of [save] that
      change the file system, and the computations that do not), the
      computation a tree denotes, the file systems a process stopped
      during the run may leave ([stopped], with the states inside a
      [write_all]), the rules of the condition that holds wherever a
      run is stopped ([leaves]), and a second reading of the calls, on
      a device that fills up ([cut_short]).
    - [Environment]: Module [EnvironmentConfiguration], the struct and
      [EnvironmentConfiguration::new] with its five nested matches.
    - [Cli]: Module [CliConfiguration], the struct, the interface
      [ArgParser] for the parser [StructOpt] derives, [from_args], and a
      reference parser that binds positional arguments.
    - [Yaml]: Module [YamlConfiguration], the struct and its derived
      [Debug], the interface [Codec] for [serde_yaml] with the crate's
      error and its three laws (what was printed is read back, what is
      read is in range, a document is never the empty text),
      [default], [load], [save] with its errors and their messages, and
      [from_reader].
    - [YamlText]: a reference codec (a line-based printer and parser of
      the four settings) with its round trip, the instance of [Codec]
      the scenarios run on; no document of this codec is the start of
      another, so a document that is cut short is refused.
    - [Samples]: concrete environments, command lines and file systems.
    - [Layered]: Module [LayeredServerConfiguration], the struct and
      [LayeredServerConfiguration::new], split where the source has its
      three [let]s: [yaml_path], [yaml], and the struct literal [merge]
      with its four nested matches.
    - [Server]: Module [ServerConfiguration], the struct,
      [ServerConfiguration::new] and the key loading inside it
      ([authkey_of]).
    - [Spec]: the contracts of the specification's components (one
      [RawSettings] shape, the priority merge [resolve], the fatal
      conditions with their causes, the file layer by the state of the
      settings file, the key loader by the state of the key file, the
      assembler) and the lemmas that each part of the code implements
      its contract.
    - [Footprint]: what a run reads.  Two worlds [agree] on a set of
      variables and a set of paths when they differ only outside them;
      a computation [reads] a footprint when it takes worlds that agree
      to equal outcomes and to worlds that agree, on every larger
      footprint.  The footprint of each primitive of [World], of
      sequencing, and, by the tactic [solve_reads] over the code, of
      [save], [from_reader], the [let yaml], the merge and the key
      loading; [paths_read], the paths a run of
      [ServerConfiguration::new] looks at.
    - [Race]: Module [Race], the [let yaml] with a competing writer of
      the settings file between the [File::open] that reports
      [NotFound] and the [save] that follows ([yaml_raced]), and the arm
      that creates the default file ([yaml_missing]).
    - [Machine]: the six statements of the two constructors as a
      machine: a phase per binding, a step relation, a fuelled run; the
      machine computes [ServerConfiguration::new], stops within six
      steps, its reachable states satisfy an invariant proved by
      induction on the steps, and from each of them the run reaches its
      end.
    - [Properties]: what every run guarantees, proved through the
      contracts: what a run may change, how it may end, that it is
      repeatable, which files it holds, and the outcome for each state
      of the settings file and of the key file.
    - [Inputs]: Module [Inputs], the log and the list of open files as
      outputs only: a run that starts with records logged and files
      open is the run from the plain world with those carried along,
      first for the contracts of [Spec], then for the constructors.
    - [Crash]: Module [Crash], [save], the [let yaml] and the two
      constructors as trees of calls over [Calls], the proof that they
      denote the functions of [Yaml], [Layered] and [Server], what a
      run that is stopped leaves on disk, what a first run leaves when
      the device fills up, and what the next start makes of it.
    - [Scenarios]: the theorems applied to concrete worlds.

    ** Correspondence with the code

    A struct is a [Record] named [t] in a Module of the struct's name, an
    associated function is a definition of that Module under its own name
    ([EnvironmentConfiguration.new], [YamlConfiguration.save], ...).  Code
    that reads or changes the process state is a [Proc World]; [exit(1)]
    is [exit 1]; [unimplemented!()] and a failed [unwrap()] are [panic];
    a log macro appends a record with its level, its format string and
    its arguments, [fmt.debug e] for an argument [e] of a placeholder
    [{:?}]: the text the argument's [Debug] gives.  [Debug] is a type
    class; the instance of [YamlConfiguration] is the one
    [#[derive(Debug)]] generates, those of [Option] and [u64] are the
    standard library's, and those of the libraries' own types ([str],
    [std::io::Error], [Url], the errors of [serde_yaml], [anyhow] and
    [jsonwebtoken]) are operations of the interfaces.  An error the
    source binds and logs is a value of the model: the calls return
    [Result]s with the libraries' errors, and the record of a fatal
    condition carries the error that caused it.  The line a record
    prints as is [render]: the format string with each [{:?}] replaced
    by the next argument, which is what [format_args!] builds for the
    plain placeholders the source uses.
    A file that is open is a path in the list [handles] of the world:
    [File::open] and [OpenOptions::open] add it when they succeed, and
    the drop that Rust performs where the scope of the owner ends is
    written out, as [File_drop], where that scope ends in the source
    (the end of the [Ok(mut v)] arm of [save], the return of
    [serde_yaml::from_reader], which owns its reader, the arm that
    returns the key).  [exit] runs no destructor: an arm that exits
    leaves the world as it is, open files included.
    A path is a string, as the source takes it from a variable or an
    argument: [PathBuf::from] checks nothing, the empty path names no
    file ([open] fails with [ENOENT] there, as on Linux), and a relative
    path of one component lies in the working directory [.].
    A [match] of the source is a [match] of the model, in the same order
    of arms, and the statements of a function are bound in the source's
    order, so the order of evaluation (and with it which error is
    reported first, and what is logged before a failure) is the
    source's.

    ** What the theorems show

    - the merge ([Layered]): each field is the first present value of
      environment, command line and file; the lifetime defaults to 60;
      a missing required field is reported, the first in declaration
      order; the merged lifetime is a valid [Duration];
    - refinement ([Spec]): [ServerConfiguration::new] implements the
      assembler's contract end to end;
    - the settings file ([Yaml]): a file [save] wrote where nothing was
      reads back to what was saved; [save] closes the file it opened on
      every path, does not truncate, and logs before it writes;
    - the environment layer ([Environment]): [new] is total and pure, a
      refused value and a value that is not Unicode are absent ones,
      the decimal text of every [u64] is read back, and the lifetime
      read is [n] exactly for the texts that denote [n], so digits
      beyond [u64::MAX] are refused;
    - runs ([Properties]): a run changes nothing but the log and, when
      nothing was there, the settings path; an exit has status 1 and an
      [Error] record, which names exactly one fatal condition and
      renders to its message followed by the text of its cause, unless
      the argument parser exited; every record logged has one argument
      per placeholder; the three causes of a panic, each with the
      world it leaves; a successful run is repeatable; the outcome of
      a corrupt, an unreadable, an absent and an uncreatable settings
      file, of a settings path that is the empty string, of a default
      file that is made and cannot be written, which is left empty and
      makes the next start fail, of a required option that no layer
      holds, and of a key file that cannot be opened, whose metadata
      cannot be read, that cannot be read to its end, or that holds no
      key, each reported by a message of its own; what a first run
      returns; that a regular start returns the
      merged configuration and leaves the world untouched; that a run
      which returns changed nothing or was a first run; that a run
      which returns holds no file, and one that is cut short at most
      the key file; that a file outside the settings path, the key
      path and their directories is neither read nor touched (the
      frame of a run);
    - the inputs of a run ([Inputs]): the result is a function of the
      five variables, the arguments and the files at the settings
      path, the key path and their directories; what the process
      logged or held open before the run changes nothing but the
      start of the log and the end of the list of open files;
    - a run that is stopped ([Calls], [Crash]): the tree of calls
      denotes [ServerConfiguration::new], and the calls it marks quiet
      keep the file system; a process stopped anywhere has changed
      nothing, or was on a first run and leaves a prefix of the default
      text at the settings path, and each prefix is left by some stop,
      so that on a first run the states a stop may leave are known
      exactly;
      the next start reads the prefix as the settings file and does
      not write the default again, so it fails unless the prefix is a
      settings document; on a device that fills up the first run ends
      with the error of the write and leaves what fitted, while a run
      that finds something at the settings path, and any run on a
      device with room for the text, go as on any device;
    - the loop of [write_all] ([FileSystem]): it ends within as many
      calls as the buffer has bytes, with the result of the one-step
      [write_all], and the states between its calls are the prefixes
      [stopped] lists;
    - a competing writer ([Race]): without one the raced run is the
      run; a writer elsewhere changes nothing; a file that appears at
      the settings path between the check and the creation is
      overwritten from its start and keeps its tail; a second instance
      of the server on its own first run is harmless;
    - the order of the statements ([Machine], [Layered]): the machine
      and the function agree; one statement only writes to the file
      system; the invariant of the reachable states, no file open
      between two statements and a well-formed log included; every
      reachable state goes on to
      the end of the run; the first two statements commute;
    - the command line ([Cli]): what positional binding implies, for
      the parser the scenarios use.

    The function, the machine of [Machine] and the tree of [Crash]
    are three presentations of one run.  That they agree, that the
    machine stops and that the loop of [write_all] ends hold by the
    way the presentations are built; they are the lemmas that tie the
    presentations to the code, and what is shown of the program is
    stated over them.

    ** Bounds

    Integers are [Z] with the [u64] range stated as a predicate
    ([is_u64]); the only arithmetic of the source is in [u64::from_str],
    whose overflow checks are modelled digit by digit with
    [checked_mul] and [checked_add].  [v.len() as usize] is the value
    modulo [2^64].  Every recursion is structural, on the characters of a
    string or on a list, except the decimal printer [to_digits], which
    takes a fuel: [u64_to_string] gives it 20, the number of digits of
    [u64::MAX], and [digits_value_to_digits] shows that [n < 10^fuel] is
    enough.  The machine's [run] takes a fuel as well: six steps, one per
    statement, and [run_terminates] shows that six are enough in every
    world.  The loop of [write_all] takes a fuel too: a [write] that
    succeeds on a buffer that is not empty takes one byte at least
    (a [write] that takes none is the error [WriteZero] in [std], which
    the oracle of the model does not produce), so the length of the
    buffer is enough, whatever the calls take.  No computation of the
    model can fail to terminate, so every theorem of the form "the run
    returns" holds of a total function.

    ** Not modelled

    The server itself, and the logger it installs: where a record goes,
    which levels are shown and what a sink puts around the rendered line
    (time stamp, level, target) are decided outside this source file.
    The texts the libraries' [Debug] implementations give, which are
    operations of the interfaces without laws.  Of format strings, only
    the placeholders [{:?}] the source writes: escaped braces, positional
    and named arguments and the other formatting traits do not occur in
    it.  The unwinding of a panic: whether a panic unwinds or aborts is
    set by the build profile, not by this file, so the world of a run
    that panics is the world at the panic and a file open there is
    listed as open.  Faults that come and go: the fault of a file is
    part of its inode, so a file that refuses a write refuses the
    first byte, and the only [write_all] that fails half way is the
    one on a device that fills up, which is a second reading of the
    calls of a run ([Calls.cut_short]) and not a state of the file
    system; [ENOSPC], [EINTR] and the other codes the source does not
    tell apart are not among the five of [Errno].  Loss of power: a
    stopped process leaves what its calls have written, in the order
    of the calls; writes that reach the disk out of order and
    directory entries without their file are not modelled, and the
    source never calls [sync_all].  Symbolic links and the resolution
    of [..] and of
    relative paths against a working directory that changes.  Of
    concurrent writers of the file system (the specification rules
    them out: the code runs once, sequentially, before the server
    starts), only one that acts between the failed [File::open] and
    [save], where the resolver holds no file: an open file is a path
    here, not an inode, so a writer that replaces or removes a file
    while it is open is not modelled.  The internals of [url],
    [serde_yaml], [structopt] and [jsonwebtoken], which appear as
    interfaces with laws and reference instances; in particular the
    parser [StructOpt] derives from the struct of lines 30-42 is not
    modelled, and the reference parser is a stand-in of which nothing
    is claimed.  Allocation: [Vec::with_capacity] returns the empty
    vector; its panic on a capacity beyond [isize::MAX] cannot happen
    for the length of a file on a 64-bit target, and the abort of a
    failed allocation is outside the model. *)

From Stdlib Require Import ZArith.
From Stdlib.Strings Require Import Byte Ascii String.
From stdpp Require Import base tactics option list relations strings.

(** ** Results and outcomes *)

(** Rust's [Result<T, E>]. *)
Inductive Result (T E : Type) : Type :=
| Ok (t : T)
| Err (e : E).
Arguments Ok {T E} t.
Arguments Err {T E} e.

#[export] Instance Result_eq_dec {T E} `{EqDecision T, EqDecision E} :
  EqDecision (Result T E).
Proof. solve_decision. Defined.

Definition is_ok {T E} (r : Result T E) : bool :=
  match r with Ok _ => true | Err _ => false end.

(** [Result::ok]: the success value, the error dropped. *)
Definition ok {T E} (r : Result T E) : option T :=
  match r with Ok t => Some t | Err _ => None end.

(** Why a thread panicked. *)
Inductive PanicReason : Type :=
| Unimplemented    (* unimplemented!() *)
| UnwrapFailed.    (* .unwrap() on an Err *)

#[export] Instance PanicReason_eq_dec : EqDecision PanicReason.
Proof. solve_decision. Defined.

(** How a call ends: it returns, the process exits with a status, or the
    thread panics. *)
Inductive Outcome (A : Type) : Type :=
| Done (a : A)
| Exit (code : Z)
| Panic (why : PanicReason).
Arguments Done {A} a.
Arguments Exit {A} code.
Arguments Panic {A} why.

#[export] Instance Outcome_eq_dec {A} `{EqDecision A} : EqDecision (Outcome A).
Proof. solve_decision. Defined.

Definition is_done {A} (o : Outcome A) : bool :=
  match o with Done _ => true | _ => false end.

(** ** Computations over a world *)

(** A computation reads and changes a world [W] and ends in an outcome.
    The world is kept after an exit or a panic: what was logged and what
    was written to disk before the process stopped is observable. *)
Definition Proc (W A : Type) : Type := W -> W * Outcome A.

Definition ret {W A} (a : A) : Proc W A := fun w => (w, Done a).

Definition bind {W A B} (m : Proc W A) (k : A -> Proc W B) : Proc W B :=
  fun w =>
    match m w with
    | (w', Done a) => k a w'
    | (w', Exit c) => (w', Exit c)
    | (w', Panic p) => (w', Panic p)
    end.

(** [std::process::exit]. *)
Definition exit {W A} (code : Z) : Proc W A := fun w => (w, Exit code).

Definition panic {W A} (why : PanicReason) : Proc W A := fun w => (w, Panic why).

(** [Option::unwrap] and [Result::unwrap]. *)
Definition unwrap {W A} (o : option A) : Proc W A :=
  match o with
  | Some a => ret a
  | None => panic UnwrapFailed
  end.

Definition gets {W A} (f : W -> A) : Proc W A := fun w => (w, Done (f w)).

Definition modify {W} (f : W -> W) : Proc W unit := fun w => (f w, Done tt).

Declare Scope proc_scope.
Delimit Scope proc_scope with proc.
Bind Scope proc_scope with Proc.

Notation "x <- c1 ;; c2" := (bind c1 (fun x => c2))
  (at level 100, c1 at next level, right associativity) : proc_scope.
Notation "c1 ;; c2" := (bind c1 (fun _ => c2))
  (at level 100, right associativity) : proc_scope.

(** The final world and the outcome of a run. *)
Definition world_of {W A} (r : W * Outcome A) : W := fst r.
Definition outcome_of {W A} (r : W * Outcome A) : Outcome A := snd r.

(** Two computations are equivalent when they agree on every world. *)
#[export] Instance Proc_equiv {W A} : Equiv (Proc W A) :=
  fun m1 m2 => forall w, m1 w = m2 w.

(** ** Priority choice *)

(** The first present value of a list of optional values: the
    specification's "first non-absent value scanning the layers in
    priority order". *)
Fixpoint first_some {A} (l : list (option A)) : option A :=
  match l with
  | [] => None
  | Some a :: _ => Some a
  | None :: l' => first_some l'
  end.

(** ** Bytes and strings *)

#[export] Instance byte_eq_dec : EqDecision byte := Byte.byte_eq_dec.

(** [str::as_bytes] and [String::from_utf8] on the byte view of a string. *)
Definition as_bytes (s : string) : list byte := list_byte_of_string s.
Definition from_bytes (b : list byte) : string := string_of_list_byte b.

(** ** Laws of [Proc] *)

Section ProcLaws.
Context {W : Type}.

#[export] Instance Proc_equivalence {A} : Equivalence (≡@{Proc W A}).
Proof.
  split.
  - by intros m w.
  - by intros m1 m2 H w.
  - intros m1 m2 m3 H1 H2 w. by rewrite H1.
Qed.

#[export] Instance bind_proper {A B} :
  Proper ((≡) ==> pointwise_relation A (≡) ==> (≡)) (@bind W A B).
Proof.
  intros m1 m2 Hm k1 k2 Hk w. unfold bind. rewrite Hm.
  destruct (m2 w) as [w' [a| |]]; [apply Hk|done..].
Qed.

Lemma bind_ret_l {A B} (a : A) (k : A -> Proc W B) : bind (ret a) k ≡ k a.
Proof. by intros w. Qed.

Lemma bind_ret_r {A} (m : Proc W A) : bind m ret ≡ m.
Proof. intros w. unfold bind, ret. by destruct (m w) as [w' [a| |]]. Qed.

Lemma bind_assoc {A B C} (m : Proc W A) (k : A -> Proc W B) (h : B -> Proc W C) :
  bind (bind m k) h ≡ bind m (fun a => bind (k a) h).
Proof. intros w. unfold bind. by destruct (m w) as [w' [a| |]]. Qed.

(** Running a bind once the first computation's result is known. *)
Lemma bind_done {A B} (m : Proc W A) (k : A -> Proc W B) w w' a :
  m w = (w', Done a) -> bind m k w = k a w'.
Proof. intros H. unfold bind. by rewrite H. Qed.

Lemma bind_exit {A B} (m : Proc W A) (k : A -> Proc W B) w w' c :
  m w = (w', Exit c) -> bind m k w = (w', Exit c).
Proof. intros H. unfold bind. by rewrite H. Qed.

Lemma bind_panic {A B} (m : Proc W A) (k : A -> Proc W B) w w' p :
  m w = (w', Panic p) -> bind m k w = (w', Panic p).
Proof. intros H. unfold bind. by rewrite H. Qed.

(** A bind returns exactly when both halves do. *)
Lemma bind_done_inv {A B} (m : Proc W A) (k : A -> Proc W B) w w'' b :
  bind m k w = (w'', Done b) ->
  exists w' a, m w = (w', Done a) /\ k a w' = (w'', Done b).
Proof.
  unfold bind. destruct (m w) as [w' [a| |]] eqn:E; [eauto|done..].
Qed.

(** A bind that exits did so in its first half or in its second. *)
Lemma bind_exit_inv {A B} (m : Proc W A) (k : A -> Proc W B) w w'' c :
  bind m k w = (w'', Exit c) ->
  m w = (w'', Exit c) \/
  exists w' a, m w = (w', Done a) /\ k a w' = (w'', Exit c).
Proof.
  unfold bind. destruct (m w) as [w' [a| |]] eqn:E; intros; simplify_eq; eauto.
Qed.

Lemma bind_panic_inv {A B} (m : Proc W A) (k : A -> Proc W B) w w'' p :
  bind m k w = (w'', Panic p) ->
  m w = (w'', Panic p) \/
  exists w' a, m w = (w', Done a) /\ k a w' = (w'', Panic p).
Proof.
  unfold bind. destruct (m w) as [w' [a| |]] eqn:E; intros; simplify_eq; eauto.
Qed.

Lemma unwrap_some {A} (a : A) : @unwrap W A (Some a) = ret a.
Proof. done. Qed.

End ProcLaws.

(** ** Lemmas on [first_some] *)

Section FirstSome.
Context {A : Type}.
Implicit Types (l : list (option A)) (o : option A).

Lemma first_some_cons_some a l : first_some (Some a :: l) = Some a.
Proof. done. Qed.

Lemma first_some_cons_none l : first_some (None :: l) = first_some l.
Proof. done. Qed.

Lemma first_some_app l1 l2 :
  first_some (l1 ++ l2) =
  match first_some l1 with Some a => Some a | None => first_some l2 end.
Proof. induction l1 as [|[a|] l1 IH]; by cbn. Qed.

(** The chosen value is present in some layer, and every layer before it
    is absent. *)
Lemma first_some_Some l a :
  first_some l = Some a <->
  exists i, l !! i = Some (Some a) /\ forall j, j < i -> l !! j = Some None.
Proof.
  induction l as [|[b|] l IH]; cbn.
  - split; [done|]. by intros (i & Hi & _).
  - split.
    + intros [= ->]. exists 0. split; [done|]. intros j Hj. lia.
    + intros (i & Hi & Hlt). destruct i as [|i]; [by simplify_eq/=|].
      specialize (Hlt 0 ltac:(lia)). by simplify_eq/=.
  - rewrite IH. split.
    + intros (i & Hi & Hlt). exists (S i). split; [done|].
      intros [|j] Hj; [done|]. cbn. apply Hlt. lia.
    + intros (i & Hi & Hlt). destruct i as [|i]; [by simplify_eq/=|].
      exists i. split; [done|]. intros j Hj. apply (Hlt (S j)). lia.
Qed.

(** Nothing is chosen exactly when every layer is absent. *)
Lemma first_some_None l : first_some l = None <-> Forall (fun o => o = None) l.
Proof.
  induction l as [|[b|] l IH]; cbn.
  - split; [constructor|done].
  - split; [done|]. by intros [? _]%Forall_cons.
  - rewrite IH. split; [by constructor|]. by intros [_ ?]%Forall_cons.
Qed.

(** A property of every present layer is a property of the chosen
    value. *)
Lemma first_some_Forall (P : A -> Prop) l a :
  Forall (fun o => forall v, o = Some v -> P v) l -> first_some l = Some a -> P a.
Proof.
  intros Hl (i & Hi & _)%first_some_Some.
  eapply Forall_lookup_1 in Hl; [|done]. by apply Hl.
Qed.

(** What the three-layer nested [match] of the source computes. *)
Lemma first_some_three o1 o2 o3 :
  first_some [o1; o2; o3] =
  match o1 with
  | Some v => Some v
  | None => match o2 with
            | Some v => Some v
            | None => match o3 with Some v => Some v | None => None end
            end
  end.
Proof. by destruct o1, o2, o3. Qed.

End FirstSome.

(** ** Lemmas on strings *)

(** The two equations of [String.append], which [cbn] does not unfold. *)
Lemma append_nil (s : string) : String.append EmptyString s = s.
Proof. done. Qed.

Lemma append_cons (c : ascii) (s1 s2 : string) :
  String.append (String c s1) s2 = String c (String.append s1 s2).
Proof. done. Qed.

Lemma append_nil_r (s : string) : String.append s EmptyString = s.
Proof. induction s as [|c s IH]; [done|]. by rewrite append_cons, IH. Qed.

Lemma from_bytes_as_bytes (s : string) : from_bytes (as_bytes s) = s.
Proof. apply string_of_list_byte_of_string. Qed.

Lemma as_bytes_from_bytes (b : list byte) : as_bytes (from_bytes b) = b.
Proof. apply list_byte_of_string_of_list_byte. Qed.

Lemma from_bytes_app (a b : list byte) :
  from_bytes (a ++ b) = String.append (from_bytes a) (from_bytes b).
Proof.
  unfold from_bytes. induction a as [|c a IH]; [done|].
  change (String (ascii_of_byte c) (string_of_list_byte (a ++ b)) =
          String (ascii_of_byte c) (string_of_list_byte a +:+ string_of_list_byte b)).
  by rewrite IH.
Qed.

(** ** Runs of a deterministic relation *)

Section Deterministic.
Context {A : Type} (R : relation A).
Hypothesis R_functional : forall x y z, R x y -> R x z -> y = z.

(** Every state on the way to a final state leads to it: a
    deterministic relation has one run from each state. *)
Lemma rtc_nf_join a b c : rtc R a b -> rtc R a c -> nf R c -> rtc R b c.
Proof.
  intros Hab. revert c. induction Hab as [a|a a1 b Ha _ IH]; intros c Hac Hc; [done|].
  destruct Hac as [|a a2 c Ha2 Hac]; [destruct Hc; by exists a1|].
  apply IH; [|done]. by rewrite (R_functional _ _ _ Ha Ha2).
Qed.

(** The final state of a deterministic relation is unique. *)
Lemma nf_unique a b c : rtc R a b -> rtc R a c -> nf R b -> nf R c -> b = c.
Proof.
  intros Hab Hac Hb Hc. pose proof (rtc_nf_join _ _ _ Hab Hac Hc) as Hbc.
  destruct Hbc as [|b b1 c Hb1 _]; [done|]. destruct Hb. by exists b1.
Qed.

End Deterministic.

(** ** Automation *)

Create HintDb proc discriminated.
Create Rewrite HintDb proc.
#[export] Hint Rewrite @first_some_cons_some @first_some_cons_none : proc.
#[export] Hint Rewrite append_nil append_cons from_bytes_as_bytes as_bytes_from_bytes : proc.
#[export] Hint Resolve bind_done bind_exit bind_panic : proc.

(** Unfolds the monad's operations and computes; what is left is the
    case analysis of the operation at hand. *)
Ltac proc_unfold :=
  unfold bind, ret, exit, panic, unwrap, gets, modify, world_of, outcome_of in *.

(** Runs a computation as far as it computes, destructing the matches on
    optional values and results that block it. *)
Ltac proc_run :=
  proc_unfold; cbn;
  repeat (case_match; simplify_eq/=; try done).

(** Case analysis on the priority choices of the goal, one after the
    other, keeping them folded. *)
Ltac case_first_some :=
  cbn -[first_some];
  repeat match goal with
         | |- context [first_some ?l] => destruct (first_some l); cbn -[first_some]
         end.
