(* ===== verification/Numbers.v ===== *)
(** * Machine integers of the configuration

    [u64] values are integers of [Z] in the range [0 .. 2^64 - 1].  This
    file holds the range predicate, the two checked operations that
    [u64::from_str] uses, [u64::from_str] itself (the [FromStr] instance
    behind [v.parse()] in [EnvironmentConfiguration::new]) with the
    texts it accepts as a predicate ([denotes]), a decimal printer, and [std::time::Duration] as far as the source builds one
    ([Duration::from_secs]). *)

From Stdlib Require Import ZArith Lia.
From Stdlib.Strings Require Import Ascii String.
From stdpp Require Import base tactics option list.
From S2P Require Import Prelude.

#[local] Open Scope string_scope.
#[local] Open Scope Z_scope.

(** ** The range of [u64] *)

Definition u64_MAX : Z := 18446744073709551615.

Definition is_u64 (n : Z) : Prop := 0 <= n <= u64_MAX.

#[export] Instance is_u64_dec n : Decision (is_u64 n).
Proof. unfold is_u64. apply _. Defined.

(** [u64::checked_mul] and [u64::checked_add] on values in range. *)
Definition checked_mul (a b : Z) : option Z :=
  if a * b <=? u64_MAX then Some (a * b) else None.

Definition checked_add (a b : Z) : option Z :=
  if a + b <=? u64_MAX then Some (a + b) else None.

(** ** Parsing: [u64::from_str] *)

(** [core::num::IntErrorKind], the kinds an unsigned parse can give. *)
Inductive IntErrorKind : Type :=
| Empty
| InvalidDigit
| PosOverflow.

#[export] Instance IntErrorKind_eq_dec : EqDecision IntErrorKind.
Proof. solve_decision. Defined.

(** [char::to_digit(10)]. *)
Definition to_digit (c : ascii) : option Z :=
  let n := Z.of_N (N_of_ascii c) in
  if (48 <=? n) && (n <=? 57) then Some (n - 48) else None.

(** The loop of [from_str_radix]: for each character, the digit test,
    then the checked multiplication by the radix, then the checked
    addition of the digit. *)
Fixpoint parse_digits (digits : string) (result : Z) : Result Z IntErrorKind :=
  match digits with
  | EmptyString => Ok result
  | String c rest =>
      match to_digit c with
      | None => Err InvalidDigit
      | Some x =>
          match checked_mul result 10 with
          | None => Err PosOverflow
          | Some r =>
              match checked_add r x with
              | None => Err PosOverflow
              | Some r' => parse_digits rest r'
              end
          end
      end
  end.

(** [<u64 as FromStr>::from_str]: the empty string is refused as
    [Empty], one leading [+] is skipped (a [-] is not: the type is
    unsigned, so it is read as a digit and refused), and a sign with
    nothing after it is refused as [InvalidDigit] (the standard
    library before 1.55 said [Empty] there; the source discards the
    kind of the error). *)
Definition u64_from_str (src : string) : Result Z IntErrorKind :=
  match src with
  | EmptyString => Err Empty
  | String c rest =>
      let digits := if Ascii.eqb c "+" then rest else src in
      match digits with
      | EmptyString => Err InvalidDigit
      | _ => parse_digits digits 0
      end
  end.

(** ** Reference semantics of decimal strings *)

Definition all_digits (s : string) : Prop :=
  Forall (fun c => is_Some (to_digit c)) (list_ascii_of_string s).

(** The number a string of digits denotes, unbounded; a character that is
    no digit counts as zero. *)
Fixpoint digits_value (s : string) (acc : Z) : Z :=
  match s with
  | EmptyString => acc
  | String c rest => digits_value rest (acc * 10 + default 0 (to_digit c))
  end.

(** The texts that denote a [u64]: decimal digits, at least one, with
    at most one [+] before them, whose value fits. *)
Definition denotes (s : string) (n : Z) : Prop :=
  exists digits,
    (s = digits \/ s = String "+" digits) /\ digits <> "" /\
    all_digits digits /\ digits_value digits 0 = n /\ n <= u64_MAX.

(** ** Printing *)

Definition digit_char (d : Z) : ascii := ascii_of_N (Z.to_N (48 + d)).

(** Decimal digits of [n], most significant first, in front of [acc].
    The fuel bounds the number of digits: 20 are enough for a [u64]. *)
Fixpoint to_digits (fuel : nat) (n : Z) (acc : string) : string :=
  match fuel with
  | O => acc
  | S fuel' =>
      let acc' := String (digit_char (n mod 10)) acc in
      if n <? 10 then acc' else to_digits fuel' (n / 10) acc'
  end.

Definition u64_to_string (n : Z) : string := to_digits 20 n "".

(** ** [std::time::Duration] *)

Module Duration.

Record t : Type := { secs : Z; nanos : Z }.

#[global] Instance eq_dec : EqDecision t.
Proof. solve_decision. Defined.

(** [Duration::from_secs]. *)
Definition from_secs (v : Z) : t := {| secs := v; nanos := 0 |}.

Definition as_secs (d : t) : Z := secs d.

(** A duration is well formed when its seconds are a [u64] and its
    nanoseconds are below one second. *)
Definition wf (d : t) : Prop := is_u64 (secs d) /\ 0 <= nanos d < 1000000000.

End Duration.

(** ** Lemmas *)

Lemma u64_MAX_eq : u64_MAX = 2 ^ 64 - 1.
Proof. reflexivity. Qed.

Lemma checked_mul_Some a b r :
  checked_mul a b = Some r <-> r = a * b /\ a * b <= u64_MAX.
Proof.
  unfold checked_mul. destruct (Z.leb_spec (a * b) u64_MAX) as [Hle|Hgt].
  - split; [by intros [= <-]|by intros [-> _]].
  - split; [done|]. intros [_ ?]. lia.
Qed.

Lemma checked_mul_None a b : checked_mul a b = None <-> u64_MAX < a * b.
Proof.
  unfold checked_mul. destruct (Z.leb_spec (a * b) u64_MAX) as [Hle|Hgt].
  - split; [done|lia].
  - done.
Qed.

Lemma checked_add_Some a b r :
  checked_add a b = Some r <-> r = a + b /\ a + b <= u64_MAX.
Proof.
  unfold checked_add. destruct (Z.leb_spec (a + b) u64_MAX) as [Hle|Hgt].
  - split; [by intros [= <-]|by intros [-> _]].
  - split; [done|]. intros [_ ?]. lia.
Qed.

Lemma checked_add_None a b : checked_add a b = None <-> u64_MAX < a + b.
Proof.
  unfold checked_add. destruct (Z.leb_spec (a + b) u64_MAX) as [Hle|Hgt].
  - split; [done|lia].
  - done.
Qed.

Lemma to_digit_range c d : to_digit c = Some d -> 0 <= d <= 9.
Proof. unfold to_digit. case_match; [|done]. intros [= <-]. lia. Qed.

Lemma to_digit_digit_char d : 0 <= d <= 9 -> to_digit (digit_char d) = Some d.
Proof.
  intros Hd. assert (d = 0 \/ d = 1 \/ d = 2 \/ d = 3 \/ d = 4 \/ d = 5 \/
    d = 6 \/ d = 7 \/ d = 8 \/ d = 9) as Hc by lia.
  by destruct_or!; subst.
Qed.

Lemma digits_value_mono s acc : 0 <= acc -> acc <= digits_value s acc.
Proof.
  revert acc. induction s as [|c s IH]; intros acc Hacc; cbn; [lia|].
  assert (0 <= default 0 (to_digit c)).
  { destruct (to_digit c) as [d|] eqn:E; cbn; [apply to_digit_range in E|]; lia. }
  etrans; [|apply IH]; lia.
Qed.

(** The loop succeeds exactly on strings of digits whose value, continued
    from the running result, still fits: the check at every digit is
    equivalent to one check at the end. *)
Lemma parse_digits_Ok s r n :
  0 <= r <= u64_MAX ->
  parse_digits s r = Ok n <->
  all_digits s /\ digits_value s r = n /\ n <= u64_MAX.
Proof.
  unfold all_digits. revert r. induction s as [|c s IH]; intros r Hr; cbn.
  - split; [intros [= ->]; split; [by apply Forall_nil|lia] | by intros (_ & -> & _)].
  - rewrite Forall_cons. destruct (to_digit c) as [d|] eqn:Ed; cbn.
    2:{ split; [done|]. by intros [[[] _] _]. }
    pose proof (to_digit_range _ _ Ed).
    pose proof (digits_value_mono s (r * 10 + d) ltac:(lia)).
    destruct (checked_mul r 10) as [r1|] eqn:E1.
    2:{ apply checked_mul_None in E1. split; [done|]. lia. }
    apply checked_mul_Some in E1 as [-> ?].
    destruct (checked_add (r * 10) d) as [r2|] eqn:E2.
    2:{ apply checked_add_None in E2. split; [done|]. lia. }
    apply checked_add_Some in E2 as [-> ?].
    rewrite IH by lia.
    split; [intros (? & ? & ?); split_and!; eauto | by intros ((_ & ?) & ? & ?)].
Qed.

(** ** [u64::from_str] *)

Lemma all_digits_nil : all_digits "".
Proof. by apply Forall_nil. Qed.

Lemma all_digits_cons c s :
  all_digits (String c s) <-> is_Some (to_digit c) /\ all_digits s.
Proof. unfold all_digits. cbn. by rewrite Forall_cons. Qed.

Lemma to_digit_plus : to_digit "+" = None.
Proof. reflexivity. Qed.

(** A string of digits is parsed by the loop alone: it has no sign to
    skip and is empty only if the source is. *)
Lemma u64_from_str_digits s :
  s <> "" -> all_digits s -> u64_from_str s = parse_digits s 0.
Proof.
  destruct s as [|c s]; [done|]. intros _ [[d Hd] _]%all_digits_cons.
  unfold u64_from_str. destruct (Ascii.eqb_spec c "+") as [->|_]; [|done].
  by rewrite to_digit_plus in Hd.
Qed.

(** ** Printing and the round trip *)

Lemma to_digits_all_digits fuel n acc :
  0 <= n -> all_digits acc -> all_digits (to_digits fuel n acc).
Proof.
  revert n acc. induction fuel as [|fuel IH]; intros n acc Hn Hacc; cbn; [done|].
  assert (all_digits (String (digit_char (n mod 10)) acc)) as Hacc'.
  { apply all_digits_cons. split; [|done]. exists (n mod 10).
    apply to_digit_digit_char. pose proof (Z.mod_pos_bound n 10). lia. }
  destruct (Z.ltb_spec n 10); [done|]. apply IH; [|done].
  apply Z.div_pos; lia.
Qed.

Lemma to_digits_nonempty fuel n acc : to_digits (S fuel) n acc <> "".
Proof.
  revert n acc. induction fuel as [|fuel IH]; intros n acc; cbn.
  - by destruct (n <? 10).
  - destruct (n <? 10); [done|]. apply (IH (n / 10)).
Qed.

(** The digits printed in front of [acc] denote [n]: reading them from
    zero and going on through [acc] is reading [acc] from [n]. *)
Lemma digits_value_to_digits fuel n acc :
  0 <= n < 10 ^ Z.of_nat fuel ->
  digits_value (to_digits fuel n acc) 0 = digits_value acc n.
Proof.
  revert n acc. induction fuel as [|fuel IH]; intros n acc Hn.
  - cbn in *. by replace n with 0 by lia.
  - cbn [to_digits]. rewrite Nat2Z.inj_succ, Z.pow_succ_r in Hn by lia.
    pose proof (Z.mod_pos_bound n 10 ltac:(lia)) as Hmod.
    destruct (Z.ltb_spec n 10) as [Hlt|Hge].
    + cbn. rewrite Z.mod_small, to_digit_digit_char by lia. done.
    + rewrite IH by (split; [apply Z.div_pos; lia|apply Z.div_lt_upper_bound; lia]).
      cbn. rewrite to_digit_digit_char by lia. cbn. f_equal.
      pose proof (Z.div_mod n 10). lia.
Qed.

(** [u64::from_str] reads back what the printer wrote, for every [u64]. *)
Lemma u64_from_str_to_string n : is_u64 n -> u64_from_str (u64_to_string n) = Ok n.
Proof.
  intros [Hlo Hhi]. unfold u64_to_string.
  rewrite u64_from_str_digits;
    [|apply to_digits_nonempty|by apply to_digits_all_digits, all_digits_nil].
  apply parse_digits_Ok; [by compute|]. split_and!; [|by rewrite digits_value_to_digits by (unfold u64_MAX in Hhi; lia)|done].
  by apply to_digits_all_digits, all_digits_nil.
Qed.

(** What [u64::from_str] accepts is a [u64]. *)
Lemma u64_from_str_range s n : u64_from_str s = Ok n -> is_u64 n.
Proof.
  unfold u64_from_str. destruct s as [|c s]; [done|].
  set (digits := if Ascii.eqb c "+" then s else String c s).
  destruct digits as [|c' s'] eqn:E; [done|]. clear E.
  intros (_ & <- & Hmax)%parse_digits_Ok; [|by compute].
  split; [|done]. by apply digits_value_mono.
Qed.

(** ** Overflow *)

(** The loop reports only two kinds of error. *)
Lemma parse_digits_Err s r k :
  parse_digits s r = Err k ->
  (k = InvalidDigit /\ ~ all_digits s) \/ k = PosOverflow.
Proof.
  revert r. induction s as [|c s IH]; intros r; cbn; [done|].
  rewrite all_digits_cons. destruct (to_digit c) as [d|] eqn:Ed.
  2:{ intros [= <-]. left. split; [done|]. by intros [[] _]. }
  destruct (checked_mul r 10) as [r1|]; [|intros [= <-]; by right].
  destruct (checked_add r1 d) as [r2|]; [|intros [= <-]; by right].
  intros [[-> ?]| ->]%IH; [left|by right]. split; [done|]. by intros [_ ?].
Qed.

(** Digits whose value exceeds [u64::MAX] overflow, whatever their
    number. *)
Lemma u64_from_str_overflow s :
  all_digits s -> u64_MAX < digits_value s 0 -> u64_from_str s = Err PosOverflow.
Proof.
  intros Hs Hbig. rewrite u64_from_str_digits; [|by intros ->|done].
  destruct (parse_digits s 0) as [n|k] eqn:E.
  - apply parse_digits_Ok in E as (_ & <- & ?); [lia|by compute].
  - by apply parse_digits_Err in E as [[_ []]| ->].
Qed.

(** ** [u64::from_str] against the reference *)

(** [u64::from_str] accepts exactly the texts that denote a [u64], and
    returns the number they denote. *)
Lemma u64_from_str_Ok s n : u64_from_str s = Ok n <-> denotes s n.
Proof.
  unfold denotes. split.
  - unfold u64_from_str. destruct s as [|c s]; [done|].
    destruct (Ascii.eqb_spec c "+") as [->|Hc].
    + destruct s as [|c' s'] eqn:Es; [done|]. rewrite <- Es.
      intros (? & ? & ?)%parse_digits_Ok; [|by compute].
      exists s. split_and!; [by right|by subst|done..].
    + intros (? & ? & ?)%parse_digits_Ok; [|by compute].
      exists (String c s). by split_and!; [left|..].
  - intros (digits & [->| ->] & Hne & Hd & Hv & Hn).
    + rewrite u64_from_str_digits by done. by apply parse_digits_Ok; [compute|].
    + unfold u64_from_str. cbn. destruct digits as [|c d]; [done|].
      by apply parse_digits_Ok; [compute|].
Qed.
