(* ===== verification/Fmt.v ===== *)
(** * Formatting

    [std::fmt] as far as the source uses it: the trait [Debug] as a type
    class, with the instances of the standard library for [Option] and
    [u64] and [Formatter::debug_struct], which a derived [Debug] calls;
    and the interpolation of a format string, as [format!] and the
    logging macros perform it.  Every placeholder of the source is
    [{:?}], and no format string of the source has an escaped brace, so
    a placeholder is an occurrence of these four characters.

    The compiler refuses a macro call whose arguments are not as many
    as the placeholders of its format string; in the model that check
    is the predicate [fmt.fits], and the interpolation is total. *)

From Stdlib Require Import ZArith Lia.
From Stdlib.Strings Require Import Ascii String.
From stdpp Require Import base tactics option list.
From S2P Require Import Prelude Numbers.

#[local] Open Scope string_scope.

Module fmt.

(** ** [Debug] *)

(** The trait [Debug]: the text that [{:?}] interpolates for a value. *)
Class Debug (A : Type) : Type := debug : A -> string.
#[global] Hint Mode Debug ! : typeclass_instances.

(** [Option<T>]: [None], or [Some(..)] around the text of the value. *)
#[global] Instance option_debug `{Debug A} : Debug (option A) := fun o =>
  match o with
  | Some a => "Some(" ++ debug a ++ ")"
  | None => "None"
  end.

(** [u64]: its decimal digits. *)
#[global] Instance u64_debug : Debug Z := u64_to_string.

(** The fields of a struct, [name: value] separated by commas. *)
Fixpoint fields (l : list (string * string)) : string :=
  match l with
  | [] => ""
  | [(name, value)] => name ++ ": " ++ value
  | (name, value) :: l' => name ++ ": " ++ value ++ ", " ++ fields l'
  end.

(** [Formatter::debug_struct], which a derived [Debug] calls: the name
    of the struct and its fields between braces. *)
Definition debug_struct (name : string) (l : list (string * string)) : string :=
  match l with
  | [] => name
  | _ => name ++ " { " ++ fields l ++ " }"
  end.

(** ** Interpolation *)

Definition placeholder : string := "{:?}".

(** Whether [s] starts with [p]. *)
Fixpoint starts_with (p s : string) : bool :=
  match p, s with
  | EmptyString, _ => true
  | String a p', String b s' => Ascii.eqb a b && starts_with p' s'
  | String _ _, EmptyString => false
  end.

(** The number of placeholders of a format string: the positions at
    which one starts (two cannot overlap). *)
Fixpoint placeholders (s : string) : nat :=
  match s with
  | EmptyString => 0
  | String _ rest =>
      (if starts_with placeholder s then 1 else 0) + placeholders rest
  end.

(** The text of [s] with each placeholder replaced by the next of
    [args]; [skip] counts the characters of a placeholder that remain
    to be passed over.  A placeholder with no argument left is kept as
    it is, and arguments that are left are dropped. *)
Fixpoint format_from (s : string) (skip : nat) (args : list string) : string :=
  match s with
  | EmptyString => EmptyString
  | String c rest =>
      match skip with
      | S skip' => format_from rest skip' args
      | O =>
          if starts_with placeholder s then
            match args with
            | a :: args' => a ++ format_from rest 3 args'
            | [] => String c (format_from rest 0 [])
            end
          else String c (format_from rest 0 args)
      end
  end.

(** Whether [s] has no opening brace. *)
Fixpoint brace_free (s : string) : bool :=
  match s with
  | EmptyString => true
  | String c rest => negb (Ascii.eqb "{" c) && brace_free rest
  end.

(** What precedes the last four characters of [s]: the text before
    the placeholder, when [s] ends with one. *)
Definition before_hole (s : string) : string :=
  String.substring 0 (String.length s - 4) s.

(** [format!(s, args..)], each argument given as its text. *)
Definition format (s : string) (args : list string) : string :=
  format_from s 0 args.

(** What the compiler checks of a macro call: as many arguments as
    placeholders. *)
Definition fits (s : string) (args : list string) : Prop :=
  placeholders s = length args.

#[global] Instance fits_dec s args : Decision (fits s args).
Proof. unfold fits. apply _. Defined.

(** ** Lemmas *)

(** A text without placeholders is printed as it is. *)
Lemma format_from_plain s args : placeholders s = 0 -> format_from s 0 args = s.
Proof.
  induction s as [|c s IH]; [done|]. cbn [placeholders format_from].
  destruct (starts_with placeholder (String c s)); [done|].
  intros Hs. by rewrite IH.
Qed.

Lemma format_plain s args : placeholders s = 0 -> format s args = s.
Proof. apply format_from_plain. Qed.

(** Characters before a placeholder are copied. *)
Lemma format_from_cons c s args :
  starts_with placeholder (String c s) = false ->
  format_from (String c s) 0 args = String c (format_from s 0 args).
Proof. cbn [format_from]. by intros ->. Qed.

(** A placeholder takes the first argument. *)
Lemma format_from_placeholder s a args :
  format_from (placeholder ++ s) 0 (a :: args) = a ++ format_from s 0 args.
Proof.
  unfold placeholder. by rewrite !append_cons, append_nil.
Qed.

(** Interpolation over a prefix that has no opening brace. *)
Lemma format_from_app p s args :
  brace_free p = true -> format_from (p ++ s) 0 args = p ++ format_from s 0 args.
Proof.
  induction p as [|c p IH]; [done|]. cbn [brace_free].
  intros [Hc Hp]%andb_prop. rewrite !append_cons, format_from_cons, IH; [done..|].
  unfold placeholder. cbn [starts_with].
  by destruct (Ascii.eqb "{" c).
Qed.

(** A message that ends with its one placeholder is printed with the
    argument at its end. *)
Lemma format_hole p a :
  brace_free p = true -> format (p ++ placeholder) [a] = p ++ a.
Proof.
  intros Hp. unfold format. rewrite format_from_app by done.
  rewrite <- (append_nil_r placeholder), format_from_placeholder.
  cbn [format_from]. by rewrite append_nil_r.
Qed.

Lemma format_ends s a :
  s = before_hole s ++ placeholder -> brace_free (before_hole s) = true ->
  format s [a] = before_hole s ++ a.
Proof. intros Hs Hp. rewrite Hs at 1. by apply format_hole. Qed.

End fmt.
