(* ===== verification/FileSystem.v ===== *)
(** * The file system

    The part of the operating system the resolver touches through
    [std::fs]: a finite map from paths to inodes, and the five calls of
    the source ([File::open], [OpenOptions] with [write(true)] and
    [create(true)], [File::metadata], [Read::read_to_end],
    [Write::write_all]).

    A path is the string given to the call; no normalisation, no
    symbolic links.  The parent of a path is what precedes its last
    [/] (the root for [/x], and [.], the working directory, for a path
    with no [/]).  The empty path names nothing: a well-formed file
    system has no entry there, so every call on it fails with
    [ENOENT], as the operating system's does.  An inode carries the two
    permission bits the calls test and an optional device fault, which
    is how a call on an open file can fail.  The write fault of a
    directory stands for a device that takes no more data: a file can
    still be made in the directory, and every write to it fails, before
    its first byte.

    [write_all] is given twice: as one step ([File.write_all], which
    the resolver's [save] is written with), and as the loop it is in
    [std] ([File.write_all_loop]: [write] what is left until nothing
    is), where each [write] takes the part of the buffer an oracle
    gives it, one byte at least.  The loop ends with the result of the
    one step, and the file systems between its calls are those in
    which a prefix of the buffer is written.  An empty buffer makes no
    call: it is written to any file, faulty or missing. *)

From Stdlib Require Import ZArith Lia.
From Stdlib.Strings Require Import Byte Ascii String.
From stdpp Require Import base tactics option list gmap strings.
From S2P Require Import Prelude.

(** ** Errors *)

(** The operating system's error numbers the model produces. *)
Inductive Errno : Type :=
| ENOENT
| EACCES
| EISDIR
| ENOTDIR
| EIO.

#[export] Instance Errno_eq_dec : EqDecision Errno.
Proof. solve_decision. Defined.

(** [std::io::ErrorKind], as far as the source tells kinds apart. *)
Inductive ErrorKind : Type :=
| NotFound
| PermissionDenied
| Other.

#[export] Instance ErrorKind_eq_dec : EqDecision ErrorKind.
Proof. solve_decision. Defined.

(** [io::Error::kind]. *)
Definition kind (e : Errno) : ErrorKind :=
  match e with
  | ENOENT => NotFound
  | EACCES => PermissionDenied
  | EISDIR | ENOTDIR | EIO => Other
  end.

(** ** Inodes *)

Inductive Fault : Type :=
| FaultStat
| FaultRead
| FaultWrite.

#[export] Instance Fault_eq_dec : EqDecision Fault.
Proof. solve_decision. Defined.

Record Inode : Type := {
  is_dir : bool;
  readable : bool;
  writable : bool;
  data : list byte;
  fault : option Fault;
}.

#[export] Instance Inode_eq_dec : EqDecision Inode.
Proof. solve_decision. Defined.

(** The file [create(true)] makes: regular, empty, read-write. *)
Definition new_file : Inode :=
  {| is_dir := false; readable := true; writable := true; data := []; fault := None |}.

(** The same on a device that takes no more data: the file is made,
    and writing to it fails. *)
Definition full_file : Inode :=
  {| is_dir := false; readable := true; writable := true; data := [];
     fault := Some FaultWrite |}.

Definition set_data (i : Inode) (d : list byte) : Inode :=
  {| is_dir := is_dir i; readable := readable i; writable := writable i;
     data := d; fault := fault i |}.

Abbreviation FileSystem := (gmap string Inode).

(** ** Paths *)

(** What precedes the last [/] of a path, if it has one. *)
Fixpoint before_last_slash (p : string) : option string :=
  match p with
  | EmptyString => None
  | String c rest =>
      match before_last_slash rest with
      | Some d => Some (String c d)
      | None => if Ascii.eqb c "/" then Some EmptyString else None
      end
  end.

(** The directory a path is resolved in: what precedes its last [/],
    the root for [/x], the working directory [.] for a name without
    [/]; the empty path has none but itself. *)
Definition parent (p : string) : string :=
  match before_last_slash p with
  | Some EmptyString => "/"
  | Some d => d
  | None => if decide (p = "") then "" else "."
  end.

(** ** Open files *)

Module File.

(** An open file: the path it was opened at and the cursor. *)
Record t : Type := { path : string; pos : nat }.

#[global] Instance eq_dec : EqDecision t.
Proof. solve_decision. Defined.

Definition advance (f : t) (n : nat) : t := {| path := path f; pos := pos f + n |}.

(** The error of a path that is not there: [ENOTDIR] when its parent is
    a regular file, [ENOENT] otherwise. *)
Definition missing (fs : FileSystem) (p : string) : Errno :=
  match fs !! parent p with
  | Some d => if is_dir d then ENOENT else ENOTDIR
  | None => ENOENT
  end.

(** [File::open]: read-only.  A directory opens; reading it fails. *)
Definition open (p : string) (fs : FileSystem) : Result t Errno :=
  match fs !! p with
  | None => Err (missing fs p)
  | Some i => if readable i then Ok {| path := p; pos := 0 |} else Err EACCES
  end.

(** [File::metadata(...).len()]. *)
Definition metadata_len (f : t) (fs : FileSystem) : Result Z Errno :=
  match fs !! path f with
  | None => Err EIO
  | Some i =>
      if decide (fault i = Some FaultStat) then Err EIO
      else Ok (Z.of_nat (length (data i)))
  end.

(** [Read::read_to_end]: appends what lies between the cursor and the
    end of the file to [buf]; the cursor moves to the end. *)
Definition read_to_end (f : t) (buf : list byte) (fs : FileSystem)
  : Result (t * list byte) Errno :=
  match fs !! path f with
  | None => Err EIO
  | Some i =>
      if is_dir i then Err EISDIR
      else if decide (fault i = Some FaultRead) then Err EIO
      else Ok ({| path := path f; pos := length (data i) `max` pos f |},
               buf ++ drop (pos f) (data i))
  end.

(** The bytes of a file after [buf] was written at offset [at_]: what
    was before the offset (zero-filled when the offset is past the
    end), the new bytes, and what lay beyond them.  Nothing is
    truncated. *)
Definition overwrite (old : list byte) (at_ : nat) (buf : list byte) : list byte :=
  take at_ (old ++ replicate (at_ - length old) x00) ++ buf ++
  drop (at_ + length buf) old.

(** [Write::write_all] on a file opened for writing: every byte of the
    buffer is in the file when it returns.  Nothing is asked of the
    operating system for an empty buffer. *)
Definition write_all (f : t) (buf : list byte) (fs : FileSystem)
  : Result (t * FileSystem) Errno :=
  match buf with
  | [] => Ok (f, fs)
  | _ :: _ =>
      match fs !! path f with
      | None => Err EIO
      | Some i =>
          if decide (fault i = Some FaultWrite) then Err EIO
          else Ok (advance f (length buf),
                   <[path f := set_data i (overwrite (data i) (pos f) buf)]> fs)
      end
  end.

(** How much of a buffer one [write] takes: the operating system's
    choice [k], brought between one byte and the whole buffer. *)
Definition taken (k : nat) (buf : list byte) : nat := (1 `max` k) `min` length buf.

(** [Write::write]: one call of the operating system, which takes a
    part of the buffer and says how much. *)
Definition write (f : t) (buf : list byte) (k : nat) (fs : FileSystem)
  : Result (nat * t * FileSystem) Errno :=
  match fs !! path f with
  | None => Err EIO
  | Some i =>
      if decide (fault i = Some FaultWrite) then Err EIO
      else
        let n := taken k buf in
        Ok (n, advance f n,
            <[path f := set_data i (overwrite (data i) (pos f) (take n buf))]> fs)
  end.

(** The loop of the standard library's [write_all]: [write] what is
    left until nothing is.  [sizes] gives what each call takes, the
    first call first; the fuel bounds the number of calls.  A [write]
    takes one byte at least, so the arm [Ok(0)] of the loop is not
    reached. *)
Fixpoint write_all_loop (fuel : nat) (sizes : nat -> nat) (f : t) (buf : list byte)
    (fs : FileSystem) : option (Result (t * FileSystem) Errno) :=
  match buf with
  | [] => Some (Ok (f, fs))
  | _ :: _ =>
      match fuel with
      | 0 => None
      | S fuel' =>
          match write f buf (sizes 0) fs with
          | Ok (n, f', fs') =>
              write_all_loop fuel' (fun i => sizes (S i)) f' (drop n buf) fs'
          | Err e => Some (Err e)
          end
      end
  end.

(** The file systems the loop passes through: the one each [write]
    leaves. *)
Fixpoint write_all_states (fuel : nat) (sizes : nat -> nat) (f : t) (buf : list byte)
    (fs : FileSystem) : list FileSystem :=
  match buf, fuel with
  | _ :: _, S fuel' =>
      match write f buf (sizes 0) fs with
      | Ok (n, f', fs') =>
          fs' :: write_all_states fuel' (fun i => sizes (S i)) f' (drop n buf) fs'
      | Err e => []
      end
  | _, _ => []
  end.

End File.

Module OpenOptions.

(** Whether a new file may be made at [p]: its parent must be a
    writable directory. *)
Definition may_create (fs : FileSystem) (p : string) : Result unit Errno :=
  match fs !! parent p with
  | None => Err ENOENT
  | Some d =>
      if negb (is_dir d) then Err ENOTDIR
      else if negb (writable d) then Err EACCES
      else Ok tt
  end.

(** Whether the device that would hold [p] takes no more data: the
    write fault of a directory is the fault of its device, and of the
    files made in it. *)
Definition device_full (fs : FileSystem) (p : string) : bool :=
  bool_decide (fault <$> fs !! parent p = Some (Some FaultWrite)).

(** The file that is made at [p]. *)
Definition created_file (fs : FileSystem) (p : string) : Inode :=
  if device_full fs p then full_file else new_file.

(** [OpenOptions::new().write(true).create(true).open(path)]: opens an
    existing file for writing at offset 0 without truncating it, or
    makes an empty one. *)
Definition open_write_create (p : string) (fs : FileSystem)
  : Result (File.t * FileSystem) Errno :=
  match fs !! p with
  | Some i =>
      if is_dir i then Err EISDIR
      else if writable i then Ok ({| File.path := p; File.pos := 0 |}, fs)
      else Err EACCES
  | None =>
      match may_create fs p with
      | Ok _ =>
          Ok ({| File.path := p; File.pos := 0 |}, <[p := created_file fs p]> fs)
      | Err e => Err e
      end
  end.

End OpenOptions.

(** ** Whole-file views *)

(** What reading the path from its start to its end gives. *)
Definition contents (fs : FileSystem) (p : string) : Result (list byte) Errno :=
  match File.open p fs with
  | Ok v =>
      match File.read_to_end v [] fs with
      | Ok (_, bytes) => Ok bytes
      | Err e => Err e
      end
  | Err e => Err e
  end.

(** The file system in which nothing is at the empty path and every
    entry that has a parent path has a directory there. *)
Definition tree_shaped (fs : FileSystem) : Prop :=
  fs !! "" = None /\
  forall p i, fs !! p = Some i -> parent p <> p ->
    exists d, fs !! parent p = Some d /\ is_dir d = true.

(** [Vec::<u8>::with_capacity(len as usize)]: an empty vector; the
    capacity is not observable.  [with_capacity] panics on a capacity
    beyond [isize::MAX] and aborts the process when the allocation
    fails; neither is modelled.  The first cannot happen here: the
    length of a file is an [off_t], so [isize::MAX] at most on the
    64-bit target the cast assumes. *)
Definition Vec_with_capacity (capacity : Z) : list byte := [].

(** ** Lemmas: paths *)

Lemma parent_empty : parent "" = "".
Proof. done. Qed.

(** ** Lemmas: overwriting *)

Lemma overwrite_start old buf :
  File.overwrite old 0 buf = buf ++ drop (length buf) old.
Proof. done. Qed.

Lemma overwrite_empty buf : File.overwrite [] 0 buf = buf.
Proof. unfold File.overwrite. cbn. by rewrite drop_nil, app_nil_r. Qed.

(** Writing over a file that is not longer than the new bytes leaves
    exactly the new bytes. *)
Lemma overwrite_covering old buf :
  length old <= length buf -> File.overwrite old 0 buf = buf.
Proof. intros Hlen. by rewrite overwrite_start, drop_ge, app_nil_r. Qed.

(** Writing over a longer file keeps its tail: nothing truncates. *)
Lemma overwrite_longer old buf :
  length buf < length old ->
  File.overwrite old 0 buf = buf ++ drop (length buf) old /\
  length (File.overwrite old 0 buf) = length old.
Proof.
  intros Hlen. split; [done|].
  rewrite overwrite_start, length_app, length_drop. lia.
Qed.

(** ** Lemmas: the calls *)

Lemma open_Ok p fs v :
  File.open p fs = Ok v <->
  exists i, fs !! p = Some i /\ readable i = true /\ v = {| File.path := p; File.pos := 0 |}.
Proof.
  unfold File.open. destruct (fs !! p) as [i|]; [destruct (readable i) eqn:E|].
  - split; [intros [= <-]; eauto|by intros (? & ? & ? & ->)].
  - split; [done|]. intros (? & ? & ? & _). congruence.
  - split; [done|]. by intros (? & ? & _).
Qed.

(** [File::open] reports [NotFound] exactly when nothing is at the path
    and the parent is not a regular file. *)
Lemma open_NotFound p fs :
  (exists e, File.open p fs = Err e /\ kind e = NotFound) <->
  fs !! p = None /\ File.missing fs p = ENOENT.
Proof.
  unfold File.open. destruct (fs !! p) as [i|] eqn:E.
  - split; [|by intros [? _]]. intros (e & He & Hk).
    destruct (readable i); by simplify_eq.
  - split.
    + intros (e & [= <-] & Hk). split; [done|]. by destruct (File.missing fs p).
    + intros [_ Hm]. exists ENOENT. by rewrite Hm.
Qed.

Lemma read_to_end_start p fs i :
  fs !! p = Some i -> is_dir i = false -> fault i <> Some FaultRead ->
  File.read_to_end {| File.path := p; File.pos := 0 |} [] fs =
  Ok ({| File.path := p; File.pos := length (data i) |}, data i).
Proof.
  intros Hp Hdir Hfault. unfold File.read_to_end. cbn. rewrite Hp, Hdir.
  rewrite decide_False by done. by rewrite Nat.max_0_r.
Qed.

Lemma contents_file p fs i :
  fs !! p = Some i -> readable i = true -> is_dir i = false ->
  fault i <> Some FaultRead -> contents fs p = Ok (data i).
Proof.
  intros Hp Hr Hdir Hfault. unfold contents, File.open. rewrite Hp, Hr.
  by erewrite read_to_end_start.
Qed.

Lemma created_file_is_file fs p : is_dir (OpenOptions.created_file fs p) = false.
Proof. unfold OpenOptions.created_file. by destruct (OpenOptions.device_full fs p). Qed.

Lemma created_file_new fs p :
  OpenOptions.device_full fs p = false -> OpenOptions.created_file fs p = new_file.
Proof. unfold OpenOptions.created_file. by intros ->. Qed.

Lemma created_file_full fs p :
  OpenOptions.device_full fs p = true -> OpenOptions.created_file fs p = full_file.
Proof. unfold OpenOptions.created_file. by intros ->. Qed.

Lemma open_write_create_absent p fs :
  fs !! p = None -> OpenOptions.may_create fs p = Ok tt ->
  OpenOptions.open_write_create p fs =
  Ok ({| File.path := p; File.pos := 0 |}, <[p := OpenOptions.created_file fs p]> fs).
Proof. intros Hp Hc. unfold OpenOptions.open_write_create. by rewrite Hp, Hc. Qed.

(** Writing to a file on a device that takes no more data fails, and
    the file stays as it was. *)
Lemma write_all_full p at_ buf fs i :
  fs !! p = Some i -> fault i = Some FaultWrite -> buf <> [] ->
  File.write_all {| File.path := p; File.pos := at_ |} buf fs = Err EIO.
Proof.
  intros Hp Hf Hb. unfold File.write_all. destruct buf; [done|].
  cbn [File.path]. by rewrite Hp, decide_True.
Qed.

Lemma set_data_data i : set_data i (data i) = i.
Proof. by destruct i. Qed.

(** Writing nothing changes nothing, within the file. *)
Lemma overwrite_nil old at_ : at_ <= length old -> File.overwrite old at_ [] = old.
Proof.
  intros Hle. unfold File.overwrite. replace (at_ - length old) with 0 by lia.
  cbn. by rewrite app_nil_r, Nat.add_0_r, take_drop.
Qed.

Lemma write_all_at p at_ buf fs i :
  fs !! p = Some i -> fault i <> Some FaultWrite -> at_ <= length (data i) ->
  File.write_all {| File.path := p; File.pos := at_ |} buf fs =
  Ok ({| File.path := p; File.pos := at_ + length buf |},
      <[p := set_data i (File.overwrite (data i) at_ buf)]> fs).
Proof.
  intros Hp Hfault Hle. unfold File.write_all. destruct buf as [|b buf].
  - rewrite overwrite_nil, set_data_data, insert_id by done. cbn. by rewrite Nat.add_0_r.
  - cbn [File.path]. rewrite Hp. by rewrite decide_False by done.
Qed.

(** ** Lemmas: the loop of [write_all] *)

(** A [write] takes one byte at least and no more than there is. *)
Lemma taken_bounds k buf : buf <> [] -> 1 <= File.taken k buf <= length buf.
Proof. unfold File.taken. destruct buf; [done|]. cbn. lia. Qed.

(** Writing two buffers one after the other is writing them joined. *)
Lemma overwrite_app old at_ b1 b2 :
  File.overwrite (File.overwrite old at_ b1) (at_ + length b1) b2 =
  File.overwrite old at_ (b1 ++ b2).
Proof.
  unfold File.overwrite.
  set (before := take at_ (old ++ replicate (at_ - length old) x00)).
  assert (length before = at_) as Hb.
  { unfold before. rewrite length_take, length_app, length_replicate. lia. }
  replace (at_ + length b1 - length (before ++ b1 ++ drop (at_ + length b1) old)) with 0
    by (rewrite !length_app, Hb; lia).
  cbn [replicate]. rewrite app_nil_r, (app_assoc before b1).
  rewrite take_app_length' by (rewrite length_app; lia).
  rewrite drop_app_ge by (rewrite length_app; lia).
  rewrite drop_drop, !length_app, Hb, <- !app_assoc. do 4 f_equal. lia.
Qed.

Lemma write_all_app f b1 b2 fs :
  File.write_all f (b1 ++ b2) fs =
  match File.write_all f b1 fs with
  | Ok (f1, fs1) => File.write_all f1 b2 fs1
  | Err e => Err e
  end.
Proof.
  destruct b1 as [|c1 b1]; [done|]. destruct b2 as [|c2 b2].
  { rewrite app_nil_r. by destruct (File.write_all f _ fs) as [[f1 fs1]|e]. }
  unfold File.write_all. cbn [app]. destruct (fs !! File.path f) as [i|]; [|done].
  case_decide as Hf; [done|]. cbn [File.advance File.path File.pos].
  rewrite lookup_insert_eq. cbn [fault set_data]. rewrite decide_False by done.
  rewrite insert_insert_eq. cbn [data set_data is_dir readable writable fault].
  rewrite (overwrite_app _ _ (c1 :: b1) (c2 :: b2)). unfold File.advance. cbn [File.path File.pos].
  do 3 f_equal. cbn [length]. rewrite length_app. cbn [length]. lia.
Qed.

(** One [write] is [write_all] of what it takes. *)
Lemma write_taken f buf k fs :
  buf <> [] ->
  File.write f buf k fs =
  match File.write_all f (take (File.taken k buf) buf) fs with
  | Ok (f', fs') => Ok (File.taken k buf, f', fs')
  | Err e => Err e
  end.
Proof.
  intros Hb. pose proof (taken_bounds k buf Hb) as Hn. unfold File.write, File.write_all.
  destruct (take (File.taken k buf) buf) as [|c l] eqn:Ht.
  { apply (f_equal length) in Ht. rewrite length_take in Ht. cbn in Ht. lia. }
  rewrite <- Ht. destruct (fs !! File.path f) as [i|]; [|done].
  case_decide; [done|]. by rewrite length_take_le by lia.
Qed.

(** The loop of [write_all] ends, whatever each [write] takes,
    within as many calls as the buffer has bytes, and with the result
    of [write_all]: every byte written, or the error of the first
    call. *)
Lemma write_all_loop_ends fuel sizes f buf fs :
  length buf <= fuel ->
  File.write_all_loop fuel sizes f buf fs = Some (File.write_all f buf fs).
Proof.
  revert sizes f buf fs. induction fuel as [|fuel IH]; intros sizes f buf fs Hlen.
  { by destruct buf; [|cbn in Hlen; lia]. }
  destruct buf as [|c buf]; [done|]. set (b := c :: buf) in *.
  assert (b <> []) as Hb by done. pose proof (taken_bounds (sizes 0) b Hb) as Hn.
  change (File.write_all_loop (S fuel) sizes f b fs) with
    (match File.write f b (sizes 0) fs with
     | Ok (n, f', fs') => File.write_all_loop fuel (fun i => sizes (S i)) f' (drop n b) fs'
     | Err e => Some (Err e)
     end).
  rewrite write_taken by done.
  rewrite <- (take_drop (File.taken (sizes 0) b) b) at 3. rewrite write_all_app.
  destruct (File.write_all f (take _ b) fs) as [[f1 fs1]|e]; [|done].
  apply IH. rewrite length_drop. lia.
Qed.

(** Every file system the loop passes through holds a prefix of the
    buffer: it is what [write_all] leaves of the first [n] bytes, for
    an [n] from 1 to the length of the buffer. *)
Lemma write_all_states_prefix fuel sizes f buf fs x :
  x ∈ File.write_all_states fuel sizes f buf fs ->
  exists n f', 1 <= n <= length buf /\ File.write_all f (take n buf) fs = Ok (f', x).
Proof.
  revert sizes f buf fs. induction fuel as [|fuel IH]; intros sizes f buf fs.
  { destruct buf; by intros ?%elem_of_nil. }
  destruct buf as [|c buf]; [by intros ?%elem_of_nil|]. set (b := c :: buf) in *.
  assert (b <> []) as Hb by done. pose proof (taken_bounds (sizes 0) b Hb) as Hn.
  change (File.write_all_states (S fuel) sizes f b fs) with
    (match File.write f b (sizes 0) fs with
     | Ok (n, f', fs') =>
         fs' :: File.write_all_states fuel (fun i => sizes (S i)) f' (drop n b) fs'
     | Err e => []
     end).
  rewrite write_taken by done.
  destruct (File.write_all f (take _ b) fs) as [[f1 fs1]|e] eqn:H1; [|by intros ?%elem_of_nil].
  intros [->|(m & f2 & Hm & H2)%IH]%elem_of_cons; [by eexists _, _|].
  rewrite length_drop in Hm. exists (File.taken (sizes 0) b + m), f2. split; [lia|].
  by rewrite <- take_take_drop, write_all_app, H1.
Qed.

(** And every prefix is passed through, for some choice of the
    operating system. *)
Lemma write_all_states_reached fuel f buf fs n f' x :
  1 <= n <= length buf -> File.write_all f (take n buf) fs = Ok (f', x) ->
  x ∈ File.write_all_states (S fuel) (fun _ => n) f buf fs.
Proof.
  intros Hn Hx. destruct buf as [|c buf]; [cbn in Hn; lia|]. set (b := c :: buf) in *.
  change (File.write_all_states (S fuel) (fun _ => n) f b fs) with
    (match File.write f b n fs with
     | Ok (m, f1, fs1) => fs1 :: File.write_all_states fuel (fun _ => n) f1 (drop m b) fs1
     | Err e => []
     end).
  rewrite write_taken by done.
  replace (File.taken n b) with n by (unfold File.taken; lia).
  rewrite Hx. apply list_elem_of_here.
Qed.

(** ** Lemmas: what the calls leave alone *)

Lemma open_write_create_frame p fs v fs' :
  OpenOptions.open_write_create p fs = Ok (v, fs') ->
  File.path v = p /\ File.pos v = 0 /\ forall q, q <> p -> fs' !! q = fs !! q.
Proof.
  unfold OpenOptions.open_write_create. destruct (fs !! p) as [i|].
  - destruct (is_dir i); [done|]. destruct (writable i); [|done].
    by intros [= <- <-].
  - destruct (OpenOptions.may_create fs p); [|done]. intros [= <- <-].
    split_and!; [done..|]. intros q ?. by rewrite lookup_insert_ne.
Qed.

(** An existing path is opened as it is. *)
Lemma open_write_create_existing p fs v fs' i :
  fs !! p = Some i -> OpenOptions.open_write_create p fs = Ok (v, fs') -> fs' = fs.
Proof.
  intros Hp. unfold OpenOptions.open_write_create. rewrite Hp.
  destruct (is_dir i); [done|]. destruct (writable i); [|done]. by intros [= _ <-].
Qed.

Lemma write_all_frame v buf fs v' fs' :
  File.write_all v buf fs = Ok (v', fs') ->
  forall q, q <> File.path v -> fs' !! q = fs !! q.
Proof.
  unfold File.write_all. destruct buf; [by intros [= <- <-]|].
  destruct (fs !! File.path v) as [i|]; [|done].
  case_decide; [done|]. intros [= <- <-] q ?. by rewrite lookup_insert_ne.
Qed.

(** ** Lemmas: the tree shape is kept *)

Lemma tree_shaped_insert_file p i fs :
  tree_shaped fs -> p <> "" -> is_dir i = false ->
  (parent p <> p -> exists d, fs !! parent p = Some d /\ is_dir d = true) ->
  (forall j, fs !! p = Some j -> is_dir j = false) ->
  tree_shaped (<[p := i]> fs).
Proof.
  intros [Hempty Hfs] Hp Hi Hparent Hold.
  split; [by rewrite lookup_insert_ne|]. intros q j Hq Hne.
  assert (exists d, fs !! parent q = Some d /\ is_dir d = true) as (d & Hd & Hdir).
  { destruct (decide (p = q)) as [->|Hpq]; [by apply Hparent|].
    rewrite lookup_insert_ne in Hq by done. by eapply Hfs. }
  destruct (decide (p = parent q)) as [->|Hpq].
  - apply Hold in Hd. congruence.
  - exists d. by rewrite lookup_insert_ne.
Qed.

Lemma open_write_create_tree_shaped p fs v fs' :
  tree_shaped fs -> OpenOptions.open_write_create p fs = Ok (v, fs') ->
  tree_shaped fs'.
Proof.
  intros Hfs. unfold OpenOptions.open_write_create, OpenOptions.may_create.
  destruct (fs !! p) as [i|] eqn:Hp.
  { repeat case_match; by intros; simplify_eq. }
  destruct (fs !! parent p) as [d|] eqn:Hd; cbn; [|done].
  destruct (is_dir d) eqn:Hdir; cbn; [|done]. destruct (writable d); cbn; [|done].
  intros [= <- <-].
  apply tree_shaped_insert_file; [done| |apply created_file_is_file|eauto|].
  - intros ->. rewrite parent_empty in Hd. congruence.
  - intros j. by rewrite Hp.
Qed.

Lemma write_all_tree_shaped v buf fs v' fs' :
  tree_shaped fs ->
  (forall i, fs !! File.path v = Some i -> is_dir i = false) ->
  File.write_all v buf fs = Ok (v', fs') -> tree_shaped fs'.
Proof.
  intros Hfs Hfile. unfold File.write_all. destruct buf; [by intros [= <- <-]|].
  destruct (fs !! File.path v) as [i|] eqn:Hp; [|done].
  case_decide; [done|]. intros [= <- <-].
  apply tree_shaped_insert_file; [done| |cbn; by apply Hfile|by eapply Hfs|].
  - intros Hv. destruct Hfs as [Hempty _]. congruence.
  - intros j ?. apply Hfile. congruence.
Qed.

(** What [open_write_create] opened is a regular file at the path. *)
Lemma open_write_create_file p fs v fs' :
  OpenOptions.open_write_create p fs = Ok (v, fs') ->
  File.path v = p /\ exists i, fs' !! p = Some i /\ is_dir i = false.
Proof.
  unfold OpenOptions.open_write_create. destruct (fs !! p) as [i|] eqn:Hp.
  - destruct (is_dir i) eqn:Hd; [done|]. destruct (writable i); [|done].
    intros [= <- <-]. eauto.
  - destruct (OpenOptions.may_create fs p); [|done]. intros [= <- <-].
    split; [done|]. eexists. split; [apply lookup_insert_eq|apply created_file_is_file].
Qed.

(** What [contents] returns is the data of the inode at the path. *)
Lemma contents_Ok p fs bytes :
  contents fs p = Ok bytes -> exists i, fs !! p = Some i /\ bytes = data i.
Proof.
  unfold contents, File.open, File.read_to_end.
  destruct (fs !! p) as [i|] eqn:Hp; [|done].
  destruct (readable i); [cbn; rewrite Hp|done].
  destruct (is_dir i); [done|]. case_decide; [done|].
  intros [= <-]. eauto.
Qed.

Lemma may_create_Ok fs p :
  OpenOptions.may_create fs p = Ok tt <->
  exists d, fs !! parent p = Some d /\ is_dir d = true /\ writable d = true.
Proof.
  unfold OpenOptions.may_create. destruct (fs !! parent p) as [d|].
  - destruct (is_dir d) eqn:Hd, (writable d) eqn:Hw; cbn;
      (split; [intros ?; simplify_eq; eauto 10|intros (? & ? & ? & ?); congruence]).
  - split; [done|]. by intros (? & ? & _).
Qed.

(** ** Deciding the tree shape *)

(** The condition of [tree_shaped] on one entry, as a boolean. *)
Definition has_parent (fs : FileSystem) (p : string) : bool :=
  bool_decide (parent p = p) ||
  match fs !! parent p with
  | Some d => is_dir d
  | None => false
  end.

Lemma has_parent_spec fs p :
  has_parent fs p = true <->
  (parent p <> p -> exists d, fs !! parent p = Some d /\ is_dir d = true).
Proof.
  unfold has_parent. rewrite orb_true_iff, bool_decide_eq_true.
  destruct (decide (parent p = p)) as [Heq|Hne]; [by intuition|].
  destruct (fs !! parent p) as [d|].
  - split; [intros [?|?]; [done|eauto]|]. intros Hd. right.
    by destruct (Hd Hne) as (? & [= <-] & ?).
  - split; [by intros [?|?]|]. intros Hd. by destruct (Hd Hne) as (? & ? & _).
Qed.

Lemma tree_shaped_map_Forall fs :
  tree_shaped fs <->
  fs !! "" = None /\ map_Forall (fun p _ => has_parent fs p = true) fs.
Proof.
  unfold tree_shaped, map_Forall. apply and_iff_compat_l.
  split; intros H p i Hp; [by eapply has_parent_spec, H|].
  by eapply has_parent_spec, H.
Qed.

#[export] Instance tree_shaped_dec fs : Decision (tree_shaped fs).
Proof.
  refine (cast_if (decide (fs !! "" = None /\
                           map_Forall (fun p _ => has_parent fs p = true) fs)));
    by rewrite tree_shaped_map_Forall.
Defined.

(** ** The empty path *)

(** Nothing opens at the empty path, and nothing can be made there. *)
Lemma open_empty fs : fs !! "" = None -> File.open "" fs = Err ENOENT.
Proof. intros Hfs. unfold File.open, File.missing. by rewrite parent_empty, Hfs. Qed.

Lemma may_create_empty fs : fs !! "" = None -> OpenOptions.may_create fs "" = Err ENOENT.
Proof. intros Hfs. unfold OpenOptions.may_create. by rewrite parent_empty, Hfs. Qed.

Lemma may_create_nonempty fs p :
  fs !! "" = None -> OpenOptions.may_create fs p = Ok tt -> p <> "".
Proof. intros Hfs Hc ->. by rewrite may_create_empty in Hc. Qed.
