(* ===== verification/World.v ===== *)
(** * The process state

    What the resolver reads and changes: the environment variables, the
    command-line arguments, the file system, the log (each record with
    the text of its arguments), and the files it holds open.  Every
    effect of the source is one of the primitives below, lifted to a
    computation over [World].  A log is well formed ([log_wf]) when each
    of its records has one argument per placeholder of its format, and
    [wf_kept] relates two worlds when the second's log is well formed
    if the first's is.

    A [File] of the source is open from the call that returns it to the
    end of the scope that owns it, where Rust drops it; the model writes
    that drop as the statement [File_drop] at the place where the scope
    ends.  [handles] lists the paths that are open, the most recent
    first.  The world of an exit or of a panic is the world at that
    point: [std::process::exit] runs no destructor, and what unwinding
    does after a panic is not modelled. *)

From Stdlib Require Import ZArith.
From Stdlib.Strings Require Import Byte Ascii String.
From stdpp Require Import base tactics option list gmap strings.
From S2P Require Import Prelude Fmt Collaborators FileSystem.

#[local] Open Scope proc_scope.
#[local] Open Scope string_scope.

Record World : Type := {
  env : gmap string OsString;
  args : list string;
  fs : FileSystem;
  log : list LogRecord;
  handles : list string;
}.

Definition set_fs (w : World) (fs' : FileSystem) : World :=
  {| env := env w; args := args w; fs := fs'; log := log w; handles := handles w |}.

Definition add_log (w : World) (r : LogRecord) : World :=
  {| env := env w; args := args w; fs := fs w; log := log w ++ [r];
     handles := handles w |}.

Definition set_handles (w : World) (h : list string) : World :=
  {| env := env w; args := args w; fs := fs w; log := log w; handles := h |}.

(** ** Open files *)

(** The list without the first occurrence of [p]. *)
Fixpoint remove_first (p : string) (l : list string) : list string :=
  match l with
  | [] => []
  | q :: l' => if decide (p = q) then l' else q :: remove_first p l'
  end.

(** The world in which one more file is open, at [p]. *)
Definition hold (p : string) (w : World) : World :=
  set_handles w (p :: handles w).

(** The world in which one file open at [p] has been closed. *)
Definition release (p : string) (w : World) : World :=
  set_handles w (remove_first p (handles w)).

(** ** Logging: [error!], [warn!], [info!], [debug!] *)

(** A macro call has a format string and the arguments that follow it;
    an argument is written [fmt.debug e] where the source has [e] for
    a placeholder [{:?}]. *)
Definition log_at (l : Level) (fmt : string) (args : list string) : Proc World unit :=
  modify (fun w => add_log w {| level := l; format := fmt; arguments := args |}).

Definition error (fmt : string) (args : list string) : Proc World unit :=
  log_at Error fmt args.
Definition warn (fmt : string) (args : list string) : Proc World unit :=
  log_at Warn fmt args.
Definition info (fmt : string) (args : list string) : Proc World unit :=
  log_at Info fmt args.
Definition debug (fmt : string) (args : list string) : Proc World unit :=
  log_at Debug fmt args.

(** The shape of every fatal branch of the source: an [error!] record,
    then [exit(1)]. *)
Definition fatal {A} (fmt : string) (args : list string) : Proc World A :=
  error fmt args ;; exit 1.

(** What the standard library prints with [{:?}] for a [str] (and for
    a [PathBuf], which prints as its text) and for a [std::io::Error]. *)
Class StdDebug : Type := {
  str_debug :: fmt.Debug string;
  io_error_debug :: fmt.Debug Errno;
}.

(** A reference instance, on which examples run: a text between double
    quotes, an error as the name of its number. *)
Definition RefStd : StdDebug := {|
  str_debug := fun s => String "034" (s ++ String "034" "");
  io_error_debug := fun e =>
    match e with
    | ENOENT => "ENOENT"
    | EACCES => "EACCES"
    | EISDIR => "EISDIR"
    | ENOTDIR => "ENOTDIR"
    | EIO => "EIO"
    end;
|}.

(** ** [std::env::var] *)

Definition env_var (key : string) : Proc World (Result string VarError) :=
  gets (fun w =>
    match env w !! key with
    | None => Err NotPresent
    | Some (Unicode v) => Ok v
    | Some (NonUnicode _) => Err NotUnicode
    end).

(** ** [std::fs], lifted *)

(** A call that only reads the file system. *)
Definition fs_read {A} (f : FileSystem -> A) : Proc World A :=
  gets (fun w => f (fs w)).

(** A call that may change it: the new file system is installed when
    the call succeeds. *)
Definition fs_update {A} (f : FileSystem -> Result (A * FileSystem) Errno)
  : Proc World (Result A Errno) :=
  fun w =>
    match f (fs w) with
    | Ok (a, fs') => (set_fs w fs', Done (Ok a))
    | Err e => (w, Done (Err e))
    end.

(** A call that opens a file: the file is held from here on when the
    call succeeds. *)
Definition opening (p : string) (m : Proc World (Result File.t Errno))
  : Proc World (Result File.t Errno) :=
  r <- m ;;
  match r with
  | Ok v => modify (hold p) ;; ret (Ok v)
  | Err e => ret (Err e)
  end.

Definition File_open (p : string) : Proc World (Result File.t Errno) :=
  opening p (fs_read (File.open p)).

(** The end of the scope that owns [f]: the file is closed. *)
Definition File_drop (f : File.t) : Proc World unit :=
  modify (release (File.path f)).

Definition File_metadata_len (f : File.t) : Proc World (Result Z Errno) :=
  fs_read (File.metadata_len f).

Definition File_read_to_end (f : File.t) (buf : list byte)
  : Proc World (Result (File.t * list byte) Errno) :=
  fs_read (File.read_to_end f buf).

Definition File_write_all (f : File.t) (buf : list byte)
  : Proc World (Result File.t Errno) :=
  fs_update (File.write_all f buf).

Definition OpenOptions_open_write_create (p : string)
  : Proc World (Result File.t Errno) :=
  opening p (fs_update (OpenOptions.open_write_create p)).

(** ** What a run may change *)

(** The log of [w'] extends the log of [w]. *)
Definition log_extends (w w' : World) : Prop := log w `prefix_of` log w'.

(** [w'] differs from [w] in the log only, the files held open
    apart. *)
Definition same_but_log (w w' : World) : Prop :=
  env w' = env w /\ args w' = args w /\ fs w' = fs w /\ log_extends w w'.

(** Environment and arguments are never written. *)
Definition inputs_kept (w w' : World) : Prop :=
  env w' = env w /\ args w' = args w.

(** The file system is kept except at [p], and kept entirely when
    something was at [p]. *)
Definition touches_only (p : string) (w w' : World) : Prop :=
  inputs_kept w w' /\ log_extends w w' /\
  (forall q, q <> p -> fs w' !! q = fs w !! q) /\
  (is_Some (fs w !! p) -> fs w' = fs w).

(** The same files are open in [w'] as in [w]. *)
Definition handles_kept (w w' : World) : Prop := handles w' = handles w.

(** Every record of the log is one the compiler accepts. *)
Definition log_wf (w : World) : Prop := Forall record_wf (log w).

#[export] Instance log_wf_dec w : Decision (log_wf w).
Proof. unfold log_wf. apply _. Defined.

(** [w'] has a well-formed log if [w] has. *)
Definition wf_kept (w w' : World) : Prop := log_wf w -> log_wf w'.

(** Every run of [m] relates the initial world to the final one by
    [R], however it ends. *)
Definition preserves {A} (R : relation World) (m : Proc World A) : Prop :=
  forall w, R w (world_of (m w)).

(** Every exit of [m] has status 1 and is preceded by an [Error]
    record. *)
Definition exits_reported {A} (m : Proc World A) : Prop :=
  forall w w' c, m w = (w', Exit c) ->
    c = 1%Z /\
    exists fmt args,
      last (log w') = Some {| level := Error; format := fmt; arguments := args |}.

(** [m] never panics. *)
Definition panic_free {A} (m : Proc World A) : Prop :=
  forall w w' why, m w <> (w', Panic why).

(** A relation every log record keeps. *)
Class LogStable (R : relation World) : Prop :=
  log_stable : forall w r, R w (add_log w r).

#[export] Instance log_extends_preorder : PreOrder log_extends.
Proof. unfold log_extends. split; [by intros w|]. intros w1 w2 w3 ??. by etrans. Qed.

#[export] Instance same_but_log_preorder : PreOrder same_but_log.
Proof.
  split; [by intros w|].
  intros w1 w2 w3 (?&?&?&?) (?&?&?&?). split_and!; [congruence..|by etrans].
Qed.

(** ** Holding and releasing *)

Lemma remove_first_head p l : remove_first p (p :: l) = l.
Proof. cbn. by rewrite decide_True. Qed.

(** Closing the file that was opened last restores the world. *)
Lemma release_hold p w : release p (hold p w) = w.
Proof. destruct w. unfold release, hold, set_handles. cbn. by rewrite decide_True. Qed.

Lemma release_hold_set_fs p w fs' : release p (set_fs (hold p w) fs') = set_fs w fs'.
Proof. destruct w. unfold release, hold, set_handles, set_fs. cbn. by rewrite decide_True. Qed.

Lemma same_but_log_hold p w : same_but_log w (hold p w).
Proof. unfold same_but_log, log_extends. by split_and!. Qed.

Lemma File_open_run p w :
  File_open p w =
  match File.open p (fs w) with
  | Ok v => (hold p w, Done (Ok v))
  | Err e => (w, Done (Err e))
  end.
Proof. unfold File_open, opening, fs_read. proc_unfold. by destruct (File.open p (fs w)). Qed.

Lemma OpenOptions_open_write_create_run p w :
  OpenOptions_open_write_create p w =
  match OpenOptions.open_write_create p (fs w) with
  | Ok (v, fs') => (hold p (set_fs w fs'), Done (Ok v))
  | Err e => (w, Done (Err e))
  end.
Proof.
  unfold OpenOptions_open_write_create, opening, fs_update. proc_unfold.
  by destruct (OpenOptions.open_write_create p (fs w)) as [[v fs']|e].
Qed.

Lemma File_drop_run f w : File_drop f w = (release (File.path f) w, Done tt).
Proof. done. Qed.

#[export] Instance handles_kept_equivalence : Equivalence handles_kept.
Proof.
  unfold handles_kept. split; [by intros w|by intros w1 w2|].
  intros w1 w2 w3 H1 H2. by rewrite H2.
Qed.

Lemma same_but_log_add w r : same_but_log w (add_log w r).
Proof. split_and!; try done. by apply prefix_app_r. Qed.

Lemma same_but_log_extends w w' : same_but_log w w' -> log_extends w w'.
Proof. by intros (_&_&_&?). Qed.

Lemma log_at_run l fmt args w :
  log_at l fmt args w =
  (add_log w {| level := l; format := fmt; arguments := args |}, Done tt).
Proof. done. Qed.

#[export] Instance same_but_log_stable : LogStable same_but_log.
Proof. intros w r. apply same_but_log_add. Qed.

#[export] Instance log_extends_stable : LogStable log_extends.
Proof. intros w r. apply same_but_log_extends, same_but_log_add. Qed.

#[export] Instance touches_only_preorder p : PreOrder (touches_only p).
Proof.
  unfold touches_only, inputs_kept. split.
  - intros w. by split_and!.
  - intros w1 w2 w3 ((He&Ha)&Hl&Hq&Hp) ((He'&Ha')&Hl'&Hq'&Hp').
    split_and!.
    + by rewrite He'.
    + by rewrite Ha'.
    + by etrans.
    + intros q ?. by rewrite Hq', Hq.
    + intros Hs. rewrite Hp', Hp; [done..|]. by rewrite Hp.
Qed.

Lemma same_but_log_touches_only p w w' : same_but_log w w' -> touches_only p w w'.
Proof.
  intros (?&?&Hfs&?). unfold touches_only, inputs_kept.
  split_and!; try done; intros; by rewrite Hfs.
Qed.

#[export] Instance touches_only_stable p : LogStable (touches_only p).
Proof. intros w r. apply same_but_log_touches_only, same_but_log_add. Qed.

#[export] Instance handles_kept_stable : LogStable handles_kept.
Proof. by intros w r. Qed.

(** ** The well-formed log *)

Lemma add_log_wf w r : record_wf r -> log_wf w -> log_wf (add_log w r).
Proof. intros Hr Hw. apply Forall_app. split; [done|by apply Forall_singleton]. Qed.

#[export] Instance wf_kept_preorder : PreOrder wf_kept.
Proof. unfold wf_kept. split; [by intros w|]. intros w1 w2 w3 H1 H2 Hw. auto. Qed.

(** A record that fits keeps the log well formed. *)
Lemma wf_kept_add w l fmt args :
  fmt.fits fmt args ->
  wf_kept w (add_log w {| level := l; format := fmt; arguments := args |}).
Proof. intros Hr Hw. by apply add_log_wf. Qed.

(** So does what leaves the log alone. *)
Lemma wf_kept_eq w w' : log w' = log w -> wf_kept w w'.
Proof. unfold wf_kept, log_wf. by intros ->. Qed.

(** ** Rules for [preserves] *)

Section Preserves.
Context (R : relation World) `{!PreOrder R}.

Lemma preserves_ret {A} (a : A) : preserves R (ret a).
Proof. by intros w. Qed.

Lemma preserves_exit {A} c : preserves R (@exit World A c).
Proof. by intros w. Qed.

Lemma preserves_panic {A} why : preserves R (@panic World A why).
Proof. by intros w. Qed.

Lemma preserves_gets {A} (f : World -> A) : preserves R (gets f).
Proof. by intros w. Qed.

Lemma preserves_unwrap {A} (o : option A) : preserves R (unwrap o).
Proof. destruct o; [apply preserves_ret|apply preserves_panic]. Qed.

Lemma preserves_bind {A B} (m : Proc World A) (k : A -> Proc World B) :
  preserves R m -> (forall a, preserves R (k a)) -> preserves R (bind m k).
Proof.
  intros Hm Hk w. unfold bind, world_of. specialize (Hm w).
  destruct (m w) as [w' [a| |]]; [|done..].
  etrans; [exact Hm|]. apply Hk.
Qed.

Lemma preserves_log_at `{!LogStable R} l fmt args : preserves R (log_at l fmt args).
Proof. intros w. apply log_stable. Qed.

Lemma preserves_fatal `{!LogStable R} {A} fmt args : preserves R (@fatal A fmt args).
Proof. intros w. apply log_stable. Qed.

End Preserves.

Lemma preserves_weaken {A} (R R' : relation World) (m : Proc World A) :
  (forall w w', R w w' -> R' w w') -> preserves R m -> preserves R' m.
Proof. intros HR Hm w. apply HR, Hm. Qed.

(** ** Rules for [exits_reported] and [panic_free] *)

Lemma exits_reported_ret {A} (a : A) : exits_reported (ret a).
Proof. by intros w w' c. Qed.

Lemma exits_reported_panic {A} why : exits_reported (@panic World A why).
Proof. by intros w w' c. Qed.

Lemma exits_reported_gets {A} (f : World -> A) : exits_reported (gets f).
Proof. by intros w w' c. Qed.

Lemma exits_reported_bind {A B} (m : Proc World A) (k : A -> Proc World B) :
  exits_reported m -> (forall a, exits_reported (k a)) -> exits_reported (bind m k).
Proof.
  intros Hm Hk w w' c [?|(w1 & a & _ & ?)]%bind_exit_inv; [by eapply Hm|by eapply Hk].
Qed.

Lemma fatal_run {A} fmt args w :
  @fatal A fmt args w =
  (add_log w {| level := Error; format := fmt; arguments := args |}, Exit 1).
Proof. done. Qed.

Lemma exits_reported_fatal {A} fmt args : exits_reported (@fatal A fmt args).
Proof.
  intros w w' c [= <- <-]. split; [done|]. exists fmt, args. cbn. by rewrite last_snoc.
Qed.

Lemma panic_free_bind {A B} (m : Proc World A) (k : A -> Proc World B) :
  panic_free m -> (forall a, panic_free (k a)) -> panic_free (bind m k).
Proof.
  intros Hm Hk w w' why [?|(w1 & a & _ & ?)]%bind_panic_inv; [by eapply Hm|by eapply Hk].
Qed.

Lemma panic_free_ret {A} (a : A) : panic_free (@ret World A a).
Proof. by intros w w' why. Qed.

Lemma panic_free_exit {A} c : panic_free (@exit World A c).
Proof. by intros w w' why. Qed.

Lemma panic_free_fatal {A} fmt args : panic_free (@fatal A fmt args).
Proof. by intros w w' why. Qed.

#[export] Hint Resolve same_but_log_add same_but_log_extends : proc.
#[export] Hint Resolve preserves_ret preserves_exit preserves_panic preserves_gets
  preserves_unwrap preserves_log_at preserves_fatal : proc.
#[export] Hint Resolve exits_reported_ret exits_reported_panic exits_reported_gets
  exits_reported_fatal panic_free_ret panic_free_exit panic_free_fatal : proc.
