(* ===== verification/Calls.v ===== *)
(** * Runs as trees of calls, and where they can be stopped

    A run written as the calls it makes ([Steps]), the way a free monad
    writes a program over its actions: a call, and a continuation for
    its answer.  A call is one of the two calls of the source that
    change the file system ([Create], the [OpenOptions::open] of line
    156, and [WriteAll], the [write_all] of line 158) or a computation
    that does not ([Quiet]).  [denote] runs a tree as the computation
    it stands for; [marked] is the side condition of the reading: a
    call marked [Quiet] leaves the file system as it found it, however
    it ends.

    [stopped] lists the file systems a run may leave when the process
    is stopped: the one before each call, the one at the end, and,
    inside a [write_all], the ones in which a proper prefix of the
    buffer has reached the file ([torn]: [write_all] is a loop of
    [write]s, each of which may take any part of what is left; the
    other calls are single calls of the operating system).  [leaves]
    is the condition that holds wherever a run is stopped, with a rule
    per constructor and per call.

    [denote_with] runs a tree with another reading of its calls, and
    [cut_short] is the reading on a device that fills up: a
    [write_all] that does not fit leaves what fitted and returns the
    error of the [write] that found no room.  A run all of whose
    writes fit ([fits]) goes as on any device. *)

From Stdlib Require Import ZArith Lia.
From Stdlib.Strings Require Import Byte Ascii String.
From stdpp Require Import base tactics option list gmap strings.
From S2P Require Import Prelude Fmt Collaborators FileSystem World.

#[local] Open Scope string_scope.

Declare Scope steps_scope.
Delimit Scope steps_scope with steps.

Module Calls.

(** ** Calls and trees of calls *)

(** A call of the run: a computation that leaves the file system
    alone, or one of the two calls of [save] that change it. *)
Inductive Call : Type -> Type :=
| Quiet {X} (m : Proc World X) : Call X
| Create (p : string) : Call (Result File.t Errno)
| WriteAll (v : File.t) (buf : list byte) : Call (Result File.t Errno).

(** A run as the calls it makes, each with what follows its answer. *)
Inductive Steps (A : Type) : Type :=
| Return (a : A)
| Step {X} (c : Call X) (k : X -> Steps A).
Arguments Return {A} a.
Arguments Step {A X} c k.

Bind Scope steps_scope with Steps.

Definition call {X} (c : Call X) : Steps X := Step c Return.

Definition quiet {X} (m : Proc World X) : Steps X := call (Quiet m).

(** Sequencing: the second tree is grafted at the leaves of the first. *)
Fixpoint and_then {A B} (s : Steps A) (f : A -> Steps B) : Steps B :=
  match s with
  | Return a => f a
  | Step c k => Step c (fun x => and_then (k x) f)
  end.

Notation "x <- c1 ;; c2" := (and_then c1 (fun x => c2))
  (at level 100, c1 at next level, right associativity) : steps_scope.
Notation "c1 ;; c2" := (and_then c1 (fun _ => c2))
  (at level 100, right associativity) : steps_scope.

(** What a call does when it runs to its end. *)
Definition perform {X} (c : Call X) : Proc World X :=
  match c with
  | Quiet m => m
  | Create p => OpenOptions_open_write_create p
  | WriteAll v buf => File_write_all v buf
  end.

(** The computation a tree stands for. *)
Fixpoint denote {A} (s : Steps A) : Proc World A :=
  match s with
  | Return a => ret a
  | Step c k => bind (perform c) (fun x => denote (k x))
  end.

(** The file system after the first [n] bytes of [buf] were written
    through [v], when the file takes them. *)
Definition written (v : File.t) (buf : list byte) (fs : FileSystem) (n : nat)
  : option FileSystem :=
  snd <$> ok (File.write_all v (take n buf) fs).

(** The computation a tree stands for when its calls go as [run]
    says. *)
Fixpoint denote_with (run : forall X, Call X -> Proc World X) {A} (s : Steps A)
  : Proc World A :=
  match s with
  | Return a => ret a
  | Step c k => bind (run _ c) (fun x => denote_with run (k x))
  end.

(** The calls on a device that has room for [n] more bytes: a
    [write_all] of a longer buffer leaves the first [n] bytes in the
    file and returns the error [e] of the [write] that found the
    device full; a buffer that fits is written, and every other call
    goes as it does. *)
Definition cut_short (n : nat) (e : Errno) (X : Type) (c : Call X) : Proc World X :=
  match c in Call X return Proc World X with
  | Quiet m => m
  | Create p => OpenOptions_open_write_create p
  | WriteAll v buf => fun w =>
      match written v buf (fs w) n with
      | Some f =>
          if decide (n < length buf) then (set_fs w f, Done (Err e))
          else File_write_all v buf w
      | None => File_write_all v buf w
      end
  end.

(** Every [write_all] the run of [s] from [w] comes to has a buffer of
    [n] bytes at most. *)
Definition call_fits (n : nat) {X} (c : Call X) : Prop :=
  match c with
  | WriteAll _ buf => length buf <= n
  | _ => True
  end.

Fixpoint fits (n : nat) {A} (s : Steps A) (w : World) : Prop :=
  match s with
  | Return _ => True
  | Step c k =>
      call_fits n c /\
      match perform c w with
      | (w', Done x) => fits n (k x) w'
      | _ => True
      end
  end.

(** The file systems a call may leave when it is stopped half way:
    none for a call the operating system performs at once; for
    [write_all], those in which a proper prefix of the buffer, of one
    byte at least, has been written. *)
Definition torn {X} (c : Call X) (fs : FileSystem) : list FileSystem :=
  match c with
  | WriteAll v buf => omap (written v buf fs) (seq 1 (length buf - 1))
  | _ => []
  end.

(** The file systems a run from [w] may leave: the one each call
    starts in, the ones a call may tear, and the one the run ends in,
    whether it returns, exits or panics. *)
Fixpoint stopped {A} (s : Steps A) (w : World) : list FileSystem :=
  match s with
  | Return _ => [fs w]
  | Step c k =>
      fs w :: torn c (fs w) ++
      match perform c w with
      | (w', Done x) => stopped (k x) w'
      | (w', _) => [fs w']
      end
  end.

(** The file system is the one of before. *)
Definition fs_kept (w w' : World) : Prop := fs w' = fs w.

(** The calls marked [Quiet] keep the file system. *)
Inductive marked {A} : Steps A -> Prop :=
| marked_Return a : marked (Return a)
| marked_Quiet {X} (m : Proc World X) k :
    preserves fs_kept m -> (forall x, marked (k x)) -> marked (Step (Quiet m) k)
| marked_Create p k : (forall x, marked (k x)) -> marked (Step (Create p) k)
| marked_WriteAll v buf k : (forall x, marked (k x)) -> marked (Step (WriteAll v buf) k).

(** Every file system a run of [s] from [w] may leave satisfies [P]:
    the condition holds wherever the run is stopped. *)
Definition leaves {A} (s : Steps A) (w : World) (P : FileSystem -> Prop) : Prop :=
  Forall P (stopped s w).

(** ** Laws of the trees *)

#[export] Instance fs_kept_preorder : PreOrder fs_kept.
Proof. unfold fs_kept. split; [by intros w|]. intros w1 w2 w3 H1 H2. by rewrite H2. Qed.

#[export] Instance fs_kept_stable : LogStable fs_kept.
Proof. by intros w r. Qed.

(** [denote] takes the sequencing of trees to the sequencing of
    computations. *)
Lemma denote_and_then {A B} (s : Steps A) (f : A -> Steps B) :
  denote (and_then s f) ≡ bind (denote s) (fun a => denote (f a)).
Proof.
  induction s as [a|X c k IH]; intros w; [done|]. cbn. unfold bind.
  destruct (perform c w) as [w' [x| |]]; [apply IH|done..].
Qed.

Lemma denote_quiet {X} (m : Proc World X) : denote (quiet m) ≡ m.
Proof. apply bind_ret_r. Qed.

(** A run may be stopped before its first call. *)
Lemma stopped_first {A} (s : Steps A) w : fs w ∈ stopped s w.
Proof. destruct s; apply list_elem_of_here. Qed.

(** The last file system a run may leave is the one it ends in. *)
Lemma stopped_last {A} (s : Steps A) w : fs (world_of (denote s w)) ∈ stopped s w.
Proof.
  revert w. induction s as [a|X c k IH]; intros w; [apply list_elem_of_here|].
  cbn. unfold bind. apply list_elem_of_further, elem_of_app. right.
  destruct (perform c w) as [w' [x| |]]; [apply IH|apply list_elem_of_here..].
Qed.

(** The states of a sequence: those of its first half, then those of
    the second from where the first returned. *)
Lemma elem_of_stopped_and_then {A B} (s : Steps A) (f : A -> Steps B) w x :
  x ∈ stopped (and_then s f) w <->
  x ∈ stopped s w \/ exists w' a, denote s w = (w', Done a) /\ x ∈ stopped (f a) w'.
Proof.
  revert w. induction s as [a|X c k IH]; intros w; cbn.
  - rewrite list_elem_of_singleton. split.
    + intros Hx. right. by eexists _, _.
    + intros [->|(w' & a' & [= <- <-] & Hx)]; [apply stopped_first|done].
  - unfold bind. rewrite !elem_of_cons, !elem_of_app.
    destruct (perform c w) as [w' [y| |]]; [rewrite IH|..]; naive_solver.
Qed.

(** ** Rules for [leaves] *)

Section Leaves.
Context {A : Type} (P : FileSystem -> Prop).

Lemma leaves_Return (a : A) w : P (fs w) -> leaves (Return a) w P.
Proof. intros. by apply Forall_singleton. Qed.

Lemma leaves_last (s : Steps A) w : leaves s w P -> P (fs (world_of (denote s w))).
Proof. intros H. eapply Forall_forall; [exact H|apply stopped_last]. Qed.

(** A call that writes: the condition holds before it, in every state
    it may tear, and where it ends; what follows starts from there. *)
Lemma leaves_Step {X} (c : Call X) (k : X -> Steps A) w :
  P (fs w) -> Forall P (torn c (fs w)) -> P (fs (world_of (perform c w))) ->
  (forall w' x, perform c w = (w', Done x) -> leaves (k x) w' P) ->
  leaves (Step c k) w P.
Proof.
  intros H0 Ht H1 Hk. unfold leaves. cbn.
  apply Forall_cons. split; [done|]. apply Forall_app. split; [done|].
  destruct (perform c w) as [w' [x| |]]; [by apply Hk|by apply Forall_singleton..].
Qed.

(** A call that is quiet keeps the condition. *)
Lemma leaves_quiet (m : Proc World A) w :
  preserves fs_kept m -> P (fs w) -> leaves (quiet m) w P.
Proof.
  intros Hm H0. pose proof (Hm w) as Hw. unfold fs_kept in Hw.
  apply leaves_Step; [done|by apply Forall_nil|by cbn [perform]; rewrite Hw|].
  intros w' x Hx. apply leaves_Return. cbn [perform] in Hx.
  rewrite Hx in Hw. cbn in Hw. by rewrite Hw.
Qed.

End Leaves.

(** Sequencing: the second half starts where the first returned, and
    the condition holds there. *)
Lemma leaves_and_then {A B} (P : FileSystem -> Prop) (s : Steps A) (f : A -> Steps B) w :
  leaves s w P ->
  (forall w' a, denote s w = (w', Done a) -> P (fs w') -> leaves (f a) w' P) ->
  leaves (and_then s f) w P.
Proof.
  intros Hs Hf. apply Forall_forall. intros x.
  intros [Hx|(w' & a & Hd & Hx)]%elem_of_stopped_and_then.
  - eapply Forall_forall; [exact Hs|done].
  - eapply Forall_forall; [|exact Hx]. apply Hf; [done|].
    apply leaves_last in Hs. by rewrite Hd in Hs.
Qed.

(** A quiet call, then the rest from a world with the same files. *)
Lemma leaves_quiet_then {X B} (P : FileSystem -> Prop) (m : Proc World X)
    (f : X -> Steps B) w :
  preserves fs_kept m -> P (fs w) ->
  (forall w' a, m w = (w', Done a) -> fs w' = fs w -> leaves (f a) w' P) ->
  leaves (and_then (quiet m) f) w P.
Proof.
  intros Hm H0 Hf. apply leaves_and_then; [by apply leaves_quiet|].
  intros w' a Hd _. rewrite denote_quiet in Hd. apply Hf; [done|].
  specialize (Hm w). by rewrite Hd in Hm.
Qed.

(** Rules for a condition that holds of the file system [f0] the run
    started in, in a world that still has it. *)
Section Unchanged.
Context (P : FileSystem -> Prop) (f0 : FileSystem) (H0 : P f0).

Lemma leaves_quiet_at {X} (m : Proc World X) w :
  fs w = f0 -> preserves fs_kept m -> leaves (quiet m) w P.
Proof. intros Hw Hm. apply leaves_quiet; [done|by rewrite Hw]. Qed.

Lemma leaves_quiet_then_at {X B} (m : Proc World X) (f : X -> Steps B) w :
  fs w = f0 -> preserves fs_kept m ->
  (forall w' a, fs w' = f0 -> m w = (w', Done a) -> leaves (f a) w' P) ->
  leaves (and_then (quiet m) f) w P.
Proof.
  intros Hw Hm Hk. apply leaves_quiet_then; [done|by rewrite Hw|].
  intros w' a Ha Hw'. apply Hk; [congruence|done].
Qed.

(** A fatal branch: the record, then the exit. *)
Lemma leaves_fatal {B} fmt args w :
  fs w = f0 -> leaves (A := B) (and_then (quiet (error fmt args)) (fun _ => quiet (exit 1))) w P.
Proof.
  intros Hw. apply leaves_quiet_then_at; [done|by intros ?|].
  intros w' _ Hw' _. apply leaves_quiet_at; [done|by intros ?].
Qed.

End Unchanged.

(** ** The calls of the source that keep the file system *)

Lemma kept_log_at l fmt args : preserves fs_kept (log_at l fmt args).
Proof. by intros w. Qed.

Lemma kept_exit {A} c : preserves fs_kept (@exit World A c).
Proof. by intros w. Qed.

Lemma kept_File_open p : preserves fs_kept (File_open p).
Proof. intros w. rewrite File_open_run. by destruct (File.open p (fs w)). Qed.

Lemma kept_File_drop v : preserves fs_kept (File_drop v).
Proof. by intros w. Qed.

(** ** Rules for [marked] *)

Lemma marked_and_then {A B} (s : Steps A) (f : A -> Steps B) :
  marked s -> (forall a, marked (f a)) -> marked (and_then s f).
Proof. intros Hs Hf. induction Hs; cbn; [done|constructor; auto..]. Qed.

Lemma marked_quiet {X} (m : Proc World X) : preserves fs_kept m -> marked (quiet m).
Proof. intros. apply marked_Quiet; [done|]. intros x. constructor. Qed.

(** ** The two calls that write *)

Lemma written_all v buf fs v' fs' :
  File.write_all v buf fs = Ok (v', fs') -> written v buf fs (length buf) = Some fs'.
Proof. intros H. unfold written. by rewrite firstn_all, H. Qed.

(** [OpenOptions::open] is one call of the operating system: the file
    is there or it is not. *)
Lemma leaves_Create {A} (P : FileSystem -> Prop) path (k : _ -> Steps A) w :
  P (fs w) ->
  (forall e, OpenOptions.open_write_create path (fs w) = Err e -> leaves (k (Err e)) w P) ->
  (forall v fs1, OpenOptions.open_write_create path (fs w) = Ok (v, fs1) ->
     P fs1 /\ leaves (k (Ok v)) (hold path (set_fs w fs1)) P) ->
  leaves (Step (Create path) k) w P.
Proof.
  intros H0 He Hv. apply leaves_Step; [done|by apply Forall_nil|..];
    cbn [perform]; rewrite OpenOptions_open_write_create_run;
    destruct (OpenOptions.open_write_create path (fs w)) as [[v fs1]|e] eqn:Ho.
  - by destruct (Hv v fs1 eq_refl).
  - done.
  - intros w' x [= <- <-]. by destruct (Hv v fs1 eq_refl).
  - intros w' x [= <- <-]. by apply He.
Qed.

(** [write_all] may be stopped after any part of the buffer. *)
Lemma leaves_WriteAll {A} (P : FileSystem -> Prop) v buf (k : _ -> Steps A) w :
  P (fs w) ->
  (forall n f, n <= length buf -> written v buf (fs w) n = Some f -> P f) ->
  (forall e, File.write_all v buf (fs w) = Err e -> leaves (k (Err e)) w P) ->
  (forall v' fs2, File.write_all v buf (fs w) = Ok (v', fs2) ->
     leaves (k (Ok v')) (set_fs w fs2) P) ->
  leaves (Step (WriteAll v buf) k) w P.
Proof.
  intros H0 Hn He Hv. apply leaves_Step; [done|..].
  - apply Forall_forall. intros f (n & [_ Hlt]%elem_of_seq & Hf)%list_elem_of_omap.
    apply (Hn n); [lia|done].
  - cbn [perform]. unfold File_write_all, fs_update.
    destruct (File.write_all v buf (fs w)) as [[v' fs2]|e] eqn:Hw; [|done].
    eapply Hn; [done|by eapply written_all].
  - cbn [perform]. unfold File_write_all, fs_update. intros w' x.
    destruct (File.write_all v buf (fs w)) as [[v' fs2]|e] eqn:Hw; intros [= <- <-]; eauto.
Qed.

(** ** [torn] and the loop of [write_all] *)

(** The states [torn] lists are states the loop of [write_all] passes
    through, each for some choice of what the [write]s take. *)
Lemma torn_reached v buf fs x :
  x ∈ torn (WriteAll v buf) fs ->
  exists sizes, x ∈ File.write_all_states (length buf) sizes v buf fs.
Proof.
  cbn [torn]. intros (n & [Hn1 Hn2]%elem_of_seq & Hx)%list_elem_of_omap.
  unfold written in Hx.
  destruct (File.write_all v (take n buf) fs) as [[f' x']|] eqn:Hw; [|done].
  injection Hx as ->. exists (fun _ => n).
  destruct (length buf) as [|len] eqn:Hlen; [lia|].
  eapply write_all_states_reached; [lia|done].
Qed.

(** And the loop passes through no other state on its way: what a
    [write] leaves is a state of [torn], or the buffer is written. *)
Lemma loop_state_torn fuel sizes v buf fs x :
  x ∈ File.write_all_states fuel sizes v buf fs ->
  x ∈ torn (WriteAll v buf) fs \/ written v buf fs (length buf) = Some x.
Proof.
  intros (n & f' & Hn & Hw)%write_all_states_prefix.
  assert (written v buf fs n = Some x) as Hx by (unfold written; by rewrite Hw).
  destruct (decide (n = length buf)) as [->|]; [by right|left].
  apply list_elem_of_omap. exists n. split; [apply elem_of_seq; lia|done].
Qed.

(** ** States that are reached *)

Lemma stopped_and_then_first {A B} (s : Steps A) (f : A -> Steps B) w x :
  x ∈ stopped s w -> x ∈ stopped (and_then s f) w.
Proof. intros. apply elem_of_stopped_and_then. by left. Qed.

Lemma stopped_and_then_later {A B} (s : Steps A) (f : A -> Steps B) w w' a x :
  denote s w = (w', Done a) -> x ∈ stopped (f a) w' -> x ∈ stopped (and_then s f) w.
Proof. intros. apply elem_of_stopped_and_then. right. by exists w', a. Qed.

Lemma stopped_quiet_later {X B} (m : Proc World X) (f : X -> Steps B) w w' a x :
  m w = (w', Done a) -> x ∈ stopped (f a) w' -> x ∈ stopped (and_then (quiet m) f) w.
Proof. intros Hm. apply stopped_and_then_later. by rewrite denote_quiet. Qed.

(** ** A device that fills up *)

Lemma denote_with_perform {A} (s : Steps A) : denote_with (@perform) s ≡ denote s.
Proof.
  induction s as [a|X c k IH]; [done|]. cbn. apply bind_proper; [done|exact IH].
Qed.

Lemma denote_with_and_then run {A B} (s : Steps A) (f : A -> Steps B) :
  denote_with run (and_then s f) ≡
  bind (denote_with run s) (fun a => denote_with run (f a)).
Proof.
  induction s as [a|X c k IH]; intros w; [done|]. cbn. unfold bind.
  destruct (run X c w) as [w' [x| |]]; [apply IH|done..].
Qed.

(** A buffer that fits is written as on any device. *)
Lemma cut_short_fits n e v buf :
  length buf <= n -> cut_short n e _ (WriteAll v buf) ≡ File_write_all v buf.
Proof.
  intros Hn w. cbn. destruct (written v buf (fs w) n); [|done].
  by rewrite decide_False by lia.
Qed.

(** One that does not is cut where the room ends, and what it leaves is
    one of the states a stopped [write_all] leaves. *)
Lemma cut_short_torn n e v buf w :
  0 < n < length buf ->
  let r := cut_short n e _ (WriteAll v buf) w in
  fs (world_of r) ∈ torn (WriteAll v buf) (fs w) /\ outcome_of r = Done (Err e) \/
  r = File_write_all v buf w.
Proof.
  intros Hn r. unfold r. cbn [cut_short].
  destruct (written v buf (fs w) n) as [f|] eqn:Hf; [|by right].
  rewrite decide_True by lia. left. split; [|done].
  apply list_elem_of_omap. exists n. split; [apply elem_of_seq; lia|done].
Qed.

(** Stepping through a run on such a device. *)
Lemma cut_quiet_then n e {X B} (m : Proc World X) (f : X -> Steps B) w w' a :
  m w = (w', Done a) ->
  denote_with (cut_short n e) (and_then (quiet m) f) w = denote_with (cut_short n e) (f a) w'.
Proof. intros Hm. cbn. unfold bind. by rewrite Hm. Qed.

Lemma cut_and_then n e {A B} (s : Steps A) (f : A -> Steps B) w w' a :
  denote_with (cut_short n e) s w = (w', Done a) ->
  denote_with (cut_short n e) (and_then s f) w = denote_with (cut_short n e) (f a) w'.
Proof. intros Hs. rewrite denote_with_and_then. unfold bind. by rewrite Hs. Qed.

Lemma cut_and_then_exit n e {A B} (s : Steps A) (f : A -> Steps B) w w' c :
  denote_with (cut_short n e) s w = (w', Exit c) ->
  denote_with (cut_short n e) (and_then s f) w = (w', Exit c).
Proof. intros Hs. rewrite denote_with_and_then. unfold bind. by rewrite Hs. Qed.

(** A run whose writes fit goes as on any device. *)
Lemma cut_short_call_fits n e {X} (c : Call X) :
  call_fits n c -> cut_short n e _ c ≡ perform c.
Proof. destruct c; [done..|]. apply cut_short_fits. Qed.

Lemma cut_fits n e {A} (s : Steps A) w :
  fits n s w -> denote_with (cut_short n e) s w = denote s w.
Proof.
  revert w. induction s as [a|X c k IH]; intros w; [done|]. intros [Hc Hk]. cbn.
  unfold bind. rewrite (cut_short_call_fits n e c Hc w).
  destruct (perform c w) as [w' [x| |]]; [by apply IH|done..].
Qed.

Lemma fits_and_then n {A B} (s : Steps A) (f : A -> Steps B) w :
  fits n s w -> (forall w' a, denote s w = (w', Done a) -> fits n (f a) w') ->
  fits n (and_then s f) w.
Proof.
  revert w. induction s as [a|X c k IH]; intros w; cbn; [by intros _ Hf; apply Hf|].
  intros [Hc Hk] Hf. split; [done|]. unfold bind in Hf.
  destruct (perform c w) as [w' [x| |]]; [by apply IH|done..].
Qed.

Lemma fits_quiet n {X} (m : Proc World X) w : fits n (quiet m) w.
Proof. cbn. split; [done|]. by destruct (m w) as [w' [x| |]]. Qed.

Lemma fits_quiet_then n {X B} (m : Proc World X) (f : X -> Steps B) w :
  (forall w' a, m w = (w', Done a) -> fits n (f a) w') -> fits n (and_then (quiet m) f) w.
Proof.
  intros Hf. apply fits_and_then; [apply fits_quiet|].
  intros w' a Hd. rewrite denote_quiet in Hd. by apply Hf.
Qed.

(** A fatal branch writes nothing. *)
Lemma fits_fatal n {B} fmt args w :
  fits (A := B) n (and_then (quiet (error fmt args)) (fun _ => quiet (exit 1))) w.
Proof. apply fits_quiet_then. intros. apply fits_quiet. Qed.

End Calls.
