(* ===== verification/Environment.v ===== *)
(** * The environment layer

    [struct EnvironmentConfiguration] and [EnvironmentConfiguration::new]
    ([mod.rs], lines 16-28 and 87-133): one optional field per variable,
    a variable that is unset, not Unicode, or does not parse giving
    [None].

    [new] is written as the source writes it, one nested [match] per
    variable.  The readers [var_url], [var_path] and [var_u64] are the
    shared shape of those matches (the specification's "source reader");
    [new_by_readers] shows that [new] is their composition, and the
    theorems on [new] are proved through them, the lifetime round trip
    apart, which is proved on the matches themselves. *)

From Stdlib Require Import ZArith Lia.
From Stdlib.Strings Require Import Byte Ascii String.
From stdpp Require Import base tactics option list gmap strings.
From S2P Require Import Prelude Numbers Fmt Collaborators FileSystem World.

#[local] Open Scope proc_scope.
#[local] Open Scope string_scope.
#[local] Open Scope Z_scope.

Module EnvironmentConfiguration.

Section WithUrl.
Context {url : UrlParser}.

Record t : Type := {
  server_addr : option Url;
  database_addr : option Url;
  authkey_path : option string;
  session_expiration : option Z;
  configuration_path : option string;
}.

#[global] Instance eq_dec : EqDecision t.
Proof. solve_decision. Defined.

(** Every lifetime the layer holds is a [u64]. *)
Definition wf (c : t) : Prop :=
  forall v, session_expiration c = Some v -> is_u64 v.

(** [EnvironmentConfiguration::new]. *)
Definition new : Proc World t :=
  server_addr <-
    (r <- env_var "MAELSTROM_SERVER_ADDRESS" ;;
     ret match r with
         | Ok v => match url_parse v with
                   | Some v => Some v
                   | None => None
                   end
         | Err _ => None
         end) ;;
  database_addr <-
    (r <- env_var "MAELSTROM_DATABASE_ADDRESS" ;;
     ret match r with
         | Ok v => match url_parse v with
                   | Some v => Some v
                   | None => None
                   end
         | Err _ => None
         end) ;;
  authkey_path <-
    (r <- env_var "MAELSTROM_AUTHKEY_PATH" ;;
     ret match r with
         | Ok v => Some (PathBuf_from v)
         | Err _ => None
         end) ;;
  session_expiration <-
    (r <- env_var "MAELSTROM_SESSION_EXPIRATION" ;;
     ret match r with
         | Ok v => match u64_from_str v with
                   | Ok v => Some v
                   | Err _ => None
                   end
         | Err _ => None
         end) ;;
  configuration_path <-
    (r <- env_var "MAELSTROM_CONF_PATH" ;;
     ret match r with
         | Ok v => Some (PathBuf_from v)
         | Err _ => None
         end) ;;
  ret {| server_addr := server_addr;
         database_addr := database_addr;
         authkey_path := authkey_path;
         session_expiration := session_expiration;
         configuration_path := configuration_path |}.

(** ** The source reader *)

(** The text of a variable, when it is set and Unicode. *)
Definition var (e : gmap string OsString) (key : string) : option string :=
  match e !! key with
  | Some (Unicode v) => Some v
  | _ => None
  end.

Definition var_url (e : gmap string OsString) (key : string) : option Url :=
  v ← var e key; url_parse v.

Definition var_path (e : gmap string OsString) (key : string) : option string :=
  PathBuf_from <$> var e key.

Definition var_u64 (e : gmap string OsString) (key : string) : option Z :=
  v ← var e key; ok (u64_from_str v).

(** The layer as a function of the environment. *)
Definition of_env (e : gmap string OsString) : t :=
  {| server_addr := var_url e "MAELSTROM_SERVER_ADDRESS";
     database_addr := var_url e "MAELSTROM_DATABASE_ADDRESS";
     authkey_path := var_path e "MAELSTROM_AUTHKEY_PATH";
     session_expiration := var_u64 e "MAELSTROM_SESSION_EXPIRATION";
     configuration_path := var_path e "MAELSTROM_CONF_PATH" |}.

(** The variables the layer reads. *)
Definition variables : list string :=
  [ "MAELSTROM_SERVER_ADDRESS"; "MAELSTROM_DATABASE_ADDRESS";
    "MAELSTROM_AUTHKEY_PATH"; "MAELSTROM_SESSION_EXPIRATION";
    "MAELSTROM_CONF_PATH" ].

(** A value the variable's parser refuses: a URL that does not parse, a
    lifetime that is no [u64].  Paths are never refused. *)
Definition malformed (key v : string) : Prop :=
  (key = "MAELSTROM_SERVER_ADDRESS" /\ url_parse v = None) \/
  (key = "MAELSTROM_DATABASE_ADDRESS" /\ url_parse v = None) \/
  (key = "MAELSTROM_SESSION_EXPIRATION" /\ ok (u64_from_str v) = None).

(** A value the layer cannot use: bytes that are not Unicode, whatever
    the variable, or text the variable's parser refuses. *)
Definition unusable (key : string) (o : OsString) : Prop :=
  match o with
  | NonUnicode _ => True
  | Unicode v => malformed key v
  end.

(** ** The readers *)

Lemma var_insert_eq e key v : var (<[key := Unicode v]> e) key = Some v.
Proof. unfold var. by rewrite lookup_insert_eq. Qed.

Lemma var_insert_ne e key key' o : key <> key' -> var (<[key := o]> e) key' = var e key'.
Proof. intros Hne. unfold var. by rewrite lookup_insert_ne. Qed.

Lemma var_delete_eq e key : var (delete key e) key = None.
Proof. unfold var. by rewrite lookup_delete_eq. Qed.

Lemma var_delete_ne e key key' : key <> key' -> var (delete key e) key' = var e key'.
Proof. intros Hne. unfold var. by rewrite lookup_delete_ne. Qed.

Lemma var_non_unicode e key raw : var (<[key := NonUnicode raw]> e) key = None.
Proof. unfold var. by rewrite lookup_insert_eq. Qed.

(** The lifetime reader on a variable that is set and Unicode. *)
Lemma var_u64_Unicode e key s :
  e !! key = Some (Unicode s) -> var_u64 e key = ok (u64_from_str s).
Proof. unfold var_u64, var. by intros ->. Qed.

(** What [std::env::var] returns, in terms of [var]. *)
Lemma env_var_var key w :
  env_var key w =
  (w, Done match env w !! key with
           | None => Err NotPresent
           | Some (Unicode v) => Ok v
           | Some (NonUnicode _) => Err NotUnicode
           end).
Proof. done. Qed.

(** Two environments that agree on a variable give the same readings. *)
Lemma var_ext e1 e2 key : e1 !! key = e2 !! key -> var e1 key = var e2 key.
Proof. unfold var. by intros ->. Qed.

Lemma of_env_ext e1 e2 :
  Forall (fun key => var e1 key = var e2 key) variables -> of_env e1 = of_env e2.
Proof.
  unfold variables. rewrite !Forall_cons.
  intros (H1 & H2 & H3 & H4 & H5 & _).
  unfold of_env, var_url, var_path, var_u64. by rewrite H1, H2, H3, H4, H5.
Qed.

(** ** [new] *)

(** C4: the lifetime round trip: when MAELSTROM_SESSION_EXPIRATION
    holds the decimal text of a [u64], whichever it is,
    [EnvironmentConfiguration::new] returns, changes nothing, and its
    lifetime is that number.  Proved on the nested matches of [new]
    themselves. *)
Theorem new_reads_lifetime w n :
  is_u64 n ->
  env w !! "MAELSTROM_SESSION_EXPIRATION" = Some (Unicode (u64_to_string n)) ->
  exists c, new w = (w, Done c) /\ session_expiration c = Some n.
Proof.
  intros Hn Hv. unfold new. proc_unfold. cbn [fst snd].
  eexists. split; [reflexivity|]. cbn [session_expiration].
  by rewrite Hv, u64_from_str_to_string.
Qed.

(** [EnvironmentConfiguration::new] changes nothing and returns the
    layer the five readers compute from the environment: each nested
    [match] of the source is the reader of its variable. *)
Lemma new_by_readers w : new w = (w, Done (of_env (env w))).
Proof.
  unfold new, of_env, var_url, var_path, var_u64, var.
  proc_unfold. cbn.
  do 3 f_equal; destruct (env w !! _) as [[v|raw]|]; cbn; try done; by case_match.
Qed.

(** Every lifetime the readers return is in the range of [u64]:
    [u64::from_str] refuses what does not fit. *)
Lemma of_env_wf e : wf (of_env e).
Proof.
  intros v. unfold of_env, var_u64; cbn.
  destruct (var e _) as [s|]; cbn; [|done].
  destruct (u64_from_str s) as [n|] eqn:E; cbn; [|done].
  intros [= <-]. by eapply u64_from_str_range.
Qed.

(** Setting a variable to text its parser refuses gives the layer that
    unsetting it gives. *)
Lemma malformed_is_absent e key v :
  malformed key v -> of_env (<[key := Unicode v]> e) = of_env (delete key e).
Proof.
  intros Hbad. unfold of_env, var_url, var_path, var_u64.
  destruct Hbad as [[-> Hv]|[[-> Hv]|[-> Hv]]];
    rewrite var_insert_eq, var_delete_eq; cbn; rewrite Hv;
    by rewrite !var_insert_ne, !var_delete_ne.
Qed.

(** A value that is not Unicode is the same as no value, for every
    variable. *)
Lemma non_unicode_is_absent e key raw :
  of_env (<[key := NonUnicode raw]> e) = of_env (delete key e).
Proof.
  apply of_env_ext, Forall_forall. intros key' _.
  destruct (decide (key = key')) as [<-|Hne].
  - by rewrite var_non_unicode, var_delete_eq.
  - by rewrite var_insert_ne, var_delete_ne.
Qed.

(** ** The layer [new] returns *)

(** C23: [EnvironmentConfiguration::new] always returns, changes
    nothing (not even the log: a refused value is not reported), and
    the lifetime of the layer it returns, if any, is in the range of
    [u64]. *)
Theorem new_wf w : exists c, new w = (w, Done c) /\ wf c.
Proof. eexists. split; [apply new_by_readers|apply of_env_wf]. Qed.

(** C24: a value the layer cannot use is the same as no value: a run
    of [EnvironmentConfiguration::new] where a variable holds bytes
    that are not Unicode ([std::env::var] returns [NotUnicode]), or
    text its parser refuses (a URL that does not parse, a lifetime that
    is no [u64]), returns the layer of a run where that variable is
    unset.  Nothing is logged in either case. *)
Theorem new_malformed_is_absent w1 w2 key o :
  unusable key o ->
  env w1 = <[key := o]> (env w2) -> env w2 !! key = None ->
  outcome_of (new w1) = outcome_of (new w2).
Proof.
  intros Hbad H1 H2. rewrite !new_by_readers. cbn. f_equal. rewrite H1.
  destruct o as [v|raw]; [rewrite malformed_is_absent by done|
                          rewrite non_unicode_is_absent]; by rewrite delete_id.
Qed.

(** A lifetime that does not fit in 64 bits is refused, however
    long its text: when MAELSTROM_SESSION_EXPIRATION holds digits whose
    value exceeds [u64::MAX], the layer has no lifetime. *)
Lemma new_refuses_overflowing_lifetime w s :
  all_digits s -> u64_MAX < digits_value s 0 ->
  env w !! "MAELSTROM_SESSION_EXPIRATION" = Some (Unicode s) ->
  exists c, new w = (w, Done c) /\ session_expiration c = None.
Proof.
  intros Hs Hbig Hv. eexists. split; [apply new_by_readers|].
  unfold of_env. cbn [session_expiration].
  by rewrite (var_u64_Unicode _ _ _ Hv), u64_from_str_overflow.
Qed.

(** C39: the lifetime the environment layer reads, against the
    reference: when MAELSTROM_SESSION_EXPIRATION holds the text [s],
    the layer's lifetime is [n] exactly when [s] denotes [n], that is
    when [s] is one or more decimal digits, with at most one [+] before
    them, whose value is [n] and fits in 64 bits.  Every other text (a
    minus sign, a space, a digit too many) gives no lifetime. *)
Theorem new_lifetime_spec w s n :
  env w !! "MAELSTROM_SESSION_EXPIRATION" = Some (Unicode s) ->
  (exists c, new w = (w, Done c) /\ session_expiration c = Some n) <-> denotes s n.
Proof.
  intros Hv. rewrite <- u64_from_str_Ok, new_by_readers. split.
  - intros (c & [= <-] & Hc). revert Hc. unfold of_env. cbn [session_expiration].
    rewrite (var_u64_Unicode _ _ _ Hv). by destruct (u64_from_str s) as [m|]; intros [= ->].
  - intros Hs. eexists. split; [done|]. unfold of_env. cbn [session_expiration].
    by rewrite (var_u64_Unicode _ _ _ Hv), Hs.
Qed.

End WithUrl.

End EnvironmentConfiguration.
