(* ===== verification/Cli.v ===== *)
(** * The command-line layer

    [struct CliConfiguration] ([mod.rs], lines 30-42) and its
    [from_args], which [#[derive(StructOpt)]] generates.  The generated
    parser is a collaborator: [ArgParser] is its interface, a function
    from the argument list to a configuration or to the exit the parser
    performs itself (usage errors, [--help]).  The one law is what the
    field types give: a parsed lifetime is a [u64]. *)

From Stdlib Require Import ZArith Lia.
From Stdlib.Strings Require Import Byte Ascii String.
From stdpp Require Import base tactics option list gmap strings.
From S2P Require Import Prelude Numbers Fmt Collaborators FileSystem World.

#[local] Open Scope proc_scope.

Module CliConfiguration.

Section WithUrl.
Context {url : UrlParser}.

Record t : Type := {
  server_addr : option Url;
  database_addr : option Url;
  authkey_path : option string;
  session_expiration : option Z;
  configuration_path : option string;
}.

#[global] Instance eq_dec : EqDecision t.
Proof. solve_decision. Defined.

Definition wf (c : t) : Prop :=
  forall v, session_expiration c = Some v -> is_u64 v.

(** The parser [StructOpt] derives for [t]. *)
Class ArgParser : Type := {
  parse_args : list string -> Outcome t;
  parse_args_wf : forall a c, parse_args a = Done c -> wf c;
}.

(** [CliConfiguration::from_args]: the derived parser on the process's
    arguments. *)
Definition from_args {cli_parser : ArgParser} : Proc World t :=
  fun w => (w, parse_args (args w)).

(** ** A reference parser

    The fields of the struct carry no [structopt] attribute, which makes
    them positional arguments, in the order of declaration.  The
    reference parser binds up to five positional arguments to the five
    fields, refuses a value its field's type does not parse (status 1),
    a sixth argument (status 1) and an unknown option (status 1), and
    exits with status 0 on a help or version flag.  It makes no claim to
    be [structopt] beyond that. *)

(** How the first argument that is a flag, or a sixth positional one,
    ends the parse; [None] when the arguments are at most five
    positional values. *)
Fixpoint usage_exit (a : list string) (free : nat) : option Z :=
  match a with
  | [] => None
  | s :: rest =>
      if bool_decide (s ∈ ["-h"; "--help"; "-V"; "--version"]%string) then Some 0%Z
      else if String.prefix "-" s && negb (String.eqb s "-") then Some 1%Z
      else match free with
           | O => Some 1%Z
           | S free' => usage_exit rest free'
           end
  end.

(** One positional value: absent, parsed, or refused ([None]). *)
Definition positional {A} (parse : string -> option A) (arg : option string)
  : option (option A) :=
  match arg with
  | None => Some None
  | Some s => Some <$> parse s
  end.

Definition reference_parse (a : list string) : Outcome t :=
  match usage_exit a 5 with
  | Some code => Exit code
  | None =>
      match positional url_parse (a !! 0),
            positional url_parse (a !! 1),
            positional (fun s => Some (PathBuf_from s)) (a !! 2),
            positional (fun s => ok (u64_from_str s)) (a !! 3),
            positional (fun s => Some (PathBuf_from s)) (a !! 4) with
      | Some server, Some database, Some key, Some lifetime, Some conf =>
          Done {| server_addr := server;
                  database_addr := database;
                  authkey_path := key;
                  session_expiration := lifetime;
                  configuration_path := conf |}
      | _, _, _, _, _ => Exit 1
      end
  end.

Lemma reference_parse_wf a c : reference_parse a = Done c -> wf c.
Proof.
  unfold reference_parse. destruct (usage_exit a 5); [done|].
  destruct (positional url_parse (a !! 0)); [|done].
  destruct (positional url_parse (a !! 1)); [|done].
  destruct (positional _ (a !! 2)); [|done].
  destruct (positional _ (a !! 3)) as [lifetime|] eqn:E; [|done].
  destruct (positional _ (a !! 4)); [|done].
  intros [= <-] v ?; simplify_eq/=.
  destruct (a !! 3) as [s|]; simplify_eq/=.
  destruct (u64_from_str s) eqn:Es; simplify_eq/=. by eapply u64_from_str_range.
Qed.

Definition RefArgs : ArgParser :=
  {| parse_args := reference_parse; parse_args_wf := reference_parse_wf |}.

(** A parser that returns a given configuration whatever the arguments:
    the command line taken as already parsed. *)
Definition fixed_parser (c : t) (Hc : wf c) : ArgParser :=
  {| parse_args := fun _ => Done c;
     parse_args_wf := fun _ c' Heq =>
       match Heq in _ = o return match o with Done c'' => wf c'' | _ => True end
       with eq_refl => Hc end |}.

(** ** [from_args] *)

(** [from_args] reads the arguments and changes nothing. *)
Lemma from_args_run {cli_parser : ArgParser} w :
  from_args w = (w, parse_args (args w)).
Proof. done. Qed.

(** What [from_args] returns is well formed. *)
Lemma from_args_wf {cli_parser : ArgParser} w w' c :
  from_args w = (w', Done c) -> w' = w /\ wf c.
Proof. intros [= <- Hc]. split; [done|]. by eapply parse_args_wf. Qed.

(** ** Positional binding *)

Lemma positional_Some_Some {A} (parse : string -> option A) arg v :
  positional parse arg = Some (Some v) -> is_Some arg.
Proof. destruct arg; [eauto|done]. Qed.

Lemma positional_is_Some {A} (parse : string -> option A) arg o :
  positional parse arg = Some o -> is_Some arg -> is_Some o.
Proof. intros Hp [s ->]. cbn in Hp. destruct (parse s); simplify_eq/=. eauto. Qed.

(** Without attributes the five fields are positional arguments,
    bound in the order of declaration, so the settings path is the
    fifth: the reference parser returns a command-line layer that names
    the settings file only when it also holds the two addresses, the
    key path and the lifetime. *)
Lemma reference_path_needs_all a c :
  reference_parse a = Done c -> is_Some (configuration_path c) ->
  is_Some (server_addr c) /\ is_Some (database_addr c) /\
  is_Some (authkey_path c) /\ is_Some (session_expiration c).
Proof.
  unfold reference_parse. destruct (usage_exit a 5); [done|].
  destruct (positional url_parse (a !! 0)) as [o0|] eqn:E0; [|done].
  destruct (positional url_parse (a !! 1)) as [o1|] eqn:E1; [|done].
  destruct (positional _ (a !! 2)) as [o2|] eqn:E2; [|done].
  destruct (positional _ (a !! 3)) as [o3|] eqn:E3; [|done].
  destruct (positional _ (a !! 4)) as [o4|] eqn:E4; [|done].
  intros [= <-] [p Hp]. cbn in *. subst o4.
  apply positional_Some_Some, lookup_lt_is_Some in E4.
  split_and!; (eapply positional_is_Some; [done|apply lookup_lt_is_Some; lia]).
Qed.

(** A value of the command line that does not parse ends the run:
    the reference parser exits with status 1 on a lifetime that is no
    [u64], where the environment layer would read the same text as an
    absent value. *)
Lemma reference_malformed_exits a s :
  usage_exit a 5 = None -> a !! 3%nat = Some s -> ok (u64_from_str s) = None ->
  reference_parse a = Exit 1.
Proof.
  intros Hu Hs Hbad. unfold reference_parse. rewrite Hu, Hs. cbn. rewrite Hbad. cbn.
  by repeat case_match.
Qed.

End WithUrl.

End CliConfiguration.
