(* ===== verification/Yaml.v ===== *)
(** * The settings file

    [struct YamlConfiguration] with its derived [Debug], its [default],
    [load] and [save] ([mod.rs], lines 44-54 and 135-167), and
    [serde_yaml] as the interface [Codec] with its laws.
    [from_reader] is [serde_yaml::from_reader] on an open file: it
    reads the file to its end and decodes the bytes; a failure to read
    is the crate's error made of the [std::io::Error]. *)

From Stdlib Require Import ZArith Lia.
From Stdlib.Strings Require Import Byte Ascii String.
From stdpp Require Import base tactics option list gmap strings.
From S2P Require Import Prelude Numbers Fmt Collaborators FileSystem World.

#[local] Open Scope proc_scope.
#[local] Open Scope string_scope.

Module YamlConfiguration.

Section WithUrl.
Context {url : UrlParser} {std : StdDebug}.

Record t : Type := {
  server_addr : option Url;
  database_addr : option Url;
  authkey_path : option string;
  session_expiration : option Z;
}.

#[global] Instance eq_dec : EqDecision t.
Proof. solve_decision. Defined.

Definition wf (y : t) : Prop :=
  forall v, session_expiration y = Some v -> is_u64 v.

(** [#[derive(Debug)]]: the name of the struct and its four fields. *)
#[global] Instance t_debug : fmt.Debug t := fun y =>
  fmt.debug_struct "YamlConfiguration"
    [("server_addr", fmt.debug (server_addr y));
     ("database_addr", fmt.debug (database_addr y));
     ("authkey_path", fmt.debug (authkey_path y));
     ("session_expiration", fmt.debug (session_expiration y))].

(** [serde_yaml::to_string] and [serde_yaml::from_slice] at type [t],
    and [serde_yaml::Error] with its [Debug] and its conversion from a
    [std::io::Error].  What was serialised decodes to itself, what
    decodes has a lifetime in range, and the text of a struct is never
    empty: a document has a key per field at least. *)
Class Codec : Type := {
  YamlError : Type;
  YamlError_eq_dec :: EqDecision YamlError;
  YamlError_debug :: fmt.Debug YamlError;
  from_io : Errno -> YamlError;
  to_string : t -> Result string YamlError;
  from_slice : list byte -> Result t YamlError;
  from_slice_to_string y s :
    wf y -> to_string y = Ok s -> from_slice (as_bytes s) = Ok y;
  from_slice_wf b y : from_slice b = Ok y -> wf y;
  to_string_nonempty y s : to_string y = Ok s -> s <> "";
}.

#[global] Existing Instance YamlError_eq_dec.
#[global] Existing Instance YamlError_debug.

(** [YamlConfiguration::default]: the two [unwrap]s panic when the
    literals do not parse. *)
Definition default : Proc World t :=
  server_addr <- unwrap (url_parse "https://example.net") ;;
  database_addr <- unwrap (url_parse "postgres://db.example.net") ;;
  let yaml :=
    {| server_addr := Some server_addr;
       database_addr := Some database_addr;
       authkey_path := Some (PathBuf_from "/etc/maelstrom/authkey.pem");
       session_expiration := Some 3000%Z |} in
  ret yaml.

(** [YamlConfiguration::load]. *)
Definition load : Proc World t := panic Unimplemented.

Context {codec : Codec}.

(** The [anyhow::Error] of [save]: the error of [to_string] under the
    context that names the struct, the error of [open] inside a
    message, or the error of [write_all] as [?] converts it. *)
Inductive SaveError : Type :=
| SerializeFailed (self : t) (e : YamlError)
| OpenFailed (e : Errno)
| WriteFailed (e : Errno).

#[global] Instance SaveError_eq_dec : EqDecision SaveError.
Proof. solve_decision. Defined.

(** The message [anyhow] gives each failure, as a format string and
    its arguments: the context of [with_context], the text of
    [anyhow!], and none for the error of [write_all]. *)
Definition context (e : SaveError) : option (string * list string) :=
  match e with
  | SerializeFailed self _ =>
      Some ("Failed to serilize to yaml. Provided struct is {:?}", [fmt.debug self])
  | OpenFailed e =>
      Some ("Unable to open file for writing. Reason is {:?}", [fmt.debug e])
  | WriteFailed _ => None
  end.

(** [YamlConfiguration::save].  The two log records are written before
    the file is opened; the file is dropped at the end of the arm that
    owns it, whether [write_all] succeeded or [?] returns its error. *)
Definition save (self : t) (path : string) : Proc World (Result unit SaveError) :=
  match to_string self with
  | Err e => ret (Err (SerializeFailed self e))
  | Ok s =>
      info "Saved yaml configuration file" [] ;;
      debug "Saved yaml looks like: {:?}" [fmt.debug s] ;;
      r <- OpenOptions_open_write_create path ;;
      match r with
      | Ok v =>
          r <- File_write_all v (as_bytes s) ;;
          File_drop v ;;
          match r with
          | Ok _ => ret (Ok tt)
          | Err e => ret (Err (WriteFailed e))
          end
      | Err e => ret (Err (OpenFailed e))
      end
  end.

(** [serde_yaml::from_reader(BufReader::new(v))]: the reader owns the
    file, which is dropped when the call returns. *)
Definition from_reader (v : File.t) : Proc World (Result t YamlError) :=
  r <- File_read_to_end v [] ;;
  File_drop v ;;
  ret match r with
      | Ok (_, bytes) => from_slice bytes
      | Err e => Err (from_io e)
      end.

(** ** Reference definitions *)

(** The default settings as a value, when both literals parse. *)
Definition default_value : option t :=
  server_addr ← url_parse "https://example.net";
  database_addr ← url_parse "postgres://db.example.net";
  Some {| server_addr := Some server_addr;
          database_addr := Some database_addr;
          authkey_path := Some (PathBuf_from "/etc/maelstrom/authkey.pem");
          session_expiration := Some 3000%Z |}.

(** What the file at [path] decodes to. *)
Definition decoded (fs : FileSystem) (path : string) : Result t YamlError :=
  match contents fs path with
  | Ok bytes => from_slice bytes
  | Err e => Err (from_io e)
  end.

(** A regular, read-write file holding [bytes]. *)
Definition file_with (bytes : list byte) : Inode := set_data new_file bytes.

(** The world after [save] logged its two records, the second with
    the text [s] to be written. *)
Definition announced (s : string) (w : World) : World :=
  add_log (add_log w {| level := Info; format := "Saved yaml configuration file";
                        arguments := [] |})
          {| level := Debug; format := "Saved yaml looks like: {:?}";
             arguments := [fmt.debug s] |}.

(** ** The text *)

(** The bytes [save] writes are one at least. *)
Lemma text_nonempty self s : to_string self = Ok s -> as_bytes s <> [].
Proof. intros Hs%to_string_nonempty. by destruct s. Qed.

(** ** [default] *)

Lemma default_run w :
  default w =
  (w, match default_value with Some y => Done y | None => Panic UnwrapFailed end).
Proof.
  unfold default, default_value. proc_unfold.
  destruct (url_parse "https://example.net"); cbn; [|done].
  by destruct (url_parse "postgres://db.example.net").
Qed.

Lemma default_value_wf y : default_value = Some y -> wf y.
Proof.
  unfold default_value. intros Hy v Hv. simplify_option_eq. by compute.
Qed.

(** The default settings hold every field. *)
Lemma default_value_full y :
  default_value = Some y ->
  is_Some (server_addr y) /\ is_Some (database_addr y) /\
  authkey_path y = Some "/etc/maelstrom/authkey.pem" /\
  session_expiration y = Some 3000%Z.
Proof. unfold default_value. intros Hy. simplify_option_eq. by split_and!. Qed.

(** ** [from_reader] *)

Lemma from_reader_run v w :
  from_reader v w =
  (release (File.path v) w,
   Done match File.read_to_end v [] (fs w) with
        | Ok (_, bytes) => from_slice bytes
        | Err e => Err (from_io e)
        end).
Proof. done. Qed.

(** Decoding a file that [File_open] has just returned, in terms of
    the file's content: the file is open during the call only. *)
Lemma from_reader_contents path v w :
  File.open path (fs w) = Ok v ->
  from_reader v (hold path w) = (w, Done (decoded (fs w) path)).
Proof.
  intros Hv. rewrite from_reader_run. unfold decoded, contents. rewrite Hv.
  apply open_Ok in Hv as (i & _ & _ & ->). cbn [File.path]. rewrite release_hold.
  change (fs (hold path w)) with (fs w).
  by destruct (File.read_to_end _ [] (fs w)) as [[v' bytes]|e].
Qed.

(** ** The round trip *)

(** C3: a settings file that [save] has just written where nothing was
    decodes to the settings that were saved: opening the path succeeds
    and [serde_yaml::from_reader] returns them, and no file is left
    open.  Proved on the statements of [save] themselves. *)
Theorem save_then_read self path w w' :
  wf self -> fs w !! path = None ->
  save self path w = (w', Done (Ok tt)) ->
  exists v, File_open path w' = (hold path w', Done (Ok v)) /\
            from_reader v (hold path w') = (w', Done (Ok self)).
Proof.
  intros Hwf Hp Hrun.
  assert (exists s, to_string self = Ok s /\
            w' = set_fs (announced s w) (<[path := file_with (as_bytes s)]> (fs w)))
    as (s & Hs & ->).
  { revert Hrun. unfold save. destruct (to_string self) as [s|e0] eqn:Hs; [|done].
    unfold OpenOptions_open_write_create, opening, File_write_all, File_drop, fs_update.
    proc_unfold. cbn. unfold OpenOptions.open_write_create. rewrite Hp.
    destruct (OpenOptions.may_create (fs w) path) as [[]|e]; cbn; [|done].
    unfold OpenOptions.created_file. destruct (OpenOptions.device_full (fs w) path).
    { by erewrite write_all_full; [|apply lookup_insert_eq|done|eapply text_nonempty]. }
    erewrite write_all_at; [|apply lookup_insert_eq|done|cbn; lia].
    rewrite release_hold_set_fs. cbn [data new_file].
    rewrite insert_insert_eq, overwrite_empty. intros [= <-]. by exists s. }
  set (w' := set_fs _ _).
  assert (fs w' !! path = Some (file_with (as_bytes s))) as Hfile
    by apply lookup_insert_eq.
  assert (File.open path (fs w') = Ok {| File.path := path; File.pos := 0 |}) as Ho
    by (apply open_Ok; eauto).
  eexists. split; [by rewrite File_open_run, Ho|].
  rewrite (from_reader_contents path) by done. unfold decoded.
  erewrite contents_file by done. cbn.
  by erewrite from_slice_to_string.
Qed.

(** ** [save] *)

(** [save] step by step: nothing happens when serialisation fails;
    otherwise the two records are logged, then the file is opened, then
    written, then closed. *)
Lemma save_run self path w :
  save self path w =
  match to_string self with
  | Err e => (w, Done (Err (SerializeFailed self e)))
  | Ok s =>
      match OpenOptions.open_write_create path (fs w) with
      | Err e => (announced s w, Done (Err (OpenFailed e)))
      | Ok (v, fs1) =>
          match File.write_all v (as_bytes s) fs1 with
          | Err e => (set_fs (announced s w) fs1, Done (Err (WriteFailed e)))
          | Ok (_, fs2) => (set_fs (announced s w) fs2, Done (Ok tt))
          end
      end
  end.
Proof.
  unfold save. destruct (to_string self) as [s|e0]; [|done].
  unfold OpenOptions_open_write_create, opening, File_write_all, File_drop, fs_update.
  proc_unfold. cbn.
  destruct (OpenOptions.open_write_create path (fs w)) as [[v fs1]|e] eqn:Ho; cbn; [|done].
  apply open_write_create_frame in Ho as (-> & _).
  destruct (File.write_all v (as_bytes s) fs1) as [[v' fs2]|e]; cbn;
    by rewrite ?release_hold_set_fs, ?release_hold.
Qed.

(** Saving where nothing was, in a writable directory, makes a file
    that holds exactly the serialised text. *)
Lemma save_fresh self path s w :
  to_string self = Ok s -> fs w !! path = None ->
  OpenOptions.may_create (fs w) path = Ok tt ->
  OpenOptions.device_full (fs w) path = false ->
  save self path w =
  (set_fs (announced s w) (<[path := file_with (as_bytes s)]> (fs w)), Done (Ok tt)).
Proof.
  intros Hs Hp Hc Hf. rewrite save_run, Hs, open_write_create_absent by done.
  rewrite created_file_new by done.
  erewrite write_all_at; [|apply lookup_insert_eq|done|cbn; lia].
  by rewrite insert_insert_eq, overwrite_empty.
Qed.

(** Saving where nothing was, on a device that takes no more data,
    makes the file and fails to write it: the file is left empty. *)
Lemma save_fresh_full self path s w :
  to_string self = Ok s -> fs w !! path = None ->
  OpenOptions.may_create (fs w) path = Ok tt ->
  OpenOptions.device_full (fs w) path = true ->
  save self path w =
  (set_fs (announced s w) (<[path := full_file]> (fs w)), Done (Err (WriteFailed EIO))).
Proof.
  intros Hs Hp Hc Hf. rewrite save_run, Hs, open_write_create_absent by done.
  rewrite created_file_full by done.
  by erewrite write_all_full; [|apply lookup_insert_eq|done|eapply text_nonempty].
Qed.

(** Saving where nothing was fails exactly when the file cannot be
    made. *)
Lemma save_fresh_refused self path s e w :
  to_string self = Ok s -> fs w !! path = None ->
  OpenOptions.may_create (fs w) path = Err e ->
  save self path w = (announced s w, Done (Err (OpenFailed e))).
Proof.
  intros Hs Hp Hc. rewrite save_run, Hs.
  unfold OpenOptions.open_write_create. by rewrite Hp, Hc.
Qed.

(** [save] keeps the environment and the arguments, extends the log,
    and touches no path but its own. *)
Lemma save_frame self path w :
  let w' := world_of (save self path w) in
  inputs_kept w w' /\ log_extends w w' /\
  forall q, q <> path -> fs w' !! q = fs w !! q.
Proof.
  rewrite save_run. destruct (to_string self) as [s|e0]; [|by split_and!].
  assert (log_extends w (announced s w)) as Hlog.
  { unfold announced. etrans; apply same_but_log_extends, same_but_log_add. }
  destruct (OpenOptions.open_write_create path (fs w)) as [[v fs1]|e] eqn:Ho;
    [|by split_and!].
  apply open_write_create_frame in Ho as (Hv & _ & Hfs1).
  destruct (File.write_all v (as_bytes s) fs1) as [[v' fs2]|e] eqn:Hw;
    (split_and!; [done..|cbn; intros q Hq]); [|by apply Hfs1].
  erewrite write_all_frame by (rewrite ?Hv; done). by apply Hfs1.
Qed.

(** C10: [save] releases what it acquires: the file it opens is closed
    when it returns, whether the text was written, [write_all] failed
    and [?] returned its error, the file could not be opened, or
    nothing could be serialised.  The files that are open after [save]
    are those that were open before. *)
Theorem save_releases self path w :
  handles (world_of (save self path w)) = handles w.
Proof.
  rewrite save_run. destruct (to_string self); [|done].
  destruct (OpenOptions.open_write_create path (fs w)) as [[v fs1]|e]; [|done].
  by destruct (File.write_all v _ fs1) as [[v' fs2]|e].
Qed.

(** ** Saving over a file, and failing to save *)

(** Saving over a regular, writable file writes the text over its
    first bytes. *)
Lemma save_existing self path s i w :
  to_string self = Ok s -> fs w !! path = Some i ->
  is_dir i = false -> writable i = true -> fault i <> Some FaultWrite ->
  save self path w =
  (set_fs (announced s w)
     (<[path := set_data i (File.overwrite (data i) 0 (as_bytes s))]> (fs w)),
   Done (Ok tt)).
Proof.
  intros Hs Hp Hd Hw Hf. rewrite save_run, Hs.
  unfold OpenOptions.open_write_create. rewrite Hp, Hd, Hw.
  by erewrite write_all_at; [|done..|lia].
Qed.

(** C29: [save] does not truncate: it opens with [write(true)] and
    [create(true)] only, so saving settings whose text is shorter than
    the file already at the path reports success and leaves the new
    text followed by the tail of the old content. *)
Theorem save_keeps_tail self path s i w :
  to_string self = Ok s -> fs w !! path = Some i ->
  is_dir i = false -> writable i = true -> fault i <> Some FaultWrite ->
  (List.length (as_bytes s) < List.length (data i))%nat ->
  exists w', save self path w = (w', Done (Ok tt)) /\
    data <$> fs w' !! path =
      Some (as_bytes s ++ drop (List.length (as_bytes s)) (data i))%list /\
    contents (fs w') path <> Ok (as_bytes s).
Proof.
  intros Hs Hp Hd Hw Hf Hlen. eexists. split; [by apply save_existing|].
  cbn. rewrite lookup_insert_eq. cbn. rewrite overwrite_start. split; [done|].
  intros (j & Hj & Heq)%contents_Ok. rewrite lookup_insert_eq in Hj.
  injection Hj as <-. apply (f_equal List.length) in Heq.
  unfold set_data in Heq. cbn [data] in Heq.
  rewrite length_app, length_drop in Heq. lia.
Qed.

(** C30: [save] logs [Saved yaml configuration file] before it opens
    the file: when the file cannot be opened for writing, the log says
    it was saved, the result is the error, and nothing was written. *)
Theorem save_announces_before_writing self path s e w :
  to_string self = Ok s ->
  OpenOptions.open_write_create path (fs w) = Err e ->
  exists w', save self path w = (w', Done (Err (OpenFailed e))) /\
    fs w' = fs w /\
    log w' = (log w ++ [ {| level := Info; format := "Saved yaml configuration file";
                            arguments := [] |};
                         {| level := Debug; format := "Saved yaml looks like: {:?}";
                            arguments := [fmt.debug s] |} ])%list.
Proof.
  intros Hs Ho. eexists. rewrite save_run, Hs, Ho. split_and!; [done..|].
  cbn. by rewrite <- app_assoc.
Qed.

(** [save] keeps the file system a tree: every entry it leaves has
    a directory for parent if every entry had one. *)
Lemma save_tree_shaped self path w :
  tree_shaped (fs w) -> tree_shaped (fs (world_of (save self path w))).
Proof.
  intros Hfs. rewrite save_run. destruct (to_string self) as [s|e0]; [|done].
  destruct (OpenOptions.open_write_create path (fs w)) as [[v fs1]|e] eqn:Ho; [|done].
  pose proof (open_write_create_tree_shaped _ _ _ _ Hfs Ho) as Hfs1.
  destruct (File.write_all v (as_bytes s) fs1) as [[v' fs2]|e] eqn:Hw; [|done].
  apply open_write_create_file in Ho as (Hv & i & Hi & Hd).
  eapply write_all_tree_shaped; [done| |done].
  rewrite Hv, Hi. by intros ? [= <-].
Qed.

End WithUrl.

End YamlConfiguration.
