(* ===== verification/YamlText.v ===== *)
(** * A reference codec for the settings file

    An implementation of [YamlConfiguration.Codec] that discharges its
    laws: a printer and a parser for the four-line documents
<<
    server_addr: "https://example.net"
    database_addr: "postgres://db.example.net"
    authkey_path: "/etc/maelstrom/authkey.pem"
    session_expiration: 3000
>>
    where an absent field is written [~], text is double-quoted with
    backslash, double quote and line feed escaped, and a number is
    written in decimal.  The parser accepts exactly the printer's
    layout, so no document is the start of another and a document cut
    short is refused.  It makes no claim to be [serde_yaml] (whose
    documents can be the start of longer ones); it shows the laws of
    the interface hold of a codec that runs, and the examples use it. *)

From Stdlib Require Import ZArith Lia.
From Stdlib.Strings Require Import Byte Ascii String.
From stdpp Require Import base tactics option list strings.
From S2P Require Import Prelude Numbers Fmt Collaborators FileSystem World Yaml.

#[local] Open Scope string_scope.

Module YamlText.

Definition DQ : ascii := "034"%char.
Definition LF : ascii := "010"%char.
Definition BS : ascii := "092"%char.

(** ** Text *)

Fixpoint escape (s : string) : string :=
  match s with
  | EmptyString => EmptyString
  | String c r =>
      if Ascii.eqb c BS then String BS (String BS (escape r))
      else if Ascii.eqb c DQ then String BS (String DQ (escape r))
      else if Ascii.eqb c LF then String BS (String "n" (escape r))
      else String c (escape r)
  end.

(** The character an escape letter stands for. *)
Definition escaped (e : ascii) : option ascii :=
  if Ascii.eqb e BS then Some BS
  else if Ascii.eqb e DQ then Some DQ
  else if Ascii.eqb e "n" then Some LF
  else None.

(** Reads escaped text up to the closing quote, which must end the
    string. *)
Fixpoint unquote (s : string) : option string :=
  match s with
  | EmptyString => None
  | String c r =>
      if Ascii.eqb c DQ then
        match r with EmptyString => Some EmptyString | _ => None end
      else if Ascii.eqb c BS then
        match r with
        | String e r' =>
            match escaped e with
            | Some c' => String c' <$> unquote r'
            | None => None
            end
        | EmptyString => None
        end
      else String c <$> unquote r
  end.

Definition quote (s : string) : string := String DQ (escape s ++ String DQ EmptyString).

Definition print_text (o : option string) : string :=
  match o with
  | None => "~"
  | Some s => quote s
  end.

Definition parse_text (s : string) : option (option string) :=
  if String.eqb s "~" then Some None
  else match s with
       | String c r => if Ascii.eqb c DQ then Some <$> unquote r else None
       | EmptyString => None
       end.

Definition print_number (o : option Z) : string :=
  match o with
  | None => "~"
  | Some n => u64_to_string n
  end.

Definition parse_number (s : string) : option (option Z) :=
  if String.eqb s "~" then Some None
  else Some <$> ok (u64_from_str s).

(** ** Lines *)

Fixpoint has_lf (s : string) : bool :=
  match s with
  | EmptyString => false
  | String c r => Ascii.eqb c LF || has_lf r
  end.

(** The text before the first line feed, and what follows it. *)
Fixpoint split_line (s : string) : option (string * string) :=
  match s with
  | EmptyString => None
  | String c r =>
      if Ascii.eqb c LF then Some (EmptyString, r)
      else '(l, rest) ← split_line r; Some (String c l, rest)
  end.

Fixpoint strip_prefix (p s : string) : option string :=
  match p with
  | EmptyString => Some s
  | String c p' =>
      match s with
      | String d s' => if Ascii.eqb c d then strip_prefix p' s' else None
      | EmptyString => None
      end
  end.

(** One line [key: value], in front of [rest]. *)
Definition field (key value rest : string) : string :=
  key ++ ": " ++ value ++ String LF rest.

Definition read_field (key doc : string) : option (string * string) :=
  r ← strip_prefix (key ++ ": ") doc; split_line r.

(** ** Documents *)

Section WithUrl.
Context {url : UrlParser}.

Definition print (y : YamlConfiguration.t) : string :=
  field "server_addr" (print_text (url_as_str <$> YamlConfiguration.server_addr y))
 (field "database_addr" (print_text (url_as_str <$> YamlConfiguration.database_addr y))
 (field "authkey_path" (print_text (YamlConfiguration.authkey_path y))
 (field "session_expiration" (print_number (YamlConfiguration.session_expiration y))
    EmptyString))).

(** An optional URL from optional text: text that is no URL is refused. *)
Definition to_url (o : option string) : option (option Url) :=
  match o with
  | None => Some None
  | Some s => Some <$> url_parse s
  end.

Definition parse (doc : string) : option YamlConfiguration.t :=
  '(v1, r1) ← read_field "server_addr" doc;
  server ← parse_text v1 ≫= to_url;
  '(v2, r2) ← read_field "database_addr" r1;
  database ← parse_text v2 ≫= to_url;
  '(v3, r3) ← read_field "authkey_path" r2;
  key ← parse_text v3;
  '(v4, r4) ← read_field "session_expiration" r3;
  lifetime ← parse_number v4;
  match r4 with
  | EmptyString =>
      Some {| YamlConfiguration.server_addr := server;
              YamlConfiguration.database_addr := database;
              YamlConfiguration.authkey_path := key;
              YamlConfiguration.session_expiration := lifetime |}
  | _ => None
  end.

End WithUrl.

(** ** Lemmas: text *)

Lemma unquote_escape s : unquote (escape s ++ String DQ EmptyString) = Some s.
Proof.
  induction s as [|c s IH]; [done|]. cbn [escape].
  destruct (Ascii.eqb_spec c BS) as [->|Hbs];
    [rewrite !append_cons; cbn; by rewrite IH|].
  destruct (Ascii.eqb_spec c DQ) as [->|Hdq];
    [rewrite !append_cons; cbn; by rewrite IH|].
  destruct (Ascii.eqb_spec c LF) as [->|Hlf];
    [rewrite !append_cons; cbn; by rewrite IH|].
  rewrite append_cons. cbn.
  rewrite (proj2 (Ascii.eqb_neq c DQ)), (proj2 (Ascii.eqb_neq c BS)) by done.
  by rewrite IH.
Qed.

Lemma parse_text_print o : parse_text (print_text o) = Some o.
Proof.
  destruct o as [s|]; [|done]. unfold print_text, quote, parse_text. cbn.
  by rewrite unquote_escape.
Qed.

Lemma has_lf_app s1 s2 : has_lf (s1 ++ s2) = has_lf s1 || has_lf s2.
Proof.
  induction s1 as [|c s1 IH]; [done|]. rewrite append_cons. cbn.
  by rewrite IH, orb_assoc.
Qed.

Lemma has_lf_escape s : has_lf (escape s) = false.
Proof.
  induction s as [|c s IH]; [done|]. cbn [escape].
  destruct (Ascii.eqb_spec c BS) as [->|Hbs]; [done|].
  destruct (Ascii.eqb_spec c DQ) as [->|Hdq]; [done|].
  destruct (Ascii.eqb_spec c LF) as [->|Hlf]; [done|].
  cbn. by rewrite (proj2 (Ascii.eqb_neq c LF)).
Qed.

Lemma has_lf_print_text o : has_lf (print_text o) = false.
Proof.
  destruct o as [s|]; [|done]. unfold print_text, quote. cbn.
  by rewrite has_lf_app, has_lf_escape.
Qed.

(** ** Lemmas: numbers *)

Lemma has_lf_digits s : all_digits s -> has_lf s = false.
Proof.
  induction s as [|c s IH]; [done|]. intros [[d Hd] Hs]%all_digits_cons. cbn.
  rewrite IH by done. destruct (Ascii.eqb_spec c LF) as [->|]; [done|done].
Qed.

Lemma u64_to_string_digits n : (0 <= n)%Z -> all_digits (u64_to_string n).
Proof. intros Hn. by apply to_digits_all_digits, all_digits_nil. Qed.

Lemma digits_not_tilde s : s <> "" -> all_digits s -> String.eqb s "~" = false.
Proof.
  destruct s as [|c s]; [done|]. intros _ [[d Hd] _]%all_digits_cons.
  apply String.eqb_neq. intros [= -> ->]. done.
Qed.

Lemma parse_number_print o :
  (forall n, o = Some n -> is_u64 n) -> parse_number (print_number o) = Some o.
Proof.
  destruct o as [n|]; [|done]. intros Hn. specialize (Hn n eq_refl).
  unfold parse_number, print_number.
  rewrite digits_not_tilde;
    [|apply to_digits_nonempty|apply u64_to_string_digits, Hn].
  by rewrite u64_from_str_to_string.
Qed.

Lemma has_lf_print_number o :
  (forall n, o = Some n -> is_u64 n) -> has_lf (print_number o) = false.
Proof.
  destruct o as [n|]; [|done]. intros Hn.
  apply has_lf_digits, u64_to_string_digits, (Hn n eq_refl).
Qed.

(** ** Lemmas: lines *)

Lemma split_line_app l rest :
  has_lf l = false -> split_line (l ++ String LF rest) = Some (l, rest).
Proof.
  induction l as [|c l IH]; [done|]. rewrite append_cons. cbn.
  intros [Hc Hl]%orb_false_elim. by rewrite Hc, IH.
Qed.

Lemma strip_prefix_app p s : strip_prefix p (p ++ s) = Some s.
Proof.
  induction p as [|c p IH]; [done|]. rewrite append_cons. cbn.
  by rewrite Ascii.eqb_refl.
Qed.

Lemma strip_prefix_common a b s : strip_prefix (a ++ b) (a ++ s) = strip_prefix b s.
Proof.
  induction a as [|c a IH]; [done|]. rewrite !append_cons. cbn.
  by rewrite Ascii.eqb_refl.
Qed.

Lemma read_field_field key value rest :
  has_lf value = false -> read_field key (field key value rest) = Some (value, rest).
Proof.
  intros Hv. unfold read_field, field.
  rewrite strip_prefix_common, strip_prefix_app. cbn. by apply split_line_app.
Qed.

(** Reading a line does not look past its line feed. *)
Lemma strip_prefix_more p s r t :
  strip_prefix p s = Some r -> strip_prefix p (s ++ t) = Some (r ++ t).
Proof.
  revert s. induction p as [|c p IH]; intros [|d s]; cbn; try done; [by intros [= <-]..|].
  rewrite append_cons. destruct (Ascii.eqb c d); [apply IH|done].
Qed.

Lemma split_line_more s l r t :
  split_line s = Some (l, r) -> split_line (s ++ t) = Some (l, r ++ t).
Proof.
  revert l. induction s as [|c s IH]; intros l; [done|]. rewrite append_cons. cbn.
  destruct (Ascii.eqb c LF); [by intros [= <- <-]|].
  destruct (split_line s) as [[l' r']|]; [|done]. intros [= <- <-].
  by rewrite (IH l').
Qed.

Lemma read_field_more key doc v r t :
  read_field key doc = Some (v, r) -> read_field key (doc ++ t) = Some (v, r ++ t).
Proof.
  unfold read_field. destruct (strip_prefix _ doc) as [r0|] eqn:E; [|done]. cbn.
  rewrite (strip_prefix_more _ _ _ t E). cbn. apply split_line_more.
Qed.

(** ** Errors *)

(** The errors of the reference codec: text that is no settings
    document, or a file that could not be read. *)
Inductive Error : Type :=
| Syntax
| Io (e : Errno).

#[global] Instance Error_eq_dec : EqDecision Error.
Proof. solve_decision. Defined.

#[global] Instance Error_debug : fmt.Debug Error := fun e =>
  match e with
  | Syntax => "Syntax"
  | Io _ => "Io"
  end.

(** ** The round trip *)

Section RoundTrip.
Context {url : UrlParser}.

Lemma to_url_as_str o : to_url (url_as_str <$> o) = Some o.
Proof. destruct o as [u|]; [|done]. cbn. by rewrite url_parse_as_str. Qed.

(** The parser reads back what the printer wrote. *)
Lemma parse_print y : YamlConfiguration.wf y -> parse (print y) = Some y.
Proof.
  intros Hy. unfold parse, print.
  rewrite read_field_field by apply has_lf_print_text. cbn.
  rewrite parse_text_print. cbn. rewrite to_url_as_str. cbn.
  rewrite read_field_field by apply has_lf_print_text. cbn.
  rewrite parse_text_print. cbn. rewrite to_url_as_str. cbn.
  rewrite read_field_field by apply has_lf_print_text. cbn.
  rewrite parse_text_print. cbn.
  rewrite read_field_field by by apply has_lf_print_number. cbn.
  rewrite parse_number_print by done. cbn. by destruct y.
Qed.

(** What the parser accepts has a lifetime in range. *)
Lemma parse_wf doc y : parse doc = Some y -> YamlConfiguration.wf y.
Proof.
  unfold parse. intros Hp. repeat (simplify_option_eq || case_match).
  intros n Hn. cbn in Hn. subst.
  unfold parse_number in *. case_match; simplify_option_eq.
  destruct (u64_from_str _) eqn:E; simplify_eq/=. by eapply u64_from_str_range.
Qed.

(** A document ends with its fourth line: text after it is refused. *)
Lemma parse_more doc y t : parse doc = Some y -> t <> "" -> parse (doc ++ t) = None.
Proof.
  unfold parse. intros Hp Ht.
  destruct (read_field _ doc) as [[v1 r1]|] eqn:E1; [|done].
  rewrite (read_field_more _ _ _ _ t E1). cbn in *.
  destruct (parse_text v1 ≫= to_url) as [server|]; [|done]. cbn in *.
  destruct (read_field _ r1) as [[v2 r2]|] eqn:E2; [|done].
  rewrite (read_field_more _ _ _ _ t E2). cbn in *.
  destruct (parse_text v2 ≫= to_url) as [database|]; [|done]. cbn in *.
  destruct (read_field _ r2) as [[v3 r3]|] eqn:E3; [|done].
  rewrite (read_field_more _ _ _ _ t E3). cbn in *.
  destruct (parse_text v3) as [key|]; [|done]. cbn in *.
  destruct (read_field _ r3) as [[v4 r4]|] eqn:E4; [|done].
  rewrite (read_field_more _ _ _ _ t E4). cbn in *.
  destruct (parse_number v4) as [lifetime|]; [|done]. cbn in *.
  destruct r4; [|done]. by destruct t.
Qed.

(** The reference codec: [to_string] never fails, [from_slice] parses
    the bytes as text, and an error says no more than where it comes
    from. *)
Definition from_slice (b : list byte) : Result YamlConfiguration.t Error :=
  match parse (from_bytes b) with
  | Some y => Ok y
  | None => Err Syntax
  end.

(** No settings document is the start of another: the bytes of one,
    cut short, are refused. *)
Lemma from_slice_more b b' y :
  from_slice b = Ok y -> b' <> [] -> from_slice (b ++ b') = Err Syntax.
Proof.
  unfold from_slice. destruct (parse (from_bytes b)) as [y'|] eqn:E; [|done].
  intros _ Hb. rewrite from_bytes_app, (parse_more _ y'); [done..|].
  intros H. apply Hb. by rewrite <- (as_bytes_from_bytes b'), H.
Qed.

Lemma from_slice_cut b n y :
  from_slice b = Ok y -> n < length b -> from_slice (take n b) = Err Syntax.
Proof.
  intros Hb Hn. destruct (from_slice (take n b)) as [y'|[|e]] eqn:E; [|done|].
  - rewrite <- (take_drop n b), (from_slice_more _ _ y' E) in Hb; [done|].
    intros H%(f_equal length). rewrite length_drop in H. cbn in H. lia.
  - unfold from_slice in E. by destruct (parse _).
Qed.

Program Definition RefCodec : YamlConfiguration.Codec := {|
  YamlConfiguration.YamlError := Error;
  YamlConfiguration.YamlError_debug := Error_debug;
  YamlConfiguration.from_io := Io;
  YamlConfiguration.to_string y := Ok (print y);
  YamlConfiguration.from_slice := from_slice;
|}.
Next Obligation.
  intros y s Hy [= <-]. unfold from_slice.
  rewrite from_bytes_as_bytes. by rewrite parse_print.
Qed.
Next Obligation.
  intros b y. unfold from_slice. destruct (parse _) as [y'|] eqn:E; [|done].
  intros [= <-]. by eapply parse_wf.
Qed.
Next Obligation. by intros y s [= <-]. Qed.

End RoundTrip.

End YamlText.
