(* ===== verification/Layered.v ===== *)
(** * Layering

    [struct LayeredServerConfiguration] and its [new] ([mod.rs], lines
    56-70 and 169-265).  [new] is the composition of five steps, in the
    source's order: the environment layer, the command-line layer, the
    settings path ([yaml_path], the first [let] with a [match]), the
    settings ([yaml], the second), and the struct literal ([merge]),
    whose four fields are evaluated from top to bottom. *)

From Stdlib Require Import ZArith Lia.
From Stdlib.Strings Require Import Byte Ascii String.
From stdpp Require Import base tactics option list gmap strings.
From S2P Require Import Prelude Numbers Fmt Collaborators FileSystem World.
From S2P Require Import Environment Cli Yaml YamlText Samples.

#[local] Open Scope proc_scope.
#[local] Open Scope string_scope.

Module LayeredServerConfiguration.

Section WithCollaborators.
Context {url : UrlParser}.

Record t : Type := {
  server_addr : Url;
  database_addr : Url;
  authkey_path : string;
  session_expiration : Duration.t;
}.

#[global] Instance eq_dec : EqDecision t.
Proof. solve_decision. Defined.

Definition wf (c : t) : Prop := Duration.wf (session_expiration c).

(** [let yaml_path = ...]: the environment's path, else the command
    line's, else a fatal error. *)
Definition yaml_path (env : EnvironmentConfiguration.t) (cli : CliConfiguration.t)
  : Proc World string :=
  match EnvironmentConfiguration.configuration_path env with
  | Some v => ret v
  | None =>
      match CliConfiguration.configuration_path cli with
      | Some v => ret v
      | None =>
          error "No configuration path specified. This argument is required!" [] ;;
          exit 1
      end
  end.

Context {std : StdDebug} {codec : YamlConfiguration.Codec}
  {anyhow : fmt.Debug YamlConfiguration.SaveError}.

(** [let yaml = ...]: the parsed file; or, when nothing is at the path,
    the default settings, saved there first; any other failure is
    fatal. *)
Definition yaml (yaml_path : string) : Proc World YamlConfiguration.t :=
  r <- File_open yaml_path ;;
  match r with
  | Ok v =>
      r <- YamlConfiguration.from_reader v ;;
      match r with
      | Ok v => ret v
      | Err e =>
          error "Unable to read yaml file. Reason is {:?}" [fmt.debug e] ;;
          exit 1
      end
  | Err e =>
      match kind e with
      | NotFound =>
          yaml <- YamlConfiguration.default ;;
          warn "No yaml file found. Creating default yaml file and writing to disk. If this is a first run, exit and edit before continuing" [] ;;
          debug "Default yaml looks like: {:?}" [fmt.debug yaml] ;;
          r <- YamlConfiguration.save yaml yaml_path ;;
          match r with
          | Ok _ => ret yaml
          | Err e =>
              error "Unable to write default yaml file. This is required! Error is {:?}"
                    [fmt.debug e] ;;
              exit 1
          end
      | _ =>
          error "Unable to handle error {:?}" [fmt.debug e] ;;
          exit 1
      end
  end.

(** The struct literal [Self { ... }]: for each field the environment,
    then the command line, then the file; a required field absent
    everywhere is fatal, the lifetime defaults to 60 seconds. *)
Definition merge (env : EnvironmentConfiguration.t) (cli : CliConfiguration.t)
    (yaml : YamlConfiguration.t) : Proc World t :=
  server_addr <-
    match EnvironmentConfiguration.server_addr env with
    | Some v => ret v
    | None =>
        match CliConfiguration.server_addr cli with
        | Some v => ret v
        | None =>
            match YamlConfiguration.server_addr yaml with
            | Some v => ret v
            | None => error "Option server_addr is required!" [] ;; exit 1
            end
        end
    end ;;
  database_addr <-
    match EnvironmentConfiguration.database_addr env with
    | Some v => ret v
    | None =>
        match CliConfiguration.database_addr cli with
        | Some v => ret v
        | None =>
            match YamlConfiguration.database_addr yaml with
            | Some v => ret v
            | None => error "Option database_addr is required!" [] ;; exit 1
            end
        end
    end ;;
  authkey_path <-
    match EnvironmentConfiguration.authkey_path env with
    | Some v => ret v
    | None =>
        match CliConfiguration.authkey_path cli with
        | Some v => ret v
        | None =>
            match YamlConfiguration.authkey_path yaml with
            | Some v => ret v
            | None => error "Option authkey_path is required!" [] ;; exit 1
            end
        end
    end ;;
  let session_expiration :=
    match EnvironmentConfiguration.session_expiration env with
    | Some v => Duration.from_secs v
    | None =>
        match CliConfiguration.session_expiration cli with
        | Some v => Duration.from_secs v
        | None =>
            match YamlConfiguration.session_expiration yaml with
            | Some v => Duration.from_secs v
            | None => Duration.from_secs 60
            end
        end
    end in
  ret {| server_addr := server_addr;
         database_addr := database_addr;
         authkey_path := authkey_path;
         session_expiration := session_expiration |}.

(** ** The merge by priority *)

(** The three layers' values of one setting, highest priority first. *)
Definition layers_of {A} (env cli yaml : option A) : list (option A) :=
  [env; cli; yaml].

(** The value a required setting resolves to, or the fatal error with
    the message of that setting. *)
Definition required {A} (message : string) (o : option A) : Proc World A :=
  match o with
  | Some v => ret v
  | None => error message [] ;; exit 1
  end.

(** The world after the two records that announce the default file,
    the second with the default settings [yaml]. *)
Definition warned (yaml : YamlConfiguration.t) (w : World) : World :=
  add_log (add_log w {| level := Warn;
    format := "No yaml file found. Creating default yaml file and writing to disk. If this is a first run, exit and edit before continuing";
    arguments := [] |})
    {| level := Debug; format := "Default yaml looks like: {:?}";
       arguments := [fmt.debug yaml] |}.

Context {cli_parser : CliConfiguration.ArgParser}.

(** [LayeredServerConfiguration::new]. *)
Definition new : Proc World t :=
  env <- EnvironmentConfiguration.new ;;
  cli <- CliConfiguration.from_args ;;
  yaml_path <- yaml_path env cli ;;
  yaml <- yaml yaml_path ;;
  merge env cli yaml.

(** ** The merge *)

(** A nested [match] over three layers that ends in a fatal error is
    [required] of the first present layer. *)
Lemma nested_required {A} (message : string) (env cli yaml : option A) :
  match env with
  | Some v => ret v
  | None =>
      match cli with
      | Some v => ret v
      | None =>
          match yaml with
          | Some v => ret v
          | None => error message [] ;; exit 1
          end
      end
  end = required message (first_some (layers_of env cli yaml)).
Proof. by destruct env, cli, yaml. Qed.

(** The nested [match] of the lifetime is the first present layer, or 60. *)
Lemma nested_default (env cli yaml : option Z) :
  match env with
  | Some v => Duration.from_secs v
  | None =>
      match cli with
      | Some v => Duration.from_secs v
      | None =>
          match yaml with
          | Some v => Duration.from_secs v
          | None => Duration.from_secs 60
          end
      end
  end = Duration.from_secs (default 60%Z (first_some (layers_of env cli yaml))).
Proof. by destruct env, cli, yaml. Qed.

Lemma required_Some {A} message (v : A) w : required message (Some v) w = (w, Done v).
Proof. done. Qed.

Lemma required_None {A} message w :
  @required A message None w =
  (add_log w {| level := Error; format := message; arguments := [] |}, Exit 1).
Proof. done. Qed.

(** C1: the struct literal of [LayeredServerConfiguration::new] merges the
    three layers by priority.  Each field is the first present value of
    environment, command line and file, in that order; the lifetime is
    60 seconds when no layer has one; a required field absent in every
    layer logs [Option <field> is required!] and exits with status 1,
    and of several missing fields the first in the order [server_addr],
    [database_addr], [authkey_path] is the one reported.  On success the
    world is left as it was. *)
Theorem merge_by_priority env cli yaml w :
  merge env cli yaml w =
  match first_some (layers_of (EnvironmentConfiguration.server_addr env)
                              (CliConfiguration.server_addr cli)
                              (YamlConfiguration.server_addr yaml)),
        first_some (layers_of (EnvironmentConfiguration.database_addr env)
                              (CliConfiguration.database_addr cli)
                              (YamlConfiguration.database_addr yaml)),
        first_some (layers_of (EnvironmentConfiguration.authkey_path env)
                              (CliConfiguration.authkey_path cli)
                              (YamlConfiguration.authkey_path yaml)) with
  | None, _, _ => fatal "Option server_addr is required!" [] w
  | Some _, None, _ => fatal "Option database_addr is required!" [] w
  | Some _, Some _, None => fatal "Option authkey_path is required!" [] w
  | Some server, Some database, Some key =>
      (w, Done {| server_addr := server;
                  database_addr := database;
                  authkey_path := key;
                  session_expiration :=
                    Duration.from_secs
                      (default 60%Z
                         (first_some
                            (layers_of (EnvironmentConfiguration.session_expiration env)
                                       (CliConfiguration.session_expiration cli)
                                       (YamlConfiguration.session_expiration yaml)))) |})
  end.
Proof.
  unfold merge. rewrite !nested_required, nested_default.
  unfold layers_of. by case_first_some.
Qed.

(** The merge, seen through the two lemmas above: three [required]
    choices and a defaulted one. *)
Lemma merge_run env cli yaml w :
  merge env cli yaml w =
  bind (required "Option server_addr is required!"
          (first_some (layers_of (EnvironmentConfiguration.server_addr env)
                                 (CliConfiguration.server_addr cli)
                                 (YamlConfiguration.server_addr yaml))))
    (fun server_addr =>
  bind (required "Option database_addr is required!"
          (first_some (layers_of (EnvironmentConfiguration.database_addr env)
                                 (CliConfiguration.database_addr cli)
                                 (YamlConfiguration.database_addr yaml))))
    (fun database_addr =>
  bind (required "Option authkey_path is required!"
          (first_some (layers_of (EnvironmentConfiguration.authkey_path env)
                                 (CliConfiguration.authkey_path cli)
                                 (YamlConfiguration.authkey_path yaml))))
    (fun authkey_path =>
  ret {| server_addr := server_addr;
         database_addr := database_addr;
         authkey_path := authkey_path;
         session_expiration :=
           Duration.from_secs
             (default 60%Z
                (first_some
                   (layers_of (EnvironmentConfiguration.session_expiration env)
                              (CliConfiguration.session_expiration cli)
                              (YamlConfiguration.session_expiration yaml)))) |}))) w.
Proof. unfold merge. by rewrite !nested_required, nested_default. Qed.

Lemma required_preserves {A} R `{!PreOrder R, !LogStable R} message (o : option A) :
  preserves R (required message o).
Proof. destruct o; [by apply preserves_ret|by apply preserves_fatal]. Qed.

Lemma required_exits_reported {A} message (o : option A) :
  exits_reported (required message o).
Proof. destruct o; [apply exits_reported_ret|apply exits_reported_fatal]. Qed.

Lemma required_panic_free {A} message (o : option A) : panic_free (required message o).
Proof. destruct o; [apply panic_free_ret|apply panic_free_fatal]. Qed.

(** The merge writes nothing but log records. *)
Lemma merge_preserves R `{!PreOrder R, !LogStable R} env cli yaml :
  preserves R (merge env cli yaml).
Proof.
  intros w. rewrite merge_run. revert w.
  repeat (apply preserves_bind; [apply _|by apply required_preserves|intros ?]).
  by apply preserves_ret.
Qed.

Lemma merge_exits_reported env cli yaml : exits_reported (merge env cli yaml).
Proof.
  intros w w' c. rewrite merge_run. revert w w' c.
  repeat (apply exits_reported_bind; [apply required_exits_reported|intros ?]).
  apply exits_reported_ret.
Qed.

Lemma merge_panic_free env cli yaml : panic_free (merge env cli yaml).
Proof.
  intros w w' why. rewrite merge_run. revert w w' why.
  repeat (apply panic_free_bind; [apply required_panic_free|intros ?]).
  apply panic_free_ret.
Qed.

(** The lifetime the merge chooses is a [u64] when the layers' are. *)
Lemma merged_lifetime_u64 (env cli yaml : option Z) :
  (forall v, env = Some v -> is_u64 v) -> (forall v, cli = Some v -> is_u64 v) ->
  (forall v, yaml = Some v -> is_u64 v) ->
  is_u64 (default 60%Z (first_some (layers_of env cli yaml))).
Proof.
  intros Henv Hcli Hyaml. destruct (first_some _) as [v|] eqn:Hv; [|by compute].
  revert Hv. apply first_some_Forall. unfold layers_of. by repeat apply Forall_cons_2.
Qed.

Lemma required_Done {A} message (o : option A) w w' v :
  required message o w = (w', Done v) -> w' = w /\ o = Some v.
Proof. destruct o; [by intros [= <- <-]|done]. Qed.

(** What the merge returns, when it returns. *)
Lemma merge_Done env cli yaml w w' c :
  merge env cli yaml w = (w', Done c) ->
  w' = w /\
  session_expiration c =
    Duration.from_secs
      (default 60%Z
         (first_some (layers_of (EnvironmentConfiguration.session_expiration env)
                                (CliConfiguration.session_expiration cli)
                                (YamlConfiguration.session_expiration yaml)))).
Proof.
  rewrite merge_run.
  intros (w1 & a & Ha & (w2 & b & Hb & (w3 & d & Hd & Hret)%bind_done_inv)%bind_done_inv)%bind_done_inv.
  apply required_Done in Ha as [-> _], Hb as [-> _], Hd as [-> _].
  by injection Hret as <- <-.
Qed.

(** The merged lifetime is a valid [Duration]: when every layer's
    lifetime is a [u64] (which the three parsers guarantee), the
    configuration the merge returns holds a number of seconds in the
    range of [u64] and a number of nanoseconds below one second,
    whether it comes from a layer or from the default of 60. *)
Lemma merge_wf env cli yaml w w' c :
  EnvironmentConfiguration.wf env -> CliConfiguration.wf cli ->
  YamlConfiguration.wf yaml ->
  merge env cli yaml w = (w', Done c) -> wf c.
Proof.
  intros Henv Hcli Hyaml [_ Hc]%merge_Done. unfold wf. rewrite Hc.
  split; [by apply merged_lifetime_u64|by compute].
Qed.

(** ** The settings path *)

Lemma yaml_path_run env cli w :
  yaml_path env cli w =
  required "No configuration path specified. This argument is required!"
    (first_some [EnvironmentConfiguration.configuration_path env;
                 CliConfiguration.configuration_path cli]) w.
Proof.
  unfold yaml_path.
  by destruct (EnvironmentConfiguration.configuration_path env),
              (CliConfiguration.configuration_path cli).
Qed.

(** ** The settings *)

(** What [yaml] does once [File::open] has succeeded. *)
Lemma yaml_opened path v w :
  File.open path (fs w) = Ok v ->
  yaml path w =
  match YamlConfiguration.decoded (fs w) path with
  | Ok y => (w, Done y)
  | Err e =>
      (add_log w {| level := Error;
                    format := "Unable to read yaml file. Reason is {:?}";
                    arguments := [fmt.debug e] |}, Exit 1)
  end.
Proof.
  intros Hv. unfold yaml. unfold bind at 1. rewrite File_open_run, Hv.
  unfold bind. rewrite (YamlConfiguration.from_reader_contents path) by done.
  fold (YamlConfiguration.decoded (fs w) path).
  by destruct (YamlConfiguration.decoded (fs w) path).
Qed.

(** What [yaml] does when [File::open] failed with a kind other than
    [NotFound]. *)
Lemma yaml_inaccessible path e w :
  File.open path (fs w) = Err e -> kind e <> NotFound ->
  yaml path w =
  (add_log w {| level := Error; format := "Unable to handle error {:?}";
                arguments := [fmt.debug e] |}, Exit 1).
Proof.
  intros He Hk. unfold yaml. unfold bind at 1. rewrite File_open_run, He.
  by destruct (kind e).
Qed.

(** What [yaml] does when nothing is at the path: the default settings
    are made, announced, and saved. *)
Lemma yaml_absent path e w :
  File.open path (fs w) = Err e -> kind e = NotFound ->
  yaml path w =
  match YamlConfiguration.default_value with
  | None => (w, Panic UnwrapFailed)
  | Some y =>
      match YamlConfiguration.save y path (warned y w) with
      | (w', Done (Ok _)) => (w', Done y)
      | (w', Done (Err e)) =>
          (add_log w' {| level := Error;
             format := "Unable to write default yaml file. This is required! Error is {:?}";
             arguments := [fmt.debug e] |},
           Exit 1)
      | (w', Exit c) => (w', Exit c)
      | (w', Panic why) => (w', Panic why)
      end
  end.
Proof.
  intros He Hk. unfold yaml. unfold bind at 1. rewrite File_open_run, He, Hk.
  proc_unfold. rewrite YamlConfiguration.default_run.
  destruct YamlConfiguration.default_value as [y|]; [|done]. cbn.
  unfold warned.
  by destruct (YamlConfiguration.save y path _) as [w' [[[]|e']| |]].
Qed.

(** ** The two independent layers *)

(** The environment layer and the command-line layer are
    independent: [LayeredServerConfiguration::new] reads the
    environment first and parses the arguments second, and whatever
    follows, the two statements can be exchanged without changing the
    run, an exit of the argument parser included. *)
Lemma layers_commute {A}
    (k : EnvironmentConfiguration.t -> CliConfiguration.t -> Proc World A) :
  (env <- EnvironmentConfiguration.new ;; cli <- CliConfiguration.from_args ;; k env cli) ≡
  (cli <- CliConfiguration.from_args ;; env <- EnvironmentConfiguration.new ;; k env cli).
Proof.
  intros w. unfold bind.
  rewrite EnvironmentConfiguration.new_by_readers, CliConfiguration.from_args_run.
  destruct (CliConfiguration.parse_args (args w)); [|done..].
  by rewrite EnvironmentConfiguration.new_by_readers.
Qed.

End WithCollaborators.

End LayeredServerConfiguration.
