(* ===== verification/Server.v ===== *)
(** * The assembled configuration

    [struct ServerConfiguration] and its [new] ([mod.rs], lines 72-85
    and 267-301): the layered configuration with the key file it names
    loaded and decoded.  [authkey] is the [match] that computes the
    field of that name. *)

From Stdlib Require Import ZArith Lia.
From Stdlib.Strings Require Import Byte Ascii String.
From stdpp Require Import base tactics option list gmap strings.
From S2P Require Import Prelude Numbers Fmt Collaborators FileSystem World.
From S2P Require Import Environment Cli Yaml Layered.

#[local] Open Scope proc_scope.
#[local] Open Scope string_scope.

Module ServerConfiguration.

Section WithCollaborators.
Context {url : UrlParser} {keys : KeyDecoder} {std : StdDebug}.

Record t : Type := {
  server_addr : Url;
  database_addr : Url;
  authkey : EncodingKey;
  session_expiration : Duration.t;
}.

#[global] Instance eq_dec : EqDecision t.
Proof. solve_decision. Defined.

(** [v.len() as usize] on a 64-bit target. *)
Definition as_usize (n : Z) : Z := (n mod 2 ^ 64)%Z.

(** The [authkey] field: open the key file, size a buffer from its
    metadata, read it to the end, decode it.  The file is dropped at
    the end of the arm that opened it, so when the key is returned;
    the arms that exit, and the one that panics, do so with the file
    open. *)
Definition authkey_of (authkey_path : string) : Proc World EncodingKey :=
  r <- File_open authkey_path ;;
  match r with
  | Ok v =>
      m <- File_metadata_len v ;;
      key <- match m with
             | Ok len => ret (Vec_with_capacity (as_usize len))
             | Err e => panic Unimplemented
             end ;;
      r <- File_read_to_end v key ;;
      match r with
      | Ok (_, key) =>
          match from_ec_pem key with
          | Ok key => File_drop v ;; ret key
          | Err e =>
              error "Unable to parse supplied key. Reason is {:?}" [fmt.debug e] ;;
              exit 1
          end
      | Err e =>
          error "Unable to read key file. Reason is {:?}" [fmt.debug e] ;;
          exit 1
      end
  | Err e =>
      error "Unable to open authkey file. Reason is {:?}" [fmt.debug e] ;;
      exit 1
  end.

Context {codec : YamlConfiguration.Codec}
  {anyhow : fmt.Debug YamlConfiguration.SaveError}
  {cli_parser : CliConfiguration.ArgParser}.

(** [ServerConfiguration::new]. *)
Definition new : Proc World t :=
  layered_configuration <- LayeredServerConfiguration.new ;;
  authkey <- authkey_of (LayeredServerConfiguration.authkey_path layered_configuration) ;;
  ret {| server_addr := LayeredServerConfiguration.server_addr layered_configuration;
         database_addr := LayeredServerConfiguration.database_addr layered_configuration;
         authkey := authkey;
         session_expiration :=
           LayeredServerConfiguration.session_expiration layered_configuration |}.

End WithCollaborators.

End ServerConfiguration.
