(* ===== verification/Spec.v ===== *)
(** * The contract and the refinement

    The specification describes the resolver over one shape of settings
    ([RawSettings], every field optional) that each layer produces, a
    merge that takes, per field, the first present value in priority
    order, and a taxonomy of fatal conditions, here each with the
    error that caused it.  This file states that
    contract as pure functions ([resolve], [file_layer], [assemble]) and
    proves that the code of [Layered] and [Server] implements it: the
    outcome of a run is the contract's result on the abstraction of the
    initial world, and a fatal condition is reported by its own message
    before the process exits with status 1.  A default file that
    cannot be written is fatal in the three ways [save] fails: the
    settings do not serialise, the file cannot be made, or it is made
    and the device refuses the data, which leaves it empty
    ([stranded]).  The contracts also say
    which files are open when a component ends: none after the file
    layer, none after a key that loads, the key file after a key that
    opened and then failed.  The record of each fatal condition fits its
    format, identifies the condition, and renders to the message with the
    cause in place of the placeholder; every contract keeps the log well
    formed. *)

From Stdlib Require Import ZArith Lia.
From Stdlib.Strings Require Import Byte Ascii String.
From stdpp Require Import base tactics option list gmap strings.
From S2P Require Import Prelude Numbers Fmt Collaborators FileSystem World.
From S2P Require Import Environment Cli Yaml YamlText Samples Layered Server.

#[local] Open Scope proc_scope.
#[local] Open Scope string_scope.

Module Spec.

(** The settings that have no default. *)
Inductive RequiredField : Type :=
| ServerAddress
| DatabaseAddress
| SigningKeyPath.

#[global] Instance RequiredField_eq_dec : EqDecision RequiredField.
Proof. solve_decision. Defined.

(** The name the code reports a missing setting by. *)
Definition option_name (f : RequiredField) : string :=
  match f with
  | ServerAddress => "server_addr"
  | DatabaseAddress => "database_addr"
  | SigningKeyPath => "authkey_path"
  end.

(** The built-in default of the session lifetime, in seconds. *)
Definition default_lifetime : Z := 60.

Section WithCollaborators.
Context {url : UrlParser} {keys : KeyDecoder} {std : StdDebug}
  {codec : YamlConfiguration.Codec} {anyhow : fmt.Debug YamlConfiguration.SaveError}.

(** The fatal conditions of the specification's error taxonomy, each
    with the error that caused it. *)
Inductive Fatal : Type :=
| SettingsPathMissing
| SettingsCorrupt (e : YamlConfiguration.YamlError)
| SettingsInaccessible (e : Errno)
| DefaultWriteFailed (e : YamlConfiguration.SaveError)
| RequiredMissing (f : RequiredField)
| KeyOpenFailed (e : Errno)
| KeyReadFailed (e : Errno)
| KeyDecodeFailed (e : KeyError).

#[global] Instance Fatal_eq_dec : EqDecision Fatal.
Proof. solve_decision. Defined.

(** The record the code logs at level [Error] before it exits: its
    format string, and the cause as its argument. *)
Definition fatal_message (f : Fatal) : string :=
  match f with
  | SettingsPathMissing => "No configuration path specified. This argument is required!"
  | SettingsCorrupt _ => "Unable to read yaml file. Reason is {:?}"
  | SettingsInaccessible _ => "Unable to handle error {:?}"
  | DefaultWriteFailed _ =>
      "Unable to write default yaml file. This is required! Error is {:?}"
  | RequiredMissing f => "Option " +:+ option_name f +:+ " is required!"
  | KeyOpenFailed _ => "Unable to open authkey file. Reason is {:?}"
  | KeyReadFailed _ => "Unable to read key file. Reason is {:?}"
  | KeyDecodeFailed _ => "Unable to parse supplied key. Reason is {:?}"
  end.

Definition fatal_arguments (f : Fatal) : list string :=
  match f with
  | SettingsPathMissing | RequiredMissing _ => []
  | SettingsCorrupt e => [fmt.debug e]
  | SettingsInaccessible e | KeyOpenFailed e | KeyReadFailed e => [fmt.debug e]
  | DefaultWriteFailed e => [fmt.debug e]
  | KeyDecodeFailed e => [fmt.debug e]
  end.

(** The record of a fatal condition. *)
Definition fatal_record (f : Fatal) : LogRecord :=
  {| level := Error; format := fatal_message f; arguments := fatal_arguments f |}.

(** Two conditions that differ in their cause at most. *)
Definition same_condition (f g : Fatal) : bool :=
  match f, g with
  | SettingsPathMissing, SettingsPathMissing
  | SettingsCorrupt _, SettingsCorrupt _
  | SettingsInaccessible _, SettingsInaccessible _
  | DefaultWriteFailed _, DefaultWriteFailed _
  | KeyOpenFailed _, KeyOpenFailed _
  | KeyReadFailed _, KeyReadFailed _
  | KeyDecodeFailed _, KeyDecodeFailed _ => true
  | RequiredMissing a, RequiredMissing b => bool_decide (a = b)
  | _, _ => false
  end.

(** The component a fatal condition belongs to. *)
Definition of_file_layer (f : Fatal) : bool :=
  match f with
  | SettingsCorrupt _ | SettingsInaccessible _ | DefaultWriteFailed _ => true
  | _ => false
  end.

Definition of_key_loader (f : Fatal) : bool :=
  match f with
  | KeyOpenFailed _ | KeyReadFailed _ | KeyDecodeFailed _ => true
  | _ => false
  end.

(** The one shape of settings every layer produces. *)
Record RawSettings : Type := {
  server_address : option Url;
  database_address : option Url;
  signing_key_path : option string;
  session_lifetime_seconds : option Z;
  settings_file_path : option string;
}.

Definition of_environment (c : EnvironmentConfiguration.t) : RawSettings :=
  {| server_address := EnvironmentConfiguration.server_addr c;
     database_address := EnvironmentConfiguration.database_addr c;
     signing_key_path := EnvironmentConfiguration.authkey_path c;
     session_lifetime_seconds := EnvironmentConfiguration.session_expiration c;
     settings_file_path := EnvironmentConfiguration.configuration_path c |}.

Definition of_cli (c : CliConfiguration.t) : RawSettings :=
  {| server_address := CliConfiguration.server_addr c;
     database_address := CliConfiguration.database_addr c;
     signing_key_path := CliConfiguration.authkey_path c;
     session_lifetime_seconds := CliConfiguration.session_expiration c;
     settings_file_path := CliConfiguration.configuration_path c |}.

(** The file never supplies its own path. *)
Definition of_yaml (c : YamlConfiguration.t) : RawSettings :=
  {| server_address := YamlConfiguration.server_addr c;
     database_address := YamlConfiguration.database_addr c;
     signing_key_path := YamlConfiguration.authkey_path c;
     session_lifetime_seconds := YamlConfiguration.session_expiration c;
     settings_file_path := None |}.

(** The merge: per field the first present value of the layers, which
    are given highest priority first; a required field absent in every
    layer is an error naming it (the first such field, in the order of
    the record); the lifetime falls back to its default. *)
Definition resolve (layers : list RawSettings)
  : Result LayeredServerConfiguration.t RequiredField :=
  match first_some (server_address <$> layers) with
  | None => Err ServerAddress
  | Some server =>
      match first_some (database_address <$> layers) with
      | None => Err DatabaseAddress
      | Some database =>
          match first_some (signing_key_path <$> layers) with
          | None => Err SigningKeyPath
          | Some key_path =>
              Ok {| LayeredServerConfiguration.server_addr := server;
                    LayeredServerConfiguration.database_addr := database;
                    LayeredServerConfiguration.authkey_path := key_path;
                    LayeredServerConfiguration.session_expiration :=
                      Duration.from_secs
                        (default default_lifetime
                           (first_some (session_lifetime_seconds <$> layers))) |}
          end
      end
  end.

(** Where the settings file is: the environment's path before the
    command line's. *)
Definition settings_path (env cli : RawSettings) : Result string Fatal :=
  match first_some [settings_file_path env; settings_file_path cli] with
  | Some p => Ok p
  | None => Err SettingsPathMissing
  end.

(** How a fatal condition ends a run from world [w]: its message is
    logged at level [Error], with its cause, and the process exits
    with status 1. *)
Definition fails {A} (w : World) (f : Fatal) : World * Outcome A :=
  (add_log w (fatal_record f), Exit 1).

Context {cli_parser : CliConfiguration.ArgParser}.

(** ** The file layer *)

(** What is at the settings path, as the file layer sees it. *)
Inductive FileState : Type :=
| Parsed (y : YamlConfiguration.t)
| Corrupt (e : YamlConfiguration.YamlError)
| Absent
| Inaccessible (e : Errno).

Definition file_state (fs : FileSystem) (path : string) : FileState :=
  match File.open path fs with
  | Ok _ =>
      match YamlConfiguration.decoded fs path with
      | Ok y => Parsed y
      | Err e => Corrupt e
      end
  | Err e =>
      match kind e with
      | NotFound => Absent
      | _ => Inaccessible e
      end
  end.

(** The world after the default settings [y], serialised as [s], were
    written at [path]. *)
Definition created (path : string) (y : YamlConfiguration.t) (s : string) (w : World)
  : World :=
  set_fs (YamlConfiguration.announced s (LayeredServerConfiguration.warned y w))
         (<[path := YamlConfiguration.file_with (as_bytes s)]> (fs w)).

(** The world after the file for the default settings was made at
    [path] on a device that takes no more data: the file is there,
    empty. *)
Definition stranded (path : string) (y : YamlConfiguration.t) (s : string) (w : World)
  : World :=
  set_fs (YamlConfiguration.announced s (LayeredServerConfiguration.warned y w))
         (<[path := full_file]> (fs w)).

(** Nothing is at the path: the default settings are announced, written
    there, and returned; a default that cannot be written is fatal,
    whether the file cannot be made or, once made, cannot be
    written. *)
Definition persist_default (path : string) (w : World)
  : World * Outcome YamlConfiguration.t :=
  match YamlConfiguration.default_value with
  | None => (w, Panic UnwrapFailed)
  | Some y =>
      let w1 := LayeredServerConfiguration.warned y w in
      match YamlConfiguration.to_string y with
      | Err e => fails w1 (DefaultWriteFailed (YamlConfiguration.SerializeFailed y e))
      | Ok s =>
          match OpenOptions.may_create (fs w) path with
          | Err e =>
              fails (YamlConfiguration.announced s w1)
                    (DefaultWriteFailed (YamlConfiguration.OpenFailed e))
          | Ok _ =>
              if OpenOptions.device_full (fs w) path then
                fails (stranded path y s w)
                      (DefaultWriteFailed (YamlConfiguration.WriteFailed EIO))
              else (created path y s w, Done y)
          end
      end
  end.

(** The file layer's contract. *)
Definition file_layer (path : string) (w : World)
  : World * Outcome YamlConfiguration.t :=
  match file_state (fs w) path with
  | Parsed y => (w, Done y)
  | Corrupt e => fails w (SettingsCorrupt e)
  | Inaccessible e => fails w (SettingsInaccessible e)
  | Absent => persist_default path w
  end.

(** ** The layered configuration *)

Definition layered (w : World) : World * Outcome LayeredServerConfiguration.t :=
  let env := EnvironmentConfiguration.of_env (env w) in
  match CliConfiguration.parse_args (args w) with
  | Done cli =>
      match settings_path (of_environment env) (of_cli cli) with
      | Err f => fails w f
      | Ok path =>
          match file_layer path w with
          | (w', Done yaml) =>
              match resolve [of_environment env; of_cli cli; of_yaml yaml] with
              | Ok c => (w', Done c)
              | Err f => fails w' (RequiredMissing f)
              end
          | (w', Exit c) => (w', Exit c)
          | (w', Panic why) => (w', Panic why)
          end
      end
  | Exit c => (w, Exit c)
  | Panic why => (w, Panic why)
  end.

(** The settings path of a world, when the command line parses and a
    layer names one. *)
Definition settings_path_of (w : World) : option string :=
  match CliConfiguration.parse_args (args w) with
  | Done cli =>
      ok (settings_path (of_environment (EnvironmentConfiguration.of_env (env w)))
                        (of_cli cli))
  | _ => None
  end.

(** ** The key loader *)

(** What is at the key path, as the key loader sees it. *)
Inductive KeyState : Type :=
| KeyLoaded (key : EncodingKey)
| KeyUnopenable (e : Errno)
| KeyStatFailed
| KeyUnreadable (e : Errno)
| KeyUndecodable (e : KeyError).

Definition key_state (fs : FileSystem) (path : string) : KeyState :=
  match File.open path fs with
  | Err e => KeyUnopenable e
  | Ok v =>
      match File.metadata_len v fs with
      | Err _ => KeyStatFailed
      | Ok _ =>
          match contents fs path with
          | Err e => KeyUnreadable e
          | Ok bytes =>
              match from_ec_pem bytes with
              | Ok key => KeyLoaded key
              | Err e => KeyUndecodable e
              end
          end
      end
  end.

(** The key loader's contract.  A key that loads leaves the world as
    it was; a key file that opened and then failed ends the run with
    the file still open. *)
Definition key_loader (path : string) (w : World) : World * Outcome EncodingKey :=
  match key_state (fs w) path with
  | KeyLoaded key => (w, Done key)
  | KeyUnopenable e => fails w (KeyOpenFailed e)
  | KeyStatFailed => (hold path w, Panic Unimplemented)
  | KeyUnreadable e => fails (hold path w) (KeyReadFailed e)
  | KeyUndecodable e => fails (hold path w) (KeyDecodeFailed e)
  end.

(** ** The assembler *)

Definition assemble (w : World) : World * Outcome ServerConfiguration.t :=
  match layered w with
  | (w', Done c) =>
      match key_loader (LayeredServerConfiguration.authkey_path c) w' with
      | (w'', Done key) =>
          (w'', Done {| ServerConfiguration.server_addr :=
                          LayeredServerConfiguration.server_addr c;
                        ServerConfiguration.database_addr :=
                          LayeredServerConfiguration.database_addr c;
                        ServerConfiguration.authkey := key;
                        ServerConfiguration.session_expiration :=
                          LayeredServerConfiguration.session_expiration c |})
      | (w'', Exit code) => (w'', Exit code)
      | (w'', Panic why) => (w'', Panic why)
      end
  | (w', Exit code) => (w', Exit code)
  | (w', Panic why) => (w', Panic why)
  end.

(** ** The merge implements [resolve] *)

(** The struct literal of [LayeredServerConfiguration::new], with its
    four nested matches, computes the priority merge of the three layers
    (environment, command line, file): it returns the merged
    configuration and leaves the world alone, or logs which required
    option is missing and exits with status 1. *)
Lemma merge_resolve env cli yaml w :
  LayeredServerConfiguration.merge env cli yaml w =
  match resolve [of_environment env; of_cli cli; of_yaml yaml] with
  | Ok c => (w, Done c)
  | Err f => fails w (RequiredMissing f)
  end.
Proof.
  unfold LayeredServerConfiguration.merge.
  rewrite !LayeredServerConfiguration.nested_required,
    LayeredServerConfiguration.nested_default.
  unfold resolve, LayeredServerConfiguration.layers_of, fails.
  by case_first_some.
Qed.

(** ** The file layer is implemented *)

Lemma settings_path_run env cli w :
  LayeredServerConfiguration.yaml_path env cli w =
  match settings_path (of_environment env) (of_cli cli) with
  | Ok path => (w, Done path)
  | Err f => fails w f
  end.
Proof.
  rewrite LayeredServerConfiguration.yaml_path_run. unfold settings_path.
  by case_first_some.
Qed.

(** The [let yaml = ...] of [LayeredServerConfiguration::new]
    implements the file layer's contract: a file that parses is
    returned and nothing changes; a file that does not parse, or cannot
    be opened for a reason other than absence, is fatal; when nothing is
    at the path the default settings are written there and returned, and
    failing to write them is fatal. *)
Lemma yaml_file_layer path w :
  LayeredServerConfiguration.yaml path w = file_layer path w.
Proof.
  unfold file_layer, file_state.
  destruct (File.open path (fs w)) as [v|e] eqn:Ho.
  { rewrite (LayeredServerConfiguration.yaml_opened path v) by done.
    by destruct (YamlConfiguration.decoded (fs w) path). }
  destruct (decide (kind e = NotFound)) as [Hk|Hk].
  2:{ rewrite (LayeredServerConfiguration.yaml_inaccessible path e) by done.
      by destruct (kind e). }
  rewrite (LayeredServerConfiguration.yaml_absent path e), Hk by done.
  unfold persist_default.
  destruct YamlConfiguration.default_value as [y|]; [|done].
  destruct (proj1 (open_NotFound path (fs w))) as [Hp _]; [by eauto|].
  destruct (YamlConfiguration.to_string y) as [s|e0] eqn:Hs.
  2:{ by rewrite YamlConfiguration.save_run, Hs. }
  destruct (OpenOptions.may_create (fs w) path) as [[]|e'] eqn:Hc.
  - destruct (OpenOptions.device_full (fs w) path) eqn:Hf.
    + by erewrite YamlConfiguration.save_fresh_full.
    + by erewrite YamlConfiguration.save_fresh.
  - by erewrite YamlConfiguration.save_fresh_refused.
Qed.

(** [LayeredServerConfiguration::new] implements the layered contract:
    the environment layer and the command-line layer determine the
    settings path, the file layer supplies the third layer, and the
    three are merged by priority. *)
Lemma new_layered w : LayeredServerConfiguration.new w = layered w.
Proof.
  unfold LayeredServerConfiguration.new, layered.
  erewrite bind_done by apply EnvironmentConfiguration.new_by_readers.
  unfold bind at 1. rewrite CliConfiguration.from_args_run.
  destruct (CliConfiguration.parse_args (args w)) as [cli| |]; [|done..].
  unfold bind at 1. rewrite settings_path_run.
  destruct (settings_path _ _) as [path|f]; [|done].
  unfold bind. rewrite yaml_file_layer.
  destruct (file_layer path w) as [w' [yaml| |]]; [|done..].
  apply merge_resolve.
Qed.

(** ** How the contracts end *)

Lemma warned_same_but_log y w :
  same_but_log w (LayeredServerConfiguration.warned y w).
Proof. unfold LayeredServerConfiguration.warned. etrans; apply same_but_log_add. Qed.

Lemma announced_same_but_log s w : same_but_log w (YamlConfiguration.announced s w).
Proof. unfold YamlConfiguration.announced. etrans; apply same_but_log_add. Qed.


(** The file layer returns settings in two ways: it parsed the file, or
    it created it. *)
Lemma file_layer_Done path w w' y :
  file_layer path w = (w', Done y) ->
  (file_state (fs w) path = Parsed y /\ w' = w) \/
  (file_state (fs w) path = Absent /\ YamlConfiguration.default_value = Some y /\
   exists s, YamlConfiguration.to_string y = Ok s /\
             OpenOptions.may_create (fs w) path = Ok tt /\
             OpenOptions.device_full (fs w) path = false /\ w' = created path y s w).
Proof.
  unfold file_layer, persist_default, fails.
  destruct (file_state (fs w) path) as [y'|e| |e]; intros Heq; simplify_eq; [by left|].
  right. destruct YamlConfiguration.default_value as [y'|]; [|done].
  destruct (YamlConfiguration.to_string y') as [s|e] eqn:Hs; [|done].
  destruct (OpenOptions.may_create (fs w) path) as [[]|e]; [|done].
  destruct (OpenOptions.device_full (fs w) path); simplify_eq. eauto 10.
Qed.

(** The settings the file layer returns are well formed. *)
Lemma file_layer_wf path w w' y :
  file_layer path w = (w', Done y) -> YamlConfiguration.wf y.
Proof.
  intros [[Hst _]|(_ & Hy & _)]%file_layer_Done;
    [|by eapply YamlConfiguration.default_value_wf].
  revert Hst. unfold file_state, YamlConfiguration.decoded.
  repeat case_match; try done.
  intros [= <-]. by eapply YamlConfiguration.from_slice_wf.
Qed.

(** The file layer exits only through one of its three fatal
    conditions. *)
Lemma file_layer_Exit path w w' c :
  file_layer path w = (w', Exit c) ->
  exists w1 f, of_file_layer f = true /\ (w', Exit c) = @fails YamlConfiguration.t w1 f.
Proof.
  unfold file_layer, persist_default.
  destruct (file_state (fs w) path) as [y'|e| |e]; intros Heq; simplify_eq.
  - by exists w, (SettingsCorrupt e).
  - destruct YamlConfiguration.default_value as [y'|]; [|done].
    destruct (YamlConfiguration.to_string y') as [s|e] eqn:Hs;
      [|by eexists _, (DefaultWriteFailed _)].
    destruct (OpenOptions.may_create (fs w) path) as [[]|e];
      [|by eexists _, (DefaultWriteFailed _)].
    destruct (OpenOptions.device_full (fs w) path); [|done].
    by eexists _, (DefaultWriteFailed _).
  - by exists w, (SettingsInaccessible e).
Qed.

(** The file layer panics only when the default literals do not
    parse. *)
Lemma file_layer_Panic path w w' why :
  file_layer path w = (w', Panic why) ->
  why = UnwrapFailed /\ YamlConfiguration.default_value = None /\ w' = w.
Proof.
  unfold file_layer, persist_default, fails.
  destruct (file_state (fs w) path) as [y'|e| |e]; intros Heq; simplify_eq.
  destruct YamlConfiguration.default_value as [y'|]; [|by simplify_eq].
  destruct (YamlConfiguration.to_string y') as [s|e]; [|done].
  destruct (OpenOptions.may_create (fs w) path) as [[]|e]; [|done].
  by destruct (OpenOptions.device_full (fs w) path).
Qed.

Lemma layered_Done w w' c :
  layered w = (w', Done c) ->
  exists cli path yaml,
    CliConfiguration.parse_args (args w) = Done cli /\
    settings_path (of_environment (EnvironmentConfiguration.of_env (env w)))
                  (of_cli cli) = Ok path /\
    file_layer path w = (w', Done yaml) /\
    resolve [of_environment (EnvironmentConfiguration.of_env (env w));
             of_cli cli; of_yaml yaml] = Ok c.
Proof.
  unfold layered, fails.
  destruct (CliConfiguration.parse_args (args w)) as [cli| |] eqn:Hcli; [|done..].
  destruct (settings_path _ _) as [path|] eqn:Hpath; [|done].
  destruct (file_layer path w) as [w1 [yaml| |]] eqn:Hfile; [|done..].
  destruct (resolve _) as [c'|] eqn:Hr; [|done]. intros [= <- <-].
  by eexists _, _, _.
Qed.

Lemma key_loader_Done path w w' key :
  key_loader path w = (w', Done key) ->
  w' = w /\ key_state (fs w) path = KeyLoaded key.
Proof.
  unfold key_loader, fails. destruct (key_state (fs w) path); intros; by simplify_eq.
Qed.

(** What a successful merge holds. *)
Lemma resolve_Ok layers c :
  resolve layers = Ok c ->
  first_some (server_address <$> layers) =
    Some (LayeredServerConfiguration.server_addr c) /\
  first_some (database_address <$> layers) =
    Some (LayeredServerConfiguration.database_addr c) /\
  first_some (signing_key_path <$> layers) =
    Some (LayeredServerConfiguration.authkey_path c) /\
  LayeredServerConfiguration.session_expiration c =
    Duration.from_secs
      (default default_lifetime (first_some (session_lifetime_seconds <$> layers))).
Proof. unfold resolve. repeat case_match; try done. by intros [= <-]. Qed.

(** The layered configuration once the command line is parsed and the
    settings path is known. *)
Lemma layered_run w cli path :
  CliConfiguration.parse_args (args w) = Done cli ->
  settings_path (of_environment (EnvironmentConfiguration.of_env (env w)))
                (of_cli cli) = Ok path ->
  layered w =
  match file_layer path w with
  | (w', Done yaml) =>
      match resolve [of_environment (EnvironmentConfiguration.of_env (env w));
                     of_cli cli; of_yaml yaml] with
      | Ok c => (w', Done c)
      | Err f => fails w' (RequiredMissing f)
      end
  | (w', Exit c) => (w', Exit c)
  | (w', Panic why) => (w', Panic why)
  end.
Proof. intros Hcli Hpath. unfold layered. by rewrite Hcli, Hpath. Qed.

Lemma settings_path_of_inv w path :
  settings_path_of w = Some path ->
  exists cli, CliConfiguration.parse_args (args w) = Done cli /\
    settings_path (of_environment (EnvironmentConfiguration.of_env (env w)))
                  (of_cli cli) = Ok path.
Proof.
  unfold settings_path_of.
  destruct (CliConfiguration.parse_args (args w)) as [cli| |]; [|done..].
  destruct (settings_path _ _) as [p|] eqn:Hp; [|done]. intros [= <-]. eauto.
Qed.

(** ** What the contracts change *)

Lemma fails_same_but_log {A} w f : same_but_log w (world_of (@fails A w f)).
Proof. apply same_but_log_add. Qed.

Lemma file_state_Absent fs path : file_state fs path = Absent -> fs !! path = None.
Proof.
  unfold file_state. destruct (File.open path fs) as [v|e] eqn:Ho.
  - by repeat case_match.
  - destruct (kind e) eqn:Hk; [|done..]. intros _.
    destruct (proj1 (open_NotFound path fs)) as [? _]; eauto.
Qed.

(** Writing the default touches the settings path only. *)
Lemma persist_default_touches_only path w :
  fs w !! path = None -> touches_only path w (world_of (persist_default path w)).
Proof.
  intros Hp. unfold persist_default.
  destruct YamlConfiguration.default_value as [y|]; [|done].
  pose proof (warned_same_but_log y w) as Hw.
  destruct (YamlConfiguration.to_string y) as [s|e0].
  2:{ apply same_but_log_touches_only. etrans; [done|apply fails_same_but_log]. }
  pose proof (announced_same_but_log s (LayeredServerConfiguration.warned y w)) as Ha.
  destruct (OpenOptions.may_create (fs w) path) as [[]|e].
  2:{ apply same_but_log_touches_only. etrans; [done|].
      etrans; [done|apply fails_same_but_log]. }
  assert (same_but_log w
            (YamlConfiguration.announced s (LayeredServerConfiguration.warned y w)))
    as (He & Hargs & _ & Hl) by by etrans.
  assert (log_extends w
            (add_log (YamlConfiguration.announced s (LayeredServerConfiguration.warned y w))
               (fatal_record (DefaultWriteFailed (YamlConfiguration.WriteFailed EIO)))))
    as Hl' by (etrans; [done|apply same_but_log_extends, same_but_log_add]).
  destruct (OpenOptions.device_full (fs w) path);
    unfold touches_only, inputs_kept, created, stranded; cbn; (split_and!; [done..| |]).
  all: try (intros q ?; by rewrite lookup_insert_ne).
  all: rewrite Hp; by intros [].
Qed.

Lemma file_layer_touches_only path w :
  touches_only path w (world_of (file_layer path w)).
Proof.
  unfold file_layer. destruct (file_state (fs w) path) eqn:Hst;
    [done|apply same_but_log_touches_only, fails_same_but_log| |
     apply same_but_log_touches_only, fails_same_but_log].
  by apply persist_default_touches_only, file_state_Absent.
Qed.

Lemma key_loader_same_but_log path w : same_but_log w (world_of (key_loader path w)).
Proof.
  unfold key_loader. destruct (key_state _ _); try done;
    try apply fails_same_but_log; try apply same_but_log_hold;
    (etrans; [apply (same_but_log_hold path)|apply fails_same_but_log]).
Qed.

(** ** The files the contracts hold *)

Lemma fails_handles {A} w f : handles (world_of (@fails A w f)) = handles w.
Proof. done. Qed.

(** The file layer holds no file when it ends, however it ends. *)
Lemma file_layer_handles path w : handles (world_of (file_layer path w)) = handles w.
Proof.
  unfold file_layer, persist_default. destruct (file_state (fs w) path); try done.
  destruct YamlConfiguration.default_value; [|done].
  destruct (YamlConfiguration.to_string _); [|done].
  destruct (OpenOptions.may_create (fs w) path); [|done].
  by destruct (OpenOptions.device_full (fs w) path).
Qed.

(** Nor does the layered configuration. *)
Lemma layered_handles w : handles (world_of (layered w)) = handles w.
Proof.
  unfold layered. destruct (CliConfiguration.parse_args (args w)); [|done..].
  destruct (settings_path _ _) as [path|]; [|done].
  pose proof (file_layer_handles path w) as Hf.
  destruct (file_layer path w) as [w1 [yaml| |]]; [|done..].
  by destruct (resolve _).
Qed.

(** The key loader holds the key file when it exits after opening it
    or panics, and no file otherwise. *)
Lemma key_loader_handles path w :
  handles (world_of (key_loader path w)) =
  match key_state (fs w) path with
  | KeyLoaded _ | KeyUnopenable _ => handles w
  | KeyStatFailed | KeyUnreadable _ | KeyUndecodable _ => path :: handles w
  end.
Proof. unfold key_loader. by destruct (key_state (fs w) path). Qed.

(** ** The records the contracts write *)

(** The record of a fatal condition has one argument where its message
    has a placeholder, and none where it has none. *)
Lemma fatal_fits f : fmt.fits (fatal_message f) (fatal_arguments f).
Proof. by destruct f as [| | | |[]| | |]. Qed.

(** No two conditions share a message: the message of a record tells
    which condition it reports. *)
Lemma fatal_message_condition f g :
  fatal_message f = fatal_message g -> same_condition f g = true.
Proof.
  destruct f as [| | | |[]| | |], g as [| | | |[]| | |]; try done;
    intros H; vm_compute in H; discriminate H.
Qed.

(** The line of a fatal record: the message itself when it has no
    placeholder, the message with the cause in place of the placeholder
    at its end otherwise. *)
Lemma fatal_render f :
  match fatal_arguments f with
  | [] => render (fatal_record f) = fatal_message f
  | a :: _ =>
      fatal_message f = fmt.before_hole (fatal_message f) ++ fmt.placeholder /\
      render (fatal_record f) = fmt.before_hole (fatal_message f) ++ a
  end.
Proof.
  destruct f as [| | | |[]| | |]; cbn [fatal_arguments];
    try (by apply fmt.format_plain);
    (split; [|apply fmt.format_ends]); reflexivity.
Qed.

Lemma fails_wf_kept {A} w f : wf_kept w (world_of (@fails A w f)).
Proof. apply wf_kept_add, fatal_fits. Qed.

Lemma warned_wf_kept y w : wf_kept w (LayeredServerConfiguration.warned y w).
Proof. unfold LayeredServerConfiguration.warned. by etrans; apply wf_kept_add. Qed.

Lemma announced_wf_kept s w : wf_kept w (YamlConfiguration.announced s w).
Proof. unfold YamlConfiguration.announced. by etrans; apply wf_kept_add. Qed.

Lemma file_layer_wf_kept path w : wf_kept w (world_of (file_layer path w)).
Proof.
  unfold file_layer, persist_default.
  destruct (file_state (fs w) path); [done|apply fails_wf_kept| |apply fails_wf_kept].
  destruct YamlConfiguration.default_value as [y|]; [|done].
  pose proof (warned_wf_kept y w) as Hw.
  destruct (YamlConfiguration.to_string y) as [s|e];
    [|by etrans; [|apply fails_wf_kept]].
  pose proof (announced_wf_kept s (LayeredServerConfiguration.warned y w)) as Ha.
  destruct (OpenOptions.may_create (fs w) path) as [[]|e];
    [|etrans; [done|]; by etrans; [|apply fails_wf_kept]].
  etrans; [done|]. etrans; [done|].
  destruct (OpenOptions.device_full (fs w) path); [|by apply wf_kept_eq].
  etrans; [|apply fails_wf_kept]. by apply wf_kept_eq.
Qed.

Lemma layered_wf_kept w : wf_kept w (world_of (layered w)).
Proof.
  unfold layered. destruct (CliConfiguration.parse_args (args w)); [|done..].
  destruct (settings_path _ _) as [path|f]; [|apply fails_wf_kept].
  pose proof (file_layer_wf_kept path w) as Hf.
  destruct (file_layer path w) as [w1 [yaml| |]]; [|done..].
  destruct (resolve _); [done|]. by etrans; [|apply fails_wf_kept].
Qed.

Lemma key_loader_wf_kept path w : wf_kept w (world_of (key_loader path w)).
Proof.
  unfold key_loader. destruct (key_state (fs w) path); try done;
    try apply fails_wf_kept; try (by apply wf_kept_eq);
    (etrans; [apply (wf_kept_eq _ (hold path w)); done|apply fails_wf_kept]).
Qed.

(** ** The key loader and the assembler are implemented *)

(** The [authkey] field of [ServerConfiguration::new] implements the
    key loader's contract; a key file whose metadata cannot be read is
    the one case that panics instead of exiting. *)
Lemma authkey_key_loader path w :
  ServerConfiguration.authkey_of path w = key_loader path w.
Proof.
  unfold ServerConfiguration.authkey_of, key_loader, key_state, contents, fails.
  unfold bind at 1. rewrite File_open_run.
  destruct (File.open path (fs w)) as [v|e] eqn:Ho; [|done].
  apply open_Ok in Ho as (i & _ & _ & ->).
  unfold File_metadata_len, File_read_to_end, File_drop, fs_read. proc_unfold.
  cbn [fs hold set_handles File.path].
  destruct (File.metadata_len _ (fs w)) as [len|e]; [|done].
  unfold Vec_with_capacity. cbn.
  destruct (File.read_to_end _ [] (fs w)) as [[v' bytes]|e]; [|done].
  destruct (from_ec_pem bytes); [|done]. by rewrite release_hold.
Qed.

End WithCollaborators.

(** Splits a run of [ServerConfiguration::new] on world [w] at its two
    stages: the layered configuration, then the key loader. *)
Ltac split_new w :=
  unfold ServerConfiguration.new, bind, ret;
  rewrite new_layered;
  destruct (layered w) as [? [?| |]] eqn:?;
  [rewrite authkey_key_loader;
   destruct (key_loader _ _) as [? [?| |]] eqn:?|..].

Section Runs.
Context {url : UrlParser} {keys : KeyDecoder} {std : StdDebug}
  {codec : YamlConfiguration.Codec} {anyhow : fmt.Debug YamlConfiguration.SaveError}
  {cli_parser : CliConfiguration.ArgParser}.

(** C2: [ServerConfiguration::new] implements the assembler's contract,
    end to end: the layers are gathered and merged by priority, the key
    file the merged configuration names is loaded and decoded, and the
    four fields of the result are the merged addresses, the key and the
    merged lifetime; every fatal condition on the way is reported by its
    own message before the process exits with status 1. *)
Theorem new_refines_assemble w : ServerConfiguration.new w = assemble w.
Proof. unfold assemble. by split_new w. Qed.

(** ** How a run of [ServerConfiguration::new] ends *)

Lemma new_Done w w' s :
  ServerConfiguration.new w = (w', Done s) ->
  exists c,
    layered w = (w', Done c) /\
    key_state (fs w') (LayeredServerConfiguration.authkey_path c) =
      KeyLoaded (ServerConfiguration.authkey s) /\
    ServerConfiguration.server_addr s = LayeredServerConfiguration.server_addr c /\
    ServerConfiguration.database_addr s = LayeredServerConfiguration.database_addr c /\
    ServerConfiguration.session_expiration s =
      LayeredServerConfiguration.session_expiration c.
Proof.
  split_new w; intros; simplify_eq.
  match goal with H : key_loader _ _ = _ |- _ => apply key_loader_Done in H as [-> ?] end.
  eexists. split_and!; done.
Qed.

(** A run exits in the layered configuration or in the key loader. *)
Lemma new_Exit w w' code :
  ServerConfiguration.new w = (w', Exit code) ->
  layered w = (w', Exit code) \/
  exists w1 c, layered w = (w1, Done c) /\
    key_loader (LayeredServerConfiguration.authkey_path c) w1 = (w', Exit code).
Proof. split_new w; intros; simplify_eq; eauto. Qed.

Lemma new_Panic w w' why :
  ServerConfiguration.new w = (w', Panic why) ->
  layered w = (w', Panic why) \/
  exists w1 c, layered w = (w1, Done c) /\
    key_loader (LayeredServerConfiguration.authkey_path c) w1 = (w', Panic why).
Proof. split_new w; intros; simplify_eq; eauto. Qed.

(** A run whose layered configuration fails, fails the same way. *)
Lemma new_fails w w1 f :
  layered w = fails w1 f -> ServerConfiguration.new w = fails w1 f.
Proof. unfold fails. split_new w; intros; by simplify_eq. Qed.

(** A run whose layered configuration is [c] and whose key file loads
    returns [c] with the key. *)
Lemma new_loaded w w1 c key :
  layered w = (w1, Done c) ->
  key_state (fs w1) (LayeredServerConfiguration.authkey_path c) = KeyLoaded key ->
  ServerConfiguration.new w =
  (w1, Done {| ServerConfiguration.server_addr := LayeredServerConfiguration.server_addr c;
               ServerConfiguration.database_addr :=
                 LayeredServerConfiguration.database_addr c;
               ServerConfiguration.authkey := key;
               ServerConfiguration.session_expiration :=
                 LayeredServerConfiguration.session_expiration c |}).
Proof.
  intros Hl Hk. split_new w; simplify_eq.
  all: match goal with H : key_loader _ _ = _ |- _ =>
         unfold key_loader in H; rewrite Hk in H; by simplify_eq end.
Qed.

End Runs.

End Spec.
