(* ===== verification/Footprint.v ===== *)
(** * What a run reads

    The resolver takes its input from five environment variables, the
    command line, and the files at two paths it computes: the settings
    path (with the directory that holds it, which decides how a missing
    file is reported and whether the default can be created) and the key
    path.  This file states that as a relation between two runs: worlds
    that agree on a set of variables and a set of paths ([agree]) are
    taken by a computation that [reads] no more than those to outcomes
    that are equal and to worlds that agree again.  The relation is an
    equivalence coarser than equality of worlds, and [reads] says that a
    computation is a morphism for it, on every larger footprint: what
    it returns, what it logs and what it leaves at any path are
    determined by what it read.  Where a run writes is the subject of
    [touches_only] in [World]; the two together give the frame of a run
    in [Properties].

    Each primitive of [World] has its footprint, the combinators carry
    footprints through [bind], and the hint database [reads] composes
    them: the footprint of [YamlConfiguration::save], of
    [serde_yaml::from_reader], of the [let yaml] of
    [LayeredServerConfiguration::new] and of the key loading are proved
    by the same tactic over the code. *)

From Stdlib Require Import ZArith Lia Morphisms.
From Stdlib.Strings Require Import Byte Ascii String.
From stdpp Require Import base tactics option list gmap strings.
From S2P Require Import Prelude Numbers Fmt Collaborators FileSystem World.
From S2P Require Import Environment Cli Yaml Layered Server Spec.

#[local] Open Scope proc_scope.
#[local] Open Scope string_scope.

(** ** Agreement of two worlds *)

(** Two file systems that hold the same at every path of [P]. *)
Definition fs_agree (P : gset string) (fs1 fs2 : FileSystem) : Prop :=
  forall p, p ∈ P -> fs1 !! p = fs2 !! p.

(** Two worlds that differ at most in variables outside [V] and in
    files outside [P]. *)
Definition agree (V P : gset string) (w1 w2 : World) : Prop :=
  (forall k, k ∈ V -> env w1 !! k = env w2 !! k) /\
  args w1 = args w2 /\
  fs_agree P (fs w1) (fs w2) /\
  log w1 = log w2 /\
  handles w1 = handles w2.

(** Two runs that end the same way in worlds that agree. *)
Definition agree_run {A} (V P : gset string) (r1 r2 : World * Outcome A) : Prop :=
  agree V P (world_of r1) (world_of r2) /\ outcome_of r1 = outcome_of r2.

(** [m] reads no variable outside [V] and no file outside [P]: on
    every footprint that includes both, two runs from worlds that agree
    end the same way in worlds that agree, so what [m] leaves at a path
    is determined by what it read. *)
Definition reads {A} (V P : gset string) (m : Proc World A) : Prop :=
  forall V' P', V ⊆ V' -> P ⊆ P' ->
    Proper (agree V' P' ==> agree_run V' P') m.

(** The same of a function of the file system. *)
Definition fs_reads {A} (P : gset string) (f : FileSystem -> A) : Prop :=
  forall P', P ⊆ P' -> forall fs1 fs2, fs_agree P' fs1 fs2 -> f fs1 = f fs2.

(** A call that may change the file system: on file systems that agree
    it fails with the same error, or returns the same value and file
    systems that agree. *)
Definition fs_result_agree {A} (P : gset string)
    (r1 r2 : Result (A * FileSystem) Errno) : Prop :=
  match r1, r2 with
  | Ok (a1, fs1), Ok (a2, fs2) => a1 = a2 /\ fs_agree P fs1 fs2
  | Err e1, Err e2 => e1 = e2
  | _, _ => False
  end.

Definition fs_writes {A} (P : gset string)
    (f : FileSystem -> Result (A * FileSystem) Errno) : Prop :=
  forall P', P ⊆ P' -> forall fs1 fs2, fs_agree P' fs1 fs2 ->
    fs_result_agree P' (f fs1) (f fs2).

(** ** The footprint of a run *)

Section Footprint.
Context {url : UrlParser} {keys : KeyDecoder} {std : StdDebug}
  {codec : YamlConfiguration.Codec} {anyhow : fmt.Debug YamlConfiguration.SaveError}
  {cli_parser : CliConfiguration.ArgParser}.

(** The variables of the environment layer. *)
Definition variables_read : gset string := list_to_set EnvironmentConfiguration.variables.

(** A path and the directory that holds it. *)
Definition with_parent (p : string) : gset string := {[p; parent p]}.

(** The settings path of a world, when it has one, and its directory. *)
Definition settings_paths (w : World) : gset string :=
  match Spec.settings_path_of w with
  | Some p => with_parent p
  | None => ∅
  end.

(** The key path the layered configuration of a world names, when the
    run gets that far, and its directory. *)
Definition key_paths (w : World) : gset string :=
  match outcome_of (LayeredServerConfiguration.new w) with
  | Done c => with_parent (LayeredServerConfiguration.authkey_path c)
  | _ => ∅
  end.

(** The paths a run of [ServerConfiguration::new] from [w] looks at. *)
Definition paths_read (w : World) : gset string := settings_paths w ∪ key_paths w.

End Footprint.

Create HintDb reads.

(** ** The relation *)

Section Agreement.
Context (V P : gset string).

#[export] Instance fs_agree_equivalence : Equivalence (fs_agree P).
Proof.
  split; [by intros fs p|by intros fs1 fs2 H p Hp; rewrite H|].
  intros fs1 fs2 fs3 H1 H2 p Hp. by rewrite H1, H2.
Qed.

#[export] Instance agree_equivalence : Equivalence (agree V P).
Proof.
  split.
  - by intros w.
  - intros w1 w2 (He & ? & Hf & ? & ?).
    split_and!; [by intros k Hk; rewrite He|done|by symmetry|done..].
  - intros w1 w2 w3 (He1 & ? & Hf1 & ? & ?) (He2 & ? & Hf2 & ? & ?).
    split_and!; [by intros k Hk; rewrite He1, He2|congruence|by etrans|congruence..].
Qed.

#[export] Instance agree_run_equivalence {A} : Equivalence (@agree_run A V P).
Proof.
  split.
  - by intros r.
  - by intros r1 r2 [??].
  - intros r1 r2 r3 [??] [??]. split; [by etrans|congruence].
Qed.

(** What a computation reads of two worlds that agree is the same. *)
Lemma agree_env w1 w2 k : agree V P w1 w2 -> k ∈ V -> env w1 !! k = env w2 !! k.
Proof. intros (He & _). apply He. Qed.

Lemma agree_args w1 w2 : agree V P w1 w2 -> args w1 = args w2.
Proof. by intros (_ & ? & _). Qed.

Lemma agree_fs w1 w2 : agree V P w1 w2 -> fs_agree P (fs w1) (fs w2).
Proof. by intros (_ & _ & ? & _). Qed.

(** What a computation changes keeps the agreement. *)
Lemma agree_add_log w1 w2 r : agree V P w1 w2 -> agree V P (add_log w1 r) (add_log w2 r).
Proof. intros (? & ? & ? & Hl & ?). split_and!; try done. cbn. by rewrite Hl. Qed.

Lemma agree_set_handles w1 w2 (f : list string -> list string) :
  agree V P w1 w2 ->
  agree V P (set_handles w1 (f (handles w1))) (set_handles w2 (f (handles w2))).
Proof. intros (? & ? & ? & ? & Hh). split_and!; try done. cbn. by rewrite Hh. Qed.

Lemma agree_set_fs w1 w2 fs1 fs2 :
  agree V P w1 w2 -> fs_agree P fs1 fs2 -> agree V P (set_fs w1 fs1) (set_fs w2 fs2).
Proof. by intros (? & ? & ? & ? & ?) ?. Qed.

(** Agreement on finite footprints can be checked. *)
#[export] Instance fs_agree_dec fs1 fs2 : Decision (fs_agree P fs1 fs2).
Proof. apply (set_Forall_dec (fun p => fs1 !! p = fs2 !! p)). Defined.

#[export] Instance agree_dec w1 w2 : Decision (agree V P w1 w2).
Proof.
  apply and_dec; [apply (set_Forall_dec (fun k => env w1 !! k = env w2 !! k))|apply _].
Defined.

End Agreement.

Lemma fs_agree_mono P P' fs1 fs2 : P ⊆ P' -> fs_agree P' fs1 fs2 -> fs_agree P fs1 fs2.
Proof. intros HP H p Hp. apply H. set_solver. Qed.

Lemma agree_mono V P V' P' w1 w2 :
  V ⊆ V' -> P ⊆ P' -> agree V' P' w1 w2 -> agree V P w1 w2.
Proof.
  intros HV HP (He & ? & Hf & ? & ?).
  split_and!; [intros k Hk; apply He; set_solver|done|by eapply fs_agree_mono|done..].
Qed.

(** Writing the same at a path of the footprint keeps the agreement. *)
Lemma fs_agree_insert P fs1 fs2 p i :
  fs_agree P fs1 fs2 -> fs_agree P (<[p := i]> fs1) (<[p := i]> fs2).
Proof.
  intros H q Hq. destruct (decide (p = q)) as [->|].
  - by rewrite !lookup_insert_eq.
  - rewrite !lookup_insert_ne by done. by apply H.
Qed.

(** ** Footprints of computations *)

Section Reads.
Context {A : Type} (V P : gset string).
Implicit Types m : Proc World A.

Lemma reads_mono V0 P0 m : V0 ⊆ V -> P0 ⊆ P -> reads V0 P0 m -> reads V P m.
Proof. intros HV HP Hm V' P' ??. apply Hm; set_solver. Qed.

Lemma reads_ret (a : A) : reads V P (ret a).
Proof. by intros V' P' _ _ w1 w2 H. Qed.

Lemma reads_exit code : reads V P (exit (A := A) code).
Proof. by intros V' P' _ _ w1 w2 H. Qed.

Lemma reads_panic why : reads V P (panic (A := A) why).
Proof. by intros V' P' _ _ w1 w2 H. Qed.

Lemma reads_unwrap (o : option A) : reads V P (unwrap o).
Proof. destruct o; [apply reads_ret|apply reads_panic]. Qed.

(** A footprint is kept by sequencing. *)
Lemma reads_bind {B} m (k : A -> Proc World B) :
  reads V P m -> (forall a, reads V P (k a)) -> reads V P (x <- m ;; k x).
Proof.
  intros Hm Hk V' P' HV HP w1 w2 H. unfold bind.
  destruct (Hm V' P' HV HP w1 w2 H) as [Hw Ho].
  destruct (m w1) as [w1' o1], (m w2) as [w2' o2]. cbn in Hw, Ho. subst o2.
  destruct o1; [by apply Hk|done..].
Qed.

(** Two computations that agree everywhere read the same. *)
#[export] Instance reads_proper : Proper ((≡) ==> iff) (@reads A V P).
Proof.
  intros m1 m2 E. split; intros H V' P' HV HP w1 w2 Hw;
    [rewrite <- !E|rewrite !E]; by apply H.
Qed.

End Reads.

(** ** Footprints of the primitive effects *)

Section Primitives.
Context (V P : gset string).

Lemma reads_log_at l fmt args : reads V P (log_at l fmt args).
Proof. intros V' P' _ _ w1 w2 H. split; [by apply agree_add_log|done]. Qed.

Lemma reads_File_drop f : reads V P (File_drop f).
Proof.
  intros V' P' _ _ w1 w2 H.
  split; [|done]. apply (agree_set_handles _ _ _ _ (remove_first (File.path f)) H).
Qed.

Lemma reads_hold p : reads V P (modify (hold p)).
Proof.
  intros V' P' _ _ w1 w2 H.
  split; [|done]. apply (agree_set_handles _ _ _ _ (cons p) H).
Qed.

Lemma reads_env_var key : key ∈ V -> reads V P (env_var key).
Proof.
  intros Hk V' P' HV _ w1 w2 H. split; [done|]. unfold env_var, gets. cbn.
  rewrite (agree_env _ _ _ _ key H) by set_solver. done.
Qed.

Lemma reads_args {A} (f : list string -> Outcome A) :
  reads V P (fun w => (w, f (args w))).
Proof. intros V' P' _ _ w1 w2 H. split; [done|]. cbn. by rewrite (agree_args _ _ _ _ H). Qed.

Lemma reads_fs_read {A} (f : FileSystem -> A) : fs_reads P f -> reads V P (fs_read f).
Proof.
  intros Hf V' P' _ HP w1 w2 H. split; [done|]. unfold fs_read, gets. cbn.
  f_equal. apply (Hf P' HP), (agree_fs _ _ _ _ H).
Qed.

Lemma reads_fs_update {A} (f : FileSystem -> Result (A * FileSystem) Errno) :
  fs_writes P f -> reads V P (fs_update f).
Proof.
  intros Hf V' P' _ HP w1 w2 H. unfold fs_update.
  pose proof (Hf P' HP _ _ (agree_fs _ _ _ _ H)) as Hr.
  destruct (f (fs w1)) as [[a1 fs1]|e1], (f (fs w2)) as [[a2 fs2]|e2]; cbn in Hr;
    try done; [|by subst].
  destruct Hr as [-> Hr]. split; [by apply agree_set_fs|done].
Qed.

Lemma reads_opening p m : reads V P m -> reads V P (opening p m).
Proof.
  intros Hm. apply reads_bind; [done|]. intros [v|e]; [|apply reads_ret].
  apply reads_bind; [apply reads_hold|]. intros _. apply reads_ret.
Qed.

End Primitives.

(** ** Footprints of the file calls *)

Section FileCalls.
Context (V P : gset string).

(** [File::open] looks at the path and, when nothing is there, at the
    directory that would hold it. *)
Lemma open_reads p : p ∈ P -> parent p ∈ P -> fs_reads P (File.open p).
Proof.
  intros Hp Hd P' HP fs1 fs2 H. unfold File.open, File.missing.
  rewrite (H p), (H (parent p)) by set_solver. done.
Qed.

Lemma metadata_len_reads f : File.path f ∈ P -> fs_reads P (File.metadata_len f).
Proof.
  intros Hp P' HP fs1 fs2 H. unfold File.metadata_len. rewrite (H (File.path f)) by set_solver. done.
Qed.

Lemma read_to_end_reads f buf : File.path f ∈ P -> fs_reads P (File.read_to_end f buf).
Proof.
  intros Hp P' HP fs1 fs2 H. unfold File.read_to_end. rewrite (H (File.path f)) by set_solver. done.
Qed.

Lemma write_all_writes f buf : File.path f ∈ P -> fs_writes P (File.write_all f buf).
Proof.
  intros Hp P' HP fs1 fs2 H. unfold File.write_all, fs_result_agree.
  destruct buf as [|b buf]; [done|]. rewrite (H (File.path f)) by set_solver.
  destruct (fs2 !! File.path f) as [i|]; [|done]. case_decide; [done|].
  split; [done|]. by apply fs_agree_insert.
Qed.

(** [OpenOptions::open] with [create(true)] looks at the path and, to
    make the file, at the directory that will hold it. *)
Lemma open_write_create_writes p :
  p ∈ P -> parent p ∈ P -> fs_writes P (OpenOptions.open_write_create p).
Proof.
  intros Hp Hd P' HP fs1 fs2 H.
  unfold OpenOptions.open_write_create, OpenOptions.may_create, fs_result_agree,
    OpenOptions.created_file, OpenOptions.device_full.
  rewrite (H p), (H (parent p)) by set_solver.
  destruct (fs2 !! p) as [i|]; [by destruct (is_dir i), (writable i)|].
  destruct (fs2 !! parent p) as [d|]; [|done].
  destruct (negb (is_dir d)), (negb (writable d)); try done.
  split; [done|]. by apply fs_agree_insert.
Qed.

Lemma reads_File_open p : p ∈ P -> parent p ∈ P -> reads V P (File_open p).
Proof. intros. by apply reads_opening, reads_fs_read, open_reads. Qed.

Lemma reads_File_metadata_len f : File.path f ∈ P -> reads V P (File_metadata_len f).
Proof. intros. by apply reads_fs_read, metadata_len_reads. Qed.

Lemma reads_File_read_to_end f buf : File.path f ∈ P -> reads V P (File_read_to_end f buf).
Proof. intros. by apply reads_fs_read, read_to_end_reads. Qed.

Lemma reads_File_write_all f buf : File.path f ∈ P -> reads V P (File_write_all f buf).
Proof. intros. by apply reads_fs_update, write_all_writes. Qed.

Lemma reads_OpenOptions_open_write_create p :
  p ∈ P -> parent p ∈ P -> reads V P (OpenOptions_open_write_create p).
Proof. intros. by apply reads_opening, reads_fs_update, open_write_create_writes. Qed.

(** A file is opened at the path that was asked for: what follows the
    call may rely on it. *)
Lemma reads_bind_open {B} p (m : Proc World (Result File.t Errno))
    (k : Result File.t Errno -> Proc World B) :
  (forall w w' v, m w = (w', Done (Ok v)) -> File.path v = p) ->
  reads V P m ->
  (forall pos, reads V P (k (Ok {| File.path := p; File.pos := pos |}))) ->
  (forall e, reads V P (k (Err e))) ->
  reads V P (r <- m ;; k r).
Proof.
  intros Hp Hm Hv He V' P' HV HP w1 w2 H. unfold bind.
  destruct (Hm V' P' HV HP w1 w2 H) as [Hw Ho].
  destruct (m w1) as [w1' o1] eqn:E1, (m w2) as [w2' o2]. cbn in Hw, Ho. subst o2.
  destruct o1 as [[[q pos]|e]| |]; [|by apply He|done..].
  apply Hp in E1. cbn in E1. subst q. by apply Hv.
Qed.

Lemma File_open_path p w w' v : File_open p w = (w', Done (Ok v)) -> File.path v = p.
Proof.
  rewrite File_open_run. destruct (File.open p (fs w)) as [v'|] eqn:E; [|done].
  intros [= _ <-]. by apply open_Ok in E as (? & _ & _ & ->).
Qed.

Lemma OpenOptions_open_write_create_path p w w' v :
  OpenOptions_open_write_create p w = (w', Done (Ok v)) -> File.path v = p.
Proof.
  rewrite OpenOptions_open_write_create_run.
  destruct (OpenOptions.open_write_create p (fs w)) as [[v' fs']|] eqn:E; [|done].
  intros [= _ <-]. by apply open_write_create_file in E as [? _].
Qed.

End FileCalls.

#[export] Hint Resolve reads_ret reads_exit reads_panic reads_unwrap reads_log_at
  reads_File_drop reads_env_var reads_args reads_File_open reads_File_metadata_len
  reads_File_read_to_end reads_File_write_all reads_OpenOptions_open_write_create : reads.
#[export] Hint Extern 1 (_ ∈ _) => cbn; set_solver : reads.

(** Proves a footprint by following the structure of the code: a
    [bind] splits, a [match] is taken apart, a primitive is a hint. *)
Ltac reads_step :=
  lazymatch goal with
  | |- reads _ _ (bind (File_open ?p) _) =>
      apply (reads_bind_open _ _ p);
      [apply File_open_path|auto with reads|intros ?|intros ?]
  | |- reads _ _ (bind (OpenOptions_open_write_create ?p) _) =>
      apply (reads_bind_open _ _ p);
      [apply OpenOptions_open_write_create_path|auto with reads|intros ?|intros ?]
  | |- reads _ _ (bind _ _) => apply reads_bind; [|intros ?]
  | |- reads _ _ (match ?x with _ => _ end) => destruct x
  | |- reads _ _ _ => solve [auto with reads|apply reads_log_at]
  end.

Ltac solve_reads := repeat reads_step.

(** ** Footprints of the components *)

Section Components.
Context {url : UrlParser} {keys : KeyDecoder} {std : StdDebug}
  {codec : YamlConfiguration.Codec} {anyhow : fmt.Debug YamlConfiguration.SaveError}
  {cli_parser : CliConfiguration.ArgParser}.
Context (V P : gset string).

Lemma reads_environment : variables_read ⊆ V -> reads V P EnvironmentConfiguration.new.
Proof.
  intros HV V' P' HV' _ w1 w2 H. rewrite !EnvironmentConfiguration.new_by_readers.
  split; [done|]. cbn. f_equal. apply EnvironmentConfiguration.of_env_ext.
  apply Forall_forall. intros k Hk. apply EnvironmentConfiguration.var_ext.
  apply (agree_env _ _ _ _ _ H), HV', HV. unfold variables_read. by apply elem_of_list_to_set.
Qed.

Lemma reads_from_args : reads V P CliConfiguration.from_args.
Proof. apply reads_args. Qed.

Lemma reads_yaml_path env cli : reads V P (LayeredServerConfiguration.yaml_path env cli).
Proof. unfold LayeredServerConfiguration.yaml_path. solve_reads. Qed.

Lemma reads_default : reads V P YamlConfiguration.default.
Proof. unfold YamlConfiguration.default. solve_reads. Qed.

(** [save] looks at the path it is given and, to make the file, at the
    directory that will hold it. *)
Lemma reads_save self path :
  path ∈ P -> parent path ∈ P -> reads V P (YamlConfiguration.save self path).
Proof. intros. unfold YamlConfiguration.save. solve_reads. Qed.

Lemma reads_from_reader v : File.path v ∈ P -> reads V P (YamlConfiguration.from_reader v).
Proof. intros. unfold YamlConfiguration.from_reader. solve_reads. Qed.

(** The [let yaml] reads the settings path and its directory. *)
Lemma reads_yaml path :
  path ∈ P -> parent path ∈ P -> reads V P (LayeredServerConfiguration.yaml path).
Proof.
  intros. unfold LayeredServerConfiguration.yaml.
  pose proof reads_default. pose proof (fun self => reads_save self path).
  pose proof reads_from_reader. solve_reads.
Qed.

Lemma reads_merge env cli yaml : reads V P (LayeredServerConfiguration.merge env cli yaml).
Proof. unfold LayeredServerConfiguration.merge. solve_reads. Qed.

(** The key loader reads the key path; its directory decides how a
    missing key file is reported. *)
Lemma reads_authkey_of path :
  path ∈ P -> parent path ∈ P -> reads V P (ServerConfiguration.authkey_of path).
Proof. intros. unfold ServerConfiguration.authkey_of. solve_reads. Qed.

End Components.

(** ** What a run of the resolver reads *)

Section Runs.
Context {url : UrlParser} {keys : KeyDecoder} {std : StdDebug}
  {codec : YamlConfiguration.Codec} {anyhow : fmt.Debug YamlConfiguration.SaveError}
  {cli_parser : CliConfiguration.ArgParser}.

(** A computation run from two worlds that agree on its footprint. *)
Lemma reads_agree {A} V P (m : Proc World A) w1 w2 :
  reads V P m -> agree V P w1 w2 -> agree_run V P (m w1) (m w2).
Proof. intros Hm. by apply Hm. Qed.

(** Sequencing at a point: what follows the first computation may rely
    on how it ran from the first world. *)
Lemma agree_bind {A B} V P (m : Proc World A) (k : A -> Proc World B) w1 w2 :
  agree_run V P (m w1) (m w2) ->
  (forall a w1' w2', m w1 = (w1', Done a) -> agree V P w1' w2' ->
     agree_run V P (k a w1') (k a w2')) ->
  agree_run V P ((x <- m ;; k x) w1) ((x <- m ;; k x) w2).
Proof.
  intros [Hw Ho] Hk. unfold bind.
  destruct (m w1) as [w1' o1], (m w2) as [w2' o2]. cbn in Hw, Ho. subst o2.
  destruct o1; [by apply Hk|done..].
Qed.

(** The path the third statement returns is the settings path of the
    world. *)
Lemma yaml_path_settings_path w cli w' path :
  CliConfiguration.parse_args (args w) = Done cli ->
  LayeredServerConfiguration.yaml_path (EnvironmentConfiguration.of_env (env w)) cli w =
    (w', Done path) ->
  Spec.settings_path_of w = Some path.
Proof.
  intros Hcli. rewrite Spec.settings_path_run. unfold Spec.settings_path_of. rewrite Hcli.
  destruct (Spec.settings_path _ _); [by intros [= _ ->]|done].
Qed.

(** Two runs of [LayeredServerConfiguration::new] from worlds that
    agree on the five variables, the arguments, the settings path and
    its directory, statement by statement. *)
Lemma layered_agree V P w1 w2 :
  variables_read ⊆ V -> settings_paths w1 ⊆ P -> agree V P w1 w2 ->
  agree_run V P (LayeredServerConfiguration.new w1) (LayeredServerConfiguration.new w2).
Proof.
  intros HV HP H. unfold LayeredServerConfiguration.new.
  apply agree_bind; [by apply reads_agree; [apply reads_environment|]|]. intros env wa wa' Henv Ha.
  rewrite EnvironmentConfiguration.new_by_readers in Henv. injection Henv as <- <-.
  apply agree_bind; [by apply reads_agree; [apply reads_from_args|]|]. intros cli wb wb' Hcli Hb.
  rewrite CliConfiguration.from_args_run in Hcli. injection Hcli as <- Hcli.
  apply agree_bind; [by apply reads_agree; [apply reads_yaml_path|]|]. intros path wc wc' Hpath Hc.
  apply yaml_path_settings_path in Hpath; [|done].
  unfold settings_paths, with_parent in HP. rewrite Hpath in HP.
  apply agree_bind; [apply reads_agree; [apply reads_yaml; set_solver|done]|].
  intros. by apply reads_agree; [apply reads_merge|].
Qed.

(** Two runs of [ServerConfiguration::new] from worlds that agree on
    the five variables, the arguments and the paths the first reads
    end the same way, in worlds that agree. *)
Lemma new_agree V P w1 w2 :
  variables_read ⊆ V -> paths_read w1 ⊆ P -> agree V P w1 w2 ->
  agree_run V P (ServerConfiguration.new w1) (ServerConfiguration.new w2).
Proof.
  intros HV HP H. unfold ServerConfiguration.new. unfold paths_read in HP.
  apply agree_bind; [apply layered_agree; [done|set_solver|done]|].
  intros c wa wa' Hc Ha. unfold key_paths, with_parent in HP. rewrite Hc in HP. cbn in HP.
  apply agree_bind; [apply reads_agree; [apply reads_authkey_of; set_solver|done]|].
  intros. by apply reads_agree; [apply reads_ret|].
Qed.

End Runs.
