(* ===== verification/Race.v ===== *)
(** * A competing writer of the settings file

    [LayeredServerConfiguration::new] decides that the settings file is
    missing with one call ([File::open], line 183) and creates it with
    another ([OpenOptions::open] inside [save], line 156), opened with
    [write(true)] and [create(true)]: neither [create_new(true)] nor
    [truncate(true)].  The specification excludes competing writers;
    this file says what the code does when there is one, by letting
    another process change the file system between the two calls.

    No file is open between them, which is why the interference can be
    a function on the paths of the file system: a file that is open is
    a path in this model, so a writer that replaces a file while the
    resolver holds it is not modelled.

    [yaml_missing] is the arm of the [let yaml] that runs when the open
    reported [NotFound]; [yaml_raced] is the [let yaml] with the other
    process's writes landing before that arm.  Without interference it
    is the [let yaml].  A second instance of the server on its own first
    run is harmless (both write the same text from offset 0); any other
    file that appears at the path is overwritten from its start and
    keeps its tail. *)

From Stdlib Require Import ZArith Lia.
From Stdlib.Strings Require Import Byte Ascii String.
From stdpp Require Import base tactics option list gmap strings.
From S2P Require Import Prelude Numbers Fmt Collaborators FileSystem World.
From S2P Require Import Environment Cli Yaml Layered Server Spec Footprint.

#[local] Open Scope proc_scope.
#[local] Open Scope string_scope.

Module Race.

Section WithCollaborators.
Context {url : UrlParser} {keys : KeyDecoder} {std : StdDebug}
  {codec : YamlConfiguration.Codec} {anyhow : fmt.Debug YamlConfiguration.SaveError}.

(** The arm [std::io::ErrorKind::NotFound] of the [let yaml]: the
    default settings are made, announced, saved and returned. *)
Definition yaml_missing (yaml_path : string) : Proc World YamlConfiguration.t :=
  yaml <- YamlConfiguration.default ;;
  warn "No yaml file found. Creating default yaml file and writing to disk. If this is a first run, exit and edit before continuing" [] ;;
  debug "Default yaml looks like: {:?}" [fmt.debug yaml] ;;
  r <- YamlConfiguration.save yaml yaml_path ;;
  match r with
  | Ok _ => ret yaml
  | Err e =>
      error "Unable to write default yaml file. This is required! Error is {:?}"
            [fmt.debug e] ;;
      exit 1
  end.

(** The file system after another process ran. *)
Definition interfered (other : FileSystem -> FileSystem) (w : World) : World :=
  set_fs w (other (fs w)).

(** The [let yaml] with a competing writer: when [File::open] reports
    [NotFound], the other process runs before the arm that creates the
    default file. *)
Definition yaml_raced (other : FileSystem -> FileSystem) (yaml_path : string)
  : Proc World YamlConfiguration.t :=
  fun w =>
    match File.open yaml_path (fs w) with
    | Err e =>
        if decide (kind e = NotFound) then yaml_missing yaml_path (interfered other w)
        else LayeredServerConfiguration.yaml yaml_path w
    | Ok _ => LayeredServerConfiguration.yaml yaml_path w
    end.

(** The file a second instance of the server leaves on its own first
    run. *)
Definition twin (path : string) (s : string) (fs : FileSystem) : FileSystem :=
  <[path := YamlConfiguration.file_with (as_bytes s)]> fs.

(** ** The arm is the code's *)

Lemma interfered_id w : interfered id w = w.
Proof. by destruct w. Qed.

Lemma yaml_missing_arm path e w :
  File.open path (fs w) = Err e -> kind e = NotFound ->
  LayeredServerConfiguration.yaml path w = yaml_missing path w.
Proof.
  intros He Hk. unfold LayeredServerConfiguration.yaml, yaml_missing.
  unfold bind at 1. by rewrite File_open_run, He, Hk.
Qed.

(** Without a competing writer the raced run is the run. *)
Lemma yaml_raced_quiet path : yaml_raced id path ≡ LayeredServerConfiguration.yaml path.
Proof.
  intros w. unfold yaml_raced. destruct (File.open path (fs w)) as [v|e] eqn:He; [done|].
  case_decide; [|done]. rewrite interfered_id. symmetry. by eapply yaml_missing_arm.
Qed.

(** The arm once the default settings and their text are known. *)
Lemma yaml_missing_run path y s w :
  YamlConfiguration.default_value = Some y -> YamlConfiguration.to_string y = Ok s ->
  yaml_missing path w =
  match OpenOptions.open_write_create path (fs w) with
  | Err e =>
      Spec.fails (YamlConfiguration.announced s (LayeredServerConfiguration.warned y w))
        (Spec.DefaultWriteFailed (YamlConfiguration.OpenFailed e))
  | Ok (v, fs1) =>
      match File.write_all v (as_bytes s) fs1 with
      | Err e =>
          Spec.fails
            (set_fs (YamlConfiguration.announced s (LayeredServerConfiguration.warned y w)) fs1)
            (Spec.DefaultWriteFailed (YamlConfiguration.WriteFailed e))
      | Ok (_, fs2) =>
          (set_fs (YamlConfiguration.announced s (LayeredServerConfiguration.warned y w)) fs2,
           Done y)
      end
  end.
Proof.
  intros Hy Hs. unfold yaml_missing, Spec.fails, LayeredServerConfiguration.warned.
  proc_unfold. rewrite YamlConfiguration.default_run, Hy.
  unfold warn, debug, error, log_at, modify.
  rewrite YamlConfiguration.save_run, Hs. cbn [fs add_log].
  destruct (OpenOptions.open_write_create path (fs w)) as [[v fs1]|e]; [|done].
  by destruct (File.write_all v (as_bytes s) fs1) as [[v' fs2]|e].
Qed.

(** The arm reads the settings path and its directory. *)
Lemma reads_yaml_missing V P path :
  path ∈ P -> parent path ∈ P -> reads V P (yaml_missing path).
Proof.
  intros. unfold yaml_missing.
  pose proof (reads_default V P). pose proof (fun self => reads_save V P self path).
  solve_reads.
Qed.

(** ** What a competing writer changes *)

(** The raced run when the open reported [NotFound]. *)
Lemma yaml_raced_missing other path e w :
  File.open path (fs w) = Err e -> kind e = NotFound ->
  yaml_raced other path w = yaml_missing path (interfered other w).
Proof. intros He Hk. unfold yaml_raced. by rewrite He, decide_True. Qed.

(** A writer that keeps the settings path and its directory as they
    were does not change how the run ends or what it logs. *)
Lemma raced_elsewhere other path w :
  fs_agree (with_parent path) (fs w) (other (fs w)) ->
  agree_run ∅ (with_parent path)
    (LayeredServerConfiguration.yaml path w) (yaml_raced other path w).
Proof.
  intros H. unfold yaml_raced.
  destruct (File.open path (fs w)) as [v|e] eqn:He; [done|].
  case_decide as Hk; [|done]. rewrite (yaml_missing_arm path e) by done.
  apply (reads_yaml_missing ∅ (with_parent path) path); unfold with_parent;
    [set_solver..|by split_and!].
Qed.

(** C33: the default file is written over whatever has appeared at the
    settings path.  When [File::open] reported that nothing is there
    and another process has put a regular, writable file at the path
    before [save] opens it, the run returns the default settings as on
    a first run, logs the same four records, and leaves at the path the
    text of the default settings followed by what the other file held
    beyond that length: [save] opens with [create(true)], not
    [create_new(true)], and does not truncate. *)
Theorem raced_default_overwrites other path e y s i w :
  File.open path (fs w) = Err e -> kind e = NotFound ->
  YamlConfiguration.default_value = Some y -> YamlConfiguration.to_string y = Ok s ->
  other (fs w) !! path = Some i ->
  is_dir i = false -> writable i = true -> fault i <> Some FaultWrite ->
  yaml_raced other path w =
  (set_fs (YamlConfiguration.announced s (LayeredServerConfiguration.warned y w))
     (<[path := set_data i (as_bytes s ++ drop (List.length (as_bytes s)) (data i))%list]>
        (other (fs w))),
   Done y).
Proof.
  intros He Hk Hy Hs Hi Hd Hw Hf.
  rewrite (yaml_raced_missing other path e), (yaml_missing_run path y s) by done.
  cbn [fs interfered set_fs]. unfold OpenOptions.open_write_create.
  rewrite Hi, Hd, Hw. rewrite (write_all_at path 0 (as_bytes s) _ i) by (done || lia).
  reflexivity.
Qed.

(** C34: two instances of the server that start together on a first
    run do not disturb each other: when the other instance has written
    its default file between this one's [File::open] and its [save],
    the run is the first run it would have been alone: same
    configuration, same log, and a file that holds the text of the
    default settings once.  [save] writes the same bytes from offset 0
    over the twin's, so that the missing [create_new] and [truncate]
    do no harm here. *)
Theorem raced_twin_is_harmless path e y s w :
  File.open path (fs w) = Err e -> kind e = NotFound ->
  YamlConfiguration.default_value = Some y -> YamlConfiguration.to_string y = Ok s ->
  OpenOptions.may_create (fs w) path = Ok tt ->
  OpenOptions.device_full (fs w) path = false ->
  yaml_raced (twin path s) path w = LayeredServerConfiguration.yaml path w.
Proof.
  intros He Hk Hy Hs Hc Hf.
  assert (fs w !! path = None) as Hp by (apply open_NotFound; eauto).
  rewrite (yaml_missing_arm path e), (yaml_raced_missing _ path e) by done.
  rewrite !(yaml_missing_run path y s) by done. cbn [fs interfered set_fs].
  rewrite (open_write_create_absent path (fs w)), created_file_new by done.
  unfold OpenOptions.open_write_create, twin. rewrite lookup_insert_eq. cbn.
  rewrite !(write_all_at path 0 (as_bytes s) _ _ (lookup_insert_eq _ _ _)) by (done || cbn; lia).
  cbn [data YamlConfiguration.file_with set_data new_file].
  by rewrite !insert_insert_eq, overwrite_covering, overwrite_empty.
Qed.

End WithCollaborators.

End Race.
