(* ===== verification/Machine.v ===== *)
(** * The resolver as a machine

    [ServerConfiguration::new] runs six statements one after the other:
    the environment layer, the command-line layer, the settings path,
    the settings, the struct literal of the merge, and the key with the
    struct literal of the result.  This file gives that order as a
    machine: a phase records what the statements run so far have
    bound, a step runs the statement of the phase, and a statement that
    exits or panics ends the run in a phase of its own.  The machine
    computes [ServerConfiguration::new], stops within six steps, and
    reaches the end of the run from every state it can be in: these
    hold by the way the machine is built, and tie it to the function.
    What the file shows of the run is the invariant of the reachable
    states, by rule induction: what has changed since the start, what
    the phase holds, that no file is open between two statements, and
    that every record logged has one argument per placeholder of its
    format. *)

From Stdlib Require Import ZArith Lia.
From Stdlib.Strings Require Import Byte Ascii String.
From stdpp Require Import base tactics option list relations gmap strings.
From S2P Require Import Prelude Numbers Fmt Collaborators FileSystem World.
From S2P Require Import Environment Cli Yaml YamlText Samples Layered Server Spec.

#[local] Open Scope proc_scope.
#[local] Open Scope string_scope.

Module Machine.

Import Spec.

Section WithCollaborators.
Context {url : UrlParser} {keys : KeyDecoder} {std : StdDebug}
  {codec : YamlConfiguration.Codec} {anyhow : fmt.Debug YamlConfiguration.SaveError}
  {cli_parser : CliConfiguration.ArgParser}.

(** Where a run is: what is bound after each statement, or how it
    ended. *)
Inductive Phase : Type :=
| Start
| HaveEnv (env : EnvironmentConfiguration.t)
| HaveCli (env : EnvironmentConfiguration.t) (cli : CliConfiguration.t)
| HavePath (env : EnvironmentConfiguration.t) (cli : CliConfiguration.t)
    (yaml_path : string)
| HaveYaml (env : EnvironmentConfiguration.t) (cli : CliConfiguration.t)
    (yaml : YamlConfiguration.t)
| HaveLayered (layered_configuration : LayeredServerConfiguration.t)
| Finished (s : ServerConfiguration.t)
| Exited (code : Z)
| Panicked (why : PanicReason).

Definition State : Type := World * Phase.

(** The statement a phase runs next, with the phase its value leads
    to; a run that has ended has none. *)
Definition statement (p : Phase) : option (Proc World Phase) :=
  match p with
  | Start =>
      Some (env <- EnvironmentConfiguration.new ;; ret (HaveEnv env))
  | HaveEnv env =>
      Some (cli <- CliConfiguration.from_args ;; ret (HaveCli env cli))
  | HaveCli env cli =>
      Some (yaml_path <- LayeredServerConfiguration.yaml_path env cli ;;
            ret (HavePath env cli yaml_path))
  | HavePath env cli yaml_path =>
      Some (yaml <- LayeredServerConfiguration.yaml yaml_path ;;
            ret (HaveYaml env cli yaml))
  | HaveYaml env cli yaml =>
      Some (c <- LayeredServerConfiguration.merge env cli yaml ;;
            ret (HaveLayered c))
  | HaveLayered layered_configuration =>
      Some (authkey <- ServerConfiguration.authkey_of
                         (LayeredServerConfiguration.authkey_path layered_configuration) ;;
            ret (Finished
                   {| ServerConfiguration.server_addr :=
                        LayeredServerConfiguration.server_addr layered_configuration;
                      ServerConfiguration.database_addr :=
                        LayeredServerConfiguration.database_addr layered_configuration;
                      ServerConfiguration.authkey := authkey;
                      ServerConfiguration.session_expiration :=
                        LayeredServerConfiguration.session_expiration
                          layered_configuration |}))
  | Finished _ | Exited _ | Panicked _ => None
  end.

(** The state a statement's result leads to. *)
Definition settle (r : World * Outcome Phase) : State :=
  match r with
  | (w, Done p) => (w, p)
  | (w, Exit code) => (w, Exited code)
  | (w, Panic why) => (w, Panicked why)
  end.

(** One step, as a function. *)
Definition next (s : State) : option State :=
  m ← statement s.2; Some (settle (m s.1)).

(** One step, as a relation: the statement of the phase returns, exits
    or panics. *)
Inductive step : relation State :=
| step_done w p m w' p' :
    statement p = Some m -> m w = (w', Done p') -> step (w, p) (w', p')
| step_exit w p m w' code :
    statement p = Some m -> m w = (w', Exit code) -> step (w, p) (w', Exited code)
| step_panic w p m w' why :
    statement p = Some m -> m w = (w', Panic why) -> step (w, p) (w', Panicked why).

(** The machine run for at most [fuel] steps. *)
Fixpoint run (fuel : nat) (s : State) : State :=
  match fuel with
  | O => s
  | S fuel' =>
      match next s with
      | Some s' => run fuel' s'
      | None => s
      end
  end.

(** The number of steps [run] takes. *)
Fixpoint steps_taken (fuel : nat) (s : State) : nat :=
  match fuel with
  | O => 0
  | S fuel' =>
      match next s with
      | Some s' => S (steps_taken fuel' s')
      | None => 0
      end
  end.

(** The number of statements a phase has before it. *)
Definition rank (p : Phase) : nat :=
  match p with
  | Start => 6
  | HaveEnv _ => 5
  | HaveCli _ _ => 4
  | HavePath _ _ _ => 3
  | HaveYaml _ _ _ => 2
  | HaveLayered _ => 1
  | Finished _ | Exited _ | Panicked _ => 0
  end.

(** How [ServerConfiguration::new] ends, as a state of the machine. *)
Definition finish (r : World * Outcome ServerConfiguration.t) : State :=
  match r with
  | (w, Done s) => (w, Finished s)
  | (w, Exit code) => (w, Exited code)
  | (w, Panic why) => (w, Panicked why)
  end.

(** What a run may change: the inputs are kept, the log grows, and the
    file system only gains entries. *)
Definition grows (w w' : World) : Prop :=
  inputs_kept w w' /\ log_extends w w' /\ fs w ⊆ fs w'.

(** What the phases hold, given the world the run started from. *)
Definition phase_wf (w0 : World) (p : Phase) : Prop :=
  match p with
  | Start => True
  | HaveEnv env => env = EnvironmentConfiguration.of_env (World.env w0)
  | HaveCli env cli | HavePath env cli _ =>
      env = EnvironmentConfiguration.of_env (World.env w0) /\
      CliConfiguration.parse_args (args w0) = Done cli
  | HaveYaml env cli yaml =>
      env = EnvironmentConfiguration.of_env (World.env w0) /\
      CliConfiguration.parse_args (args w0) = Done cli /\
      YamlConfiguration.wf yaml
  | HaveLayered c => LayeredServerConfiguration.wf c
  | Finished s => Duration.wf (ServerConfiguration.session_expiration s)
  | Exited _ | Panicked _ => True
  end.

(** The phases of a run that was cut short. *)
Definition stopped (p : Phase) : bool :=
  match p with
  | Exited _ | Panicked _ => true
  | _ => false
  end.

(** The invariant of the reachable states: what the run has changed,
    what the phase holds, that no file is open between two statements
    or when the run has finished, and that the log is well formed if
    it was. *)
Definition invariant (w0 : World) (s : State) : Prop :=
  grows w0 s.1 /\ phase_wf w0 s.2 /\
  (stopped s.2 = false -> handles s.1 = handles w0) /\
  wf_kept w0 s.1.

(** ** Steps *)

Lemma step_next s s' : step s s' <-> next s = Some s'.
Proof.
  destruct s as [w p]. unfold next. cbn. split.
  - intros Hs; inversion Hs as [? ? m ? ? Hm Hr|? ? m ? ? Hm Hr|? ? m ? ? Hm Hr];
      subst; rewrite Hm; cbn; by rewrite Hr.
  - destruct (statement p) as [m|] eqn:Hm; [|done]. cbn. intros [= <-].
    destruct (m w) as [w' [p'| |]] eqn:Hr; cbn; by econstructor.
Qed.

Lemma step_deterministic s s1 s2 : step s s1 -> step s s2 -> s1 = s2.
Proof. rewrite !step_next. congruence. Qed.

(** A statement leads to a phase one statement further, whatever it
    returns. *)
Lemma statement_rank p m w w' p' :
  statement p = Some m -> m w = (w', Done p') -> S (rank p') = rank p.
Proof.
  destruct p; intros [= <-];
    intros (? & ? & _ & [= _ <-])%bind_done_inv; done.
Qed.

Lemma step_rank w p w' p' : step (w, p) (w', p') -> rank p' < rank p.
Proof.
  inversion 1 as [? ? m ? ? Hm Hr|? ? m ? ? Hm Hr|? ? m ? ? Hm Hr]; subst.
  - apply (statement_rank p) in Hr; [lia|done].
  - destruct p; simplify_eq/=; lia.
  - destruct p; simplify_eq/=; lia.
Qed.

(** ** Running *)

Lemma run_stopped fuel w p : statement p = None -> run fuel (w, p) = (w, p).
Proof. intros Hp. destruct fuel; [done|]. cbn. unfold next. cbn. by rewrite Hp. Qed.

(** Running a phase whose statement is [m] followed by the next
    phase. *)
Lemma run_statement {A} fuel w p (m : Proc World A) (f : A -> Phase) :
  statement p = Some (a <- m ;; ret (f a)) ->
  run (S fuel) (w, p) =
  match m w with
  | (w', Done a) => run fuel (w', f a)
  | (w', Exit code) => (w', Exited code)
  | (w', Panic why) => (w', Panicked why)
  end.
Proof.
  intros Hp. cbn. unfold next. cbn. rewrite Hp. cbn. unfold bind, ret.
  destruct (m w) as [w' [a| |]]; cbn; [done|by rewrite run_stopped..].
Qed.

(** The machine follows its steps. *)
Lemma run_steps fuel s : rtc step s (run fuel s).
Proof.
  revert s. induction fuel as [|fuel IH]; intros s; cbn; [done|].
  destruct (next s) as [s'|] eqn:Hn; [|done].
  eapply rtc_l; [by apply step_next|apply IH].
Qed.

Lemma run_nsteps fuel s : nsteps step (steps_taken fuel s) s (run fuel s).
Proof.
  revert s. induction fuel as [|fuel IH]; intros s; cbn; [constructor|].
  destruct (next s) as [s'|] eqn:Hn; [|constructor].
  eapply nsteps_l; [by apply step_next|apply IH].
Qed.

(** ** What a step changes *)

#[export] Instance grows_preorder : PreOrder grows.
Proof.
  unfold grows, inputs_kept. split; [by intros w|].
  intros w1 w2 w3 ((?&?)&?&?) ((?&?)&?&?).
  split_and!; [congruence..|by etrans|by etrans].
Qed.

Lemma same_but_log_grows w w' : same_but_log w w' -> grows w w'.
Proof. intros (?&?&Hfs&?). unfold grows, inputs_kept. by rewrite Hfs. Qed.

#[export] Instance grows_stable : LogStable grows.
Proof. intros w r. apply same_but_log_grows, same_but_log_add. Qed.

Lemma touches_only_grows path w w' : touches_only path w w' -> grows w w'.
Proof.
  intros (? & ? & Hne & Hsome). split_and!; [done..|].
  apply map_subseteq_spec. intros q i Hq.
  destruct (decide (q = path)) as [->|?]; [|by rewrite Hne].
  by rewrite Hsome.
Qed.

(** Every statement keeps the inputs, extends the log and only adds to
    the file system. *)
Lemma statement_grows p m : statement p = Some m -> preserves grows m.
Proof.
  destruct p; intros [= <-];
    (apply (preserves_bind grows); [|intros ?; apply (preserves_ret grows)]); intros w.
  - by rewrite EnvironmentConfiguration.new_by_readers.
  - by rewrite CliConfiguration.from_args_run.
  - rewrite LayeredServerConfiguration.yaml_path_run.
    apply (LayeredServerConfiguration.required_preserves grows).
  - rewrite yaml_file_layer. eapply touches_only_grows, file_layer_touches_only.
  - apply (LayeredServerConfiguration.merge_preserves grows).
  - rewrite authkey_key_loader. apply same_but_log_grows, key_loader_same_but_log.
Qed.

Lemma step_world w p w' p' :
  step (w, p) (w', p') -> exists m, statement p = Some m /\ w' = world_of (m w).
Proof.
  inversion 1 as [? ? m ? ? Hm Hr|? ? m ? ? Hm Hr|? ? m ? ? Hm Hr]; subst;
    exists m; by rewrite Hr.
Qed.

Lemma step_grows w p w' p' : step (w, p) (w', p') -> grows w w'.
Proof. intros (m & Hm & ->)%step_world. by apply (statement_grows p m). Qed.

(** ** The machine computes [ServerConfiguration::new] *)

(** Runs the statement of the phase at hand on both sides. *)
Ltac stage :=
  erewrite run_statement by reflexivity;
  match goal with
  | |- match ?m ?w with _ => _ end = _ =>
      destruct (m w) as [? [?| |]]; lazy beta iota; [|reflexivity..]
  end.

(** The machine computes [ServerConfiguration::new]: six steps
    from [Start] end in the state in which the function ends, with the
    same world, the same configuration, the same exit status or the
    same panic.  The order of the statements in the function is the
    order of the phases. *)
Lemma run_new w : run 6 (w, Start) = finish (ServerConfiguration.new w).
Proof.
  unfold finish, ServerConfiguration.new, LayeredServerConfiguration.new, bind, ret.
  do 6 stage. reflexivity.
Qed.

(** ** Termination *)

Lemma next_rank s s' : next s = Some s' -> rank s'.2 < rank s.2.
Proof. destruct s, s'. intros ?%step_next. by eapply step_rank. Qed.

Lemma rank_stopped p : rank p = 0 -> statement p = None.
Proof. by destruct p. Qed.

Lemma run_enough fuel s : rank s.2 <= fuel -> statement (run fuel s).2 = None.
Proof.
  revert s. induction fuel as [|fuel IH]; intros s Hr; cbn.
  - apply rank_stopped. lia.
  - destruct (next s) as [s'|] eqn:Hn.
    + apply IH. apply next_rank in Hn. lia.
    + unfold next in Hn. by destruct (statement s.2).
Qed.

(** The run terminates: from [Start] in any world the machine
    reaches, by its steps, a state with no statement left, within six
    steps.  A fuel of 6 is therefore enough for every run. *)
Lemma run_terminates w :
  rtc step (w, Start) (run 6 (w, Start)) /\
  statement (run 6 (w, Start)).2 = None.
Proof. split; [apply run_steps|by apply run_enough]. Qed.

(** No run is longer than the statements it has before it: a
    chain of [n] steps from a phase is at most as long as the rank of
    the phase, so at most six steps follow [Start]. *)
Lemma steps_bounded n w p s : nsteps step n (w, p) s -> n <= rank p.
Proof.
  revert w p. induction n as [|n IH]; intros w p; [lia|].
  inversion 1 as [|? ? [w1 p1] ? Hs Hn]; subst.
  apply step_rank in Hs. apply IH in Hn. lia.
Qed.

(** ** Where the file system is written *)

Lemma same_but_log_fs w w' : same_but_log w w' -> fs w' = fs w.
Proof. by intros (_ & _ & ? & _). Qed.

(** One statement writes to the file system, the fourth ([let
    yaml]), and only when nothing is at the settings path: every other
    step leaves the file system as it was, and that step leaves every
    other path as it was. *)
Lemma only_yaml_writes w p w' p' :
  step (w, p) (w', p') ->
  fs w' = fs w \/
  exists env cli path, p = HavePath env cli path /\ fs w !! path = None /\
    forall q, q <> path -> fs w' !! q = fs w !! q.
Proof.
  intros (m & Hm & ->)%step_world.
  destruct p; cbn [statement] in Hm; simplify_eq.
  all: unfold bind, world_of.
  - rewrite EnvironmentConfiguration.new_by_readers. by left.
  - rewrite CliConfiguration.from_args_run. left.
    by destruct (CliConfiguration.parse_args (args w)).
  - rewrite settings_path_run. left. by destruct (settings_path _ _).
  - rewrite yaml_file_layer.
    destruct (file_layer_touches_only yaml_path w) as (_ & _ & Hne & Hsome).
    unfold world_of in *. destruct (file_layer yaml_path w) as [w1 [y| |]]; cbn in *.
    all: destruct (fs w !! yaml_path) eqn:Hp; [left; eauto|right; eauto 10].
  - rewrite merge_resolve. left. by destruct (resolve _).
  - rewrite authkey_key_loader. left.
    pose proof (key_loader_same_but_log
                  (LayeredServerConfiguration.authkey_path layered_configuration) w)
      as Hk%same_but_log_fs.
    unfold world_of in Hk. by destruct (key_loader _ _) as [? [?| |]].
Qed.

(** ** The invariant *)

(** What a statement returns is well formed, given the state it ran
    from. *)
Lemma step_phase_wf w0 w p w' p' :
  invariant w0 (w, p) -> step (w, p) (w', p') -> phase_wf w0 p'.
Proof.
  intros (((He & Ha) & _) & Hp & _) Hs. cbn in *.
  inversion Hs as [? ? m ? ? Hm Hr|? ? m ? ? Hm Hr|? ? m ? ? Hm Hr]; subst; [|done..].
  destruct p; cbn [statement] in Hm; simplify_eq;
    apply bind_done_inv in Hr as (w1 & a & Hrun & [= <- <-]); cbn [phase_wf].
  - rewrite EnvironmentConfiguration.new_by_readers in Hrun. simplify_eq.
    by rewrite He.
  - rewrite CliConfiguration.from_args_run in Hrun. simplify_eq. by rewrite <- Ha.
  - done.
  - destruct Hp as [? ?]. split_and!; [done..|].
    rewrite yaml_file_layer in Hrun. by eapply file_layer_wf.
  - destruct Hp as (-> & Hcli & Hy).
    apply LayeredServerConfiguration.merge_Done in Hrun as [_ Hc].
    unfold LayeredServerConfiguration.wf. rewrite Hc. split; [|by compute].
    apply LayeredServerConfiguration.merged_lifetime_u64;
      [apply EnvironmentConfiguration.of_env_wf|
       by eapply CliConfiguration.parse_args_wf|done].
  - done.
Qed.

(** A statement that returns has closed the files it opened. *)
Lemma statement_handles p m w w' p' :
  statement p = Some m -> m w = (w', Done p') -> handles w' = handles w.
Proof.
  intros Hm Hr. destruct p; cbn [statement] in Hm; simplify_eq;
    apply bind_done_inv in Hr as (w1 & a & Hrun & [= <- <-]).
  - rewrite EnvironmentConfiguration.new_by_readers in Hrun. by simplify_eq.
  - rewrite CliConfiguration.from_args_run in Hrun. by simplify_eq.
  - rewrite LayeredServerConfiguration.yaml_path_run in Hrun.
    by apply LayeredServerConfiguration.required_Done in Hrun as [-> _].
  - rewrite yaml_file_layer in Hrun. pose proof (file_layer_handles yaml_path w) as Hf.
    by rewrite Hrun in Hf.
  - by apply LayeredServerConfiguration.merge_Done in Hrun as [-> _].
  - rewrite authkey_key_loader in Hrun. by apply key_loader_Done in Hrun as [-> _].
Qed.

(** Every statement writes records that fit. *)
Lemma statement_wf_kept p m : statement p = Some m -> preserves wf_kept m.
Proof.
  destruct p; intros [= <-];
    (apply (preserves_bind wf_kept); [|intros ?; apply (preserves_ret wf_kept)]);
    intros w.
  - by rewrite EnvironmentConfiguration.new_by_readers.
  - by rewrite CliConfiguration.from_args_run.
  - rewrite settings_path_run.
    destruct (settings_path _ _); [done|apply fails_wf_kept].
  - rewrite yaml_file_layer. apply file_layer_wf_kept.
  - rewrite merge_resolve. destruct (resolve _); [done|apply fails_wf_kept].
  - rewrite authkey_key_loader. apply key_loader_wf_kept.
Qed.

Lemma step_wf_kept w p w' p' : step (w, p) (w', p') -> wf_kept w w'.
Proof. intros (m & Hm & ->)%step_world. by apply (statement_wf_kept p m). Qed.

Lemma step_invariant w0 s s' : invariant w0 s -> step s s' -> invariant w0 s'.
Proof.
  destruct s as [w p], s' as [w' p']. intros Hinv Hs.
  split_and!; [|by eapply step_phase_wf| |]; cbn.
  - etrans; [apply Hinv|by eapply step_grows].
  - destruct Hinv as (_ & _ & Hh & _). cbn in Hh. intros Hp'.
    inversion Hs as [? ? m ? ? Hm Hr|? ? m ? ? Hm Hr|? ? m ? ? Hm Hr]; subst; [|done..].
    rewrite (statement_handles _ _ _ _ _ Hm Hr). apply Hh. by destruct p.
  - etrans; [apply Hinv|by eapply step_wf_kept].
Qed.

(** C35: the invariant of the run, by induction on the steps: in every
    state reachable from [Start] the environment and the arguments are
    those of the start, the log extends the log of the start, every
    file of the start is still there unchanged, what the phase holds is
    well formed (the environment layer is the one the readers compute,
    the command-line layer is what the parser returned, the settings
    read or created, the merged lifetime and the lifetime of the final
    configuration are in the range of [u64]), no file is open between
    two statements or when the configuration is returned, and every
    record written fits its format string. *)
Theorem reachable_invariant w0 s :
  rtc step (w0, Start) s -> invariant w0 s.
Proof.
  revert s. apply (rtc_ind_r (R := step)).
  - by split.
  - intros s1 s2 _ Hstep Hinv. by eapply step_invariant.
Qed.

(** ** Every run ends *)

Lemma stopped_nf s : statement s.2 = None -> nf step s.
Proof. intros Hs [s' Hstep%step_next]. unfold next in Hstep. by rewrite Hs in Hstep. Qed.

(** Every run comes to its end: from whichever state a run has
    reached, the machine goes on, by its own steps, to the state in
    which [run 6] ends, and from there no step is possible.  No run
    stops half way and no run goes on for ever. *)
Lemma reachable_finishes w0 s :
  rtc step (w0, Start) s ->
  rtc step s (run 6 (w0, Start)) /\ nf step (run 6 (w0, Start)).
Proof.
  intros Hs.
  assert (nf step (run 6 (w0, Start))) as Hnf by by apply stopped_nf, run_enough.
  split; [|done].
  eapply (rtc_nf_join step step_deterministic); [done|apply run_steps|done].
Qed.

End WithCollaborators.

End Machine.
