(* ===== verification/Properties.v ===== *)
(** * Properties of a run

    What every run of [LayeredServerConfiguration::new] and
    [ServerConfiguration::new] guarantees, proved through the contracts
    of [Spec]: which part of the world a run may change, how it may
    end, that a second run after a successful one changes nothing and
    returns the same configuration, and what a run does for each state
    of the settings file and of the key file, the empty settings path
    included, what the log of a run reads (the record of an exit names
    one fatal condition and renders to its message and cause, and every
    record has one argument per placeholder), and what a run reads:
    its result is a function of the footprint of [Footprint], and a
    file outside it is neither read nor touched.  [Scenarios] applies
    each theorem to a sample world. *)

From Stdlib Require Import ZArith Lia.
From Stdlib.Strings Require Import Byte Ascii String.
From stdpp Require Import base tactics option list gmap strings.
From S2P Require Import Prelude Numbers Fmt Collaborators FileSystem World.
From S2P Require Import Environment Cli Yaml YamlText Samples Layered Server Spec.
From S2P Require Import Footprint.

#[local] Open Scope string_scope.

Module Properties.

Import Spec.

Section WithCollaborators.
Context {url : UrlParser} {keys : KeyDecoder} {std : StdDebug}
  {codec : YamlConfiguration.Codec} {anyhow : fmt.Debug YamlConfiguration.SaveError}
  {cli_parser : CliConfiguration.ArgParser}.

(** ** How the layered configuration ends *)

Lemma fails_last {A} w f :
  last (log (world_of (fails (A := A) w f))) = Some (fatal_record f).
Proof. cbn. by rewrite last_snoc. Qed.

(** The layered configuration exits where the argument parser does, or
    through a fatal condition of its own. *)
Lemma layered_Exit w w' code :
  layered w = (w', Exit code) ->
  (CliConfiguration.parse_args (args w) = Exit code /\ w' = w) \/
  exists w1 f, (w', Exit code) = fails (A := LayeredServerConfiguration.t) w1 f.
Proof.
  unfold layered.
  destruct (CliConfiguration.parse_args (args w)) as [cli|c|]; [|intros [= <- <-]; by left|done].
  destruct (settings_path _ _) as [path|f]; [|by eauto].
  destruct (file_layer path w) as [w1 [yaml| |]] eqn:Hf; [| |done].
  - destruct (resolve _); [done|by eauto].
  - apply file_layer_Exit in Hf as (w2 & f & _ & Heq). intros [= <- <-].
    right. exists w2, f. unfold fails in *. by simplify_eq.
Qed.

Lemma layered_Panic w w' why :
  layered w = (w', Panic why) ->
  w' = w /\
  (CliConfiguration.parse_args (args w) = Panic why \/
   (why = UnwrapFailed /\ YamlConfiguration.default_value = None)).
Proof.
  unfold layered, fails.
  destruct (CliConfiguration.parse_args (args w)) as [cli|c|]; [|done|intros [= <- <-]; eauto].
  destruct (settings_path _ _) as [path|f]; [|done].
  destruct (file_layer path w) as [w1 [yaml| |]] eqn:Hf; [|done|].
  - by destruct (resolve _).
  - apply file_layer_Panic in Hf as (-> & ? & ->). intros [= <- <-]. eauto.
Qed.

Lemma key_loader_Exit path w w' code :
  key_loader path w = (w', Exit code) ->
  exists w1 f, of_key_loader f = true /\
               (w', Exit code) = fails (A := EncodingKey) w1 f.
Proof.
  unfold key_loader. destruct (key_state (fs w) path); intros Heq; try done;
    eexists _, _; (split; [|by rewrite <- Heq]); done.
Qed.

(** The key file whose metadata cannot be read is one that opened. *)
Lemma key_state_StatFailed fs path :
  key_state fs path = KeyStatFailed ->
  exists v e, File.open path fs = Ok v /\ File.metadata_len v fs = Err e.
Proof.
  unfold key_state. destruct (File.open path fs) as [v|]; [|done].
  destruct (File.metadata_len v fs) as [|e] eqn:Hm; [by repeat case_match|eauto].
Qed.

Lemma key_loader_Panic path w w' why :
  key_loader path w = (w', Panic why) ->
  w' = hold path w /\ why = Unimplemented /\ key_state (fs w) path = KeyStatFailed.
Proof.
  unfold key_loader, fails. destruct (key_state (fs w) path); intros; by simplify_eq.
Qed.

(** ** What a run changes *)

Lemma settings_path_of_Some w cli path :
  CliConfiguration.parse_args (args w) = Done cli ->
  settings_path (of_environment (EnvironmentConfiguration.of_env (env w)))
                (of_cli cli) = Ok path ->
  settings_path_of w = Some path.
Proof. intros Hcli Hpath. unfold settings_path_of. by rewrite Hcli, Hpath. Qed.

(** The layered configuration touches the settings path only, and
    nothing but the log when there is no settings path. *)
Lemma layered_world w :
  match settings_path_of w with
  | Some path => touches_only path w (world_of (layered w))
  | None => same_but_log w (world_of (layered w))
  end.
Proof.
  unfold settings_path_of, layered.
  destruct (CliConfiguration.parse_args (args w)) as [cli| |]; [|done..].
  destruct (settings_path _ _) as [path|f]; cbn; [|apply same_but_log_add].
  pose proof (file_layer_touches_only path w) as Hfl.
  destruct (file_layer path w) as [w1 [yaml| |]]; [|done..].
  destruct (resolve _); [done|]. etrans; [exact Hfl|].
  apply same_but_log_touches_only, same_but_log_add.
Qed.

(** The key loader runs after the layered configuration and writes
    nothing but log records. *)
Lemma new_world w :
  same_but_log (world_of (layered w)) (world_of (ServerConfiguration.new w)).
Proof.
  split_new w; cbn; try done.
  all: match goal with
       | H : key_loader ?p ?w1 = (?w2, _) |- _ =>
           pose proof (key_loader_same_but_log p w1) as Hk; by rewrite H in Hk
       end.
Qed.

(** A run leaves every path but the settings path as it was. *)
Lemma new_fs_elsewhere w p :
  settings_path_of w <> Some p ->
  fs (world_of (ServerConfiguration.new w)) !! p = fs w !! p.
Proof.
  intros Hp. pose proof (layered_world w) as Hl.
  destruct (new_world w) as (_ & _ & -> & _).
  destruct (settings_path_of w) as [path|]; [|by destruct Hl as (_ & _ & -> & _)].
  destruct Hl as (_ & _ & Hl & _). apply Hl. congruence.
Qed.

(** C5: a run of [ServerConfiguration::new] never changes the
    environment or the arguments, only appends to the log, and leaves
    the file system as it was except at the settings path, which it
    writes only when nothing was there; with no settings path it
    changes nothing but the log. *)
Theorem new_touches_only_settings_file w :
  match settings_path_of w with
  | Some path => touches_only path w (world_of (ServerConfiguration.new w))
  | None => same_but_log w (world_of (ServerConfiguration.new w))
  end.
Proof.
  pose proof (layered_world w) as Hl. pose proof (new_world w) as Hk.
  destruct (settings_path_of w) as [path|]; etrans; try done.
  by apply same_but_log_touches_only.
Qed.

(** ** How a run ends *)

(** A run exits where the argument parser does, or through a fatal
    condition. *)
Lemma new_exit_fails w w' code :
  ServerConfiguration.new w = (w', Exit code) ->
  CliConfiguration.parse_args (args w) = Exit code \/
  (code = 1%Z /\ exists f, last (log w') = Some (fatal_record f)).
Proof.
  intros [Hl|(w1 & c & _ & Hk)]%new_Exit.
  - apply layered_Exit in Hl as [[? _]|(w1 & f & Heq)]; [by left|right].
    injection Heq as -> ->. split; [done|]. exists f. apply (fails_last (A := unit)).
  - apply key_loader_Exit in Hk as (w2 & f & _ & Heq). right.
    injection Heq as -> ->. split; [done|]. exists f. apply (fails_last (A := unit)).
Qed.

(** C7: when a run of [ServerConfiguration::new] exits, either the
    argument parser exited (with the status it chose), or the status is
    1 and the last log record is the [Error] record of one of the fatal
    conditions of the taxonomy, and of that one only: no two conditions
    share a message, so the record tells which condition ended the
    run. *)
Theorem new_exit_is_reported w w' code :
  ServerConfiguration.new w = (w', Exit code) ->
  CliConfiguration.parse_args (args w) = Exit code \/
  (code = 1%Z /\
   exists f, last (log w') = Some (fatal_record f) /\
     forall g, last (log w') = Some (fatal_record g) -> same_condition f g = true).
Proof.
  intros [?|(-> & f & Hlast)]%new_exit_fails; [by left|right].
  split; [done|]. exists f. rewrite Hlast. split; [done|].
  intros g [= Hm _]. by apply fatal_message_condition.
Qed.

(** What the log says last when a run exits on a fatal condition:
    the message of the condition, with the text of its cause in place
    of the placeholder at its end when it has one.  The line is what
    [format_args!] makes of the record. *)
Lemma new_exit_line w w' code :
  ServerConfiguration.new w = (w', Exit code) ->
  CliConfiguration.parse_args (args w) = Exit code \/
  exists f, render <$> last (log w') =
    Some match fatal_arguments f with
         | [] => fatal_message f
         | a :: _ => fmt.before_hole (fatal_message f) ++ a
         end.
Proof.
  intros [?|(_ & f & Hlast)]%new_exit_fails; [by left|right].
  exists f. rewrite Hlast. cbn [fmap option_fmap option_map]. f_equal.
  pose proof (fatal_render f) as Hr. by destruct (fatal_arguments f); [|destruct Hr].
Qed.

(** C8: a run of [ServerConfiguration::new] panics in three cases only.
    The argument parser panicked, or a URL literal of the default
    settings does not parse ([unwrap]): the world is then the one of
    the start, nothing logged and nothing written.  Or
    [LayeredServerConfiguration::new] returned a configuration and the
    metadata of the file at its key path cannot be read
    ([unimplemented!]): the world is then the one
    [LayeredServerConfiguration::new] left, with that key file open.
    The panic of [Vec::with_capacity] on a capacity beyond
    [isize::MAX] is not among them: the length of a file is an [off_t],
    which on the 64-bit target of the cast is [isize::MAX] at most. *)
Theorem new_panic_causes w w' why :
  ServerConfiguration.new w = (w', Panic why) ->
  (w' = w /\ CliConfiguration.parse_args (args w) = Panic why) \/
  (w' = w /\ why = UnwrapFailed /\ YamlConfiguration.default_value = None) \/
  (why = Unimplemented /\
   exists w1 c v e,
     LayeredServerConfiguration.new w = (w1, Done c) /\
     File.open (LayeredServerConfiguration.authkey_path c) (fs w1) = Ok v /\
     File.metadata_len v (fs w1) = Err e /\
     key_state (fs w1) (LayeredServerConfiguration.authkey_path c) = KeyStatFailed /\
     w' = hold (LayeredServerConfiguration.authkey_path c) w1).
Proof.
  intros [Hl|(w1 & c & Hl & Hk)]%new_Panic.
  - apply layered_Panic in Hl as [-> [?|?]]; eauto.
  - apply key_loader_Panic in Hk as (-> & -> & Hst). right. right. split; [done|].
    destruct (key_state_StatFailed _ _ Hst) as (v & e & Ho & Hm).
    exists w1, c, v, e. by rewrite new_layered.
Qed.

(** ** Running again *)

(** Settings the file layer returned are what it returns from the world
    it left: a file it parsed is still there, a file it created reads
    back. *)
Lemma file_layer_stable path w w' y :
  file_layer path w = (w', Done y) -> file_layer path w' = (w', Done y).
Proof.
  intros Hrun.
  destruct (file_layer_Done _ _ _ _ Hrun) as [[Hst ->]|(Hst & Hy & s & Hs & Hc & _ & ->)];
    [done|].
  unfold file_layer.
  assert (file_state (fs (created path y s w)) path = Parsed y) as ->; [|done].
  assert (fs (created path y s w) !! path = Some (YamlConfiguration.file_with (as_bytes s)))
    as Hp by apply lookup_insert_eq.
  unfold file_state, YamlConfiguration.decoded.
  erewrite (proj2 (open_Ok _ _ _)) by eauto.
  erewrite contents_file by done. cbn.
  erewrite YamlConfiguration.from_slice_to_string;
    [done|by apply YamlConfiguration.default_value_wf|done].
Qed.

Lemma layered_stable w w' c : layered w = (w', Done c) -> layered w' = (w', Done c).
Proof.
  intros Hrun.
  destruct (layered_Done _ _ _ Hrun) as (cli & path & yaml & Hcli & Hpath & Hf & Hr).
  pose proof (file_layer_touches_only path w) as ((He & Ha) & _).
  rewrite Hf in He, Ha. cbn in He, Ha.
  unfold layered. rewrite He, Ha, Hcli, Hpath, (file_layer_stable _ _ _ _ Hf).
  by rewrite Hr.
Qed.

(** C6: a successful run of [ServerConfiguration::new] is repeatable:
    run again from the world it left, it returns the same configuration
    and changes nothing, not even the log.  In particular the settings
    file a first run created is read back to the settings that were
    written. *)
Theorem new_idempotent w w' s :
  ServerConfiguration.new w = (w', Done s) ->
  ServerConfiguration.new w' = (w', Done s).
Proof.
  intros (c & Hl & Hk & Hs & Hd & He)%new_Done.
  apply layered_stable in Hl. split_new w'; simplify_eq.
  all: match goal with H : key_loader _ _ = _ |- _ =>
         unfold key_loader in H; rewrite Hk in H; simplify_eq end.
  destruct s; by simplify_eq/=.
Qed.

(** ** The settings file, state by state *)

(** The layered configuration stops where the file layer fails. *)
Lemma layered_file_fails w path w1 f :
  settings_path_of w = Some path ->
  file_layer path w = fails w1 f -> layered w = fails w1 f.
Proof.
  intros (cli & Hcli & Hpath)%settings_path_of_inv Hf.
  rewrite (layered_run _ _ _ Hcli Hpath), Hf. done.
Qed.

(** C9: a settings file that does not parse is fatal and is left as it
    is: the run logs [Unable to read yaml file. Reason is {:?}] at
    level [Error] with the error of the decoder for argument, exits
    with status 1, and writes nothing; no default is put in its
    place. *)
Theorem corrupt_settings_are_fatal w path e :
  settings_path_of w = Some path -> file_state (fs w) path = Corrupt e ->
  ServerConfiguration.new w = fails w (SettingsCorrupt e).
Proof.
  intros Hpath Hst. apply new_fails, (layered_file_fails _ path); [done|].
  unfold file_layer. by rewrite Hst.
Qed.

(** C16: a settings file that cannot be opened for a reason other than
    absence (no permission to read it, a parent that is a regular file)
    is fatal with a message of its own, [Unable to handle error {:?}],
    whose argument is the error of [File::open], and no default is
    written. *)
Theorem inaccessible_settings_are_fatal w path e :
  settings_path_of w = Some path -> file_state (fs w) path = Inaccessible e ->
  ServerConfiguration.new w = fails w (SettingsInaccessible e).
Proof.
  intros Hpath Hst. apply new_fails, (layered_file_fails _ path); [done|].
  unfold file_layer. by rewrite Hst.
Qed.

(** C17: when nothing is at the settings path and the default file
    cannot be made there, the run is fatal with [Unable to write default
    yaml file. This is required! Error is {:?}], whose argument is the
    error [save] made of the error of the open; the file system is
    unchanged, and the log nevertheless holds the record [Saved yaml
    configuration file], which [save] writes before it opens the
    file. *)
Theorem unwritable_default_is_fatal w path y s e :
  settings_path_of w = Some path -> file_state (fs w) path = Absent ->
  YamlConfiguration.default_value = Some y ->
  YamlConfiguration.to_string y = Ok s ->
  OpenOptions.may_create (fs w) path = Err e ->
  ServerConfiguration.new w =
  fails (YamlConfiguration.announced s (LayeredServerConfiguration.warned y w))
        (DefaultWriteFailed (YamlConfiguration.OpenFailed e)).
Proof.
  intros Hpath Hst Hy Hs Hc. apply new_fails, (layered_file_fails _ path); [done|].
  unfold file_layer, persist_default. by rewrite Hst, Hy, Hs, Hc.
Qed.

(** What is read at a path where an empty file was left. *)
Lemma file_state_stranded fs path :
  file_state (<[path := full_file]> fs) path =
  match YamlConfiguration.from_slice [] with
  | Ok y => Parsed y
  | Err e => Corrupt e
  end.
Proof.
  unfold file_state, YamlConfiguration.decoded.
  erewrite (proj2 (open_Ok _ _ _)) by (eexists; by rewrite lookup_insert_eq).
  rewrite (contents_file path _ full_file); [reflexivity|apply lookup_insert_eq|done..].
Qed.

(** C18: a first run that cannot write the default file blocks the
    next start.  When nothing is at the settings path, the file can be
    made there but the device takes no data, [save] has created the
    file before [write_all] fails: the run ends with [Unable to write
    default yaml file. This is required! Error is {:?}] and leaves an
    empty file at the settings path.  The next run finds a file, does
    not write the default again, and, the empty document being no
    settings document, ends with [Unable to read yaml file. Reason is
    {:?}]. *)
Theorem failed_first_run_blocks_restart w path y s e :
  settings_path_of w = Some path -> file_state (fs w) path = Absent ->
  YamlConfiguration.default_value = Some y ->
  YamlConfiguration.to_string y = Ok s ->
  OpenOptions.may_create (fs w) path = Ok tt ->
  OpenOptions.device_full (fs w) path = true ->
  YamlConfiguration.from_slice [] = Err e ->
  let r := fails (A := ServerConfiguration.t) (stranded path y s w)
             (DefaultWriteFailed (YamlConfiguration.WriteFailed EIO)) in
  ServerConfiguration.new w = r /\
  fs (world_of r) = <[path := full_file]> (fs w) /\
  ServerConfiguration.new (world_of r) = fails (world_of r) (SettingsCorrupt e).
Proof.
  intros Hpath Hst Hy Hs Hc Hf He r. split_and!; [|done|].
  - apply new_fails, (layered_file_fails _ path); [done|].
    unfold file_layer, persist_default. by rewrite Hst, Hy, Hs, Hc, Hf.
  - apply new_fails, (layered_file_fails _ path); [done|].
    unfold file_layer. cbn [world_of fst r fails fs add_log stranded set_fs].
    by rewrite file_state_stranded, He.
Qed.

(** C14: without a settings path there is no configuration: when
    neither the environment nor the command line names the settings
    file, the run logs [No configuration path specified. This argument
    is required!] and exits with status 1, whatever the layers hold
    otherwise. *)
Theorem missing_settings_path_is_fatal w cli :
  CliConfiguration.parse_args (args w) = Done cli ->
  EnvironmentConfiguration.configuration_path
    (EnvironmentConfiguration.of_env (env w)) = None ->
  CliConfiguration.configuration_path cli = None ->
  ServerConfiguration.new w = fails w SettingsPathMissing.
Proof.
  intros Hcli He Hc. apply new_fails.
  unfold layered, settings_path, of_environment, of_cli.
  rewrite Hcli. cbn [settings_file_path]. by rewrite He, Hc.
Qed.

(** C31: an empty [MAELSTROM_CONF_PATH] is a path like any other.  The
    variable is set, so the environment layer holds the empty path and
    the path of the command line is never tried; nothing opens at the
    empty path and nothing can be made there, so the run announces the
    default settings and ends with [Unable to write default yaml file.
    This is required! Error is {:?}], whatever the command line
    says. *)
Theorem empty_settings_path_is_fatal w cli y s :
  env w !! "MAELSTROM_CONF_PATH" = Some (Unicode "") ->
  CliConfiguration.parse_args (args w) = Done cli ->
  fs w !! "" = None ->
  YamlConfiguration.default_value = Some y ->
  YamlConfiguration.to_string y = Ok s ->
  ServerConfiguration.new w =
  fails (YamlConfiguration.announced s (LayeredServerConfiguration.warned y w))
        (DefaultWriteFailed (YamlConfiguration.OpenFailed ENOENT)).
Proof.
  intros Henv Hcli Hfs Hy Hs. apply new_fails.
  rewrite (layered_run _ cli ""); [|done|].
  - unfold file_layer, file_state, persist_default.
    by rewrite open_empty, Hy, Hs, may_create_empty.
  - unfold settings_path, of_environment, EnvironmentConfiguration.of_env,
      EnvironmentConfiguration.var_path, EnvironmentConfiguration.var.
    cbn [settings_file_path EnvironmentConfiguration.configuration_path].
    by rewrite Henv.
Qed.

(** ** The first run *)

(** On a first run the layered configuration is the merge of the
    environment, the command line and the default settings, and the
    default settings are on disk. *)
Lemma first_run_layered w cli path y s :
  CliConfiguration.parse_args (args w) = Done cli ->
  settings_path (of_environment (EnvironmentConfiguration.of_env (env w)))
                (of_cli cli) = Ok path ->
  file_state (fs w) path = Absent ->
  YamlConfiguration.default_value = Some y ->
  YamlConfiguration.to_string y = Ok s ->
  OpenOptions.may_create (fs w) path = Ok tt ->
  OpenOptions.device_full (fs w) path = false ->
  exists c,
    resolve [of_environment (EnvironmentConfiguration.of_env (env w));
             of_cli cli; of_yaml y] = Ok c /\
    LayeredServerConfiguration.new w = (created path y s w, Done c).
Proof.
  intros Hcli Hpath Hst Hy Hs Hc Hf.
  rewrite new_layered, (layered_run _ _ _ Hcli Hpath).
  unfold file_layer, persist_default. rewrite Hst, Hy, Hs, Hc, Hf.
  destruct (YamlConfiguration.default_value_full _ Hy) as ([a Ha] & [b Hb] & Hk & _).
  unfold resolve. cbn -[first_some]. rewrite !first_some_three, Ha, Hb, Hk.
  repeat case_match; simplify_eq; eauto.
Qed.

(** C11: on a first run, with nothing at the settings path and a
    directory that can hold it, the run leaves there a regular file
    that holds the serialised default settings; nothing else in the
    file system changes, however the run ends afterwards. *)
Theorem first_run_writes_default w path y s :
  settings_path_of w = Some path -> file_state (fs w) path = Absent ->
  YamlConfiguration.default_value = Some y ->
  YamlConfiguration.to_string y = Ok s ->
  OpenOptions.may_create (fs w) path = Ok tt ->
  OpenOptions.device_full (fs w) path = false ->
  fs (world_of (ServerConfiguration.new w)) =
  <[path := YamlConfiguration.file_with (as_bytes s)]> (fs w).
Proof.
  intros (cli & Hcli & Hpath)%settings_path_of_inv Hst Hy Hs Hc Hf.
  destruct (first_run_layered _ _ _ _ _ Hcli Hpath Hst Hy Hs Hc Hf) as (c & _ & Hl).
  destruct (new_world w) as (_ & _ & -> & _). by rewrite <- new_layered, Hl.
Qed.

(** C12: the lifetime of a first run is 3000 seconds, not the default
    of 60: when no layer but the file gives a lifetime and nothing is at
    the settings path, the default settings that are written there are
    also the file layer of this run, and they hold 3000. *)
Theorem first_run_lifetime w cli path y s :
  CliConfiguration.parse_args (args w) = Done cli ->
  settings_path (of_environment (EnvironmentConfiguration.of_env (env w)))
                (of_cli cli) = Ok path ->
  file_state (fs w) path = Absent ->
  YamlConfiguration.default_value = Some y ->
  YamlConfiguration.to_string y = Ok s ->
  OpenOptions.may_create (fs w) path = Ok tt ->
  OpenOptions.device_full (fs w) path = false ->
  EnvironmentConfiguration.session_expiration
    (EnvironmentConfiguration.of_env (env w)) = None ->
  CliConfiguration.session_expiration cli = None ->
  exists c, LayeredServerConfiguration.new w = (created path y s w, Done c) /\
    LayeredServerConfiguration.session_expiration c = Duration.from_secs 3000.
Proof.
  intros Hcli Hpath Hst Hy Hs Hc Hf He Hl.
  destruct (first_run_layered _ _ _ _ _ Hcli Hpath Hst Hy Hs Hc Hf) as (c & Hr & Hrun).
  exists c. split; [done|].
  destruct (YamlConfiguration.default_value_full _ Hy) as (_ & _ & _ & Hlife).
  apply resolve_Ok in Hr as (_ & _ & _ & ->).
  cbn -[first_some EnvironmentConfiguration.of_env]. by rewrite He, Hl, Hlife.
Qed.

(** C13: a first run does not stop at the merge: when no layer names a
    server address and nothing is at the settings path, the run goes on
    with the address of the default settings, [https://example.net],
    instead of reporting [Option server_addr is required!]: the file
    layer of a first run is the default settings just written, and
    they hold every required option. *)
Theorem first_run_placeholders w cli path y s :
  CliConfiguration.parse_args (args w) = Done cli ->
  settings_path (of_environment (EnvironmentConfiguration.of_env (env w)))
                (of_cli cli) = Ok path ->
  file_state (fs w) path = Absent ->
  YamlConfiguration.default_value = Some y ->
  YamlConfiguration.to_string y = Ok s ->
  OpenOptions.may_create (fs w) path = Ok tt ->
  OpenOptions.device_full (fs w) path = false ->
  EnvironmentConfiguration.server_addr
    (EnvironmentConfiguration.of_env (env w)) = None ->
  CliConfiguration.server_addr cli = None ->
  exists c, LayeredServerConfiguration.new w = (created path y s w, Done c) /\
    url_parse "https://example.net" =
      Some (LayeredServerConfiguration.server_addr c).
Proof.
  intros Hcli Hpath Hst Hy Hs Hc Hf He Hl.
  destruct (first_run_layered _ _ _ _ _ Hcli Hpath Hst Hy Hs Hc Hf) as (c & Hr & Hrun).
  exists c. split; [done|].
  apply resolve_Ok in Hr as (Ha & _). revert Ha.
  cbn -[first_some EnvironmentConfiguration.of_env]. rewrite He, Hl.
  unfold YamlConfiguration.default_value in Hy. by simplify_option_eq.
Qed.

(** ** The shape of the file system *)

(** The file layer leaves the file system as it was or with one new
    regular file in a directory. *)
Lemma file_layer_fs path w :
  fs (world_of (file_layer path w)) = fs w \/
  exists i, fs w !! path = None /\ OpenOptions.may_create (fs w) path = Ok tt /\
    is_dir i = false /\ fs (world_of (file_layer path w)) = <[path := i]> (fs w).
Proof.
  unfold file_layer, persist_default.
  destruct (file_state (fs w) path) eqn:Hst; try by left.
  apply file_state_Absent in Hst.
  destruct YamlConfiguration.default_value as [y|]; [|by left].
  destruct (YamlConfiguration.to_string y) as [s|]; [|by left].
  destruct (OpenOptions.may_create (fs w) path) as [[]|] eqn:Hc; [|by left].
  right. destruct (OpenOptions.device_full (fs w) path);
    [exists full_file|exists (YamlConfiguration.file_with (as_bytes s))]; by split_and!.
Qed.

Lemma file_layer_tree_shaped path w :
  tree_shaped (fs w) -> tree_shaped (fs (world_of (file_layer path w))).
Proof.
  intros Hfs. destruct (file_layer_fs path w) as [->|(i & Hp & Hc & Hi & ->)]; [done|].
  pose proof (may_create_nonempty _ _ (proj1 Hfs) Hc) as Hne.
  apply may_create_Ok in Hc as (d & Hd & Hdir & _).
  apply tree_shaped_insert_file; [done..|eauto|]. intros j. by rewrite Hp.
Qed.

(** A run keeps the file system a tree: if every entry has a
    directory for parent before [ServerConfiguration::new], every entry
    has one after it, the settings file it may have created
    included. *)
Lemma new_keeps_tree_shape w :
  tree_shaped (fs w) -> tree_shaped (fs (world_of (ServerConfiguration.new w))).
Proof.
  intros Hfs. destruct (new_world w) as (_ & _ & -> & _).
  unfold layered. destruct (CliConfiguration.parse_args (args w)); [|done..].
  destruct (settings_path _ _) as [path|]; [|done].
  pose proof (file_layer_tree_shaped path w Hfs) as Hf.
  destruct (file_layer path w) as [w1 [yaml| |]]; [|done..].
  by destruct (resolve _).
Qed.

(** ** The regular start *)

(** C36: the regular start: when the settings file is in place and
    decodes, the layers between them hold every required option, and
    the key file they name loads, the run returns the merged addresses,
    the key and the merged lifetime, and leaves the world exactly as it
    found it: nothing is logged, nothing is written, no file stays
    open. *)
Theorem regular_start w cli path y c key :
  CliConfiguration.parse_args (args w) = Done cli ->
  settings_path (of_environment (EnvironmentConfiguration.of_env (env w)))
                (of_cli cli) = Ok path ->
  file_state (fs w) path = Parsed y ->
  resolve [of_environment (EnvironmentConfiguration.of_env (env w));
           of_cli cli; of_yaml y] = Ok c ->
  key_state (fs w) (LayeredServerConfiguration.authkey_path c) = KeyLoaded key ->
  ServerConfiguration.new w =
  (w, Done {| ServerConfiguration.server_addr := LayeredServerConfiguration.server_addr c;
              ServerConfiguration.database_addr :=
                LayeredServerConfiguration.database_addr c;
              ServerConfiguration.authkey := key;
              ServerConfiguration.session_expiration :=
                LayeredServerConfiguration.session_expiration c |}).
Proof.
  intros Hcli Hpath Hst Hc Hk. apply new_loaded; [|done].
  rewrite (layered_run _ _ _ Hcli Hpath). unfold file_layer. by rewrite Hst, Hc.
Qed.

(** C15: a required option that no layer holds is fatal, and the run
    names it.  When the settings file is in place and decodes, and
    neither the environment, nor the command line, nor the file holds
    one of the two addresses or the key path, the run logs [Option
    <name> is required!] for the first such option in the order of
    the struct (server address, database address, key path) and exits
    with status 1.  Nothing else is logged, nothing is written, and
    the key file is never opened. *)
Theorem required_missing_is_fatal w cli path y f :
  CliConfiguration.parse_args (args w) = Done cli ->
  settings_path (of_environment (EnvironmentConfiguration.of_env (env w)))
                (of_cli cli) = Ok path ->
  file_state (fs w) path = Parsed y ->
  resolve [of_environment (EnvironmentConfiguration.of_env (env w));
           of_cli cli; of_yaml y] = Err f ->
  ServerConfiguration.new w = fails w (RequiredMissing f).
Proof.
  intros Hcli Hpath Hst Hf. apply new_fails.
  rewrite (layered_run _ _ _ Hcli Hpath). unfold file_layer. by rewrite Hst, Hf.
Qed.

(** C37: what a run that returns has done to the world: nothing at all,
    or it was a first run, which found nothing at the settings path,
    logged the four records of the default settings and wrote their
    text there.  No other record and no other file comes with a
    configuration. *)
Theorem returned_world w w' s :
  ServerConfiguration.new w = (w', Done s) ->
  w' = w \/
  exists path y text,
    settings_path_of w = Some path /\ file_state (fs w) path = Absent /\
    YamlConfiguration.default_value = Some y /\
    YamlConfiguration.to_string y = Ok text /\ w' = created path y text w.
Proof.
  intros (c & (cli & path & y & Hcli & Hpath & Hf & _)%layered_Done & _)%new_Done.
  apply file_layer_Done in Hf as [[_ ->]|(Hst & Hy & text & Ht & _ & _ & ->)]; [by left|].
  right. exists path, y, text. split_and!; try done.
  unfold settings_path_of. by rewrite Hcli, Hpath.
Qed.

(** ** The records a run writes *)

(** The log stays well formed: every record a run of
    [ServerConfiguration::new] writes has as many arguments as its
    format string has placeholders, which is what the compiler checks
    of each macro call of the source; a log that could be printed
    before the run can be printed after it, however the run ends. *)
Corollary new_keeps_log_wf w :
  log_wf w -> log_wf (world_of (ServerConfiguration.new w)).
Proof.
  change (wf_kept w (world_of (ServerConfiguration.new w))).
  pose proof (layered_wf_kept w) as Hl.
  split_new w; cbn [world_of fst] in Hl |- *; try done.
  all: match goal with
       | H : key_loader ?p ?w1 = _ |- _ =>
           pose proof (key_loader_wf_kept p w1) as Hk; rewrite H in Hk
       end.
  all: etrans; [exact Hl|exact Hk].
Qed.

(** ** The files a run holds *)

(** C38: a run that returns holds no file: every file
    [ServerConfiguration::new] opened is closed when the configuration
    is returned, and [LayeredServerConfiguration::new] has closed the
    settings file however it ends.  A run that exits or panics holds
    at most one file more than at its start, and that file is the key
    file: the one at the key path of the configuration
    [LayeredServerConfiguration::new] returned, which the arms of the
    key loader that fail after opening it leave open when they call
    [exit(1)] or panic. *)
Theorem new_releases w :
  handles (world_of (LayeredServerConfiguration.new w)) = handles w /\
  match ServerConfiguration.new w with
  | (w', Done _) => handles w' = handles w
  | (w', _) =>
      handles w' = handles w \/
      exists w1 c,
        LayeredServerConfiguration.new w = (w1, Done c) /\
        handles w' = LayeredServerConfiguration.authkey_path c :: handles w
  end.
Proof.
  pose proof (layered_handles w) as Hl. split; [by rewrite new_layered|].
  rewrite new_layered. split_new w; cbn in Hl; [| | |by left..].
  all: match goal with
       | H : key_loader ?p ?w1 = _ |- _ =>
           pose proof (key_loader_handles p w1) as Hk; rewrite H in Hk; cbn in Hk
       end.
  all: destruct (key_state _ _) eqn:Hst; rewrite Hk, Hl; eauto.
  all: match goal with
       | H : key_loader _ _ = _ |- _ => unfold key_loader in H; by rewrite Hst in H
       end.
Qed.

(** ** The key file *)

(** C25: a key file whose metadata cannot be read ends the run with a
    panic ([unimplemented!]), not with a logged error and status 1 as
    every other failure of the key file does; nothing is logged, and
    the key file is open at the panic. *)
Theorem authkey_stat_failure_panics path v e w :
  File.open path (fs w) = Ok v -> File.metadata_len v (fs w) = Err e ->
  ServerConfiguration.authkey_of path w = (hold path w, Panic Unimplemented).
Proof.
  intros Ho Hm. rewrite authkey_key_loader. unfold key_loader, key_state.
  by rewrite Ho, Hm.
Qed.

(** C26: the key is decoded from exactly the bytes of the key file,
    whatever capacity the buffer was given: when the file reads, the
    run returns the key [from_ec_pem] makes of its content, closes the
    file and changes nothing, or logs [Unable to parse supplied key.
    Reason is {:?}] with the error of [from_ec_pem] and exits with
    status 1, the file still open, when the content is no key. *)
Theorem authkey_of_content path v len bytes w :
  File.open path (fs w) = Ok v -> File.metadata_len v (fs w) = Ok len ->
  contents (fs w) path = Ok bytes ->
  ServerConfiguration.authkey_of path w =
  match from_ec_pem bytes with
  | Ok key => (w, Done key)
  | Err e => fails (hold path w) (KeyDecodeFailed e)
  end.
Proof.
  intros Ho Hm Hc. rewrite authkey_key_loader. unfold key_loader, key_state.
  rewrite Ho, Hm, Hc. by destruct (from_ec_pem bytes).
Qed.

(** C27: a key file that cannot be opened is fatal, and reported as
    such: the key loader logs [Unable to open authkey file. Reason is
    {:?}] with the error of [File::open] and exits with status 1.  No
    file is open at the exit, and the message is not the one of a key
    file that opens and cannot be read or decoded. *)
Theorem authkey_open_failure_is_fatal path e w :
  File.open path (fs w) = Err e ->
  ServerConfiguration.authkey_of path w = fails w (KeyOpenFailed e).
Proof.
  intros Ho. rewrite authkey_key_loader. unfold key_loader, key_state. by rewrite Ho.
Qed.

(** C28: a key file that opens and cannot be read to its end (a
    directory, or a device that fails the read) is fatal with a
    message of its own: the key loader logs [Unable to read key file.
    Reason is {:?}] with the error of [read_to_end] and exits with
    status 1, the key file still open: [exit] runs no destructor. *)
Theorem authkey_read_failure_is_fatal path v len e w :
  File.open path (fs w) = Ok v -> File.metadata_len v (fs w) = Ok len ->
  File.read_to_end v [] (fs w) = Err e ->
  ServerConfiguration.authkey_of path w = fails (hold path w) (KeyReadFailed e).
Proof.
  intros Ho Hm Hr. rewrite authkey_key_loader. unfold key_loader, key_state, contents.
  by rewrite Ho, Hm, Hr.
Qed.

(** ** What a run reads *)

(** The settings path depends on the variables and the arguments
    only. *)
Lemma settings_path_of_set_fs w fs' : settings_path_of (set_fs w fs') = settings_path_of w.
Proof. done. Qed.

(** A world with one more file, away from the paths a run reads,
    agrees with the world without it. *)
Lemma agree_insert_fs w q i :
  q ∉ paths_read w -> agree variables_read (paths_read w) w (set_fs w (<[q := i]> (fs w))).
Proof.
  intros Hq. split_and!; try done. intros p Hp. cbn.
  rewrite lookup_insert_ne; [done|]. by intros ->.
Qed.

(** The frame of a run.  A file at a path the run does not read
    (not the settings path, not the key path, not the directory of
    either) is neither looked at nor touched: with any file put at such
    a path the run ends the same way, logs the same, and leaves the
    file system it would have left with that file in it. *)
Corollary new_frame w q i :
  q ∉ paths_read w ->
  let r := ServerConfiguration.new w in
  let r' := ServerConfiguration.new (set_fs w (<[q := i]> (fs w))) in
  outcome_of r' = outcome_of r /\ log (world_of r') = log (world_of r) /\
  fs (world_of r') = <[q := i]> (fs (world_of r)).
Proof.
  intros Hq r r'. subst r r'. pose proof (agree_insert_fs w q i Hq) as H.
  apply new_agree in H as [(_ & _ & Hfs & Hl & _) Ho]; [|done..].
  split_and!; [done..|]. apply map_eq. intros p.
  destruct (decide (p ∈ paths_read w)) as [Hp|Hp].
  { rewrite <- (Hfs p Hp), lookup_insert_ne; [done|]. by intros ->. }
  pose proof (new_fs_elsewhere w p) as E.
  pose proof (new_fs_elsewhere (set_fs w (<[q := i]> (fs w))) p) as E'.
  rewrite settings_path_of_set_fs in E'.
  assert (settings_path_of w <> Some p) as Hs.
  { intros Hs. apply Hp. unfold paths_read, settings_paths, with_parent.
    rewrite Hs. set_solver. }
  rewrite E' by done. cbn.
  destruct (decide (q = p)) as [->|]; [by rewrite !lookup_insert_eq|].
  rewrite !lookup_insert_ne by done. symmetry. by apply E.
Qed.

End WithCollaborators.

End Properties.
