(* ===== verification/Inputs.v ===== *)
(** * The result is a function of the inputs

    A run takes its input from the environment, the arguments and the
    file system.  The log and the list of open files are outputs only:
    no call of the resolver reads them.  This file states that as a
    commutation: starting a run with records already logged and files
    already open ([rebase]) gives the run from the plain world, with
    those records before its own and those files still open
    ([carries]).  It holds of the contracts of [Spec] and, through
    them, of the two constructors.

    With the footprint of [Footprint] this gives the dependency of a
    run in full: two worlds that agree on the five variables, the
    arguments and the files at the paths the run reads, whatever their
    logs and open files are, are taken to the same outcome, the same
    records, the same files opened, and to file systems that agree on
    those paths. *)

From Stdlib Require Import ZArith Lia.
From Stdlib.Strings Require Import Byte Ascii String.
From stdpp Require Import base tactics option list gmap strings.
From S2P Require Import Prelude Numbers Fmt Collaborators FileSystem World.
From S2P Require Import Environment Cli Yaml Layered Server Spec Footprint Properties.

#[local] Open Scope string_scope.

Module Inputs.

(** The world [w] of a process that had logged [l] and opened [h]
    before: the records come first in the log, and the files it opened
    last are first in the list. *)
Definition rebase (l : list LogRecord) (h : list string) (w : World) : World :=
  {| env := env w; args := args w; fs := fs w; log := l ++ log w;
     handles := handles w ++ h |}.

Definition rebase_run {A} (l : list LogRecord) (h : list string)
    (r : World * Outcome A) : World * Outcome A :=
  (rebase l h (world_of r), outcome_of r).

(** [m] reads neither the log nor the list of open files: what was
    logged and opened before is carried through the run. *)
Definition carries {A} (m : World -> World * Outcome A) : Prop :=
  forall l h w, m (rebase l h w) = rebase_run l h (m w).

(** The inputs of a world: nothing logged, nothing open. *)
Definition inputs (w : World) : World :=
  {| env := env w; args := args w; fs := fs w; log := []; handles := [] |}.

(** Two worlds with the same inputs, as far as the variables of [V]
    and the files of [P] go. *)
Definition same_inputs (V P : gset string) (w1 w2 : World) : Prop :=
  (forall k, k ∈ V -> env w1 !! k = env w2 !! k) /\
  args w1 = args w2 /\
  fs_agree P (fs w1) (fs w2).

(** Having the same inputs on finite footprints can be checked. *)
#[export] Instance same_inputs_dec V P w1 w2 : Decision (same_inputs V P w1 w2).
Proof.
  apply and_dec; [apply (set_Forall_dec (fun k => env w1 !! k = env w2 !! k))|apply _].
Defined.

(** ** [rebase] and the operations on a world *)

Lemma rebase_inputs w : rebase (log w) (handles w) (inputs w) = w.
Proof. destruct w. unfold rebase, inputs. cbn. by rewrite app_nil_r. Qed.

Lemma rebase_add_log l h w r : add_log (rebase l h w) r = rebase l h (add_log w r).
Proof. unfold add_log, rebase. cbn. by rewrite app_assoc. Qed.

Lemma rebase_set_fs l h w f : set_fs (rebase l h w) f = rebase l h (set_fs w f).
Proof. done. Qed.

Lemma rebase_hold l h w p : hold p (rebase l h w) = rebase l h (hold p w).
Proof. done. Qed.

Section WithCollaborators.
Context {url : UrlParser} {keys : KeyDecoder} {std : StdDebug}
  {codec : YamlConfiguration.Codec} {anyhow : fmt.Debug YamlConfiguration.SaveError}
  {cli_parser : CliConfiguration.ArgParser}.

Lemma rebase_fails {A} l h w f :
  Spec.fails (A := A) (rebase l h w) f = rebase_run l h (Spec.fails w f).
Proof. unfold Spec.fails, rebase_run. cbn. by rewrite rebase_add_log. Qed.

Lemma rebase_warned l h w y :
  LayeredServerConfiguration.warned y (rebase l h w) =
  rebase l h (LayeredServerConfiguration.warned y w).
Proof. unfold LayeredServerConfiguration.warned. by rewrite !rebase_add_log. Qed.

Lemma rebase_announced l h w s :
  YamlConfiguration.announced s (rebase l h w) =
  rebase l h (YamlConfiguration.announced s w).
Proof. unfold YamlConfiguration.announced. by rewrite !rebase_add_log. Qed.

(** ** The contracts carry *)

Lemma persist_default_carries path : carries (Spec.persist_default path).
Proof.
  intros l h w. unfold Spec.persist_default, Spec.created, Spec.stranded.
  destruct YamlConfiguration.default_value as [y|]; [|done].
  rewrite rebase_warned. destruct (YamlConfiguration.to_string y) as [s|e];
    [|apply rebase_fails].
  rewrite rebase_announced. cbn [fs rebase].
  destruct (OpenOptions.may_create (fs w) path); [|apply rebase_fails].
  destruct (OpenOptions.device_full (fs w) path); [|done].
  rewrite rebase_set_fs. apply rebase_fails.
Qed.

Lemma file_layer_carries path : carries (Spec.file_layer path).
Proof.
  intros l h w. unfold Spec.file_layer. cbn [fs rebase].
  destruct (Spec.file_state (fs w) path);
    [done|apply rebase_fails|apply persist_default_carries|apply rebase_fails].
Qed.

Lemma layered_carries : carries Spec.layered.
Proof.
  intros l h w. unfold Spec.layered. cbn [env args rebase].
  destruct (CliConfiguration.parse_args (args w)) as [cli| |]; [|done..].
  destruct (Spec.settings_path _ _) as [path|f]; [|apply rebase_fails].
  rewrite file_layer_carries.
  destruct (Spec.file_layer path w) as [w' [yaml| |]]; [|done..]. cbn.
  destruct (Spec.resolve _); [done|apply rebase_fails].
Qed.

Lemma key_loader_carries path : carries (Spec.key_loader path).
Proof.
  intros l h w. unfold Spec.key_loader. cbn [fs rebase].
  destruct (Spec.key_state (fs w) path);
    rewrite ?rebase_hold; first [done|apply rebase_fails].
Qed.

(** ** The constructors carry *)

Lemma layered_new_carries : carries LayeredServerConfiguration.new.
Proof. intros l h w. rewrite !Spec.new_layered. apply layered_carries. Qed.

Lemma new_carries : carries ServerConfiguration.new.
Proof.
  intros l h w. unfold ServerConfiguration.new, bind, ret.
  rewrite !Spec.new_layered, layered_carries.
  destruct (Spec.layered w) as [w1 [c| |]]; [|done..]. cbn.
  rewrite !Spec.authkey_key_loader, key_loader_carries.
  by destruct (Spec.key_loader _ w1) as [w2 [key| |]].
Qed.

(** A run is the run from its inputs, with the log and the open files
    of the start carried along. *)
Lemma new_from_inputs w :
  ServerConfiguration.new w =
  rebase_run (log w) (handles w) (ServerConfiguration.new (inputs w)).
Proof. by rewrite <- new_carries, rebase_inputs. Qed.

(** ** What a run depends on *)

Lemma paths_read_inputs w : paths_read (inputs w) = paths_read w.
Proof.
  unfold paths_read, settings_paths, key_paths. f_equal.
  rewrite <- (rebase_inputs w) at 2. by rewrite layered_new_carries.
Qed.

Lemma same_inputs_agree V P w1 w2 :
  same_inputs V P w1 w2 -> agree V P (inputs w1) (inputs w2).
Proof. intros (?&?&?). by split_and!. Qed.

(** C32: the result of a run is a function of the five variables of
    the environment layer, the arguments, and the files at the settings
    path, at the key path and at the directories that hold them, and of
    nothing else.  Two runs of [ServerConfiguration::new] from worlds
    that agree on those, whatever was logged and whatever files were
    open when they started, end the same way (same configuration, same
    exit status or panic), log the same records after those of the
    start, open the same files on top of those of the start, and leave
    file systems that agree on those paths again. *)
Theorem new_function_of_inputs w1 w2 :
  same_inputs variables_read (paths_read w1) w1 w2 ->
  let r1 := ServerConfiguration.new w1 in
  let r2 := ServerConfiguration.new w2 in
  outcome_of r1 = outcome_of r2 /\
  fs_agree (paths_read w1) (fs (world_of r1)) (fs (world_of r2)) /\
  exists l h,
    log (world_of r1) = (log w1 ++ l)%list /\ log (world_of r2) = (log w2 ++ l)%list /\
    handles (world_of r1) = (h ++ handles w1)%list /\
    handles (world_of r2) = (h ++ handles w2)%list.
Proof.
  intros H r1 r2. subst r1 r2. rewrite (new_from_inputs w1), (new_from_inputs w2).
  apply same_inputs_agree in H.
  apply new_agree in H as [(_ & _ & Hfs & Hl & Hh) Ho];
    [|done|by rewrite paths_read_inputs].
  split_and!; [done..|].
  exists (log (world_of (ServerConfiguration.new (inputs w1)))),
         (handles (world_of (ServerConfiguration.new (inputs w1)))).
  cbn. by rewrite Hl, Hh.
Qed.

End WithCollaborators.

End Inputs.
