(* ===== verification/Crash.v ===== *)
(** * A run that is stopped

    The resolver writes one file, on a first run, with two calls:
    [OpenOptions::open] makes it (line 156) and [write_all] fills it
    (line 158).  Nothing makes the pair atomic: there is no temporary
    file and no rename.  This file says what is on disk when the
    process is stopped (killed, or the machine halts) at any point of a
    run, and what the next start makes of it.

    The trees of [save], of the [let yaml] and of the two constructors
    are the code of [Yaml], [Layered] and [Server] written call by
    call over [Calls]: they denote those functions, and the calls they
    mark quiet are quiet.  A stopped run has changed nothing, or it was
    a first run and the settings path holds a prefix of the default
    text, and every such prefix is reached when the file can be made
    and written; the next start reads the prefix as the settings
    file.  A first run on a device that fills up is not stopped but
    fails: it reports the error of the write, exits, and leaves what
    fitted; a run that finds something at the settings path, and a run
    on a device with room for the text, do not notice the device. *)

From Stdlib Require Import ZArith Lia.
From Stdlib.Strings Require Import Byte Ascii String.
From stdpp Require Import base tactics option list gmap strings.
From S2P Require Import Prelude Numbers Fmt Collaborators FileSystem World.
From S2P Require Import Environment Cli Yaml Layered Server Spec Properties Calls.

#[local] Open Scope string_scope.

Module Crash.

Import Calls.

(** ** The run, call by call *)

Section WithCollaborators.
Context {url : UrlParser} {keys : KeyDecoder} {std : StdDebug}
  {codec : YamlConfiguration.Codec} {anyhow : fmt.Debug YamlConfiguration.SaveError}
  {cli_parser : CliConfiguration.ArgParser}.

#[local] Open Scope steps_scope.

(** [YamlConfiguration::save]: the two records, the call that makes or
    opens the file, the call that writes it, the drop of the file. *)
Definition save (self : YamlConfiguration.t) (path : string)
  : Steps (Result unit YamlConfiguration.SaveError) :=
  match YamlConfiguration.to_string self with
  | Err e => Return (Err (YamlConfiguration.SerializeFailed self e))
  | Ok s =>
      quiet (info "Saved yaml configuration file" []) ;;
      quiet (debug "Saved yaml looks like: {:?}" [fmt.debug s]) ;;
      r <- call (Create path) ;;
      match r with
      | Ok v =>
          r <- call (WriteAll v (as_bytes s)) ;;
          quiet (File_drop v) ;;
          match r with
          | Ok _ => Return (Ok tt)
          | Err e => Return (Err (YamlConfiguration.WriteFailed e))
          end
      | Err e => Return (Err (YamlConfiguration.OpenFailed e))
      end
  end.

(** The [let yaml] of [LayeredServerConfiguration::new]. *)
Definition yaml (yaml_path : string) : Steps YamlConfiguration.t :=
  r <- quiet (File_open yaml_path) ;;
  match r with
  | Ok v =>
      r <- quiet (YamlConfiguration.from_reader v) ;;
      match r with
      | Ok v => Return v
      | Err e =>
          quiet (error "Unable to read yaml file. Reason is {:?}" [fmt.debug e]) ;;
          quiet (exit 1)
      end
  | Err e =>
      match kind e with
      | NotFound =>
          yaml <- quiet YamlConfiguration.default ;;
          quiet (warn "No yaml file found. Creating default yaml file and writing to disk. If this is a first run, exit and edit before continuing" []) ;;
          quiet (debug "Default yaml looks like: {:?}" [fmt.debug yaml]) ;;
          r <- save yaml yaml_path ;;
          match r with
          | Ok _ => Return yaml
          | Err e =>
              quiet (error "Unable to write default yaml file. This is required! Error is {:?}"
                       [fmt.debug e]) ;;
              quiet (exit 1)
          end
      | _ =>
          quiet (error "Unable to handle error {:?}" [fmt.debug e]) ;;
          quiet (exit 1)
      end
  end.

(** [LayeredServerConfiguration::new]: the statements before and after
    the [let yaml] write nothing. *)
Definition layered : Steps LayeredServerConfiguration.t :=
  env <- quiet EnvironmentConfiguration.new ;;
  cli <- quiet CliConfiguration.from_args ;;
  yaml_path <- quiet (LayeredServerConfiguration.yaml_path env cli) ;;
  yaml <- yaml yaml_path ;;
  quiet (LayeredServerConfiguration.merge env cli yaml).

(** [ServerConfiguration::new]. *)
Definition new : Steps ServerConfiguration.t :=
  layered_configuration <- layered ;;
  authkey <- quiet (ServerConfiguration.authkey_of
                      (LayeredServerConfiguration.authkey_path layered_configuration)) ;;
  Return {| ServerConfiguration.server_addr :=
              LayeredServerConfiguration.server_addr layered_configuration;
            ServerConfiguration.database_addr :=
              LayeredServerConfiguration.database_addr layered_configuration;
            ServerConfiguration.authkey := authkey;
            ServerConfiguration.session_expiration :=
              LayeredServerConfiguration.session_expiration layered_configuration |}.

(** ** What a stopped run leaves *)

(** The file system in which the file made at [path] holds the first
    [n] of [bytes]. *)
Definition partly_written (path : string) (bytes : list byte) (fs : FileSystem) (n : nat)
  : FileSystem :=
  <[path := set_data (OpenOptions.created_file fs path) (take n bytes)]> fs.

(** What a run may leave of a file system [fs] when its settings path
    is [path]: [fs] itself, or, when nothing is at [path], [fs] with a
    file there that holds a prefix of the text of the default
    settings. *)
Definition first_run_states (path : string) (fs : FileSystem) : FileSystem -> Prop :=
  fun f =>
    f = fs \/
    exists y s n,
      fs !! path = None /\
      YamlConfiguration.default_value = Some y /\ YamlConfiguration.to_string y = Ok s /\
      n <= length (as_bytes s) /\ f = partly_written path (as_bytes s) fs n.

(** What a run from [w] may leave. *)
Definition run_states (w : World) : FileSystem -> Prop :=
  fun f =>
    match Spec.settings_path_of w with
    | Some path => first_run_states path (fs w) f
    | None => f = fs w
    end.

(** The text of the default settings is [n] bytes at most. *)
Definition text_fits (n : nat) : Prop :=
  forall y s, YamlConfiguration.default_value = Some y ->
    YamlConfiguration.to_string y = Ok s -> length (as_bytes s) <= n.

(** ** The trees are the code *)

(** One step of a proof that a tree denotes a computation written with
    the same calls in the same order. *)
Ltac denote_step :=
  cbn [denote and_then quiet call perform];
  lazymatch goal with
  | |- denote (and_then _ _) ≡ bind _ _ =>
      rewrite denote_and_then; apply bind_proper; [try done|intros ?]
  | |- bind _ _ ≡ bind _ _ => apply bind_proper; [done|intros ?]
  | |- denote (match ?r with _ => _ end) ≡ _ => destruct r
  | |- _ => done
  end.

Lemma save_denote self path : denote (save self path) ≡ YamlConfiguration.save self path.
Proof.
  unfold save, YamlConfiguration.save.
  destruct (YamlConfiguration.to_string self); [|done]. repeat denote_step.
Qed.

Lemma yaml_denote path : denote (yaml path) ≡ LayeredServerConfiguration.yaml path.
Proof.
  pose proof save_denote.
  unfold yaml, LayeredServerConfiguration.yaml. repeat denote_step.
Qed.

Lemma layered_denote : denote layered ≡ LayeredServerConfiguration.new.
Proof.
  pose proof yaml_denote.
  unfold layered, LayeredServerConfiguration.new. repeat denote_step. apply bind_ret_r.
Qed.

(** The tree of [ServerConfiguration::new] denotes
    [ServerConfiguration::new]: the calls of the tree are the calls of
    the code, in its order, with its branches. *)
Lemma new_denote : denote new ≡ ServerConfiguration.new.
Proof.
  pose proof layered_denote.
  unfold new, ServerConfiguration.new. repeat denote_step.
Qed.

(** ** The quiet calls are quiet *)

Lemma kept_from_reader v : preserves fs_kept (YamlConfiguration.from_reader v).
Proof. by intros w. Qed.

Lemma kept_default : preserves fs_kept YamlConfiguration.default.
Proof. intros w. by rewrite YamlConfiguration.default_run. Qed.

Lemma kept_environment : preserves fs_kept EnvironmentConfiguration.new.
Proof. intros w. by rewrite EnvironmentConfiguration.new_by_readers. Qed.

Lemma kept_from_args : preserves fs_kept CliConfiguration.from_args.
Proof. by intros w. Qed.

Lemma kept_yaml_path env cli : preserves fs_kept (LayeredServerConfiguration.yaml_path env cli).
Proof. intros w. rewrite Spec.settings_path_run. by destruct (Spec.settings_path _ _). Qed.

Lemma kept_merge env cli yaml :
  preserves fs_kept (LayeredServerConfiguration.merge env cli yaml).
Proof. apply LayeredServerConfiguration.merge_preserves; apply _. Qed.

Lemma kept_authkey_of path : preserves fs_kept (ServerConfiguration.authkey_of path).
Proof.
  intros w. rewrite Spec.authkey_key_loader.
  by destruct (Spec.key_loader_same_but_log path w) as (_ & _ & ? & _).
Qed.

(** Discharges [preserves fs_kept] for the calls of the trees. *)
Ltac solve_kept :=
  first [apply kept_log_at|apply kept_exit|apply kept_File_open|apply kept_File_drop
        |apply kept_from_reader|apply kept_default|apply kept_environment
        |apply kept_from_args|apply kept_yaml_path|apply kept_merge|apply kept_authkey_of].

Ltac marked_step :=
  lazymatch goal with
  | |- marked (and_then _ _) => apply marked_and_then; [|intros ?]
  | |- marked (quiet _) => apply marked_quiet; solve_kept
  | |- marked (call _) => constructor; intros ?; constructor
  | |- marked (Return _) => constructor
  | |- marked (match ?r with _ => _ end) => destruct r
  | |- marked _ => done
  end.

Lemma save_marked self path : marked (save self path).
Proof. unfold save. repeat marked_step. Qed.

Lemma yaml_marked path : marked (yaml path).
Proof. pose proof save_marked. unfold yaml. repeat marked_step. Qed.

Lemma layered_marked : marked layered.
Proof. pose proof yaml_marked. unfold layered. repeat marked_step. Qed.

(** In the tree of [ServerConfiguration::new] every call marked
    [Quiet] keeps the file system: the two calls of [save] are the
    only ones that write. *)
Lemma new_marked : marked new.
Proof. pose proof layered_marked. unfold new. repeat marked_step. Qed.

(** [save], whatever is at the path: the file system is as it was, or
    the file is open and a part of the text has been written. *)
Lemma leaves_save (P : FileSystem -> Prop) self path w :
  P (fs w) ->
  (forall s v fs1, YamlConfiguration.to_string self = Ok s ->
     OpenOptions.open_write_create path (fs w) = Ok (v, fs1) ->
     P fs1 /\
     forall n f, n <= length (as_bytes s) -> written v (as_bytes s) fs1 n = Some f -> P f) ->
  leaves (save self path) w P.
Proof.
  intros H0 Hw. unfold save.
  destruct (YamlConfiguration.to_string self) as [s|e]; [|by apply leaves_Return].
  apply leaves_quiet_then; [solve_kept|done|]. intros w1 _ _ Hf1.
  apply leaves_quiet_then; [solve_kept|by rewrite Hf1|]. intros w2 _ _ Hf2.
  rewrite Hf1 in Hf2. cbn [and_then call].
  apply leaves_Create; rewrite Hf2; [done|by intros e _; apply leaves_Return; rewrite Hf2|].
  intros v fs1 Ho. destruct (Hw s v fs1 eq_refl Ho) as [H1 Hn]. split; [done|].
  assert (forall w' (r : Result File.t Errno), fs w' = fs1 \/ (exists n f, n <= length (as_bytes s) /\
            written v (as_bytes s) fs1 n = Some f /\ fs w' = f) ->
          leaves (quiet (File_drop v) ;;
                  match r with
                  | Ok _ => Return (Ok tt)
                  | Err e => Return (Err (YamlConfiguration.WriteFailed e))
                  end) w' P) as Hdrop.
  { intros w' r Hw'. assert (P (fs w')) by (destruct Hw' as [->|(n & f & ? & ? & ->)]; eauto).
    apply leaves_quiet_then; [solve_kept|done|]. intros w3 _ _ Hf3.
    destruct r; apply leaves_Return; by rewrite Hf3. }
  apply leaves_WriteAll; [exact H1|exact Hn|..].
  - intros e _. apply (Hdrop _ (Err e)). by left.
  - intros v' fs2 Hv'. apply (Hdrop _ (Ok v')). right.
    exists (length (as_bytes s)), fs2. split_and!; [done|by eapply written_all|done].
Qed.

(** ** A run that is stopped *)

(** A quiet call of a run that has written nothing yet: [H0] says that
    the condition holds of the file system of the world, which the
    call keeps. *)
Tactic Notation "quiet_then" constr(H0) "as" simple_intropattern(w)
    simple_intropattern(a) simple_intropattern(Hfs) simple_intropattern(Ha) :=
  apply (leaves_quiet_then_at _ _ H0); [first [done|reflexivity]|solve_kept|];
  intros w a Hfs Ha.

(** The file as [create(true)] made it. *)
Lemma partly_written_0 path bytes fs :
  partly_written path bytes fs 0 = <[path := OpenOptions.created_file fs path]> fs.
Proof.
  unfold partly_written, OpenOptions.created_file.
  by destruct (OpenOptions.device_full fs path).
Qed.

(** The file [create(true)] makes where nothing was, and what a
    [write_all] that is stopped leaves in it. *)
Lemma created_then_written path bytes fs v fs1 :
  fs !! path = None -> OpenOptions.open_write_create path fs = Ok (v, fs1) ->
  fs1 = partly_written path bytes fs 0 /\
  forall n f, written v bytes fs1 n = Some f -> f = partly_written path bytes fs n.
Proof.
  intros Hp. unfold OpenOptions.open_write_create. rewrite Hp.
  destruct (OpenOptions.may_create fs path); [|done]. intros [= <- <-]. split.
  - symmetry. apply partly_written_0.
  - intros n f. unfold written, partly_written, File.write_all.
    destruct (take n bytes) as [|b l].
    { intros [= <-]. unfold OpenOptions.created_file.
      by destruct (OpenOptions.device_full fs path). }
    cbn [File.path File.pos]. rewrite lookup_insert_eq. case_decide as Hf; [done|].
    cbn. intros [= <-]. rewrite insert_insert_eq. do 2 f_equal.
    unfold OpenOptions.created_file in *.
    destruct (OpenOptions.device_full fs path); [done|]. apply overwrite_empty.
Qed.

(** The [let yaml]: the file system is as it was, or nothing was at the
    path and a prefix of the default text is there. *)
Lemma leaves_yaml path w : leaves (yaml path) w (first_run_states path (fs w)).
Proof.
  assert (first_run_states path (fs w) (fs w)) as H0 by by left.
  unfold yaml. quiet_then H0 as w1 r Hf1 Ho. rewrite File_open_run in Ho. destruct r as [v|e].
  { quiet_then H0 as w2 r Hf2 Hr. destruct r; [by apply leaves_Return; left|by apply (leaves_fatal _ _ H0)]. }
  destruct (kind e) eqn:Hk; [|by apply (leaves_fatal _ _ H0)..].
  assert (fs w !! path = None) as Hp.
  { apply (open_NotFound path (fs w)). exists e.
    destruct (File.open path (fs w)); by simplify_eq. }
  quiet_then H0 as w2 y Hf2 Hy. rewrite YamlConfiguration.default_run in Hy.
  destruct YamlConfiguration.default_value as [y'|] eqn:Hy'; simplify_eq.
  quiet_then H0 as w3 ? Hf3 _. quiet_then H0 as w4 ? Hf4 _. apply leaves_and_then.
  - apply leaves_save; rewrite Hf4; [done|]. intros s v fs1 Hs Hc.
    destruct (created_then_written path (as_bytes s) (fs w) v fs1 Hp Hc) as [-> Hn].
    split; [right; eexists y, s, 0; split_and!; [done..|lia|done]|].
    intros n f Hle Hw. right. exists y, s, n. split_and!; [done..|by apply Hn].
  - intros w5 [[]|e'] _ H5; [by apply leaves_Return|].
    by apply (leaves_fatal _ (fs w5)).
Qed.

Lemma run_states_first w : run_states w (fs w).
Proof. unfold run_states. destruct (Spec.settings_path_of w); [by left|done]. Qed.

Lemma leaves_layered w : leaves layered w (run_states w).
Proof.
  pose proof (run_states_first w) as H0.
  unfold layered. quiet_then H0 as w1 env _ He.
  rewrite EnvironmentConfiguration.new_by_readers in He. injection He as <- <-.
  quiet_then H0 as w2 cli _ Hc.
  rewrite CliConfiguration.from_args_run in Hc. injection Hc as <- Hcli.
  quiet_then H0 as w3 path _ Hpath. rewrite Spec.settings_path_run in Hpath.
  destruct (Spec.settings_path _ _) as [path'|] eqn:Hs; [|done]. injection Hpath as <- <-.
  assert (run_states w = first_run_states path' (fs w)) as ->.
  { unfold run_states, Spec.settings_path_of. by rewrite Hcli, Hs. }
  apply leaves_and_then; [apply leaves_yaml|].
  intros w4 y _ H4. apply leaves_quiet; [solve_kept|done].
Qed.

(** Wherever a run of [ServerConfiguration::new] is stopped, it
    leaves one of the states of [run_states]. *)
Lemma leaves_new w : leaves new w (run_states w).
Proof.
  unfold new. apply leaves_and_then; [apply leaves_layered|]. intros w1 c _ H1.
  apply leaves_quiet_then; [solve_kept|done|]. intros w2 key _ Hf.
  apply leaves_Return. by rewrite Hf.
Qed.

(** The states of [run_states], spelled out. *)
Lemma run_states_inv w f :
  run_states w f ->
  f = fs w \/
  exists path y s n,
    Spec.settings_path_of w = Some path /\ fs w !! path = None /\
    YamlConfiguration.default_value = Some y /\ YamlConfiguration.to_string y = Ok s /\
    n <= length (as_bytes s) /\ f = partly_written path (as_bytes s) (fs w) n.
Proof.
  unfold run_states. destruct (Spec.settings_path_of w) as [path|]; [|by left].
  intros [->|(y & s & n & ?)]; [by left|right]. by exists path, y, s, n.
Qed.

Lemma stopped_run_states w f : f ∈ stopped new w -> run_states w f.
Proof. intros Hf. by eapply Forall_forall; [apply leaves_new|]. Qed.

(** C19: a run of [ServerConfiguration::new] that is stopped has
    changed nothing, or it was a first run (nothing was at the settings
    path) and the settings path holds the first [n] bytes of the text
    of the default settings, for some [n] up to its length: an empty
    file, a part of the text, or all of it. *)
Theorem stopped_run_leaves w f :
  f ∈ stopped new w ->
  f = fs w \/
  exists path y s n,
    Spec.settings_path_of w = Some path /\ fs w !! path = None /\
    YamlConfiguration.default_value = Some y /\ YamlConfiguration.to_string y = Ok s /\
    n <= length (as_bytes s) /\ f = partly_written path (as_bytes s) (fs w) n.
Proof. intros Hf. by apply run_states_inv, stopped_run_states. Qed.

(** ** Every such state is reached *)

(** What [write_all] has written after [n] bytes to the file that was
    just made, on a device with room. *)
Lemma written_fresh path bytes fs n :
  OpenOptions.device_full fs path = false ->
  written {| File.path := path; File.pos := 0 |} bytes
    (<[path := OpenOptions.created_file fs path]> fs) n =
  Some (partly_written path bytes fs n).
Proof.
  intros Hf. unfold written, partly_written. rewrite created_file_new by done.
  rewrite (write_all_at path 0 _ _ new_file)
    by first [by rewrite ?lookup_insert_eq|cbn; lia].
  cbn [ok fmap option_fmap option_map snd data new_file].
  by rewrite insert_insert_eq, overwrite_empty.
Qed.

(** [save] where nothing is and the file can be made and written: it
    can be stopped with any prefix of the text in the file. *)
Lemma save_stops_anywhere self path s w n :
  YamlConfiguration.to_string self = Ok s ->
  fs w !! path = None -> OpenOptions.may_create (fs w) path = Ok tt ->
  OpenOptions.device_full (fs w) path = false ->
  n <= length (as_bytes s) ->
  partly_written path (as_bytes s) (fs w) n ∈ stopped (save self path) w.
Proof.
  intros Hs Hp Hc Hf Hn. unfold save. rewrite Hs.
  do 2 (eapply stopped_quiet_later; [apply log_at_run|]).
  cbn [and_then call stopped perform torn app].
  rewrite OpenOptions_open_write_create_run. cbn [fs add_log].
  rewrite (open_write_create_absent path (fs w)) by done.
  apply list_elem_of_further. cbn [stopped perform torn fs hold set_fs set_handles].
  rewrite <- (partly_written_0 path (as_bytes s)).
  unfold File_write_all, fs_update. cbn [fs hold set_fs set_handles add_log].
  pose proof (fun n => written_fresh path (as_bytes s) (fs w) n Hf) as Hw.
  rewrite <- (partly_written_0 path (as_bytes s)) in Hw.
  destruct (decide (n = 0)) as [->|]; [apply list_elem_of_here|].
  apply list_elem_of_further, elem_of_app.
  destruct (decide (n = length (as_bytes s))) as [->|].
  - right. specialize (Hw (length (as_bytes s))). unfold written in Hw.
    rewrite firstn_all in Hw.
    destruct (File.write_all _ _ _) as [[v' fs2]|]; [|done].
    injection Hw as <-. exact (stopped_first _ (set_fs _ _)).
  - left. apply list_elem_of_omap. exists n. split; [apply elem_of_seq; lia|by apply Hw].
Qed.

(** The [let yaml] on a first run. *)
Lemma yaml_stops_anywhere path y s w n :
  Spec.file_state (fs w) path = Spec.Absent ->
  YamlConfiguration.default_value = Some y -> YamlConfiguration.to_string y = Ok s ->
  OpenOptions.may_create (fs w) path = Ok tt ->
  OpenOptions.device_full (fs w) path = false ->
  n <= length (as_bytes s) ->
  partly_written path (as_bytes s) (fs w) n ∈ stopped (yaml path) w.
Proof.
  intros Hst Hy Hs Hc Hf Hn. pose proof (Spec.file_state_Absent _ _ Hst) as Hp.
  unfold Spec.file_state in Hst. unfold yaml.
  destruct (File.open path (fs w)) as [v|e] eqn:Ho; [by repeat case_match|].
  eapply stopped_quiet_later; [by rewrite File_open_run, Ho|]. cbv beta match.
  destruct (kind e); [|done..].
  eapply stopped_quiet_later; [by rewrite YamlConfiguration.default_run, Hy|].
  do 2 (eapply stopped_quiet_later; [apply log_at_run|]).
  apply stopped_and_then_first.
  by apply (save_stops_anywhere y path s (add_log (add_log w _) _)).
Qed.

(** A first run can be stopped with any prefix of the default text at
    the settings path: the states of [run_states] are all reached when
    the file can be made and written. *)
Lemma new_stops_anywhere w path y s n :
  Spec.settings_path_of w = Some path -> Spec.file_state (fs w) path = Spec.Absent ->
  YamlConfiguration.default_value = Some y -> YamlConfiguration.to_string y = Ok s ->
  OpenOptions.may_create (fs w) path = Ok tt ->
  OpenOptions.device_full (fs w) path = false ->
  n <= length (as_bytes s) ->
  partly_written path (as_bytes s) (fs w) n ∈ stopped new w.
Proof.
  intros (cli & Hcli & Hpath)%Spec.settings_path_of_inv Hst Hy Hs Hc Hf Hn.
  unfold new, layered. apply stopped_and_then_first.
  eapply stopped_quiet_later; [apply EnvironmentConfiguration.new_by_readers|].
  eapply stopped_quiet_later; [by rewrite CliConfiguration.from_args_run, Hcli|].
  eapply stopped_quiet_later; [by rewrite Spec.settings_path_run, Hpath|].
  apply stopped_and_then_first. by eapply yaml_stops_anywhere.
Qed.

(** C20: what a first run that is stopped leaves, exactly.  When
    nothing is at the settings path and the file can be made and
    written, the file systems a process stopped during
    [ServerConfiguration::new] may leave are the one of the start and
    those with the first [n] bytes of the default text at the settings
    path, for every [n] from none to all of them, and no other: each
    prefix is left by some stop, so the window in which the settings
    file is incomplete is as wide as the text. *)
Theorem first_run_stops_anywhere w path y s f :
  Spec.settings_path_of w = Some path -> Spec.file_state (fs w) path = Spec.Absent ->
  YamlConfiguration.default_value = Some y -> YamlConfiguration.to_string y = Ok s ->
  OpenOptions.may_create (fs w) path = Ok tt ->
  OpenOptions.device_full (fs w) path = false ->
  f ∈ stopped new w <->
  f = fs w \/ exists n, n <= length (as_bytes s) /\ f = partly_written path (as_bytes s) (fs w) n.
Proof.
  intros Hpath Hst Hy Hs Hc Hf. split.
  - intros [->|(path' & y' & s' & n & ? & _ & ? & ? & ? & ->)]%stopped_run_states%run_states_inv;
      [by left|right]. simplify_eq. replace s' with s in * by congruence. by exists n.
  - intros [->|(n & Hn & ->)]; [apply stopped_first|by eapply new_stops_anywhere].
Qed.

(** ** A first run on a device that fills up *)

(** [save] where nothing is, on a device with room for [n] bytes of
    the text: the file is made, holds those bytes and is closed, and
    the error of the write is returned. *)
Lemma save_device_fills self path s w n e :
  YamlConfiguration.to_string self = Ok s ->
  fs w !! path = None -> OpenOptions.may_create (fs w) path = Ok tt ->
  OpenOptions.device_full (fs w) path = false ->
  n < length (as_bytes s) ->
  denote_with (cut_short n e) (save self path) w =
  (set_fs (YamlConfiguration.announced s w) (partly_written path (as_bytes s) (fs w) n),
   Done (Err (YamlConfiguration.WriteFailed e))).
Proof.
  intros Hs Hp Hc Hf Hn. unfold save. rewrite Hs.
  do 2 (erewrite cut_quiet_then by apply log_at_run).
  cbn [and_then call denote_with cut_short]. unfold bind.
  rewrite OpenOptions_open_write_create_run. cbn [fs add_log].
  rewrite (open_write_create_absent path (fs w)) by done.
  cbn [denote_with cut_short]. unfold bind. cbn [fs hold set_fs set_handles].
  rewrite written_fresh, decide_True by done.
  cbn. by rewrite release_hold_set_fs.
Qed.

(** The [let yaml] there: the failed save is reported and the run
    exits. *)
Lemma yaml_device_fills path y s w n e :
  Spec.file_state (fs w) path = Spec.Absent ->
  YamlConfiguration.default_value = Some y -> YamlConfiguration.to_string y = Ok s ->
  OpenOptions.may_create (fs w) path = Ok tt ->
  OpenOptions.device_full (fs w) path = false ->
  n < length (as_bytes s) ->
  denote_with (cut_short n e) (yaml path) w =
  Spec.fails
    (set_fs (YamlConfiguration.announced s (LayeredServerConfiguration.warned y w))
       (partly_written path (as_bytes s) (fs w) n))
    (Spec.DefaultWriteFailed (YamlConfiguration.WriteFailed e)).
Proof.
  intros Hst Hy Hs Hc Hf Hn. pose proof (Spec.file_state_Absent _ _ Hst) as Hp.
  unfold Spec.file_state in Hst. unfold yaml.
  destruct (File.open path (fs w)) as [v|e0] eqn:Ho; [by repeat case_match|].
  erewrite cut_quiet_then by (by rewrite File_open_run, Ho). cbv beta match.
  destruct (kind e0); [|done..].
  erewrite cut_quiet_then by (by rewrite YamlConfiguration.default_run, Hy).
  do 2 (erewrite cut_quiet_then by apply log_at_run).
  erewrite cut_and_then by (by apply (save_device_fills y path s)).
  cbv beta match. by erewrite cut_quiet_then by apply log_at_run.
Qed.

(** C22: a first run on a device that fills up while the default file
    is written.  When the device has room for [n] bytes of the text of
    the default settings and no more, [save] makes the file,
    [write_all] leaves the first [n] bytes in it and returns the error
    [e] of the [write] that found the device full, and the run ends
    with [Unable to write default yaml file. This is required! Error
    is {:?}] and status 1, after the two records that say the file was
    saved.  The part that was written stays at the settings path: the
    run does not remove it. *)
Theorem first_run_device_fills w path y s n e :
  Spec.settings_path_of w = Some path -> Spec.file_state (fs w) path = Spec.Absent ->
  YamlConfiguration.default_value = Some y -> YamlConfiguration.to_string y = Ok s ->
  OpenOptions.may_create (fs w) path = Ok tt ->
  OpenOptions.device_full (fs w) path = false ->
  n < length (as_bytes s) ->
  denote_with (cut_short n e) new w =
  Spec.fails
    (set_fs (YamlConfiguration.announced s (LayeredServerConfiguration.warned y w))
       (partly_written path (as_bytes s) (fs w) n))
    (Spec.DefaultWriteFailed (YamlConfiguration.WriteFailed e)).
Proof.
  intros (cli & Hcli & Hpath)%Spec.settings_path_of_inv Hst Hy Hs Hc Hf Hn.
  unfold new, layered, Spec.fails. apply cut_and_then_exit.
  erewrite cut_quiet_then by apply EnvironmentConfiguration.new_by_readers.
  erewrite cut_quiet_then by (by rewrite CliConfiguration.from_args_run, Hcli).
  erewrite cut_quiet_then by (by rewrite Spec.settings_path_run, Hpath).
  apply cut_and_then_exit. by apply yaml_device_fills.
Qed.

(** ** Runs that do not notice the device *)

Lemma save_fits n self path w :
  (forall s, YamlConfiguration.to_string self = Ok s -> length (as_bytes s) <= n) ->
  fits n (save self path) w.
Proof.
  intros H. unfold save. destruct (YamlConfiguration.to_string self) as [s|e]; [|done].
  do 2 (apply fits_quiet_then; intros ? _ _). cbn [and_then call fits call_fits].
  split; [done|]. destruct (perform _ _) as [w1 [[v|e]| |]]; [|done..].
  split; [by apply H|]. destruct (perform _ _) as [w2 [r| |]]; [|done..].
  apply fits_quiet_then. intros. by destruct r.
Qed.

(** The [let yaml] writes when nothing is at the path, and then the
    text of the default settings. *)
Lemma yaml_fits n path w :
  Spec.file_state (fs w) path <> Spec.Absent \/ text_fits n -> fits n (yaml path) w.
Proof.
  intros H. unfold yaml. apply fits_quiet_then. intros w1 r Ho.
  rewrite File_open_run in Ho. unfold Spec.file_state in H.
  destruct (File.open path (fs w)) as [v|e]; injection Ho as <- <-.
  { apply fits_quiet_then. intros w2 [y|e] _; [done|apply fits_fatal]. }
  destruct (kind e); [|apply fits_fatal..]. destruct H as [H|H]; [done|].
  apply fits_quiet_then. intros w2 y Hy. rewrite YamlConfiguration.default_run in Hy.
  destruct YamlConfiguration.default_value as [y'|] eqn:Hy'; simplify_eq.
  do 2 (apply fits_quiet_then; intros ? _ _).
  apply fits_and_then; [apply save_fits; eauto|].
  intros w5 [[]|e'] _; [done|apply fits_fatal].
Qed.

Lemma new_fits n w :
  (forall path, Spec.settings_path_of w = Some path ->
     Spec.file_state (fs w) path <> Spec.Absent \/ text_fits n) ->
  fits n new w.
Proof.
  intros H. unfold new, layered. apply fits_and_then.
  2:{ intros w1 c _. apply fits_quiet_then. by intros. }
  apply fits_quiet_then. intros w1 env He.
  rewrite EnvironmentConfiguration.new_by_readers in He. injection He as <- <-.
  apply fits_quiet_then. intros w2 cli Hc.
  rewrite CliConfiguration.from_args_run in Hc. injection Hc as <- Hcli.
  apply fits_quiet_then. intros w3 path Hpath. rewrite Spec.settings_path_run in Hpath.
  destruct (Spec.settings_path _ _) as [path'|] eqn:Hs; [|done]. injection Hpath as <- <-.
  apply fits_and_then; [|intros; apply fits_quiet].
  apply yaml_fits, H. unfold Spec.settings_path_of. by rewrite Hcli, Hs.
Qed.

(** A run that finds something at the settings path writes nothing:
    it goes the same on a device that is full. *)
Lemma settled_run_ignores_device n e w :
  (forall path, Spec.settings_path_of w = Some path ->
     Spec.file_state (fs w) path <> Spec.Absent) ->
  denote_with (cut_short n e) new w = denote new w.
Proof. intros H. apply cut_fits, new_fits. intros path Hp. left. by apply H. Qed.

(** A device with room for the text of the default settings is not
    noticed either. *)
Lemma roomy_device n e w :
  text_fits n -> denote_with (cut_short n e) new w = denote new w.
Proof. intros H. apply cut_fits, new_fits. intros path _. by right. Qed.

(** ** The next start *)

(** What the file layer finds at a path where a first run was
    stopped: the prefix that was written, read as the settings file. *)
Lemma file_state_partly_written path bytes fs n :
  Spec.file_state (partly_written path bytes fs n) path =
  match YamlConfiguration.from_slice (take n bytes) with
  | Ok y => Spec.Parsed y
  | Err e => Spec.Corrupt e
  end.
Proof.
  unfold Spec.file_state, YamlConfiguration.decoded, partly_written.
  set (i := set_data (OpenOptions.created_file fs path) (take n bytes)).
  assert (readable i = true /\ is_dir i = false /\ fault i <> Some FaultRead) as (?&?&?).
  { unfold i, OpenOptions.created_file. by destruct (OpenOptions.device_full fs path). }
  erewrite (proj2 (open_Ok _ _ _)) by (exists i; by rewrite lookup_insert_eq).
  by rewrite (contents_file path _ i) by (done || apply lookup_insert_eq).
Qed.

(** The [let yaml] of a start that finds such a file: the prefix is
    the settings file, and nothing is written. *)
Lemma yaml_of_prefix w path bytes n :
  let f := partly_written path bytes (fs w) n in
  LayeredServerConfiguration.yaml path (set_fs w f) =
  match YamlConfiguration.from_slice (take n bytes) with
  | Ok y' => (set_fs w f, Done y')
  | Err e => Spec.fails (set_fs w f) (Spec.SettingsCorrupt e)
  end.
Proof.
  intros f. rewrite Spec.yaml_file_layer. unfold Spec.file_layer. cbn [fs set_fs].
  unfold f. rewrite file_state_partly_written.
  by destruct (YamlConfiguration.from_slice _).
Qed.

(** The whole text decodes to the default settings. *)
Lemma whole_default_decodes y s :
  YamlConfiguration.default_value = Some y -> YamlConfiguration.to_string y = Ok s ->
  YamlConfiguration.from_slice (take (length (as_bytes s)) (as_bytes s)) = Ok y.
Proof.
  intros Hy Hs. rewrite firstn_all.
  by apply YamlConfiguration.from_slice_to_string; [apply YamlConfiguration.default_value_wf|].
Qed.

(** C21: the start after a first run that was stopped once the file was
    made.  The file at the settings path holds the first [n] bytes of
    the default text, and the next run takes them for the settings
    file: it does not write the default again.  When the prefix is no
    settings document the run ends with [Unable to read yaml file.
    Reason is {:?}] and status 1, and so does every later one until the
    file is removed by hand; when it is one, its settings are the file
    layer, whether or not they are the default ones. *)
Theorem stopped_run_restarts w f :
  f ∈ stopped new w -> f <> fs w ->
  exists path y s n,
    Spec.settings_path_of w = Some path /\
    YamlConfiguration.default_value = Some y /\ YamlConfiguration.to_string y = Ok s /\
    n <= length (as_bytes s) /\ f = partly_written path (as_bytes s) (fs w) n /\
    match YamlConfiguration.from_slice (take n (as_bytes s)) with
    | Ok y' => LayeredServerConfiguration.yaml path (set_fs w f) = (set_fs w f, Done y')
    | Err e =>
        ServerConfiguration.new (set_fs w f) =
        Spec.fails (set_fs w f) (Spec.SettingsCorrupt e)
    end.
Proof.
  intros [->|(path & y & s & n & Hpath & _ & Hy & Hs & Hn & ->)]%stopped_run_states%run_states_inv
    Hne; [done|].
  exists path, y, s, n. split_and!; [done..|].
  pose proof (yaml_of_prefix w path (as_bytes s) n) as Hr. cbv zeta in Hr.
  destruct (YamlConfiguration.from_slice _) as [y'|e]; [done|].
  apply Spec.new_fails, (Properties.layered_file_fails _ path);
    [by rewrite Properties.settings_path_of_set_fs|by rewrite <- Spec.yaml_file_layer].
Qed.

End WithCollaborators.

End Crash.
