(* ===== verification/Scenarios.v ===== *)
(** * Scenarios

    The theorems of the development applied to concrete worlds, over
    the reference instances of the interfaces: the first run of the
    specification's section 8, a steady state, a corrupt and an
    unreadable settings file, a directory that cannot hold the default
    file, a device that takes no more data, a key file whose metadata
    cannot be read, a settings path set to the empty string, a world
    with a variable and a file the run
    does not read, a process that starts again with its log kept, an
    operator who installs a settings file while the server starts, a
    first run that is stopped after forty bytes of the default file
    and one whose device fills up there, the default text written
    three bytes at a time.  Every hypothesis is discharged by
    evaluation. *)

From Stdlib Require Import ZArith Lia.
From Stdlib.Strings Require Import Byte Ascii String.
From stdpp Require Import base tactics option list relations gmap strings.
From S2P Require Import Prelude Numbers Fmt Collaborators FileSystem World.
From S2P Require Import Environment Cli Yaml YamlText Samples Layered Server Spec.
From S2P Require Import Footprint Race Machine Properties Inputs Calls Crash.

#[local] Open Scope string_scope.

Module Scenarios.

Import Spec Samples.

#[local] Existing Instance RefUrl.
#[local] Existing Instance RefKey.
#[local] Existing Instance RefStd.
#[local] Existing Instance YamlText.RefCodec.
#[local] Existing Instance anyhow_debug.

(** Closes a case in which a computation that returns is assumed not
    to: [E] equates the computation with a result that is not [Done]. *)
Ltac returns E :=
  exfalso;
  match type of E with
  | ?r = (_, _) =>
      let H := fresh in
      assert (is_done (outcome_of r) = true) as H by reflexivity;
      rewrite E in H; discriminate H
  | ?r = _ =>
      let H := fresh in
      assert (is_done r = true) as H by reflexivity;
      rewrite E in H; discriminate H
  end.

(** ** More sample data *)

(** A command line that names the settings file and nothing else. *)
Definition cli_path_only : CliConfiguration.t :=
  {| CliConfiguration.server_addr := None;
     CliConfiguration.database_addr := None;
     CliConfiguration.authkey_path := None;
     CliConfiguration.session_expiration := None;
     CliConfiguration.configuration_path := Some settings_file |}.

Lemma cli_path_only_wf : CliConfiguration.wf cli_path_only.
Proof. by intros v. Qed.

Definition path_only : CliConfiguration.ArgParser :=
  CliConfiguration.fixed_parser cli_path_only cli_path_only_wf.

(** The text of the default settings. *)
Definition default_text : string := YamlText.print default_settings.

(** A settings file its owner may not read. *)
Definition unreadable : FileSystem :=
  <[settings_file := {| is_dir := false; readable := false; writable := true;
                        data := as_bytes settings_text; fault := None |}]> fresh.

(** A key file whose metadata cannot be read. *)
Definition stat_fault : FileSystem :=
  <["/etc/key.pem" := faulty FaultStat key_pem]> configured.

(** A settings file longer than the text of [yaml_empty]. *)
Definition overgrown : Inode :=
  file (settings_text ++ "# written by an earlier version of the server").

(** Environments with a lifetime. *)
Definition env_lifetime (text : string) : gmap string OsString :=
  <["MAELSTROM_SESSION_EXPIRATION" := Unicode text]> env_full.

(** ** The environment layer *)

Lemma new_reads_lifetime_witness :
  exists c, EnvironmentConfiguration.new (world (env_lifetime "86400") fresh) =
              (world (env_lifetime "86400") fresh, Done c) /\
            EnvironmentConfiguration.session_expiration c = Some 86400%Z.
Proof.
  apply (EnvironmentConfiguration.new_reads_lifetime
           (world (env_lifetime "86400") fresh) 86400); [by compute|reflexivity].
Defined.

Lemma new_malformed_is_absent_witness :
  outcome_of (EnvironmentConfiguration.new (world (env_lifetime "an hour") fresh)) =
  outcome_of (EnvironmentConfiguration.new (world env_full fresh)).
Proof.
  apply (EnvironmentConfiguration.new_malformed_is_absent _ _
           "MAELSTROM_SESSION_EXPIRATION" (Unicode "an hour")).
  - right. right. split; reflexivity.
  - reflexivity.
  - reflexivity.
Defined.

Lemma new_refuses_overflowing_lifetime_witness :
  exists c,
    EnvironmentConfiguration.new (world (env_lifetime "18446744073709551616") fresh) =
      (world (env_lifetime "18446744073709551616") fresh, Done c) /\
    EnvironmentConfiguration.session_expiration c = None.
Proof.
  apply (EnvironmentConfiguration.new_refuses_overflowing_lifetime
           (world (env_lifetime "18446744073709551616") fresh)
           "18446744073709551616").
  - unfold all_digits. cbn. repeat constructor; by eexists.
  - by compute.
  - reflexivity.
Defined.

Lemma new_lifetime_spec_witness :
  let w := world (env_lifetime "+60") fresh in
  (exists c, EnvironmentConfiguration.new w = (w, Done c) /\
             EnvironmentConfiguration.session_expiration c = Some 60%Z) <->
  denotes "+60" 60.
Proof.
  intros w. apply (EnvironmentConfiguration.new_lifetime_spec w "+60" 60). reflexivity.
Defined.

(** ** The command line *)

Lemma reference_path_needs_all_witness :
  let a := ["https://cli.example"; "postgres://db.internal"; "/etc/key.pem"; "600";
            "/etc/maelstrom.yaml"] in
  exists c, CliConfiguration.reference_parse a = Done c /\
    is_Some (CliConfiguration.server_addr c) /\
    is_Some (CliConfiguration.database_addr c) /\
    is_Some (CliConfiguration.authkey_path c) /\
    is_Some (CliConfiguration.session_expiration c).
Proof.
  intros a. destruct (CliConfiguration.reference_parse a) as [c| |] eqn:E.
  - exists c. split; [done|].
    apply (CliConfiguration.reference_path_needs_all a c E).
    assert (match CliConfiguration.reference_parse a with
            | Done c => CliConfiguration.configuration_path c
            | _ => None
            end = Some "/etc/maelstrom.yaml") as H by reflexivity.
    rewrite E in H. by rewrite H.
  - returns E.
  - returns E.
Defined.

Lemma reference_malformed_exits_witness :
  CliConfiguration.reference_parse
    ["https://cli.example"; "postgres://db.internal"; "/etc/key.pem"; "an hour"] =
  Exit 1.
Proof.
  apply (CliConfiguration.reference_malformed_exits _ "an hour"); reflexivity.
Defined.

(** ** The settings file *)

Lemma save_keeps_tail_witness :
  let w := world ∅ (<[settings_file := overgrown]> fresh) in
  exists w', YamlConfiguration.save yaml_empty settings_file w = (w', Done (Ok tt)) /\
    data <$> fs w' !! settings_file =
      Some (as_bytes (YamlText.print yaml_empty) ++
            drop (List.length (as_bytes (YamlText.print yaml_empty))) (data overgrown))%list /\
    contents (fs w') settings_file <> Ok (as_bytes (YamlText.print yaml_empty)).
Proof.
  intros w.
  apply (YamlConfiguration.save_keeps_tail yaml_empty settings_file
           (YamlText.print yaml_empty) overgrown w); try reflexivity.
  - by intros [=].
  - vm_compute. lia.
Defined.

Lemma save_announces_before_writing_witness :
  let w := world ∅ locked in
  exists w', YamlConfiguration.save yaml_empty settings_file w =
               (w', Done (Err (YamlConfiguration.OpenFailed EACCES))) /\
    fs w' = fs w /\
    log w' = (log w ++ [ {| level := Info; format := "Saved yaml configuration file";
                            arguments := [] |};
                         {| level := Debug; format := "Saved yaml looks like: {:?}";
                            arguments := [fmt.debug (YamlText.print yaml_empty)] |} ])%list.
Proof.
  intros w.
  apply (YamlConfiguration.save_announces_before_writing yaml_empty settings_file
           (YamlText.print yaml_empty) EACCES w); reflexivity.
Defined.

(** ** The merge *)

Lemma merge_wf_witness :
  exists w' c,
    LayeredServerConfiguration.merge env_layer_database cli_scenario yaml_lifetime
      first_run = (w', Done c) /\
    LayeredServerConfiguration.wf c.
Proof.
  destruct (LayeredServerConfiguration.merge env_layer_database cli_scenario
              yaml_lifetime first_run) as [w' [c| |]] eqn:E.
  - exists w', c. split; [done|].
    apply (LayeredServerConfiguration.merge_wf env_layer_database cli_scenario
             yaml_lifetime first_run w' c).
    + apply EnvironmentConfiguration.of_env_wf.
    + apply cli_scenario_wf.
    + intros v. cbn. intros [= <-]. by compute.
    + exact E.
  - returns E.
  - returns E.
Defined.

(** ** The key file *)

Lemma authkey_stat_failure_panics_witness :
  ServerConfiguration.authkey_of "/etc/key.pem" (world env_full stat_fault) =
  (hold "/etc/key.pem" (world env_full stat_fault), Panic Unimplemented).
Proof.
  apply (Properties.authkey_stat_failure_panics "/etc/key.pem"
           {| File.path := "/etc/key.pem"; File.pos := 0 |} EIO); reflexivity.
Defined.

Lemma authkey_of_content_witness :
  ServerConfiguration.authkey_of "/etc/key.pem" first_run =
  (first_run, Done (as_bytes key_pem)).
Proof.
  rewrite (Properties.authkey_of_content "/etc/key.pem"
             {| File.path := "/etc/key.pem"; File.pos := 0 |}
             (Z.of_nat (List.length (as_bytes key_pem))) (as_bytes key_pem) first_run)
    by reflexivity.
  reflexivity.
Defined.

(** ** Runs with the command line of the scenario *)

Section Scenario.
#[local] Existing Instance scenario_parser.

Lemma new_idempotent_witness :
  exists w' s, ServerConfiguration.new first_run = (w', Done s) /\
               ServerConfiguration.new w' = (w', Done s).
Proof.
  destruct (ServerConfiguration.new first_run) as [w' [s| |]] eqn:E.
  - exists w', s. split; [done|]. by apply (Properties.new_idempotent first_run).
  - returns E.
  - returns E.
Defined.

Lemma new_exit_is_reported_witness :
  let w' := world_of (ServerConfiguration.new broken) in
  CliConfiguration.parse_args (args broken) = Exit 1 \/
  (1 = 1 /\
   exists f, last (log w') = Some (fatal_record f) /\
     forall g, last (log w') = Some (fatal_record g) -> same_condition f g = true)%Z.
Proof.
  intros w'. apply (Properties.new_exit_is_reported broken w' 1). reflexivity.
Defined.

Lemma new_exit_line_witness :
  let w' := world_of (ServerConfiguration.new broken) in
  CliConfiguration.parse_args (args broken) = Exit 1 \/
  exists f, render <$> last (log w') =
    Some match fatal_arguments f with
         | [] => fatal_message f
         | a :: _ => fmt.before_hole (fatal_message f) ++ a
         end.
Proof.
  intros w'. apply (Properties.new_exit_line broken w' 1). reflexivity.
Defined.

(** The last line of the log of a run on a corrupt settings file. *)
Example broken_line :
  render <$> last (log (world_of (ServerConfiguration.new broken))) =
  Some "Unable to read yaml file. Reason is Syntax".
Proof. reflexivity. Qed.

Lemma new_keeps_log_wf_witness :
  log_wf (world_of (ServerConfiguration.new first_run)).
Proof. apply (Properties.new_keeps_log_wf first_run). by apply Forall_nil. Defined.

Lemma new_panic_causes_witness :
  let w := world env_full stat_fault in
  let w' := world_of (ServerConfiguration.new w) in
  (w' = w /\ CliConfiguration.parse_args (args w) = Panic Unimplemented) \/
  (w' = w /\ Unimplemented = UnwrapFailed /\ YamlConfiguration.default_value = None) \/
  (Unimplemented = Unimplemented /\
   exists w1 c v e,
     LayeredServerConfiguration.new w = (w1, Done c) /\
     File.open (LayeredServerConfiguration.authkey_path c) (fs w1) = Ok v /\
     File.metadata_len v (fs w1) = Err e /\
     key_state (fs w1) (LayeredServerConfiguration.authkey_path c) = KeyStatFailed /\
     w' = hold (LayeredServerConfiguration.authkey_path c) w1).
Proof.
  intros w w'. apply (Properties.new_panic_causes w w' Unimplemented). reflexivity.
Defined.

(** A settings file that sets only the lifetime, a command line that
    names only the file, an environment with the database address: no
    layer has the server address. *)
Lemma required_missing_is_fatal_witness :
  ServerConfiguration.new (cli_parser := path_only) (world env_database configured) =
  fails (world env_database configured) (RequiredMissing ServerAddress).
Proof.
  by apply (Properties.required_missing_is_fatal (cli_parser := path_only)
              (world env_database configured) cli_path_only settings_file yaml_lifetime
              ServerAddress).
Defined.

(** A key path at which nothing is. *)
Lemma authkey_open_failure_is_fatal_witness :
  ServerConfiguration.authkey_of "/etc/absent.pem" steady =
  fails steady (KeyOpenFailed ENOENT).
Proof. by apply (Properties.authkey_open_failure_is_fatal "/etc/absent.pem" ENOENT steady). Defined.

(** A key path that names a directory: it opens, and cannot be read. *)
Lemma authkey_read_failure_is_fatal_witness :
  ServerConfiguration.authkey_of "/etc" steady =
  fails (hold "/etc" steady) (KeyReadFailed EISDIR).
Proof.
  by apply (Properties.authkey_read_failure_is_fatal "/etc"
              {| File.path := "/etc"; File.pos := 0 |} 0%Z EISDIR steady).
Defined.

Lemma corrupt_settings_are_fatal_witness :
  ServerConfiguration.new broken =
  fails broken (SettingsCorrupt (codec := YamlText.RefCodec) YamlText.Syntax).
Proof.
  apply (Properties.corrupt_settings_are_fatal (codec := YamlText.RefCodec)
           broken settings_file YamlText.Syntax);
    reflexivity.
Defined.

Lemma inaccessible_settings_are_fatal_witness :
  ServerConfiguration.new (world env_full unreadable) =
  fails (world env_full unreadable) (SettingsInaccessible EACCES).
Proof.
  apply (Properties.inaccessible_settings_are_fatal (world env_full unreadable)
           settings_file EACCES);
    reflexivity.
Defined.

Lemma unwritable_default_is_fatal_witness :
  ServerConfiguration.new (world env_full locked) =
  fails (YamlConfiguration.announced default_text
           (LayeredServerConfiguration.warned default_settings (world env_full locked)))
        (DefaultWriteFailed (YamlConfiguration.OpenFailed EACCES)).
Proof.
  apply (Properties.unwritable_default_is_fatal (world env_full locked) settings_file
           default_settings default_text EACCES);
    reflexivity.
Defined.

(** [/etc] on a device that takes no more data. *)
Definition full_disk : FileSystem :=
  <["/etc" := {| is_dir := true; readable := true; writable := true; data := [];
                 fault := Some FaultWrite |}]> fresh.

Lemma failed_first_run_blocks_restart_witness :
  let w := world env_full full_disk in
  let r := fails (A := ServerConfiguration.t)
             (stranded settings_file default_settings default_text w)
             (DefaultWriteFailed (YamlConfiguration.WriteFailed EIO)) in
  ServerConfiguration.new w = r /\
  fs (world_of r) = <[settings_file := full_file]> (fs w) /\
  ServerConfiguration.new (world_of r) =
    fails (world_of r) (SettingsCorrupt (codec := YamlText.RefCodec) YamlText.Syntax).
Proof.
  apply (Properties.failed_first_run_blocks_restart (codec := YamlText.RefCodec)
           (world env_full full_disk) settings_file default_settings default_text
           YamlText.Syntax); reflexivity.
Defined.

Lemma empty_settings_path_is_fatal_witness :
  let w := world (<["MAELSTROM_CONF_PATH" := Unicode ""]> env_database) fresh in
  CliConfiguration.configuration_path cli_scenario = Some settings_file /\
  ServerConfiguration.new w =
  fails (YamlConfiguration.announced default_text
           (LayeredServerConfiguration.warned default_settings w))
        (DefaultWriteFailed (YamlConfiguration.OpenFailed ENOENT)).
Proof.
  intros w. split; [reflexivity|].
  apply (Properties.empty_settings_path_is_fatal w cli_scenario default_settings
           default_text); reflexivity.
Defined.

Lemma first_run_writes_default_witness :
  fs (world_of (ServerConfiguration.new first_run)) =
  <[settings_file := YamlConfiguration.file_with (as_bytes default_text)]> (fs first_run).
Proof.
  apply (Properties.first_run_writes_default first_run settings_file
           default_settings default_text);
    reflexivity.
Defined.

Lemma first_run_lifetime_witness :
  exists c,
    LayeredServerConfiguration.new first_run =
      (created settings_file default_settings default_text first_run, Done c) /\
    LayeredServerConfiguration.session_expiration c = Duration.from_secs 3000.
Proof.
  apply (Properties.first_run_lifetime first_run cli_scenario settings_file
           default_settings default_text);
    reflexivity.
Defined.

Lemma new_keeps_tree_shape_witness :
  tree_shaped (fs (world_of (ServerConfiguration.new first_run))).
Proof.
  apply (Properties.new_keeps_tree_shape first_run).
  apply (bool_decide_unpack _). vm_compute. exact I.
Defined.

(** ** The machine on the first run *)

Lemma only_yaml_writes_witness :
  let p := Machine.HavePath env_layer_database cli_scenario settings_file in
  let s' := Machine.run 1 (first_run, p) in
  fs s'.1 = fs first_run \/
  exists env cli path, p = Machine.HavePath env cli path /\
    fs first_run !! path = None /\
    forall q, q <> path -> fs s'.1 !! q = fs first_run !! q.
Proof.
  intros p s'. apply (Machine.only_yaml_writes first_run p s'.1 s'.2).
  apply Machine.step_next. reflexivity.
Defined.

Lemma reachable_invariant_witness :
  Machine.invariant first_run (Machine.run 6 (first_run, Machine.Start)).
Proof.
  apply (Machine.reachable_invariant first_run). apply Machine.run_steps.
Defined.

Lemma reachable_finishes_witness :
  let s := Machine.run 3 (first_run, Machine.Start) in
  rtc Machine.step s (Machine.run 6 (first_run, Machine.Start)) /\
  nf Machine.step (Machine.run 6 (first_run, Machine.Start)).
Proof.
  intros s. apply (Machine.reachable_finishes first_run s). apply Machine.run_steps.
Defined.

(** ** The regular start *)

Lemma regular_start_witness :
  match resolve [of_environment (EnvironmentConfiguration.of_env env_full);
                 of_cli cli_scenario; of_yaml yaml_lifetime] with
  | Ok c =>
      ServerConfiguration.new steady =
      (steady,
       Done {| ServerConfiguration.server_addr := LayeredServerConfiguration.server_addr c;
               ServerConfiguration.database_addr :=
                 LayeredServerConfiguration.database_addr c;
               ServerConfiguration.authkey := as_bytes key_pem;
               ServerConfiguration.session_expiration :=
                 LayeredServerConfiguration.session_expiration c |})
  | Err _ => False
  end.
Proof.
  assert (LayeredServerConfiguration.authkey_path <$>
            ok (resolve [of_environment (EnvironmentConfiguration.of_env env_full);
                         of_cli cli_scenario; of_yaml yaml_lifetime]) =
          Some "/etc/key.pem") as Hp by reflexivity.
  destruct (resolve _) as [c|f] eqn:E; [|discriminate Hp].
  injection Hp as Hp.
  apply (Properties.regular_start (keys := RefKey) steady cli_scenario settings_file
           yaml_lifetime c (as_bytes key_pem)); [reflexivity..|exact E|].
  rewrite Hp. reflexivity.
Defined.

Lemma returned_world_witness :
  exists w' s, ServerConfiguration.new first_run = (w', Done s) /\
    (w' = first_run \/
     exists path y text,
       settings_path_of first_run = Some path /\
       file_state (fs first_run) path = Absent /\
       YamlConfiguration.default_value = Some y /\
       YamlConfiguration.to_string y = Ok text /\
       w' = created path y text first_run).
Proof.
  destruct (ServerConfiguration.new first_run) as [w' [s| |]] eqn:E.
  - exists w', s. split; [done|]. by apply (Properties.returned_world first_run w' s).
  - returns E.
  - returns E.
Defined.

End Scenario.

(** ** Runs with a command line that names the settings file only *)

Section PathOnly.
#[local] Existing Instance path_only.

Lemma first_run_placeholders_witness :
  exists c,
    LayeredServerConfiguration.new (world ∅ fresh) =
      (created settings_file default_settings default_text (world ∅ fresh), Done c) /\
    url_parse "https://example.net" = Some (LayeredServerConfiguration.server_addr c).
Proof.
  apply (Properties.first_run_placeholders (world ∅ fresh) cli_path_only settings_file
           default_settings default_text);
    reflexivity.
Defined.

End PathOnly.

(** ** Runs with an empty command line *)

Section NoArguments.
#[local] Existing Instance no_arguments.

Lemma missing_settings_path_is_fatal_witness :
  ServerConfiguration.new first_run = fails first_run SettingsPathMissing.
Proof.
  apply (Properties.missing_settings_path_is_fatal first_run cli_empty);
    reflexivity.
Defined.

End NoArguments.

(** ** What a run reads *)

(** The steady state with one more variable and one more file. *)
Definition elsewhere : World :=
  world (<["HOME" := Unicode "/root"]> env_full)
        (<["/var/log/maelstrom.log" := file "started"]> configured).

(** The paths the steady state reads. *)
Example steady_paths_read :
  paths_read (cli_parser := no_arguments) steady =
  {[ "/etc/maelstrom.yaml"; "/etc"; "/etc/key.pem" ]}.
Proof. reflexivity. Qed.

(** The same after an earlier start of the process left its record in
    the log. *)
Definition restarted : World :=
  add_log elsewhere {| level := Info; format := "Starting"; arguments := [] |}.

Lemma new_function_of_inputs_witness :
  let r1 := ServerConfiguration.new (cli_parser := no_arguments) steady in
  let r2 := ServerConfiguration.new (cli_parser := no_arguments) restarted in
  outcome_of r1 = outcome_of r2 /\
  fs_agree (paths_read (cli_parser := no_arguments) steady)
    (fs (world_of r1)) (fs (world_of r2)) /\
  exists l h,
    log (world_of r1) = (log steady ++ l)%list /\
    log (world_of r2) = (log restarted ++ l)%list /\
    handles (world_of r1) = (h ++ handles steady)%list /\
    handles (world_of r2) = (h ++ handles restarted)%list.
Proof.
  apply (Inputs.new_function_of_inputs (cli_parser := no_arguments) steady restarted).
  rewrite steady_paths_read. apply (bool_decide_unpack _). vm_compute. exact I.
Defined.

Lemma new_frame_witness :
  ("/var/log/maelstrom.log" ∉ paths_read (cli_parser := no_arguments) steady) /\
  (let r := ServerConfiguration.new (cli_parser := no_arguments) steady in
   let r' := ServerConfiguration.new (cli_parser := no_arguments)
               (set_fs steady (<["/var/log/maelstrom.log" := file "started"]> (fs steady))) in
   outcome_of r' = outcome_of r /\ log (world_of r') = log (world_of r) /\
   fs (world_of r') = <["/var/log/maelstrom.log" := file "started"]> (fs (world_of r))).
Proof.
  assert ("/var/log/maelstrom.log" ∉ paths_read (cli_parser := no_arguments) steady)
    as H by (rewrite steady_paths_read; apply (bool_decide_unpack _); vm_compute; exact I).
  split; [exact H|]. apply (Properties.new_frame (cli_parser := no_arguments)), H.
Defined.

(** ** A competing writer *)

(** The settings an operator installs while the server starts for the
    first time. *)
Definition operator_text : string :=
  YamlText.field "server_addr" (YamlText.quote "https://maelstrom.example.org/")
 (YamlText.field "database_addr" (YamlText.quote "postgres://db.example.org/maelstrom")
 (YamlText.field "authkey_path" (YamlText.quote "/etc/maelstrom/keys/signing.pem")
 (YamlText.field "session_expiration" "86400" ""))).

Definition operator (fs : FileSystem) : FileSystem :=
  <[settings_file := file operator_text]> fs.

(** What the operator wrote is a settings document. *)
Example operator_text_decodes :
  is_ok (YamlConfiguration.decoded (operator fresh) settings_file) = true.
Proof. reflexivity. Qed.

Lemma raced_default_overwrites_witness :
  Race.yaml_raced operator settings_file first_run =
  (set_fs (YamlConfiguration.announced default_text
             (LayeredServerConfiguration.warned default_settings first_run))
     (<[settings_file :=
          set_data (file operator_text)
            (as_bytes default_text ++
             drop (List.length (as_bytes default_text)) (as_bytes operator_text))%list]>
        (operator fresh)),
   Done default_settings).
Proof.
  apply (Race.raced_default_overwrites operator settings_file ENOENT default_settings
           default_text (file operator_text) first_run); try reflexivity.
  by intros [=].
Defined.

(** After the race the file is neither the default settings nor the
    operator's: the next start cannot read it. *)
Example raced_file_is_corrupt :
  YamlConfiguration.decoded
    (fs (world_of (Race.yaml_raced operator settings_file first_run))) settings_file =
  Err YamlText.Syntax.
Proof. reflexivity. Qed.

Lemma raced_twin_is_harmless_witness :
  Race.yaml_raced (Race.twin settings_file default_text) settings_file first_run =
  LayeredServerConfiguration.yaml settings_file first_run.
Proof.
  by apply (Race.raced_twin_is_harmless settings_file ENOENT default_settings default_text
              first_run).
Defined.

(** ** A first run that is stopped *)

(** The file system of the first run, stopped when [n] bytes of the
    default file were written. *)
Definition torn_at (n : nat) : FileSystem :=
  Crash.partly_written settings_file (as_bytes default_text) (fs first_run) n.

(** The first run can be stopped there. *)
Lemma first_run_torn n :
  n <= List.length (as_bytes default_text) ->
  torn_at n ∈ Calls.stopped (Crash.new (cli_parser := scenario_parser)) first_run.
Proof.
  intros Hn.
  by apply (Crash.new_stops_anywhere (cli_parser := scenario_parser) first_run
              settings_file default_settings default_text n).
Qed.

Lemma torn_at_changed n : torn_at n <> fs first_run.
Proof.
  intros H. apply (f_equal (fun f => is_Some (f !! settings_file))) in H.
  assert (is_Some (torn_at n !! settings_file)) as Hs
    by (unfold torn_at, Crash.partly_written; rewrite lookup_insert_eq; eauto).
  rewrite H in Hs. by destruct Hs.
Qed.

Lemma first_run_stops_anywhere_witness :
  torn_at 40 ∈ Calls.stopped (Crash.new (cli_parser := scenario_parser)) first_run <->
  torn_at 40 = fs first_run \/
  exists n, n <= List.length (as_bytes default_text) /\
    torn_at 40 = Crash.partly_written settings_file (as_bytes default_text) (fs first_run) n.
Proof.
  by apply (Crash.first_run_stops_anywhere (cli_parser := scenario_parser) first_run
              settings_file default_settings default_text (torn_at 40)).
Defined.

Lemma stopped_run_leaves_witness :
  torn_at 40 = fs first_run \/
  exists path y s n,
    settings_path_of (cli_parser := scenario_parser) first_run = Some path /\
    fs first_run !! path = None /\
    YamlConfiguration.default_value = Some y /\ YamlConfiguration.to_string y = Ok s /\
    n <= List.length (as_bytes s) /\
    torn_at 40 = Crash.partly_written path (as_bytes s) (fs first_run) n.
Proof.
  apply (Crash.stopped_run_leaves (cli_parser := scenario_parser) first_run (torn_at 40)).
  apply first_run_torn. apply Nat.leb_le. reflexivity.
Defined.

Lemma stopped_run_restarts_witness :
  exists path y s n,
    settings_path_of (cli_parser := scenario_parser) first_run = Some path /\
    YamlConfiguration.default_value = Some y /\ YamlConfiguration.to_string y = Ok s /\
    n <= List.length (as_bytes s) /\
    torn_at 40 = Crash.partly_written path (as_bytes s) (fs first_run) n /\
    match YamlConfiguration.from_slice (take n (as_bytes s)) with
    | Ok y' =>
        LayeredServerConfiguration.yaml path (set_fs first_run (torn_at 40)) =
        (set_fs first_run (torn_at 40), Done y')
    | Err e =>
        ServerConfiguration.new (cli_parser := scenario_parser)
          (set_fs first_run (torn_at 40)) =
        fails (set_fs first_run (torn_at 40)) (SettingsCorrupt e)
    end.
Proof.
  apply (Crash.stopped_run_restarts (cli_parser := scenario_parser) first_run (torn_at 40)).
  - apply first_run_torn. apply Nat.leb_le. reflexivity.
  - apply torn_at_changed.
Defined.

(** The first run on a device with room for forty bytes of the
    default text. *)
Lemma first_run_device_fills_witness :
  Calls.denote_with (Calls.cut_short 40 EIO) (Crash.new (cli_parser := scenario_parser))
    first_run =
  fails
    (set_fs (YamlConfiguration.announced default_text
               (LayeredServerConfiguration.warned default_settings first_run))
       (torn_at 40))
    (DefaultWriteFailed (YamlConfiguration.WriteFailed EIO)).
Proof.
  apply (Crash.first_run_device_fills (cli_parser := scenario_parser) first_run
           settings_file default_settings default_text 40 EIO); try reflexivity.
  apply Nat.ltb_lt. reflexivity.
Defined.

(** Forty bytes of the default text are no settings document: the
    start after such a stop ends with [Unable to read yaml file]. *)
Example torn_default_is_corrupt :
  YamlConfiguration.decoded (torn_at 40) settings_file = Err YamlText.Syntax.
Proof. reflexivity. Qed.

(** Nor is any shorter start of it: with this codec a first run
    stopped before the last byte is written leaves a file that ends
    the next start, whichever byte it was stopped at. *)
Lemma torn_default_blocks_restart n :
  n < List.length (as_bytes default_text) ->
  ServerConfiguration.new (cli_parser := scenario_parser) (set_fs first_run (torn_at n)) =
  fails (set_fs first_run (torn_at n)) (SettingsCorrupt YamlText.Syntax).
Proof.
  intros Hn. apply new_fails, (Properties.layered_file_fails _ settings_file); [done|].
  rewrite <- yaml_file_layer. unfold torn_at.
  rewrite (Crash.yaml_of_prefix first_run settings_file (as_bytes default_text) n).
  cbn [YamlConfiguration.from_slice YamlText.RefCodec].
  by rewrite (YamlText.from_slice_cut _ n default_settings).
Qed.

(** The whole text is one: a run stopped after the write finds the
    default settings at the next start. *)
Example written_default_is_read :
  YamlConfiguration.decoded (torn_at (List.length (as_bytes default_text))) settings_file =
  Ok default_settings.
Proof. reflexivity. Qed.

(** The text of the default settings, written three bytes at a
    time. *)
Lemma write_all_loop_ends_witness :
  let v := {| File.path := settings_file; File.pos := 0 |} in
  let fs1 := <[settings_file := new_file]> fresh in
  File.write_all_loop (List.length (as_bytes default_text)) (fun _ => 3) v
    (as_bytes default_text) fs1 =
  Some (File.write_all v (as_bytes default_text) fs1).
Proof. intros v fs1. apply write_all_loop_ends. apply Nat.le_refl. Defined.

End Scenarios.
